(* ===== verification/_CoqProject ===== *)
-Q . S2P
Prelude.v
GoFloat.v
GoStrings.v
Types.v
K8s.v
Config.v
Loader.v
Helpers.v
Registry.v
Mig.v
Manager.v
Strategy.v
Binpack.v
Fifo.v
GangMultiPod.v
Routing.v
Allocator.v
GangCollector.v
Queue.v
Preemption.v
Rebalancer.v
Router.v
Watcher.v
Scenario.v
Disagg.v
Placement.v
Progress.v
Lifecycle.v
Cycle.v
Recovery.v
Safety.v
Http.v
Pressure.v
Proxy.v
ProxyServer.v
EventBus.v
LogBuffer.v
Extender.v
Injector.v
Webhook.v
Discoverer.v
Workers.v
Scaling.v
Sync.v
Feedback.v
Fleet.v
Dashboard.v
Nvml.v
GangTest.v
Agent.v
Reporter.v
Executor.v
Startup.v
Lifetime.v
Benchmark.v
Process.v
Shutdown.v
Routes.v
Devices.v
Informers.v
