(* ===== verification/Prelude.v ===== *)
(** * gpu-scheduler: a verification development

    This library models the core of gpu-scheduler, a Kubernetes scheduler for
    GPU workloads written in Go, and proves what its components promise.

    ** The program

    Agents on the nodes report their GPUs ([internal/agent]) to a registry that
    also holds the scheduler's own reservations ([internal/gpu/registry.go]).
    A watcher ([internal/scheduler/watcher.go]) polls the Kubernetes API: it
    orders the pending pods by priority, separates gangs from single pods, picks
    devices with a placement strategy ([internal/allocator]) or with the routing
    between MIG slices and full GPUs, reserves the devices, annotates and binds
    the pods, evicts lower-priority pods when nothing fits
    ([internal/scheduler/preemption.go]) and releases reservations when pods end.
    The allocator's manager finds its GPUs through a discoverer: the Kubernetes
    API when the watcher runs ([internal/gpu/k8s_discoverer.go]), nvidia-smi or a
    mock otherwise.  In extender mode there is no watcher: the stock scheduler
    calls an extender ([internal/scheduler/extender.go]) over the same allocator.
    A webhook
    ([webhook.go]) gives shared pods access to their devices when they are created.
    A proxy ([internal/proxy]) routes inference requests to workers and measures
    the pressure on them; a rebalancer decides from its reports when to add or
    remove workers ([internal/scheduler/rebalancer.go]), and a tick in
    [cmd/scheduler/main.go] carries that out, draining a pod before it is removed.
    A dashboard ([internal/dashboard]) shows and changes all of this over HTTP.

    ** The files

    - [Prelude] (this file): Go's 64-bit integers, results and panics, map
      iteration orders, [sort.Slice], and the shared lemmas and tactics;
      [GoFloat]: [float64] as the Standard Library's IEEE specification floats;
      [GoStrings]: [strconv] and [strings] on byte strings.
    - [Types]: the data types of [pkg/types], [pkg/controlplane] and
      [internal/agent/types.go]; [K8s]: the fields of a pod the code reads.
    - [Config]: [internal/config/config.go]; [Loader]: [loader.go] over the class
      [Viper], whose laws are [ViperLaws].  [Helpers]: the annotation readers
      of [internal/scheduler/helpers.go].
    - [Registry]: [internal/gpu/registry.go], its state as the record [Registry]
      with the five maps of the struct, one definition per method, and a
      transition system ([reg_op], [reg_reachable]) over the methods that write;
      [Mig]: who holds which MIG instance.
    - [Manager]: [internal/gpu/manager.go] and the mock discoverer of
      [nvml.go], behind the interface [GPUDiscoverer]; [Nvml]: the rest of
      [nvml.go], with the parser of nvidia-smi's output.
    - [Strategy]: the interface [SchedulingStrategy] of
      [internal/allocator/strategy.go] and its contract [StrategyLaws]; [Binpack]
      and [Fifo] implement it and prove the contract, [GangMultiPod] (gangs of
      several pods) and [Watcher] are proved against the contract alone.
    - [Routing], [Allocator]: [internal/allocator/routing.go], [allocator.go].
    - [GangCollector], [Queue], [Preemption], [Rebalancer]: the files of the same
      purpose under [internal/scheduler]; [Router]: [internal/proxy/router.go].
    - [Watcher]: the loop that ties them together, with its informer handlers
      and its recovery after a restart, and the specifications of its parts.
      [Scenario] is a small cluster to run it on.  The theorems are in
      [Placement] (one pod), [Progress] (when it is bound), [Lifecycle] (from
      scheduling to the end of the pod), [Disagg] (preferred nodes), [Cycle] (queue order and pending evictions),
      [Recovery] (restart), [Safety] (a whole cycle) and [Lifetime] (everything
      that happens to a watcher from its start on).
    - [Http]: what the handlers use of net/http: a response being written, a body
      as the reads it gives, a client as the class [HTTPClient].
    - [Pressure]: the pressure loop of [internal/proxy/proxy.go]; [Proxy]:
      validation, statistics and forwarding of [internal/proxy/server.go];
      [ProxyServer]: its handlers over the state of the struct [Proxy], and the
      transition system [proxy_step] in which requests, worker synchronisation and
      pressure ticks interleave at every critical section.
    - [Workers]: the control endpoints of [cmd/scheduler/main.go];
      [Scaling]: its rebalancing tick, from the fetch of the reports over
      deduplication and draining to the script, over the classes [PodStore] and
      [ControlPlane].
    - [Sync]: the turn of the proxy's worker loop, decoding what [Workers] encodes;
      [Feedback]: the proxy's figures on their way back to the scheduler; [Fleet]:
      the two programs together, requests being served while a removal drains.
    - [Startup]: [NewScheduler], the intervals and the turns of the loops of
      [cmd/scheduler/main.go], and [NewWatcher], over the components above.
    - [Process]: a process as its goroutines, the stop channel, the signal and the
      life cycle of its HTTP servers, as a transition system ([step], [reachable])
      over what the loops and the handlers do; [Shutdown]: [main], [Run] and [Stop]
      of the scheduler and of the proxy as two programs for it, the scheduler's
      over the transition system of [Lifetime].
    - [Informers]: the informer of client-go over the transition system of
      [Lifetime]: a first listing, then every change of the cluster in order; what
      it stores and has still to deliver ([informed]).
    - [Routes]: [http.ServeMux] and the routing tables of all servers, with the
      requests that the processes make of one another.
    - [Devices]: [Webhook] and [Recovery] together with the kubelet, the class
      [Kubelet]: from the admission of a shared pod to what its containers read.
    - [Discoverer]: [internal/gpu/k8s_discoverer.go], an instance of
      [GPUDiscoverer].  [Extender], [Injector], [Webhook]: the files of these names
      in [internal/scheduler]; the API server that applies the webhook's patch is
      the class [JSONPatch] with the laws of RFC 6902 it relies on.
    - [EventBus], [LogBuffer], [Dashboard]: [internal/dashboard].
    - [Agent]: [internal/agent], collecting a report over the class [NVML] and
      posting it; [Reporter]: its loop and [cmd/gpu-agent], against the endpoint of
      [Workers].  [Executor]: [internal/scheduler/executor.go], the production
      instance of [PodExecutor].  [Benchmark]: [internal/benchmark] and
      [cmd/benchmark].  [GangTest]: [cmd/gangtest], whose table of requests is run
      against the contract of the strategies, and its [main].

    ** How the code is modelled

    A Go [int] is a [Z] whose arithmetic wraps explicitly ([wrap64] and the
    boxed operators), so overflow is visible: theorems state the bounds under
    which it does not occur.  A call that can panic returns an [outcome], one
    that returns an error a [result]; both are monads.  A method that mutates its
    receiver takes the state and returns it.  Locks are not modelled: every
    method that takes the lock is one atomic step.

    An HTTP handler is a function of the method and of the decoded body, and its
    answer is the value it encodes or the response it wrote; the text of JSON, the
    clock and the formatting of times are left to the library.  Where a handler
    runs outside the lock, each critical section is an [action] of its own, and
    the theorems quantify over every interleaving.

    A loop over a Go map runs in an order the language leaves open: it takes the
    key order as an argument, and the theorems quantify over every [range_order].
    [sort.Slice] is the class [GoSort]: a permutation, sorted when the comparison
    is a weak order, and nothing about equal elements; the instance
    [insertion_go_sort] makes it executable.  Random identifiers and the clock
    are arguments.  The Kubernetes API and the executor are the classes [KubeAPI]
    and [PodExecutor] over a state the theorems leave abstract; the examples
    instantiate them.  Metrics and log lines are left out, except for the slices
    [id[:12]] in log arguments, which panic on short identifiers.

    The number of polls that fit in a drain timeout is an argument of
    [waitForWorkerInflightZero], over which the theorems quantify.  Fuel appears only in [itoa] (20 digits cover every [int]) and in the trimming
    of white space (the length of the string); both are proved to be enough
    ([atoi_itoa], [trim_words_done]).

    ** What the theorems show

    - Accounting: reservations and pod counts are the sums over the tracked pods
      in every reachable state, releases give back exactly what was held, and
      reservations made through the search stay within what the agents report.
    - Agents: a report says what NVML says ([NVML_Collect_exact]), and when all
      reports come from agents the bound on reservations needs no assumption on
      their figures ([agent_reservations_fit]); an agent's ticks keep its node in the
      registry ([agent_keeps_node]); parsing what nvidia-smi prints
      gives the GPUs back.
    - Placement: best fit, first fit, minimal waste, routing and the placement of
      split roles are exact, errors included; gangs never over-commit a GPU; the
      program's own integration test passes for every strategy that keeps the
      contract, on any idle machine ([gang_tests_pass], [idle_machine_exit]).
    - MIG: an instance has one owner, as long as no report lists a held instance as
      available ([mig_exclusive], [report_forgets_mig]).
    - The cycle: a whole cycle keeps the registry well formed and never panics,
      a scheduling attempt binds the pod or leaves no entry of it ([transaction]), it
      sends the bind when a device is free and the API server agrees ([placed]), the
      pod's end undoes it when the pod is still recognised, the queue is a stable
      priority order, nothing is scheduled over a pending eviction, and a restart
      rebuilds the registry from the annotations ([owed]), which gives a pod its
      devices back unless the API server refused them
      ([placement_survives_restart], [marks_refused]).
    - From the start on: a configuration that loads is valid and has the values
      of a literal table where nothing is set ([unset_values]); a scheduler that starts is configured as asked, and its watcher
      never dies, whatever happens around it ([watcher_never_dies]); once the
      informer has delivered what happened, every pod the registry tracks is alive
      in the cluster, if the pods of this scheduler are ones the handlers
      recognise ([reservations_end_with_pods], [non_gpu_pod_leaks]).
    - To the end: however goroutines, signals and requests interleave, the stop
      channel is closed once and a process panics only where a loop or a handler
      does ([panics_in_effect]); a signal ends the proxy and the
      extender ([signal_ends_process]: the two goroutines it takes can always step
      and have less to do after each step), and does not end the scheduler in
      standalone mode ([standalone_outlives_signals], where a cycle and an informer
      callback are one step each), which then hears of nothing
      but its own cycles ([stopped_down_step]).
    - Between the processes: each request reaches one handler ([routes_exact]), and
      those the processes make of one another reach theirs ([requests_reach]).
    - Preemption: victims are eligible, ordered and not too many; the calls made
      are exactly those the policy describes; resumption is bounded and its
      priority boost does not compound.
    - Rebalancing: actions are sustained (but for [unknown_pressure_scales_at_once])
      and apart by the cooldown; a tick is equivalent to a run of the rebalancer
      alone whose decisions are each carried out or, for a stated reason, not
      ([carried_out]); a removal runs its script only after a drain, and otherwise
      leaves the pods as they were or takes the marks back, unless the API server
      fails ([drained_for], [given_up]).
    - Proxy: the in-flight counters are exact under every interleaving, a request
      gets one answer, that of the worker it was routed to, pressure changes with hysteresis and does not depend on map
      order ([pressure_tick_order]).
    - Scheduler and proxy together: the proxy's list is the scheduler's
      ([worker_sync_exact]), every request goes to a ready pod of its group that does
      not drain ([fleet_routes]), the scheduler reads the proxy's own figures
      ([feedback_exact]), and once the proxy has heard of a drain the worker is
      removed only when nobody uses it ([removal_waits]).
    - Around the scheduler: the manager built by discovery is well formed
      ([discovered_manager_wf], [Discover_exact]), so that the theorems on the
      allocator apply to it; the extender filters exactly ([FilterHandler_exact]),
      scores within bounds and binds transactionally; the webhook's patch applies
      and injects the variables that are missing, the volumes and the mounts, so that the containers of a shared pod read the
      devices tracked for it ([container_reads_its_devices]); the injector pins the
      devices ([Inject_pins]).
    - Dashboard: a created pod is read back as requested, but for a refusal of preemption, the log ring refines a
      list, the event bus never panics, deletions name one pod
      ([DeletePodsHandler_exact]) and the summary adds up ([BuildClusterResponse_exact]).
    - Data structures: the slice-backed queue refines a list ([queue_fifo] is its
      corollary for clients), configuration validation ([Validate_exact]) and the
      request router are exact; a benchmark measures each request once
      ([Run_measures]) and its percentile has its rank ([Percentile_rank]).

    Some lemmas show behaviours the code has but does not announce; they are
    named after them: [report_forgets_mig], [negative_request_adds_memory], [short_uuid_panics],
    [count_based_release_leaks], [multi_gpu_gang_undercharges],
    [unsized_gang_ready], [SelectVictims_not_smallest], [resume_name_drifts],
    [unknown_pressure_scales_at_once], [failed_eviction_releases],
    [restart_halves_reservation], [non_gpu_pod_leaks], [resume_drops_pool],
    [mig_gpu_given_whole], [refused_bind_splits_gang], [listing_order_demotes],
    [vanished_group_stays_hot], [unified_drops_fields], [broken_answer_gets_json],
    [nil_worker_panics], [recent_is_oldest], [bind_ignores_node],
    [filter_passes_full_node], [failed_bind_leaks], [duplicate_env_survives],
    [empty_review_panics], [huge_gpu_count_panics], [mps_limit_ignores_mode],
    [init_limit_stays], [failed_listing_frees_gpus], [refresh_forgets_allocations],
    [failed_script_leaves_draining], [blocked_action_starts_cooldown],
    [ScaleBoth_never_runs], [preemptible_cannot_be_refused], [two_gpus_one_device],
    [failed_query_is_healthy], [mig_placement_is_size], [one_bad_field_fails_all],
    [checkpoint_skipped], [drain_races_sync], [fresh_worker_starves],
    [zero_poll_interval_loads], [zero_poll_interval_panics], [last_prompt_missing],
    [empty_run_panics], [starting_pod_forgotten], [unmarked_pod_forgotten],
    [no_gpu_panics], [binds_after_signal], [proxy_ends_with_request],
    [trailing_slash_loses_reports], [default_url_not_found],
    [resumed_shared_pod_has_volume_twice], [unset_retries_are_zero],
    [cycle_meets_callback],
    [extender_serves_no_workers], [late_listing_leaks].

    ** What is not modelled

    The NVML and Kubernetes client libraries, viper, the kubelet and the text of
    JSON are parameters; net/http is modelled as far as the program uses it.
    Prometheus metrics ([internal/metrics]) are registered and written, and nothing
    reads them back: there is no behaviour to state.  Command-line flags and
    printing are left out, the web dashboard ([web]) is TypeScript.  A signal that
    arrives before [signal.Notify] kills the process; the runs of [Process] start
    after it.  Concurrency between the informer callbacks and the polling
    loop is modelled only as far as each callback and each cycle is one step
    ([watcher_event], [informed]); the code does not make them atomic where they
    share the map of the pending evictions ([cycle_meets_callback]); the handlers of the dashboard and of the control endpoints are
    steps on the shared state as well.  An informer that loses its watch and
    lists again, merging the changes it missed, is not modelled. *)

From stdpp Require Import base option list strings gmap sorting.
From Stdlib Require Import ZArith Lia.

Open Scope Z_scope.

(** ** Machine integers

    Go's [int] and [int64] are 64-bit two's complement.  A value is a [Z]; the
    operators below wrap their mathematical result the way the compiled code
    does, and [wrap64_id] removes the wrap when the result is representable. *)
Definition int_min : Z := -9223372036854775808.

Definition int_max : Z := 9223372036854775807.

Definition in_int (z : Z) : Prop := int_min ≤ z ≤ int_max.

Definition wrap64 (z : Z) : Z :=
  (z + 9223372036854775808) mod 18446744073709551616 - 9223372036854775808.

Declare Scope go_scope.
Delimit Scope go_scope with go.
Notation "x ⊞ y" := (wrap64 (x + y)%Z) (at level 50, left associativity) : go_scope.
Notation "x ⊟ y" := (wrap64 (x - y)%Z) (at level 50, left associativity) : go_scope.
Notation "x ⊠ y" := (wrap64 (x * y)%Z) (at level 40, left associativity) : go_scope.
(** Integer division truncates towards zero; the callers check the divisor,
    since Go panics on zero. *)
Notation "x ⊘ y" := (wrap64 (Z.quot x y)) (at level 40, left associativity) : go_scope.
Open Scope go_scope.

(** ** Results, panics and the error monad *)

(** A Go call returning [(value, error)]: exactly one of the two is meaningful. *)
Inductive result (E A : Type) : Type :=
  | Ok (a : A)
  | Err (e : E).
Arguments Ok {E A} a.
Arguments Err {E A} e.

#[export] Instance result_ret {E} : MRet (result E) := λ A a, Ok a.

#[export] Instance result_bind {E} : MBind (result E) := λ A B f m,
  match m with Ok a => f a | Err e => Err e end.

#[export] Instance result_fmap {E} : FMap (result E) := λ A B f m,
  match m with Ok a => Ok (f a) | Err e => Err e end.

Definition is_ok {E A} (r : result E A) : bool :=
  match r with Ok _ => true | Err _ => false end.

(** A Go call that either completes or panics (index out of range, write to a
    nil map, division by zero).  Nothing in the scheduler recovers, so a panic
    carries no state. *)
Inductive outcome (A : Type) : Type :=
  | Done (a : A)
  | Panicked.
Arguments Done {A} a.
Arguments Panicked {A}.

#[export] Instance outcome_ret : MRet outcome := λ A a, Done a.

#[export] Instance outcome_bind : MBind outcome := λ A B f m,
  match m with Done a => f a | Panicked => Panicked end.

#[export] Instance outcome_fmap : FMap outcome := λ A B f m,
  match m with Done a => Done (f a) | Panicked => Panicked end.

(** Run [f] over [l] from left to right, stopping at the first panic. *)
Fixpoint foldM {A B} (f : A → B → outcome A) (a : A) (l : list B) : outcome A :=
  match l with
  | [] => Done a
  | b :: l' => a' ← f a b; foldM f a' l'
  end.

(** A Go function that returns [(value, error)] and may also panic. *)
Definition call (E A : Type) : Type := outcome (result E A).

Definition call_bind {E A B} (m : call E A) (k : A → call E B) : call E B :=
  match m with
  | Done (Ok a) => k a
  | Done (Err e) => Done (Err e)
  | Panicked => Panicked
  end.

(** [x, err := m; if err != nil { return nil, err }; k] *)
Notation "x ←! m ; k" := (call_bind m (λ x, k))
  (at level 20, m at level 100, k at level 200, right associativity) : go_scope.

(** ** [for k, v := range m] over a Go map

    The iteration order of a Go map is unspecified and changes between loops,
    so every modelled loop over a map takes the order of the keys as an
    argument; [range_order] is what the language promises about it. *)
Definition range_order {A} (m : gmap string A) (order : list string) : Prop :=
  order ≡ₚ (map_to_list m).*1.

Definition range {A} (m : gmap string A) (order : list string) : list (string * A) :=
  omap (λ k, (λ v, (k, v)) <$> m !! k) order.

(** ** [sort.Slice]

    The standard library sorts by the caller's [less] and is not stable.  The
    class states what it documents; the instance is the insertion sort the
    library runs on slices of at most 12 elements. *)
Class WeakLess {A} (less : A → A → bool) : Prop := {
  less_asym x y : less x y = true → less y x = false;
  less_negtrans x y z : less x y = false → less y z = false → less x z = false
}.

(** [sorted_by less l]: no element is [less] than one before it. *)
Definition sorted_by {A} (less : A → A → bool) (l : list A) : Prop :=
  StronglySorted (λ x y, less y x = false) l.

Class GoSort : Type := {
  sort_slice : ∀ {A}, (A → A → bool) → list A → list A;
  sort_slice_perm : ∀ {A} (less : A → A → bool) l, sort_slice less l ≡ₚ l;
  sort_slice_sorted : ∀ {A} (less : A → A → bool) l,
    WeakLess less → sorted_by less (sort_slice less l)
}.

(** One outer step of the insertion sort: [x] moves left over the sorted
    prefix, held in reverse, while it is [less] than its left neighbour. *)
Fixpoint insert_left {A} (less : A → A → bool) (x : A) (rev_prefix : list A) : list A :=
  match rev_prefix with
  | [] => [x]
  | y :: rp => if less x y then y :: insert_left less x rp else x :: y :: rp
  end.

Definition insertion_sort {A} (less : A → A → bool) (l : list A) : list A :=
  rev (foldl (λ rp x, insert_left less x rp) [] l).

(** ** Selection loops

    [best := l[0]; for c in l[1:] { if better(c, best) { best = c } }] *)
Definition select_best {A} (better : A → A → bool) (x : A) (l : list A) : A :=
  foldl (λ best c, if better c best then c else best) x l.

(** ** Sums *)
Definition zsum (l : list Z) : Z := foldr Z.add 0 l.

(** [s[:n]], which panics past the end. *)
Definition str_prefix (n : nat) (s : string) : outcome string :=
  if (n <=? String.length s)%nat then Done (String.substring 0 n s) else Panicked.

(** ** Lemmas on machine integers *)
Lemma wrap64_id z : in_int z → wrap64 z = z.
Proof.
  unfold in_int, int_min, int_max, wrap64. intros [??].
  rewrite Z.mod_small; lia.
Qed.

Lemma wrap64_range z : in_int (wrap64 z).
Proof.
  unfold in_int, int_min, int_max, wrap64.
  pose proof (Z.mod_pos_bound (z + 9223372036854775808) 18446744073709551616). lia.
Qed.

Lemma wrap64_congr z : ∃ k, wrap64 z = z + k * 18446744073709551616.
Proof.
  unfold wrap64.
  exists (- ((z + 9223372036854775808) / 18446744073709551616)).
  rewrite Z.mod_eq by lia. lia.
Qed.

Lemma wrap64_shift z k : wrap64 (z + k * 18446744073709551616) = wrap64 z.
Proof.
  unfold wrap64.
  replace (z + k * 18446744073709551616 + 9223372036854775808)
    with (z + 9223372036854775808 + k * 18446744073709551616) by lia.
  by rewrite Z.mod_add.
Qed.

Lemma wrap64_add_l x y : wrap64 x ⊞ y = x ⊞ y.
Proof.
  destruct (wrap64_congr x) as [k ->].
  replace (x + k * 18446744073709551616 + y) with (x + y + k * 18446744073709551616) by lia.
  apply wrap64_shift.
Qed.

Lemma wrap64_idemp z : wrap64 (wrap64 z) = wrap64 z.
Proof. apply wrap64_id, wrap64_range. Qed.

Create HintDb go_int discriminated.
#[export] Hint Resolve wrap64_range : go_int.

(** [int_solve] removes the wraps whose argument [lia] can bound, innermost
    first, and closes the goal with [lia]. *)
Ltac int_norm :=
  repeat match goal with
  | |- context [wrap64 ?z] =>
      lazymatch z with context [wrap64 _] => fail | _ => idtac end;
      rewrite (wrap64_id z) by (unfold in_int, int_min, int_max in *; lia)
  | H : context [wrap64 ?z] |- _ =>
      lazymatch z with context [wrap64 _] => fail | _ => idtac end;
      rewrite (wrap64_id z) in H by (unfold in_int, int_min, int_max in *; lia)
  end.
Ltac int_solve := int_norm; unfold in_int, int_min, int_max in *; lia.

(** [bool_hyps] turns boolean tests on [Z], [nat] and strings that appear as
    hypotheses into the propositions they decide. *)
Ltac bool_hyps :=
  repeat match goal with
  | H : (_ && _)%bool = true |- _ => apply andb_true_iff in H as [??]
  | H : (_ || _)%bool = false |- _ => apply orb_false_iff in H as [??]
  | H : negb _ = true |- _ => apply negb_true_iff in H
  | H : negb _ = false |- _ => apply negb_false_iff in H
  | H : (_ <? _)%Z = true |- _ => apply Z.ltb_lt in H
  | H : (_ <? _)%Z = false |- _ => apply Z.ltb_ge in H
  | H : (_ <=? _)%Z = true |- _ => apply Z.leb_le in H
  | H : (_ <=? _)%Z = false |- _ => apply Z.leb_gt in H
  | H : (_ >? _)%Z = _ |- _ => rewrite Z.gtb_ltb in H
  | H : (_ >=? _)%Z = _ |- _ => rewrite Z.geb_leb in H
  | H : (_ =? _)%Z = true |- _ => apply Z.eqb_eq in H
  | H : (_ =? _)%Z = false |- _ => apply Z.eqb_neq in H
  | H : (_ =? _)%nat = true |- _ => apply Nat.eqb_eq in H
  | H : (_ =? _)%nat = false |- _ => apply Nat.eqb_neq in H
  | H : (_ <? _)%nat = true |- _ => apply Nat.ltb_lt in H
  | H : (_ <? _)%nat = false |- _ => apply Nat.ltb_ge in H
  | H : (_ <=? _)%nat = true |- _ => apply Nat.leb_le in H
  | H : (_ <=? _)%nat = false |- _ => apply Nat.leb_gt in H
  | H : bool_decide _ = true |- _ => apply bool_decide_eq_true_1 in H
  | H : bool_decide _ = false |- _ => apply bool_decide_eq_false_1 in H
  | H : String.eqb _ _ = true |- _ => apply String.eqb_eq in H
  | H : String.eqb _ _ = false |- _ => apply String.eqb_neq in H
  end.

(** ** Lemmas on the monads *)
Lemma result_bind_ok {E A B} (m : result E A) (f : A → result E B) b :
  m ≫= f = Ok b ↔ ∃ a, m = Ok a ∧ f a = Ok b.
Proof. destruct m; cbn; split; [eauto|intros (? & [= ->] & ?); done|done|by intros (? & ? & ?)]. Qed.

Lemma outcome_bind_done {A B} (m : outcome A) (f : A → outcome B) b :
  m ≫= f = Done b ↔ ∃ a, m = Done a ∧ f a = Done b.
Proof. destruct m; cbn; split; [eauto|intros (? & [= ->] & ?); done|done|by intros (? & ? & ?)]. Qed.

Lemma call_bind_ok {E A B} (m : call E A) (k : A → call E B) b :
  call_bind m k = Done (Ok b) ↔ ∃ a, m = Done (Ok a) ∧ k a = Done (Ok b).
Proof.
  unfold call_bind. destruct m as [[a|e]|]; cbn; split;
    first [by eauto | by intros (? & [= ->] & ?) | by intros (? & ? & ?)].
Qed.

(** A call that neither panics by itself nor in its continuation. *)
Lemma call_bind_done {E A B} (m : call E A) (k : A → call E B) :
  (∃ r, m = Done r) → (∀ a, m = Done (Ok a) → ∃ r, k a = Done r) →
  ∃ r, call_bind m k = Done r.
Proof. intros [[a|e] ->] Hk; unfold call_bind; cbn; eauto. Qed.

Lemma mapM_ok {E A B} (f : A → result E B) l k :
  mapM f l = Ok k ↔ Forall2 (λ x y, f x = Ok y) l k.
Proof.
  split.
  - revert k. induction l as [|x l IH]; intros k; cbn; [by intros [= <-]|].
    destruct (f x) as [y|e] eqn:Ex; cbn; [|done]. destruct (mapM f l) as [ys|e]; cbn; [|done].
    intros [= <-]. constructor; auto.
  - induction 1 as [|x y l k Hx _ IH]; cbn; [done|]. rewrite Hx. cbn. by rewrite IH.
Qed.

Lemma foldM_app {A B} (f : A → B → outcome A) a l1 l2 :
  foldM f a (l1 ++ l2) = (a' ← foldM f a l1; foldM f a' l2).
Proof.
  revert a. induction l1 as [|b l1 IH]; intros a; [done|].
  cbn. destruct (f a b); cbn; [apply IH|done].
Qed.

(** An invariant indexed by what is left to process. *)
Lemma foldM_inv {A B} (P : A → list B → Prop) (f : A → B → outcome A) l :
  (∀ a b l' a', P a (b :: l') → f a b = Done a' → P a' l') →
  ∀ a a', P a l → foldM f a l = Done a' → P a' [].
Proof.
  intros Hstep. induction l as [|b l IH]; cbn; intros a a' HP Hf.
  - by injection Hf as <-.
  - apply outcome_bind_done in Hf as (a1 & H1 & H2). eauto.
Qed.

Lemma foldM_total {A B} (P : A → list B → Prop) (f : A → B → outcome A) l :
  (∀ a b l', P a (b :: l') → ∃ a', f a b = Done a' ∧ P a' l') →
  ∀ a, P a l → ∃ a', foldM f a l = Done a' ∧ P a' [].
Proof.
  intros Hstep. induction l as [|b l IH]; cbn; intros a HP; [eauto|].
  destruct (Hstep _ _ _ HP) as (a1 & -> & ?). cbn. eauto.
Qed.

(** ** Lemmas on map iteration *)
Section range.
Context {A : Type} (m : gmap string A).

Lemma range_order_nodup order : range_order m order → NoDup order.
Proof. intros ->. apply NoDup_fst_map_to_list. Qed.

Lemma range_order_elem order k : range_order m order → k ∈ order ↔ is_Some (m !! k).
Proof.
  intros ->. rewrite list_elem_of_fmap. split.
  - intros ([k' v] & -> & Hin%elem_of_map_to_list). eauto.
  - intros [v Hv]. exists (k, v). split; [done|]. by apply elem_of_map_to_list.
Qed.

Lemma range_elem order k v :
  range_order m order → (k, v) ∈ range m order ↔ m !! k = Some v.
Proof.
  intros Ho. unfold range. rewrite list_elem_of_omap. split.
  - intros (k' & Hin & Hk'). destruct (m !! k') eqn:E; naive_solver.
  - intros Hv. exists k. split; [apply (range_order_elem _ _ Ho); eauto|]. by rewrite Hv.
Qed.

Lemma range_perm order : range_order m order → range m order ≡ₚ map_to_list m.
Proof.
  intros Ho. unfold range. rewrite Ho.
  assert (∀ l : list (string * A), (∀ kv, kv ∈ l → m !! kv.1 = Some kv.2) →
    omap (λ k, (λ v, (k, v)) <$> m !! k) l.*1 = l) as Hl.
  { induction l as [|[k v] l IH]; intros Hin; [done|]. cbn.
    pose proof (Hin (k, v) ltac:(left)) as Hk. cbn in Hk. rewrite Hk. cbn. f_equal. apply IH. intros. apply Hin. by right. }
  rewrite Hl; [done|]. intros [k v] Hin. by apply elem_of_map_to_list in Hin.
Qed.

Lemma range_order_exists : range_order m (map_to_list m).*1.
Proof. by unfold range_order. Qed.
End range.

(** ** Lemmas on sorting and selection *)
Lemma less_irrefl {A} (less : A → A → bool) `{!WeakLess less} x : less x x = false.
Proof. destruct (less x x) eqn:E; [|done]. by pose proof (less_asym _ _ E) as <-. Qed.

(** Every order of the scheduler compares an integer key, or a lexicographic
    combination of such keys. *)
Lemma weak_less_key {A} (key : A → Z) : WeakLess (λ x y, key x <? key y).
Proof. split; intros; bool_hyps; apply Z.ltb_ge; lia. Qed.

Lemma weak_less_flip {A} (less : A → A → bool) : WeakLess less → WeakLess (λ x y, less y x).
Proof.
  intros Hw. split; intros.
  - by apply less_asym.
  - by eapply less_negtrans.
Qed.

Lemma weak_less_lex {A} (key : A → Z) (less : A → A → bool) :
  WeakLess less →
  WeakLess (λ x y, if key x =? key y then less x y else key x <? key y).
Proof.
  intros Hw. split.
  - intros x y H. destruct (Z.eqb_spec (key x) (key y)) as [E|E].
    + rewrite E, Z.eqb_refl. by apply less_asym.
    + rewrite (proj2 (Z.eqb_neq (key y) (key x))) by done. bool_hyps. apply Z.ltb_ge. lia.
  - intros x y z H1 H2.
    destruct (Z.eqb_spec (key x) (key y)), (Z.eqb_spec (key y) (key z)),
      (Z.eqb_spec (key x) (key z)); bool_hyps; try (apply Z.ltb_ge); try lia.
    by apply (less_negtrans x y z).
Qed.

Section insertion_sort.
Context {A : Type} (less : A → A → bool).

Lemma insert_left_perm x rp : insert_left less x rp ≡ₚ x :: rp.
Proof.
  induction rp as [|y rp IH]; cbn; [done|]. case_match; [|done].
  rewrite IH. by apply Permutation_swap.
Qed.

Lemma insertion_sort_perm l : insertion_sort less l ≡ₚ l.
Proof.
  unfold insertion_sort. rewrite <-Permutation_rev.
  assert (∀ rp, foldl (λ rp x, insert_left less x rp) rp l ≡ₚ rp ++ l) as H.
  { induction l as [|x l IH]; intros rp; cbn; [by rewrite app_nil_r|].
    rewrite IH, insert_left_perm. cbn. by rewrite Permutation_middle. }
  apply H.
Qed.

Lemma insert_left_sorted x rp :
  WeakLess less → StronglySorted (λ y z, less y z = false) rp →
  StronglySorted (λ y z, less y z = false) (insert_left less x rp).
Proof.
  intros Hw. induction 1 as [|y rp Hrp IH Hy]; cbn.
  - repeat constructor.
  - destruct (less x y) eqn:E.
    + constructor; [done|]. rewrite insert_left_perm. constructor; [by apply less_asym|done].
    + constructor; [by constructor|]. constructor; [done|].
      eapply Forall_impl; [exact Hy|]. intros z Hz. cbn. by eapply less_negtrans.
Qed.

Lemma StronglySorted_rev (R : A → A → Prop) l :
  StronglySorted R l → StronglySorted (flip R) (rev l).
Proof.
  induction 1 as [|x l Hl IH Hx]; cbn; [constructor|].
  apply StronglySorted_app_2; [|done|repeat constructor].
  intros y z Hy%list_elem_of_In%in_rev%list_elem_of_In Hz%list_elem_of_singleton. subst z.
  rewrite Forall_forall in Hx. by apply Hx.
Qed.

Lemma insertion_sort_sorted l : WeakLess less → sorted_by less (insertion_sort less l).
Proof.
  intros Hw. unfold sorted_by, insertion_sort.
  apply (StronglySorted_rev (λ y z, less y z = false)).
  assert (∀ rp, StronglySorted (λ y z, less y z = false) rp →
    StronglySorted (λ y z, less y z = false)
      (foldl (λ rp x, insert_left less x rp) rp l)) as H.
  { induction l as [|x l IH]; intros rp Hrp; cbn; [done|].
    by apply IH, insert_left_sorted. }
  apply H. constructor.
Qed.
End insertion_sort.

#[export] Instance insertion_go_sort : GoSort := {|
  sort_slice := @insertion_sort;
  sort_slice_perm := @insertion_sort_perm;
  sort_slice_sorted := @insertion_sort_sorted
|}.

Section sort_slice.
Context `{GoSort} {A : Type} (less : A → A → bool).

Lemma sort_slice_elem l x : x ∈ sort_slice less l ↔ x ∈ l.
Proof. by rewrite sort_slice_perm. Qed.

Lemma sort_slice_length l : length (sort_slice less l) = length l.
Proof. by rewrite sort_slice_perm. Qed.

(** The head of the sorted slice is a minimum. *)
Lemma sort_slice_head l x l' y :
  WeakLess less → sort_slice less l = x :: l' → y ∈ l → less y x = false.
Proof.
  intros Hw E Hy. pose proof (sort_slice_sorted less l Hw) as Hs. rewrite E in Hs.
  apply StronglySorted_cons in Hs as [Hx _]. rewrite Forall_forall in Hx.
  rewrite <-sort_slice_elem, E in Hy. apply elem_of_cons in Hy as [->|Hy]; [|auto].
  by apply less_irrefl.
Qed.
End sort_slice.

Section select_best.
Context {A : Type} (better : A → A → bool).

Lemma select_best_elem x l : select_best better x l ∈ x :: l.
Proof.
  unfold select_best. revert x. induction l as [|y l IH]; intros x; cbn; [by left|].
  specialize (IH (if better y x then y else x)).
  apply elem_of_cons in IH as [->|?]; [|by right; right].
  destruct (better y x); [right; left|left].
Qed.

(** The loop keeps a maximum: nothing in the slice is better than the result.
    The order need only be a weak order on the elements that satisfy [P]. *)
Lemma select_best_max_on (P : A → Prop) x l y :
  (∀ a b, P a → P b → better a b = true → better b a = false) →
  (∀ a b c, P a → P b → P c → better a b = false → better b c = false → better a c = false) →
  Forall P (x :: l) → y ∈ x :: l → better y (select_best better x l) = false.
Proof.
  intros Hasym Hneg. unfold select_best. revert x y.
  assert (∀ a, P a → better a a = false) as Hirr.
  { intros a Ha. destruct (better a a) eqn:E; [|done]. by pose proof (Hasym _ _ Ha Ha E) as <-. }
  assert (∀ l x, Forall P (x :: l) → P (foldl (λ best c, if better c best then c else best) x l))
    as HP.
  { clear l. intros l. induction l as [|z l IH]; intros x Hx; cbn.
    - by apply Forall_cons in Hx as [??].
    - apply IH. rewrite !Forall_cons in Hx. destruct Hx as (?&?&?).
      apply Forall_cons. by case_match. }
  induction l as [|z l IH]; intros x y Hx; cbn.
  { intros ->%list_elem_of_singleton. apply Hirr. by apply Forall_cons in Hx as [??]. }
  rewrite !Forall_cons in Hx. destruct Hx as (Px & Pz & Pl).
  set (w := if better z x then z else x).
  assert (P w) as Pw by (unfold w; by case_match).
  assert (Forall P (w :: l)) as HPw by (by apply Forall_cons).
  assert (∀ v, P v → better v w = false →
    better v (foldl (λ best c, if better c best then c else best) w l) = false) as Hstep.
  { intros v Pv Hv. apply (Hneg v w); try done; [by apply HP|]. apply IH; [done|left]. }
  intros Hy. apply elem_of_cons in Hy as [->|[->|Hy]%elem_of_cons].
  - apply Hstep; [done|]. unfold w. destruct (better z x) eqn:E; auto.
  - apply Hstep; [done|]. unfold w. destruct (better z x) eqn:E; auto.
  - apply IH; [done|by right].
Qed.

Lemma select_best_max x l y :
  WeakLess better → y ∈ x :: l → better y (select_best better x l) = false.
Proof.
  intros Hw. apply (select_best_max_on (λ _, True)).
  - intros. by apply less_asym.
  - intros a b c _ _ _. apply less_negtrans.
  - by apply Forall_true.
Qed.
End select_best.

(** ** Lemmas on sums *)
Lemma zsum_cons x l : zsum (x :: l) = x + zsum l.
Proof. done. Qed.

Lemma zsum_app l1 l2 : zsum (l1 ++ l2) = zsum l1 + zsum l2.
Proof. unfold zsum. induction l1 as [|x l1 IH]; cbn; [done|]. rewrite IH. lia. Qed.

#[export] Instance zsum_perm : Proper ((≡ₚ) ==> (=)) zsum.
Proof. unfold zsum. induction 1; cbn; lia. Qed.

Lemma zsum_const {A} (f : A → Z) (k : Z) l :
  Forall (λ x, f x = k) l → zsum (f <$> l) = Z.of_nat (length l) * k.
Proof.
  induction 1 as [|x l Hx _ IH]; [done|]. rewrite fmap_cons, zsum_cons, IH, Hx. cbn [length]. lia.
Qed.

Lemma zsum_nonneg l : Forall (λ z, 0 ≤ z) l → 0 ≤ zsum l.
Proof. unfold zsum. induction 1; cbn; lia. Qed.

Lemma zsum_submseteq l1 l2 : Forall (λ z, 0 ≤ z) l2 → l1 ⊆+ l2 → zsum l1 ≤ zsum l2.
Proof.
  intros H [l3 Hl]%submseteq_Permutation. rewrite Hl, zsum_app.
  rewrite Hl in H. apply Forall_app in H as [_ H]. apply zsum_nonneg in H. lia.
Qed.

Lemma zsum_elem_le l x : Forall (λ z, 0 ≤ z) l → x ∈ l → x ≤ zsum l.
Proof.
  unfold zsum. induction 1 as [|y l Hy Hl IH]; cbn; [by intros ?%elem_of_nil|].
  pose proof (zsum_nonneg l Hl) as H0. unfold zsum in H0.
  intros [->|Hx]%elem_of_cons; [lia|]. specialize (IH Hx). lia.
Qed.

(** ** Lemmas on option-valued loops *)
Lemma list_find_first {A} (p : A → bool) (l : list A) (x : A) :
  List.find p l = Some x ↔
  ∃ l1 l2, l = l1 ++ x :: l2 ∧ p x = true ∧ Forall (λ y, p y = false) l1.
Proof.
  split.
  - induction l as [|y l IH]; cbn; [done|]. destruct (p y) eqn:E; intros Hf.
    + injection Hf as ->. exists [], l. eauto.
    + destruct (IH Hf) as (l1 & l2 & -> & ? & ?). exists (y :: l1), l2. eauto.
  - intros (l1 & l2 & -> & Hx & Hl1). induction Hl1 as [|y l1 Hy _ IH]; cbn.
    + by rewrite Hx.
    + by rewrite Hy.
Qed.

Lemma list_find_none {A} (p : A → bool) (l : list A) :
  List.find p l = None ↔ Forall (λ y, p y = false) l.
Proof.
  induction l as [|y l IH]; cbn; [done|].
  rewrite Forall_cons. destruct (p y); naive_solver.
Qed.

(** The first [n] elements of a slice sorted by an integer key have the least
    total key among all the ways of choosing [n] elements. *)
Lemma sorted_take_min {A} (key : A → Z) l l' :
  StronglySorted (λ x y, key x ≤ key y) l → l' ⊆+ l →
  zsum (key <$> take (length l') l) ≤ zsum (key <$> l').
Proof.
  intros Hl. revert l'. induction Hl as [|x l Hl IH Hx]; intros l' Hs.
  { apply submseteq_nil_r in Hs as ->. done. }
  rewrite Forall_forall in Hx.
  apply submseteq_cons_r in Hs as [Hs|(l'' & -> & Hs)].
  - destruct l' as [|y l'']; [done|].
    assert (key x ≤ key y).
    { apply Hx. eapply elem_of_submseteq; [left|done]. }
    assert (l'' ⊆+ l) as Hs' by (etrans; [by apply (submseteq_cons y l'' l'')|exact Hs]).
    specialize (IH _ Hs'). cbn [length take]. rewrite !fmap_cons, !zsum_cons. lia.
  - specialize (IH _ Hs). cbn [length take]. rewrite !fmap_cons, !zsum_cons. lia.
Qed.

Lemma sorted_by_key {A} (key : A → Z) l :
  sorted_by (λ x y, key x <? key y) l → StronglySorted (λ x y, key x ≤ key y) l.
Proof.
  unfold sorted_by. induction 1 as [|x l Hl IH Hx]; constructor; [done|].
  eapply Forall_impl; [exact Hx|]. intros y Hy. cbn in Hy. by apply Z.ltb_ge in Hy.
Qed.
