(* ===== verification/GoFloat.v ===== *)
(** * Go's [float64]

    Values and arithmetic are the Standard Library's executable model of IEEE
    754 binary64 ([spec_float], precision 53, maximal exponent 1024), so that
    every comparison the scheduler makes on latencies and utilisation is the
    one the hardware makes, NaN included.  The lemmas give the order theory
    the selection loops need: a strict order that is weak on non-NaN values. *)

From stdpp Require Import base list.
From Stdlib Require Import ZArith Lia SpecFloat.
From S2P Require Import Prelude.

Definition float64 : Type := spec_float.

Definition f64_add : float64 → float64 → float64 := SFadd 53 1024.

Definition f64_sub : float64 → float64 → float64 := SFsub 53 1024.

Definition f64_mul : float64 → float64 → float64 := SFmul 53 1024.

Definition f64_div : float64 → float64 → float64 := SFdiv 53 1024.

Definition f64_ltb : float64 → float64 → bool := SFltb.

Definition f64_leb : float64 → float64 → bool := SFleb.

Definition f64_eqb : float64 → float64 → bool := SFeqb.

(** The conversion [float64(n)] of an integer, rounding to nearest even. *)
Definition f64_of_int (z : Z) : float64 := binary_normalize 53 1024 z 0 false.

Definition f64_zero : float64 := S754_zero false.

(** [int(f)] drops the fraction; out of range it is the least integer, as on amd64. *)
Definition f64_to_int (f : float64) : Z :=
  match f with
  | S754_zero _ => 0
  | S754_finite s m e =>
      let n := if 0 <=? e then Z.pos m * 2 ^ e else Z.pos m / 2 ^ (- e) in
      let z := if s then - n else n in
      if (int_min <=? z) && (z <=? int_max) then z else int_min
  | _ => int_min
  end.

Definition not_nan (f : float64) : Prop := f ≠ S754_nan.

(** Position of a non-NaN value in the order: its class, then exponent and
    mantissa, both negated for negative numbers. *)
Definition f64_rank (f : float64) : Z * Z * Z :=
  match f with
  | S754_infinity true => (-2, 0, 0)
  | S754_finite true m e => (-1, - e, - Z.pos m)
  | S754_zero _ => (0, 0, 0)
  | S754_finite false m e => (1, e, Z.pos m)
  | S754_infinity false => (2, 0, 0)
  | S754_nan => (0, 0, 0)
  end.

Definition rank_lt (x y : Z * Z * Z) : Prop :=
  x.1.1 < y.1.1 ∨ (x.1.1 = y.1.1 ∧ (x.1.2 < y.1.2 ∨ (x.1.2 = y.1.2 ∧ x.2 < y.2))).

Lemma f64_ltb_rank x y :
  not_nan x → not_nan y → f64_ltb x y = true ↔ rank_lt (f64_rank x) (f64_rank y).
Proof.
  unfold not_nan, f64_ltb, SFltb, rank_lt.
  destruct x as [[]|[]| |[] mx ex], y as [[]|[]| |[] my ey]; cbn; intros; try done;
    try (split; [try done; lia|try done; lia]).
  - destruct (Z.compare_spec ex ey); cbn; [|split; [try done; lia|try done; lia]..].
    change (Pos.compare_cont Eq mx my) with (mx ?= my)%positive.
    destruct (Pos.compare_spec mx my); cbn; split; try done; lia.
  - destruct (Z.compare_spec ex ey); cbn; [|split; [try done; lia|try done; lia]..].
    change (Pos.compare_cont Eq mx my) with (mx ?= my)%positive.
    destruct (Pos.compare_spec mx my); cbn; split; try done; lia.
Qed.

Lemma f64_ltb_asym x y : f64_ltb x y = true → f64_ltb y x = false.
Proof.
  intros H. assert (not_nan x ∧ not_nan y) as [Hx Hy].
  { split; intros ->; [done|]. unfold f64_ltb, SFltb in H. by destruct x as [[]|[]| |[]]. }
  destruct (f64_ltb y x) eqn:E; [|done].
  apply f64_ltb_rank in H; [|done..]. apply f64_ltb_rank in E; [|done..].
  unfold rank_lt in *. lia.
Qed.

Lemma f64_ltb_negtrans x y z :
  not_nan x → not_nan y → not_nan z →
  f64_ltb x y = false → f64_ltb y z = false → f64_ltb x z = false.
Proof.
  intros Hx Hy Hz Hxy Hyz. destruct (f64_ltb x z) eqn:E; [|done].
  apply f64_ltb_rank in E; [|done..].
  assert (¬ rank_lt (f64_rank x) (f64_rank y)) as H1
    by (by rewrite <-f64_ltb_rank, Hxy by done).
  assert (¬ rank_lt (f64_rank y) (f64_rank z)) as H2
    by (by rewrite <-f64_ltb_rank, Hyz by done).
  unfold rank_lt in *. lia.
Qed.

(** An integer converts to a number, never to NaN. *)
Example f64_of_int_120 : f64_ltb (f64_of_int 119) (f64_of_int 120) = true.
Proof. vm_compute. reflexivity. Qed.
