(* ===== verification/GoStrings.v ===== *)
(** * Go strings and [strconv]

    A Go string is a byte string, held as Rocq's [string].  This file has the
    functions of packages [strings] and [strconv] the scheduler calls, and the
    round trips its annotations rely on: [strconv.Itoa]/[strconv.Atoi] and
    [strings.Join]/[strings.Split]. *)

From Stdlib Require Import ZArith Lia Ascii String.
From stdpp Require Import base option list strings.
From S2P Require Import Prelude.
Open Scope string_scope.
Open Scope Z_scope.
Open Scope go_scope.

#[local] Arguments Ascii.eqb : simpl never.
#[local] Arguments String.append : simpl nomatch.

(** ** [strconv] *)
Definition digit_val (c : ascii) : option Z :=
  let n := Z.of_N (N_of_ascii c) in
  if (48 <=? n) && (n <=? 57) then Some (n - 48) else None.

Definition digit_char (d : Z) : ascii := ascii_of_N (Z.to_N (48 + d)).

(** Value of a digit string read after [acc]; [None] is a syntax error. *)
Fixpoint parse_digits (acc : Z) (s : string) : option Z :=
  match s with
  | EmptyString => Some acc
  | String c s' => match digit_val c with Some d => parse_digits (acc * 10 + d) s' | None => None end
  end.

Definition parse_unsigned (s : string) : option Z :=
  match s with EmptyString => None | _ => parse_digits 0 s end.

(** [strconv.Atoi]: an optional sign and decimal digits; [None] stands for the
    error, syntax or out of the range of [int]. *)
Definition atoi (s : string) : option Z :=
  v ← match s with
      | String "-" s' => Z.opp <$> parse_unsigned s'
      | String "+" s' => parse_unsigned s'
      | _ => parse_unsigned s
      end;
  if (int_min <=? v) && (v <=? int_max) then Some v else None.

Fixpoint itoa_go (fuel : nat) (n : Z) (acc : string) : string :=
  match fuel with
  | O => acc
  | S fuel' =>
      let acc' := String (digit_char (n mod 10)) acc in
      if n / 10 =? 0 then acc' else itoa_go fuel' (n / 10) acc'
  end.

(** [strconv.Itoa]; an [int] has at most 19 decimal digits. *)
Definition itoa (z : Z) : string :=
  if z <? 0 then String "-" (itoa_go 20 (- z) "") else itoa_go 20 z "".

(** [strconv.ParseBool] *)
Definition parse_bool (s : string) : option bool :=
  if existsb (String.eqb s) ["1"; "t"; "T"; "TRUE"; "true"; "True"] then Some true
  else if existsb (String.eqb s) ["0"; "f"; "F"; "FALSE"; "false"; "False"] then Some false
  else None.

(** ** [strings] *)

(** [strings.Split] with a one-byte separator. *)
Fixpoint split_on (sep : ascii) (s : string) : list string :=
  match s with
  | EmptyString => [""]
  | String c s' =>
      if Ascii.eqb c sep then "" :: split_on sep s'
      else match split_on sep s' with
           | w :: ws => String c w :: ws
           | [] => [String c ""]
           end
  end.

(** [strings.Join] *)
Definition join (sep : string) (l : list string) : string := String.concat sep l.

(** [s] with the prefix [p] removed, when it has it. *)
Fixpoint strip_prefix (p s : string) : option string :=
  match p, s with
  | EmptyString, _ => Some s
  | String a p', String b s' => if Ascii.eqb a b then strip_prefix p' s' else None
  | _, EmptyString => None
  end.

Definition byte (n : N) : ascii := ascii_of_N n.

(** The UTF-8 encodings of the runes for which [unicode.IsSpace] holds. *)
Definition unicode_spaces : list string :=
  let b1 a := String (byte a) "" in
  let b2 a b := String (byte a) (b1 b) in
  let b3 a b c := String (byte a) (b2 b c) in
  [b1 9; b1 10; b1 11; b1 12; b1 13; b1 32; b2 194 133; b2 194 160;
   b3 225 154 128; b3 226 128 128; b3 226 128 129; b3 226 128 130; b3 226 128 131;
   b3 226 128 132; b3 226 128 133; b3 226 128 134; b3 226 128 135; b3 226 128 136;
   b3 226 128 137; b3 226 128 138; b3 226 128 168; b3 226 128 169; b3 226 128 175;
   b3 226 129 159; b3 227 128 128]%N.

(** Remove leading occurrences of the given words. *)
Fixpoint trim_words (words : list string) (fuel : nat) (s : string) : string :=
  match fuel with
  | O => s
  | S fuel' =>
      match head (omap (λ w, strip_prefix w s) words) with
      | Some s' => trim_words words fuel' s'
      | None => s
      end
  end.

Definition trim_left (s : string) : string :=
  trim_words unicode_spaces (String.length s) s.

Definition trim_right (s : string) : string :=
  String.rev (trim_words (String.rev <$> unicode_spaces) (String.length s) (String.rev s)).

(** [strings.TrimSpace] *)
Definition trim_space (s : string) : string := trim_right (trim_left s).

(** [strings.ToLower] on ASCII; a string with other runes is only ever compared
    with an ASCII word none of whose letters is the lower case of such a rune. *)
Definition lower_char (c : ascii) : ascii :=
  let n := N_of_ascii c in
  if (65 <=? n)%N && (n <=? 90)%N then ascii_of_N (n + 32) else c.

Fixpoint to_lower (s : string) : string :=
  match s with
  | EmptyString => EmptyString
  | String c s' => String (lower_char c) (to_lower s')
  end.

(** [strings.HasPrefix] *)
Definition has_prefix (s p : string) : bool := String.prefix p s.

(** [strings.HasSuffix] *)
Definition has_suffix (s p : string) : bool := String.prefix (String.rev p) (String.rev s).

(** [strings.Index]; [None] is -1. *)
Definition str_index (s sub : string) : option nat := String.index 0 sub s.

(** Some character of the string is [c]. *)
Fixpoint str_mem (c : ascii) (s : string) : bool :=
  match s with
  | EmptyString => false
  | String a s' => Ascii.eqb a c || str_mem c s'
  end.

(** ** Round trips of [strconv] *)
Lemma digit_val_char d : 0 ≤ d < 10 → digit_val (digit_char d) = Some d.
Proof.
  intros Hd.
  assert (d = 0 ∨ d = 1 ∨ d = 2 ∨ d = 3 ∨ d = 4 ∨ d = 5 ∨ d = 6 ∨ d = 7 ∨ d = 8 ∨ d = 9)
    as Hc by lia.
  destruct_or! Hc; subst d; reflexivity.
Qed.

Lemma parse_digits_itoa fuel n acc :
  0 ≤ n < 10 ^ Z.of_nat fuel → (0 < fuel)%nat →
  parse_digits 0 (itoa_go fuel n acc) = parse_digits n acc.
Proof.
  revert n acc. induction fuel as [|fuel IH]; intros n acc Hn Hf; [lia|].
  cbn [itoa_go].
  assert (∀ a, parse_digits a (String (digit_char (n mod 10)) acc)
             = parse_digits (a * 10 + n mod 10) acc) as Hd.
  { intros a. cbn [parse_digits]. rewrite digit_val_char; [done|].
    apply Z.mod_pos_bound. lia. }
  destruct (Z.eqb_spec (n / 10) 0) as [E|E].
  - rewrite Hd. f_equal. pose proof (Z.div_mod n 10). lia.
  - assert (0 < n / 10) by (pose proof (Z.div_pos n 10); lia).
    destruct fuel as [|fuel].
    { exfalso. apply E. rewrite Z.div_small; [done|]. change (10 ^ Z.of_nat 1) with 10 in Hn. lia. }
    rewrite IH; [|split; [lia|]|lia].
    + rewrite Hd. f_equal. pose proof (Z.div_mod n 10). lia.
    + apply Z.div_lt_upper_bound; [lia|].
      replace (10 * 10 ^ Z.of_nat (S fuel)) with (10 ^ Z.of_nat (S (S fuel))); [lia|].
      rewrite (Nat2Z.inj_succ (S fuel)), Z.pow_succ_r by lia. done.
Qed.

Lemma itoa_go_nonempty fuel n acc : acc ≠ "" ∨ (0 < fuel)%nat →
  ∃ c s, itoa_go fuel n acc = String c s.
Proof.
  revert n acc. induction fuel as [|fuel IH]; intros n acc H; cbn [itoa_go].
  - destruct acc; [naive_solver lia|eauto].
  - case_match; [eauto|]. apply IH. by left.
Qed.

(** The first character of a number is a digit, so never a sign. *)
Lemma parse_digits_head a c s v : parse_digits a (String c s) = Some v → is_Some (digit_val c).
Proof. cbn. destruct (digit_val c); [eauto|done]. Qed.

Lemma atoi_digits c s v :
  parse_digits 0 (String c s) = Some v → in_int v → atoi (String c s) = Some v.
Proof.
  intros Hp Hv. pose proof (parse_digits_head _ _ _ _ Hp) as [d Hd].
  unfold atoi, parse_unsigned.
  assert (c ≠ "-"%char ∧ c ≠ "+"%char) as [Hm Hpl] by (split; intros ->; done).
  replace (match c with "-"%char => _ | "+"%char => _ | _ => _ end)
    with (parse_digits 0 (String c s)).
  - rewrite Hp. cbn. unfold in_int in Hv. rewrite andb_true_intro; [done|].
    split; apply Z.leb_le; lia.
  - destruct c as [[] [] [] [] [] [] [] []]; try done.
Qed.

Lemma atoi_itoa z : in_int z → atoi (itoa z) = Some z.
Proof.
  intros Hz. unfold itoa.
  assert (10 ^ Z.of_nat 20 = 100000000000000000000) as E20 by done.
  pose proof Hz as Hz'. unfold in_int, int_min, int_max in Hz'.
  destruct (Z.ltb_spec z 0).
  - destruct (itoa_go_nonempty 20 (- z) "") as (c & s & E); [right; lia|].
    pose proof (parse_digits_itoa 20 (- z) "" ltac:(lia) ltac:(lia)) as Hp.
    rewrite E in *. unfold atoi, parse_unsigned. rewrite Hp. cbn.
    rewrite Z.opp_involutive, andb_true_intro; [done|].
    unfold in_int in Hz. split; apply Z.leb_le; lia.
  - destruct (itoa_go_nonempty 20 z "") as (c & s & E); [right; lia|].
    pose proof (parse_digits_itoa 20 z "" ltac:(lia) ltac:(lia)) as Hp.
    rewrite E in *. by apply atoi_digits.
Qed.

(** ** Round trip of [Join] and [Split] *)
Lemma split_on_nonempty sep s : split_on sep s ≠ [].
Proof. destruct s as [|c s]; cbn; [done|]. repeat case_match; done. Qed.

Lemma split_on_free sep s : str_mem sep s = false → split_on sep s = [s].
Proof.
  induction s as [|c s IH]; cbn; [done|]. intros [Hc Hs]%orb_false_iff.
  by rewrite Hc, IH.
Qed.

Lemma split_on_app sep w s :
  str_mem sep w = false → split_on sep (w ++ String sep s) = w :: split_on sep s.
Proof.
  induction w as [|c w IH]; cbn.
  - intros _. by rewrite Ascii.eqb_refl.
  - intros [Hc Hw]%orb_false_iff. by rewrite Hc, IH.
Qed.

Lemma join_cons sep w w' l :
  join (String sep "") (w :: w' :: l) = w ++ String sep (join (String sep "") (w' :: l)).
Proof. reflexivity. Qed.

Lemma split_join sep l :
  l ≠ [] → Forall (λ w, str_mem sep w = false) l →
  split_on sep (join (String sep "") l) = l.
Proof.
  intros Hne Hl. induction Hl as [|w l Hw Hl IH]; [done|].
  destruct l as [|w' l]; [by apply split_on_free|].
  rewrite join_cons, split_on_app by done. f_equal. by apply IH.
Qed.

Lemma strip_prefix_spec p s s' : strip_prefix p s = Some s' ↔ s = p ++ s'.
Proof.
  revert s. induction p as [|a p IH]; intros s; cbn; [naive_solver|].
  destruct s as [|b s]; [done|]. destruct (Ascii.eqb_spec a b) as [->|Hab].
  - rewrite IH. naive_solver.
  - naive_solver.
Qed.

Lemma str_length_app s1 s2 : String.length (s1 ++ s2) = (String.length s1 + String.length s2)%nat.
Proof. induction s1 as [|c s1 IH]; cbn; [done|]. by rewrite IH. Qed.

Lemma str_app_nil_r s : s ++ "" = s.
Proof. induction s as [|c s IH]; cbn; [done|]. by rewrite IH. Qed.

Lemma str_app_assoc (s1 s2 s3 : string) : s1 ++ (s2 ++ s3) = (s1 ++ s2) ++ s3.
Proof. induction s1 as [|c s1 IH]; cbn; [done|]. by rewrite IH. Qed.

Lemma str_mem_app c s1 s2 : str_mem c (s1 ++ s2) = str_mem c s1 || str_mem c s2.
Proof. induction s1 as [|a s1 IH]; cbn; [done|]. by rewrite IH, orb_assoc. Qed.

Lemma strip_prefix_length p s s' :
  strip_prefix p s = Some s' → String.length s = (String.length p + String.length s')%nat.
Proof.
  revert s. induction p as [|c p IH]; intros s; cbn; [by intros [= ->]|].
  destruct s as [|c' s]; [done|]. destruct (Ascii.eqb c c'); [|done]. intros E%IH. cbn. lia.
Qed.

(** The fuel of [trim_words] is enough: what it leaves starts with no word. *)
Lemma trim_words_done words fuel s :
  Forall (λ w, w ≠ "") words → (String.length s ≤ fuel)%nat →
  head (omap (λ w, strip_prefix w (trim_words words fuel s)) words) = None.
Proof.
  intros Hw. revert s. induction fuel as [|fuel IH]; intros s Hlen.
  - destruct s; [|cbn in Hlen; lia]. cbn. induction Hw as [|w ws Hne _ IHw]; [done|].
    cbn. by destruct w.
  - cbn. destruct (head (omap (λ w, strip_prefix w s) words)) as [s'|] eqn:E; [|done].
    apply IH. apply head_Some_elem_of in E as Hs.
    apply list_elem_of_omap in Hs as (w & Hin & Hs).
    rewrite Forall_forall in Hw. pose proof (Hw w Hin) as Hne. apply strip_prefix_length in Hs.
    destruct w as [|c w]; [done|]. cbn in Hs. lia.
Qed.

Example trim_space_ex : trim_space (String (byte 9) " a b  ") = "a b".
Proof. reflexivity. Qed.

Example atoi_ex : atoi "-9223372036854775808" = Some int_min ∧ atoi "9223372036854775808" = None
  ∧ atoi "+7" = Some 7 ∧ atoi "1e3" = None ∧ atoi "" = None.
Proof. repeat split. Qed.

Lemma str_app_inv_l s s1 s2 : s ++ s1 = s ++ s2 → s1 = s2.
Proof. induction s as [|c s IH]; cbn; [done|]. intros [= H]. auto. Qed.

(** ** Prefixes, by the parts between separators *)
Lemma prefix_app p s : String.prefix p s = true ↔ ∃ r, s = p ++ r.
Proof.
  revert s. induction p as [|a p IH]; intros [|b s]; cbn; try by (split; eauto).
  - split; [done|]. by intros [r Hr].
  - destruct (ascii_dec a b) as [->|Hab].
    + rewrite IH. split; intros [r Hr]; exists r; congruence.
    + split; [done|]. intros [r Hr]. congruence.
Qed.

(** A prefix agrees on all its parts but the last, which is a prefix there. *)
Lemma split_prefix sep p r l w :
  split_on sep p = (l ++ [w])%list → ∃ h t, split_on sep (p ++ r) = (l ++ (w ++ h)%string :: t)%list.
Proof.
  revert l w. induction p as [|c p IH]; cbn; intros l w Hp.
  - destruct l as [|x l]; [injection Hp as <-|by destruct l].
    destruct (split_on sep r) as [|h t] eqn:E; [by apply split_on_nonempty in E|]. by exists h, t.
  - destruct (Ascii.eqb c sep) eqn:Ec.
    + destruct l as [|x l]; [injection Hp as _ Hp; by apply split_on_nonempty in Hp|].
      injection Hp as <- Hp. destruct (IH _ _ Hp) as (h & t & ->). by exists h, t.
    + destruct (split_on sep p) as [|y ys] eqn:E; [by apply split_on_nonempty in E|].
      destruct l as [|x l]; injection Hp as <- Hp.
      * destruct ys; [|done]. destruct (IH [] y eq_refl) as (h & t & ->). by exists h, t.
      * subst ys. destruct (IH (y :: l) w eq_refl) as (h & t & ->). by exists h, t.
Qed.

Lemma split_app_sep sep a b : split_on sep (a ++ String sep b) = (split_on sep a ++ split_on sep b)%list.
Proof.
  induction a as [|c a IH]; cbn; [by rewrite Ascii.eqb_refl|].
  rewrite IH. destruct (Ascii.eqb c sep); [done|].
  destruct (split_on sep a) as [|x l] eqn:E; [by apply split_on_nonempty in E|done].
Qed.

(** Decimal numbers hold nothing but digits and a sign, and determine the number. *)
Lemma itoa_go_free c fuel n acc :
  (∀ d, 0 ≤ d < 10 → Ascii.eqb (digit_char d) c = false) →
  str_mem c acc = false → str_mem c (itoa_go fuel n acc) = false.
Proof.
  intros Hc. revert n acc. induction fuel as [|fuel IH]; intros n acc Hacc; cbn [itoa_go]; [done|].
  assert (str_mem c (String (digit_char (n mod 10)) acc) = false) as Hmem.
  { cbn [str_mem]. rewrite Hacc, orb_false_r. apply Hc, Z.mod_pos_bound. lia. }
  case_match; [done|by apply IH].
Qed.

Lemma digit_char_not c : digit_val c = None → ∀ d, 0 ≤ d < 10 → Ascii.eqb (digit_char d) c = false.
Proof.
  intros Hc d Hd. destruct (Ascii.eqb_spec (digit_char d) c) as [E|]; [|done].
  apply digit_val_char in Hd. congruence.
Qed.

Lemma itoa_free c z : digit_val c = None → 0 ≤ z → str_mem c (itoa z) = false.
Proof.
  intros Hc Hz. unfold itoa. rewrite (proj2 (Z.ltb_ge _ _)) by done.
  apply itoa_go_free; [by apply digit_char_not|done].
Qed.

Lemma itoa_no_slash z : 0 ≤ z → str_mem "/" (itoa z) = false.
Proof. by apply itoa_free. Qed.

Lemma str_app_inv_r s1 s2 s : s1 ++ s = s2 ++ s → s1 = s2.
Proof.
  revert s2. induction s1 as [|c s1 IH]; intros [|c2 s2] E; [done|..].
  - apply (f_equal String.length) in E. rewrite !str_length_app in E. cbn in E. lia.
  - apply (f_equal String.length) in E. rewrite !str_length_app in E. cbn in E. lia.
  - cbn in E. injection E as -> E. f_equal. by apply IH.
Qed.

Lemma itoa_inj x y : in_int x → in_int y → itoa x = itoa y → x = y.
Proof. intros Hx%atoi_itoa Hy%atoi_itoa E. congruence. Qed.

(** ** Reversal *)
Lemma rev_app_acc s acc : String.rev_app s acc = String.rev s ++ acc.
Proof.
  unfold String.rev. revert acc. induction s as [|c s IH]; intros acc; [done|].
  cbn [String.rev_app]. rewrite (IH (String c acc)), (IH (String c "")). by rewrite <-str_app_assoc.
Qed.

Lemma rev_cons_str c s : String.rev (String c s) = String.rev s ++ String c "".
Proof. exact (rev_app_acc s (String c "")). Qed.

Lemma rev_app_str s t : String.rev (s ++ t) = String.rev t ++ String.rev s.
Proof.
  induction s as [|c s IH]; [symmetry; apply str_app_nil_r|].
  change (String c s ++ t) with (String c (s ++ t)). rewrite !rev_cons_str, IH. by rewrite <-str_app_assoc.
Qed.

Lemma rev_involutive_str s : String.rev (String.rev s) = s.
Proof.
  induction s as [|c s IH]; [done|]. rewrite rev_cons_str, rev_app_str, IH. done.
Qed.

Lemma str_mem_rev c s : str_mem c (String.rev s) = str_mem c s.
Proof.
  induction s as [|a s IH]; [done|]. rewrite rev_cons_str, str_mem_app, IH. cbn.
  by rewrite orb_false_r, orb_comm.
Qed.

(** ** Trimming and splitting *)

(** A visible ASCII character: no white space starts or ends with one. *)
Definition plain (c : ascii) : bool := (33 <=? N_of_ascii c)%N && (N_of_ascii c <=? 126)%N.

Fixpoint str_all (p : ascii → bool) (s : string) : bool :=
  match s with
  | EmptyString => true
  | String c s' => p c && str_all p s'
  end.

(** The string starts and ends with a visible character. *)
Definition plain_head (s : string) : bool :=
  match s with String a _ => plain a | EmptyString => false end.

Definition neat (s : string) : bool := plain_head s && plain_head (String.rev s).

(** [strings.Split] with a longer separator; [skip] bytes of one are left. *)
Fixpoint split_skip (sep : string) (skip : nat) (s : string) : list string :=
  match s with
  | EmptyString => [""]
  | String c s' =>
      match skip with
      | S k => split_skip sep k s'
      | O =>
          if has_prefix s sep then "" :: split_skip sep (String.length sep - 1) s'
          else match split_skip sep 0 s' with
               | w :: ws => String c w :: ws
               | [] => [String c ""]
               end
      end
  end.

Definition split_str (sep s : string) : list string := split_skip sep 0 s.

Lemma trim_words_plain words fuel c s :
  Forall (λ w, match w with String a _ => plain a = false | EmptyString => False end) words →
  plain c = true → trim_words words fuel (String c s) = String c s.
Proof.
  intros Hw Hc. destruct fuel as [|fuel]; cbn [trim_words]; [done|].
  replace (head _) with (@None string); [done|]. symmetry.
  induction Hw as [|w ws Hwd _ IH]; [done|]. destruct w as [|a w]; [done|]. cbn.
  destruct (Ascii.eqb_spec a c) as [->|]; [congruence|]. exact IH.
Qed.

Lemma spaces_not_plain :
  Forall (λ w, match w with String a _ => plain a = false | EmptyString => False end) unicode_spaces ∧
  Forall (λ w, match w with String a _ => plain a = false | EmptyString => False end)
    (String.rev <$> unicode_spaces).
Proof. split; repeat (apply Forall_cons; split; [reflexivity|]); apply Forall_nil; done. Qed.

Lemma trim_left_plain c s : plain c = true → trim_left (String c s) = String c s.
Proof. apply trim_words_plain, spaces_not_plain. Qed.

Lemma neat_ends s : neat s = true →
  ∃ a s' b r, s = String a s' ∧ String.rev s = String b r ∧ plain a = true ∧ plain b = true.
Proof.
  unfold neat, plain_head. intros [Ha Hb]%andb_true_iff. destruct s as [|a s']; [done|].
  destruct (String.rev (String a s')) as [|b r]; [done|]. by exists a, s', b, r.
Qed.

(** Nothing is trimmed from a neat string, and a line end after it is. *)
Lemma trim_space_neat s : neat s = true → trim_space s = s.
Proof.
  intros (a & s' & b & r & -> & E & Ha & Hb)%neat_ends. unfold trim_space. rewrite trim_left_plain by done.
  unfold trim_right. rewrite E, trim_words_plain by (done || apply spaces_not_plain).
  by rewrite <-E, rev_involutive_str.
Qed.

Lemma trim_space_newline s : neat s = true → trim_space (s ++ String (byte 10) "") = s.
Proof.
  intros (a & s' & b & r & -> & E & Ha & Hb)%neat_ends. unfold trim_space.
  change (String a s' ++ ?x) with (String a (s' ++ x)).
  rewrite trim_left_plain by done. change (String a (s' ++ ?x)) with (String a s' ++ x).
  unfold trim_right. rewrite rev_app_str, E. change (String.rev (String (byte 10) "")) with (String (byte 10) "").
  rewrite str_length_app, Nat.add_comm. generalize (String.length (String a s')) as n. intros n.
  assert (∀ t, head (omap (λ w, strip_prefix w (String (byte 10) t)) (String.rev <$> unicode_spaces)) = Some t)
    as Hh by reflexivity.
  cbn [String.length Nat.add trim_words]. change (String (byte 10) "" ++ ?x) with (String (byte 10) x). rewrite Hh.
  rewrite trim_words_plain by (done || apply spaces_not_plain). by rewrite <-E, rev_involutive_str.
Qed.

Lemma neat_app a m b : neat a = true → neat b = true → neat (a ++ m ++ b) = true.
Proof.
  intros (x & a' & _ & _ & -> & _ & Hx & _)%neat_ends (_ & _ & y & r & _ & E & _ & Hy)%neat_ends.
  unfold neat. rewrite !rev_app_str, E. cbn. by rewrite Hx, Hy.
Qed.

Lemma str_all_app p s t : str_all p (s ++ t) = str_all p s && str_all p t.
Proof. induction s as [|c s IH]; cbn; [done|]. by rewrite IH, andb_assoc. Qed.

Lemma str_all_mem p c s : str_all p s = true → p c = false → str_mem c s = false.
Proof.
  intros Hs Hc. induction s as [|a s IH]; cbn in *; [done|]. apply andb_true_iff in Hs as [Ha Hs].
  rewrite IH by done. destruct (Ascii.eqb_spec a c) as [->|]; [congruence|done].
Qed.

Lemma str_all_rev p s : str_all p (String.rev s) = str_all p s.
Proof.
  induction s as [|c s IH]; [done|]. rewrite rev_cons_str, str_all_app, IH. cbn. by rewrite andb_true_r, andb_comm.
Qed.

Lemma str_all_neat s : s ≠ "" → str_all plain s = true → neat s = true.
Proof.
  intros Hne Hs. unfold neat. pose proof Hs as Hr. rewrite <-str_all_rev in Hr.
  destruct s as [|a s]; [done|]. destruct (String.rev (String a s)) as [|b r] eqn:E.
  { apply (f_equal String.rev) in E. rewrite rev_involutive_str in E. done. }
  cbn in *. apply andb_true_iff in Hs as [-> _]. by apply andb_true_iff in Hr as [-> _].
Qed.

(** The characters of a number. *)
Lemma itoa_go_all p fuel n acc :
  (∀ d, 0 ≤ d < 10 → p (digit_char d) = true) → str_all p acc = true → str_all p (itoa_go fuel n acc) = true.
Proof.
  intros Hp. revert n acc. induction fuel as [|fuel IH]; intros n acc Hacc; cbn [itoa_go]; [done|].
  assert (str_all p (String (digit_char (n mod 10)) acc) = true) as Hd.
  { cbn [str_all]. rewrite Hacc, andb_true_r. apply Hp, Z.mod_pos_bound. lia. }
  case_match; [done|by apply IH].
Qed.

Lemma itoa_all p z :
  (∀ d, 0 ≤ d < 10 → p (digit_char d) = true) → p "-"%char = true → str_all p (itoa z) = true.
Proof.
  intros Hp Hm. unfold itoa. case_match; cbn [str_all]; [rewrite Hm; cbn [andb]|]; by apply itoa_go_all.
Qed.

Lemma digit_cases (P : Z → Prop) : P 0 → P 1 → P 2 → P 3 → P 4 → P 5 → P 6 → P 7 → P 8 → P 9 →
  ∀ d, 0 ≤ d < 10 → P d.
Proof.
  intros ?????????? d Hd.
  assert (d = 0 ∨ d = 1 ∨ d = 2 ∨ d = 3 ∨ d = 4 ∨ d = 5 ∨ d = 6 ∨ d = 7 ∨ d = 8 ∨ d = 9)
    as Hc by lia.
  by destruct_or! Hc; subst d.
Qed.

Lemma itoa_nonempty z : itoa z ≠ "".
Proof.
  unfold itoa. case_match; [done|]. destruct (itoa_go_nonempty 20 z "") as (c & s & ->); [right; lia|done].
Qed.

Lemma itoa_plain z : str_all plain (itoa z) = true.
Proof. by apply itoa_all; [apply digit_cases|]. Qed.

Lemma neat_itoa z : neat (itoa z) = true.
Proof. apply str_all_neat; [apply itoa_nonempty|apply itoa_plain]. Qed.

(** The parts between separators whose first character they do not hold. *)
Lemma split_skip_drop sep k p s : String.length p = k → split_skip sep k (p ++ s) = split_skip sep 0 s.
Proof.
  revert p. induction k as [|k IH]; intros [|c p]; cbn [String.length]; intros [=]; [done|].
  change (String c p ++ s) with (String c (p ++ s)). cbn [split_skip]. by apply IH.
Qed.

Lemma has_prefix_head c sep a s : Ascii.eqb a c = false → has_prefix (String a s) (String c sep) = false.
Proof.
  unfold has_prefix. cbn. intros Hne. destruct (ascii_dec c a) as [->|]; [|done].
  by rewrite Ascii.eqb_refl in Hne.
Qed.

Lemma split_str_free c sep w : str_mem c w = false → split_str (String c sep) w = [w].
Proof.
  unfold split_str. induction w as [|a w IH]; [done|]. cbn [str_mem]. intros [Ha Hw]%orb_false_iff.
  cbn [split_skip]. rewrite has_prefix_head by done. by rewrite IH.
Qed.

Lemma split_str_app c sep w s :
  str_mem c w = false → split_str (String c sep) (w ++ String c sep ++ s) = w :: split_str (String c sep) s.
Proof.
  unfold split_str. induction w as [|a w IH].
  - intros _. change ("" ++ ?x) with x. change (String c sep ++ s) with (String c (sep ++ s)). cbn [split_skip].
    replace (has_prefix _ _) with true.
    + f_equal. apply split_skip_drop. cbn. lia.
    + symmetry. apply prefix_app. by exists s.
  - cbn [str_mem]. intros [Ha Hw]%orb_false_iff. change (String a w ++ ?x) with (String a (w ++ x)).
    cbn [split_skip]. rewrite has_prefix_head by done. by rewrite IH.
Qed.
