(* ===== verification/Types.v ===== *)
(** * Shared data types: pkg/types, pkg/controlplane, internal/agent/types.go

    Go's string enumerations ([type InferenceRole string]) stay strings, since
    values decoded from JSON or annotations need not be one of the constants.
    The timestamps that results carry only for reporting are left out. *)

From stdpp Require Import base list strings gmap.
From Stdlib Require Import ZArith.
From S2P Require Import Prelude GoFloat.
Open Scope string_scope.
Open Scope Z_scope.
Open Scope go_scope.

(** ** pkg/types/types.go *)
Definition MemoryPerGPU : string := "per-gpu".
Definition MemoryTotal : string := "total".
Definition MemoryNone : string := "none".

Definition Build : string := "build".
Definition Training : string := "training".
Definition Inference : string := "inference".

Definition Prefill : string := "prefill".
Definition Decode : string := "decode".
Definition Unified : string := "unified".
Definition Unknown : string := "unknown".

Record GPUPlacement : Type := mkGPUPlacement {
  gp_NodeName : string;
  gp_GPUID : string;
  gp_MemoryMB : Z
}.

(** [uuid.UUID] values are compared only for equality. *)
Record Job : Type := mkJob {
  job_ID : string;
  job_Name : string;
  job_Namespace : string;
  job_GPUCount : Z;
  job_MemoryMB : Z;
  job_Workflow : string;
  job_Shared : bool
}.

Record GPU : Type := mkGPU {
  gpu_ID : string;
  gpu_Index : Z;
  gpu_NodeName : string;
  gpu_TotalMemoryMB : Z;
  gpu_UsedMemoryMB : Z;
  gpu_UtilizationPercent : float64;
  gpu_IsHealthy : bool;
  gpu_IsShared : bool;
  gpu_AllocatedPods : Z;
  gpu_IsMPS : bool
}.

Definition AvailableMemoryMB (g : GPU) : Z := gpu_TotalMemoryMB g ⊟ gpu_UsedMemoryMB g.

(** [g.UsedMemoryMB = v] and the other assignments the source makes to a GPU. *)
Definition set_UsedMemoryMB (v : Z) (g : GPU) : GPU :=
  mkGPU (gpu_ID g) (gpu_Index g) (gpu_NodeName g) (gpu_TotalMemoryMB g) v
    (gpu_UtilizationPercent g) (gpu_IsHealthy g) (gpu_IsShared g) (gpu_AllocatedPods g) (gpu_IsMPS g).

Definition set_AllocatedPods (v : Z) (g : GPU) : GPU :=
  mkGPU (gpu_ID g) (gpu_Index g) (gpu_NodeName g) (gpu_TotalMemoryMB g) (gpu_UsedMemoryMB g)
    (gpu_UtilizationPercent g) (gpu_IsHealthy g) (gpu_IsShared g) v (gpu_IsMPS g).

Record NodeInfo : Type := mkNodeInfo {
  node_Name : string;
  node_Labels : gmap string string;
  node_GPUs : list GPU;
  node_HasNVLink : bool;
  node_TotalGPUs : Z;
  node_AvailableGPUs : Z;
  node_Conditions : list string
}.

Definition set_GPUs (gs : list GPU) (n : NodeInfo) : NodeInfo :=
  mkNodeInfo (node_Name n) (node_Labels n) gs (node_HasNVLink n) (node_TotalGPUs n)
    (node_AvailableGPUs n) (node_Conditions n).

Record SchedulingResult : Type := mkSchedulingResult {
  sr_JobID : string;
  sr_NodeName : string;
  sr_GPUIDs : list string;
  sr_Success : bool;
  sr_IsMIG : bool
}.

Record GangSchedulingResult : Type := mkGangSchedulingResult {
  gsr_JobID : string;
  gsr_Placements : list GPUPlacement
}.

Record DisaggPodIntent : Type := mkDisaggPodIntent {
  di_Role : string;
  di_ModelGroup : string;
  di_IsDisagg : bool;
  di_IsValid : bool;
  di_Reason : string
}.

(** ** pkg/controlplane/types.go *)
Definition Normal : string := "normal".
Definition PrefillHot : string := "prefill_hot".
Definition DecodeHot : string := "decode_hot".

Definition Starting : string := "starting".
Definition Ready : string := "ready".
Definition Draining : string := "draining".
Definition Removed : string := "removed".

Record PressureReport : Type := mkPressureReport {
  pr_ModelGroup : string;
  pr_Inflight : Z;
  pr_QueueWaitP95 : float64;
  pr_TTFTP95 : float64;
  pr_ITLP95 : float64;
  pr_PressureState : string
}.

Record WorkerInfo : Type := mkWorkerInfo {
  wi_ID : string;
  wi_Role : string;
  wi_State : string;
  wi_Routable : bool;
  wi_GPU2GPUReady : bool;
  wi_Endpoint : string;
  wi_ModelGroup : string
}.

Record WorkerStat : Type := mkWorkerStat {
  ws_ID : string;
  ws_Inflight : Z;
  ws_QueueWaitP95 : float64;
  ws_TTFTP95 : float64;
  ws_ITLP95 : float64
}.

(** ** internal/agent/types.go *)
Record MIGInstance : Type := mkMIGInstance {
  mig_GIIndex : Z;
  mig_CIIndex : Z;
  mig_UUID : string;
  mig_ProfileName : string;
  mig_ProfileID : Z;
  mig_MemoryMB : Z;
  mig_SMCount : Z;
  mig_PlacementStart : Z;
  mig_PlacementSize : Z;
  mig_IsAvailable : bool
}.

Definition set_IsAvailable (b : bool) (m : MIGInstance) : MIGInstance :=
  mkMIGInstance (mig_GIIndex m) (mig_CIIndex m) (mig_UUID m) (mig_ProfileName m) (mig_ProfileID m)
    (mig_MemoryMB m) (mig_SMCount m) (mig_PlacementStart m) (mig_PlacementSize m) b.

Record GPUInfo : Type := mkGPUInfo {
  gi_UUID : string;
  gi_Index : Z;
  gi_Name : string;
  gi_TotalMemoryMB : Z;
  gi_UsedMemoryMB : Z;
  gi_FreeMemoryMB : Z;
  gi_UtilizationGPU : Z;
  gi_Temperature : Z;
  gi_IsHealthy : bool;
  gi_MPSEnabled : bool;
  gi_MIGEnabled : bool;
  gi_MIGInstances : list MIGInstance
}.

Definition set_MIGInstances (ms : list MIGInstance) (g : GPUInfo) : GPUInfo :=
  mkGPUInfo (gi_UUID g) (gi_Index g) (gi_Name g) (gi_TotalMemoryMB g) (gi_UsedMemoryMB g)
    (gi_FreeMemoryMB g) (gi_UtilizationGPU g) (gi_Temperature g) (gi_IsHealthy g)
    (gi_MPSEnabled g) (gi_MIGEnabled g) ms.

Definition set_UsedFree (used free : Z) (g : GPUInfo) : GPUInfo :=
  mkGPUInfo (gi_UUID g) (gi_Index g) (gi_Name g) (gi_TotalMemoryMB g) used free
    (gi_UtilizationGPU g) (gi_Temperature g) (gi_IsHealthy g)
    (gi_MPSEnabled g) (gi_MIGEnabled g) (gi_MIGInstances g).

Record GPUReport : Type := mkGPUReport {
  rep_NodeName : string;
  rep_HasNVLink : bool;
  rep_GPUs : list GPUInfo
}.

(** ** Time

    A [time.Time] is a number of nanoseconds since the zero [Time], so
    [t.IsZero()] is [t =? 0]; [t.Sub] saturates at the range of
    [time.Duration], an [int64] of nanoseconds. *)
Definition Time : Type := Z.

Definition IsZero (t : Time) : bool := t =? 0.

Definition time_sub (t u : Time) : Z := Z.max int_min (Z.min int_max (t - u)).

(** [time.Duration(n) * time.Second] *)
Definition seconds (n : Z) : Z := n ⊠ 1000000000.
