(* ===== verification/K8s.v ===== *)
(** * The Kubernetes objects the scheduler reads and writes

    The API types are the client library's; these records have the fields the
    source accesses.  A nil map and an empty one are identified, as they are by
    every read the scheduler makes and by the API's serialisation. *)

From Stdlib Require Import ZArith Ascii String.
From stdpp Require Import base list strings gmap.
From S2P Require Import Prelude GoStrings.
Open Scope string_scope.
Open Scope Z_scope.

(** [resource.Quantity], seen through [Value()] and [IsZero()]. *)
Record Quantity : Type := mkQuantity {
  q_Value : Z;
  q_IsZero : bool
}.

Record EnvVar : Type := mkEnvVar {
  env_Name : string;
  env_Value : string
}.

Record Container : Type := mkContainer {
  c_Name : string;
  c_Env : list EnvVar;
  c_Limits : gmap string Quantity;
  c_Requests : gmap string Quantity;
  c_VolumeMounts : list string
}.

(** A preferred node-affinity term: weight, key, operator, values. *)
Record PreferredTerm : Type := mkPreferredTerm {
  pt_Weight : Z;
  pt_Key : string;
  pt_Operator : string;
  pt_Values : list string
}.

Record Pod : Type := mkPod {
  pod_Name : string;
  pod_Namespace : string;
  pod_Labels : gmap string string;
  pod_Annotations : gmap string string;
  pod_CreationTimestamp : Z;
  pod_SchedulerName : string;
  pod_NodeName : string;
  pod_Affinity : option (list PreferredTerm);
  pod_Containers : list Container;
  pod_InitContainers : list Container;
  pod_Volumes : list string;
  pod_Phase : string;
  pod_Conditions : list (string * string)
}.

Definition PodPending : string := "Pending".
Definition PodRunning : string := "Running".
Definition PodSucceeded : string := "Succeeded".
Definition PodFailed : string := "Failed".

(** [pod.Annotations[k]] with its [exists] flag. *)
Definition annotation (pod : Pod) (k : string) : option string := pod_Annotations pod !! k.

(** [pod.Annotations[k]], the empty string when absent. *)
Definition annotation_or_empty (pod : Pod) (k : string) : string := default "" (annotation pod k).

(** A node of the cluster. *)
Record KNode : Type := mkKNode {
  kn_Name : string;
  kn_Labels : gmap string string;
  kn_Capacity : gmap string Quantity;
  kn_Conditions : list (string * string)
}.

(** [Pods(ns).Get] and [Pods(ns).Update]. *)
Class PodStore (W : Type) : Type := {
  GetPod : W → string → string → W * result string Pod;
  UpdatePod : W → Pod → W * option string
}.

(** [Pods(ns).Bind]: namespace, pod and node. *)
Class PodBinder (W : Type) : Type := {
  Bind : W → string → string → string → W * option string
}.

Definition set_Annotations (m : gmap string string) (p : Pod) : Pod :=
  mkPod (pod_Name p) (pod_Namespace p) (pod_Labels p) m (pod_CreationTimestamp p)
    (pod_SchedulerName p) (pod_NodeName p) (pod_Affinity p) (pod_Containers p)
    (pod_InitContainers p) (pod_Volumes p) (pod_Phase p) (pod_Conditions p).

Definition set_Containers (inits containers : list Container) (p : Pod) : Pod :=
  mkPod (pod_Name p) (pod_Namespace p) (pod_Labels p) (pod_Annotations p) (pod_CreationTimestamp p)
    (pod_SchedulerName p) (pod_NodeName p) (pod_Affinity p) containers inits (pod_Volumes p)
    (pod_Phase p) (pod_Conditions p).

Definition set_Env (env : list EnvVar) (c : Container) : Container :=
  mkContainer (c_Name c) env (c_Limits c) (c_Requests c) (c_VolumeMounts c).

(** The key [namespace + "/" + name] under which pods are tracked. *)
Definition pod_key (namespace name : string) : string := namespace ++ "/" ++ name.

(** A pending pod with the given annotations, used by the examples. *)
Definition sample_pod (ns name : string) (ann : list (string * string)) : Pod :=
  mkPod name ns ∅ (list_to_map ann) 0 "gpu-scheduler" "" None [] [] [] PodPending [].

(** Kubernetes namespaces are DNS labels, so they hold no slash and the key
    determines the pod. *)
Lemma pod_key_inj ns1 n1 ns2 n2 :
  str_mem "/"%char ns1 = false → str_mem "/"%char ns2 = false →
  pod_key ns1 n1 = pod_key ns2 n2 → ns1 = ns2 ∧ n1 = n2.
Proof.
  intros H1 H2 E. pose proof (f_equal (split_on "/"%char) E) as Es. unfold pod_key in *.
  change ("/" ++ n1) with (String "/"%char n1) in *. change ("/" ++ n2) with (String "/"%char n2) in *.
  rewrite !split_on_app in Es by done. injection Es as -> _.
  by apply str_app_inv_l in E as [= ->].
Qed.
