(* ===== verification/Config.v ===== *)
(** * internal/config: the configuration and its validation

    [Config.Validate] is the whole decision [config.Load] makes once the file
    is parsed; parsing itself is the viper library's.  Errors are values of
    [ConfigError], one constructor per message. *)

From stdpp Require Import base list strings gmap.
From Stdlib Require Import ZArith Lia.
From S2P Require Import Prelude GoStrings.
Open Scope string_scope.
Open Scope Z_scope.

Record SchedulerConfig : Type := mkSchedulerConfig {
  sc_Name : string;
  sc_Port : Z;
  sc_MetricsPort : Z;
  sc_Mode : string;
  sc_GangTimeoutSeconds : Z;
  sc_PreemptionEnabled : bool;
  sc_CheckpointTimeoutSeconds : Z;
  sc_PreemptionGracePeriod : Z;
  sc_AutoResumeMaxRetries : Z;
  sc_AutoResumePriorityBoost : Z
}.

Record WorkFlowTypeConfig : Type := mkWorkFlowTypeConfig {
  wf_Name : string;
  wf_Priority : Z;
  wf_Preemptible : bool
}.

Record WorkflowConfig : Type := mkWorkflowConfig {
  wfc_Enabled : bool;
  wfc_AllowCustom : bool;
  wfc_DefaultPriority : Z;
  wfc_Types : list WorkFlowTypeConfig
}.

Record QueueConfig : Type := mkQueueConfig {
  qc_MaxSize : Z;
  qc_DefaultPolicy : string
}.

Record GPUConfig : Type := mkGPUConfig {
  gc_PollIntervalSeconds : Z;
  gc_MockMode : bool
}.

Record KubernetesConfig : Type := mkKubernetesConfig {
  kc_Kubeconfig : string;
  kc_Namespace : string
}.

Record LoggingConfig : Type := mkLoggingConfig {
  lc_Level : string;
  lc_Format : string
}.

Record ProxyConfig : Type := mkProxyConfig {
  pc_Enabled : bool;
  pc_Port : Z;
  pc_SchedulerURL : string
}.

Record ModelGroups : Type := mkModelGroups {
  mg_Name : string;
  mg_TTFTHotMs : Z;
  mg_ITLHotMs : Z;
  mg_MaxPrefillWorkers : Z;
  mg_MaxDecodeWorkers : Z;
  mg_ExecutionScript : string
}.

Record RebalancingConfig : Type := mkRebalancingConfig {
  rc_Enabled : bool;
  rc_DryRun : bool;
  rc_TickIntervalSeconds : Z;
  rc_SustainWindowSeconds : Z;
  rc_CooldownSeconds : Z;
  rc_DrainTimeoutSeconds : Z;
  rc_AllowScaleUp : bool;
  rc_AllowScaleDown : bool;
  rc_ModelGroups : list ModelGroups
}.

Record Config : Type := mkConfig {
  cfg_Scheduler : SchedulerConfig;
  cfg_Queue : QueueConfig;
  cfg_Workflows : WorkflowConfig;
  cfg_GPU : GPUConfig;
  cfg_Kubernetes : KubernetesConfig;
  cfg_Logging : LoggingConfig;
  cfg_ProxyConfig : ProxyConfig;
  cfg_Rebalancing : RebalancingConfig
}.

Inductive ConfigError : Type :=
  | ESchedulerName
  | EMaxSize
  | EDefaultPriority
  | ENoWorkflowTypes
  | EWorkflowName (i : nat)
  | EWorkflowPriority (name : string)
  | EPort
  | EMetricsPort
  | EPolicy
  | ELogLevel
  | ELogFormat
  | EProxyURL
  | EProxyPort
  | ETick
  | ESustain
  | ECooldown
  | EDrain
  | ENoModelGroups
  | EGroupName (i : nat)
  | EGroupDup (i : nat) (name : string)
  | EGroupTTFT (i : nat)
  | EGroupITL (i : nat)
  | EGroupMaxPrefill (i : nat)
  | EGroupMaxDecode (i : nat).

(** [if bad { return err }] in front of the rest of a validation. *)
Definition reject_if {A} (bad : bool) (e : ConfigError) (k : result ConfigError A) :
    result ConfigError A :=
  if bad then Err e else k.

(** The loop over [config.Workflows.Types]. *)
Fixpoint validate_types (i : nat) (types : list WorkFlowTypeConfig) : result ConfigError unit :=
  match types with
  | [] => Ok tt
  | wf :: types' =>
      reject_if (String.eqb (wf_Name wf) "") (EWorkflowName i) $
      reject_if ((wf_Priority wf <? 0) || (wf_Priority wf >? 100)) (EWorkflowPriority (wf_Name wf)) $
      validate_types (S i) types'
  end.

(** The loop over [config.ModelGroups]; [seen] is the set of trimmed names. *)
Fixpoint validate_groups (i : nat) (seen : gset string) (groups : list ModelGroups) :
    result ConfigError unit :=
  match groups with
  | [] => Ok tt
  | g :: groups' =>
      let name := trim_space (mg_Name g) in
      reject_if (String.eqb name "") (EGroupName i) $
      reject_if (bool_decide (name ∈ seen)) (EGroupDup i name) $
      reject_if (mg_TTFTHotMs g <=? 0) (EGroupTTFT i) $
      reject_if (mg_ITLHotMs g <=? 0) (EGroupITL i) $
      reject_if (mg_MaxPrefillWorkers g <=? 0) (EGroupMaxPrefill i) $
      reject_if (mg_MaxDecodeWorkers g <=? 0) (EGroupMaxDecode i) $
      validate_groups (S i) ({[name]} ∪ seen) groups'
  end.

(** [RebalancingConfig.Validate] *)
Definition RebalancingConfig_Validate (c : RebalancingConfig) : result ConfigError unit :=
  if negb (rc_Enabled c) then Ok tt else
  reject_if (rc_TickIntervalSeconds c <=? 0) ETick $
  reject_if (rc_SustainWindowSeconds c <=? 0) ESustain $
  reject_if (rc_CooldownSeconds c <=? 0) ECooldown $
  reject_if (rc_AllowScaleDown c && (rc_DrainTimeoutSeconds c <=? 0)) EDrain $
  reject_if (length (rc_ModelGroups c) =? 0)%nat ENoModelGroups $
  validate_groups 0 ∅ (rc_ModelGroups c).

Definition validate_workflows (w : WorkflowConfig) : result ConfigError unit :=
  if negb (wfc_Enabled w) then Ok tt else
  reject_if ((wfc_DefaultPriority w <? 0) || (wfc_DefaultPriority w >? 100)) EDefaultPriority $
  reject_if (length (wfc_Types w) <? 1)%nat ENoWorkflowTypes $
  validate_types 0 (wfc_Types w).

Definition validate_proxy (p : ProxyConfig) : result ConfigError unit :=
  if negb (pc_Enabled p) then Ok tt else
  reject_if (String.eqb (pc_SchedulerURL p) "") EProxyURL $
  reject_if ((pc_Port p <? 1) || (pc_Port p >? 65535)) EProxyPort $
  Ok tt.

(** [Config.Validate] *)
Definition Config_Validate (c : Config) : result ConfigError unit :=
  reject_if (String.eqb (sc_Name (cfg_Scheduler c)) "") ESchedulerName $
  reject_if (qc_MaxSize (cfg_Queue c) <=? 0) EMaxSize $
  (_ ← validate_workflows (cfg_Workflows c);
   reject_if ((sc_Port (cfg_Scheduler c) <? 1) || (sc_Port (cfg_Scheduler c) >? 65535)) EPort $
   reject_if ((sc_MetricsPort (cfg_Scheduler c) <? 1) || (sc_MetricsPort (cfg_Scheduler c) >? 65535))
     EMetricsPort $
   reject_if (negb (existsb (String.eqb (qc_DefaultPolicy (cfg_Queue c))) ["fifo"; "binpack"])) EPolicy $
   reject_if (negb (existsb (String.eqb (lc_Level (cfg_Logging c))) ["debug"; "info"; "warn"; "error"]))
     ELogLevel $
   reject_if (negb (existsb (String.eqb (lc_Format (cfg_Logging c))) ["json"; "text"])) ELogFormat $
   (_ ← validate_proxy (cfg_ProxyConfig c);
    RebalancingConfig_Validate (cfg_Rebalancing c))).

(** ** What an accepted configuration promises *)
Definition types_ok (w : WorkflowConfig) : Prop :=
  wfc_Enabled w = true →
  0 ≤ wfc_DefaultPriority w ≤ 100 ∧ wfc_Types w ≠ [] ∧
  Forall (λ t, wf_Name t ≠ "" ∧ 0 ≤ wf_Priority t ≤ 100) (wfc_Types w).

Definition group_ok (g : ModelGroups) : Prop :=
  trim_space (mg_Name g) ≠ "" ∧ 0 < mg_TTFTHotMs g ∧ 0 < mg_ITLHotMs g ∧
  0 < mg_MaxPrefillWorkers g ∧ 0 < mg_MaxDecodeWorkers g.

Definition rebalancing_ok (c : RebalancingConfig) : Prop :=
  rc_Enabled c = true →
  0 < rc_TickIntervalSeconds c ∧ 0 < rc_SustainWindowSeconds c ∧ 0 < rc_CooldownSeconds c ∧
  (rc_AllowScaleDown c = true → 0 < rc_DrainTimeoutSeconds c) ∧ rc_ModelGroups c ≠ [] ∧
  Forall group_ok (rc_ModelGroups c) ∧
  NoDup ((λ g, trim_space (mg_Name g)) <$> rc_ModelGroups c).

Definition port_ok (p : Z) : Prop := 1 ≤ p ≤ 65535.

Definition config_ok (c : Config) : Prop :=
  sc_Name (cfg_Scheduler c) ≠ "" ∧ 0 < qc_MaxSize (cfg_Queue c) ∧ types_ok (cfg_Workflows c) ∧
  port_ok (sc_Port (cfg_Scheduler c)) ∧ port_ok (sc_MetricsPort (cfg_Scheduler c)) ∧
  qc_DefaultPolicy (cfg_Queue c) ∈ ["fifo"; "binpack"] ∧
  lc_Level (cfg_Logging c) ∈ ["debug"; "info"; "warn"; "error"] ∧
  lc_Format (cfg_Logging c) ∈ ["json"; "text"] ∧
  (pc_Enabled (cfg_ProxyConfig c) = true →
    pc_SchedulerURL (cfg_ProxyConfig c) ≠ "" ∧ port_ok (pc_Port (cfg_ProxyConfig c))) ∧
  rebalancing_ok (cfg_Rebalancing c).

(** ** Lemmas *)
Lemma reject_if_ok {A} bad e (k : result ConfigError A) a :
  reject_if bad e k = Ok a ↔ bad = false ∧ k = Ok a.
Proof. unfold reject_if. destruct bad; naive_solver. Qed.

Lemma existsb_string_elem s l : existsb (String.eqb s) l = true ↔ s ∈ l.
Proof.
  rewrite existsb_exists, list_elem_of_In. split.
  - intros (x & Hin & ->%String.eqb_eq). done.
  - intros Hin. exists s. by rewrite String.eqb_refl.
Qed.

Lemma out_of_range lo hi n : (n <? lo) || (n >? hi) = false ↔ lo ≤ n ≤ hi.
Proof. rewrite orb_false_iff, Z.gtb_ltb, !Z.ltb_ge. lia. Qed.

Lemma port_check p : (p <? 1) || (p >? 65535) = false ↔ port_ok p.
Proof. apply out_of_range. Qed.

Lemma validate_types_ok i l :
  validate_types i l = Ok tt ↔ Forall (λ t, wf_Name t ≠ "" ∧ 0 ≤ wf_Priority t ≤ 100) l.
Proof.
  revert i. induction l as [|t l IH]; intros i; cbn; [by split; [constructor|]|].
  by rewrite !reject_if_ok, IH, Forall_cons, out_of_range, String.eqb_neq, (assoc (∧)).
Qed.

Lemma validate_groups_ok i seen l :
  validate_groups i seen l = Ok tt ↔
  Forall group_ok l ∧ NoDup ((λ g, trim_space (mg_Name g)) <$> l) ∧
  Forall (λ g, trim_space (mg_Name g) ∉ seen) l.
Proof.
  revert i seen. induction l as [|g l IH]; intros i seen; cbn -[trim_space].
  { split; [intros _|done]. repeat constructor. }
  rewrite !reject_if_ok, IH, !Forall_cons, NoDup_cons, String.eqb_neq, bool_decide_eq_false,
    !Z.leb_gt, !Forall_forall, list_elem_of_fmap.
  unfold group_ok. set_solver.
Qed.

Lemma RebalancingConfig_Validate_ok c :
  RebalancingConfig_Validate c = Ok tt ↔ rebalancing_ok c.
Proof.
  unfold RebalancingConfig_Validate, rebalancing_ok.
  destruct (rc_Enabled c); cbn; [|by split].
  rewrite !reject_if_ok, !Z.leb_gt, validate_groups_ok.
  assert ((length (rc_ModelGroups c) =? 0)%nat = false ↔ rc_ModelGroups c ≠ []) as ->
    by (destruct (rc_ModelGroups c); naive_solver).
  assert (rc_AllowScaleDown c && (rc_DrainTimeoutSeconds c <=? 0) = false ↔
    (rc_AllowScaleDown c = true → 0 < rc_DrainTimeoutSeconds c)) as ->
    by (destruct (rc_AllowScaleDown c); cbn; rewrite ?Z.leb_gt; naive_solver).
  assert (Forall (λ g, trim_space (mg_Name g) ∉ (∅ : gset string)) (rc_ModelGroups c)) as Hseen
    by (apply Forall_forall; set_solver).
  naive_solver.
Qed.

Lemma validate_workflows_ok w : validate_workflows w = Ok tt ↔ types_ok w.
Proof.
  unfold validate_workflows, types_ok. destruct (wfc_Enabled w); cbn; [|by split].
  rewrite !reject_if_ok, validate_types_ok, out_of_range.
  assert ((length (wfc_Types w) <? 1)%nat = false ↔ wfc_Types w ≠ []) as ->
    by (destruct (wfc_Types w); naive_solver).
  naive_solver.
Qed.

Lemma validate_proxy_ok p :
  validate_proxy p = Ok tt ↔
  (pc_Enabled p = true → pc_SchedulerURL p ≠ "" ∧ port_ok (pc_Port p)).
Proof.
  unfold validate_proxy. destruct (pc_Enabled p); cbn; [|by split].
  rewrite !reject_if_ok, port_check, String.eqb_neq.
  split; [intros (? & ? & _) _; done|]. intros H. by destruct (H eq_refl).
Qed.

(** [Config.Validate] accepts exactly the configurations that satisfy every
    documented constraint: names present, ports and priorities in range, known
    policy and log settings, and, when rebalancing is on, positive windows and
    model groups with positive limits and pairwise different trimmed names. *)
Theorem Validate_exact c : Config_Validate c = Ok tt ↔ config_ok c.
Proof.
  unfold Config_Validate, config_ok.
  rewrite !reject_if_ok, result_bind_ok, String.eqb_neq, Z.leb_gt.
  setoid_rewrite reject_if_ok. setoid_rewrite reject_if_ok.
  setoid_rewrite reject_if_ok. setoid_rewrite reject_if_ok. setoid_rewrite reject_if_ok.
  setoid_rewrite result_bind_ok. setoid_rewrite port_check.
  setoid_rewrite negb_false_iff. setoid_rewrite existsb_string_elem.
  setoid_rewrite RebalancingConfig_Validate_ok.
  split.
  - intros (? & ? & [] & Hw & ? & ? & ? & ? & ? & [] & Hp & ?).
    rewrite validate_workflows_ok in Hw. rewrite validate_proxy_ok in Hp. by split_and!.
  - rewrite <-validate_workflows_ok, <-validate_proxy_ok.
    intros (? & ? & ? & ? & ? & ? & ? & ? & ? & ?).
    split_and!; [done..|]. exists tt. split_and!; [done..|]. by exists tt.
Qed.
