(* ===== verification/Loader.v ===== *)
(** * internal/config/loader.go: loading the configuration

    [Load] sets the defaults, reads the file, decodes it into [Config] and
    validates it.  The viper library is the class [Viper]; what the code relies
    on, that a key found neither in the file nor in the environment has the
    value of its default, is the class [ViperLaws]. *)

From Stdlib Require Import ZArith Lia String.
From stdpp Require Import base option list strings gmap.
From S2P Require Import Prelude GoStrings Config.
Open Scope string_scope.
Open Scope Z_scope.

(** A scalar value of the configuration. *)
Inductive setting : Type :=
  | SInt (z : Z)
  | SBool (b : bool)
  | SStr (s : string).

#[export] Instance setting_eq : EqDecision setting.
Proof. solve_decision. Defined.

(** The calls [Load] makes; the file's name, type and directory are constants,
    and so are the prefix and the replacer of the environment. *)
Class Viper (V : Type) : Type := {
  godotenv_Load : V → V;
  SetEnvPrefix : V → string → V;
  SetEnvKeyReplacer : V → string → string → V;
  AutomaticEnv : V → V;
  SetDefault : V → string → setting → V;
  SetConfigName : V → string → V;
  SetConfigType : V → string → V;
  AddConfigPath : V → string → V;
  ReadInConfig : V → V * option string;
  Unmarshal : V → result string Config
}.

Inductive LoadError : Type :=
  | EReadConfig (e : string)
  | EDecodeConfig (e : string)
  | EValidateConfig (e : ConfigError).

(** The calls of [viper.SetDefault], in order. *)
Definition defaults : list (string * setting) :=
  [("scheduler.port", SInt 8888);
   ("scheduler.metricsPort", SInt 9090);
   ("scheduler.mode", SStr "standalone");
   ("queue.defaultPolicy", SStr "fifo");
   ("gpu.pollIntervalSeconds", SInt 5);
   ("kubernetes.namespace", SStr "default");
   ("logging.level", SStr "info");
   ("logging.format", SStr "json");
   ("scheduler.gangTimeoutSeconds", SInt 300);
   ("scheduler.preemptionEnabled", SBool false);
   ("scheduler.checkpointTimeoutSeconds", SInt 60);
   ("scheduler.preemptionGracePeriod", SInt 30);
   ("rebalancing.enabled", SBool false);
   ("rebalancing.dry_run", SBool true);
   ("rebalancing.tick_interval_seconds", SInt 5);
   ("rebalancing.sustain_window_seconds", SInt 30);
   ("rebalancing.cooldown_seconds", SInt 90);
   ("rebalancing.drain_timeout_seconds", SInt 300);
   ("rebalancing.allow_scale_up", SBool true);
   ("rebalancing.allow_scale_down", SBool false)].

Section load.
Context {V : Type} `{Viper V}.

Definition set_defaults (v : V) : V := foldl (λ v kx, SetDefault v kx.1 kx.2) v defaults.

(** What is set up before the file is read. *)
Definition prepared (v : V) : V :=
  let v := AutomaticEnv (SetEnvKeyReplacer (SetEnvPrefix (godotenv_Load v) "GPU_SCHEDULER") "." "_") in
  AddConfigPath (SetConfigType (SetConfigName (set_defaults v) "config") "yaml") ".".

Definition Load (v : V) : V * result LoadError Config :=
  match ReadInConfig (prepared v) with
  | (v', Some e) => (v', Err (EReadConfig e))
  | (v', None) =>
      match Unmarshal v' with
      | Err e => (v', Err (EDecodeConfig e))
      | Ok cfg =>
          match Config_Validate cfg with
          | Err e => (v', Err (EValidateConfig e))
          | Ok _ => (v', Ok cfg)
          end
      end
  end.
End load.

(** ** The scalar fields and their keys

    The keys are the [mapstructure] tags of internal/config/config.go. *)
Definition scheduler_fields (c : SchedulerConfig) : list (string * setting) :=
  [("scheduler.name", SStr (sc_Name c)); ("scheduler.port", SInt (sc_Port c));
   ("scheduler.metricsPort", SInt (sc_MetricsPort c)); ("scheduler.mode", SStr (sc_Mode c));
   ("scheduler.gangTimeoutSeconds", SInt (sc_GangTimeoutSeconds c));
   ("scheduler.preemptionEnabled", SBool (sc_PreemptionEnabled c));
   ("scheduler.checkpointTimeoutSeconds", SInt (sc_CheckpointTimeoutSeconds c));
   ("scheduler.preemptionGracePeriod", SInt (sc_PreemptionGracePeriod c));
   ("scheduler.autoResumeMaxRetries", SInt (sc_AutoResumeMaxRetries c));
   ("scheduler.autoResumePriorityBoost", SInt (sc_AutoResumePriorityBoost c))].

Definition rebalancing_fields (c : RebalancingConfig) : list (string * setting) :=
  [("rebalancing.enabled", SBool (rc_Enabled c)); ("rebalancing.dry_run", SBool (rc_DryRun c));
   ("rebalancing.tick_interval_seconds", SInt (rc_TickIntervalSeconds c));
   ("rebalancing.sustain_window_seconds", SInt (rc_SustainWindowSeconds c));
   ("rebalancing.cooldown_seconds", SInt (rc_CooldownSeconds c));
   ("rebalancing.drain_timeout_seconds", SInt (rc_DrainTimeoutSeconds c));
   ("rebalancing.allow_scale_up", SBool (rc_AllowScaleUp c));
   ("rebalancing.allow_scale_down", SBool (rc_AllowScaleDown c))].

Definition config_fields (c : Config) : list (string * setting) :=
  (scheduler_fields (cfg_Scheduler c) ++
  [("queue.maxSize", SInt (qc_MaxSize (cfg_Queue c)));
   ("queue.defaultPolicy", SStr (qc_DefaultPolicy (cfg_Queue c)));
   ("workflows.enabled", SBool (wfc_Enabled (cfg_Workflows c)));
   ("workflows.allowCustom", SBool (wfc_AllowCustom (cfg_Workflows c)));
   ("workflows.defaultPriority", SInt (wfc_DefaultPriority (cfg_Workflows c)));
   ("gpu.pollIntervalSeconds", SInt (gc_PollIntervalSeconds (cfg_GPU c)));
   ("gpu.mockMode", SBool (gc_MockMode (cfg_GPU c)));
   ("kubernetes.kubeconfig", SStr (kc_Kubeconfig (cfg_Kubernetes c)));
   ("kubernetes.namespace", SStr (kc_Namespace (cfg_Kubernetes c)));
   ("logging.level", SStr (lc_Level (cfg_Logging c)));
   ("logging.format", SStr (lc_Format (cfg_Logging c)));
   ("proxy.enabled", SBool (pc_Enabled (cfg_ProxyConfig c)));
   ("proxy.port", SInt (pc_Port (cfg_ProxyConfig c)));
   ("proxy.scheduler_url", SStr (pc_SchedulerURL (cfg_ProxyConfig c)))] ++
  rebalancing_fields (cfg_Rebalancing c))%list.

Definition same_kind (x y : setting) : bool :=
  match x, y with
  | SInt _, SInt _ | SBool _, SBool _ | SStr _, SStr _ => true
  | _, _ => false
  end.

Definition zero_like (x : setting) : setting :=
  match x with SInt _ => SInt 0 | SBool _ => SBool false | SStr _ => SStr "" end.

(** What the library documents: [found] is the value of a key in the file or the
    environment, and a field whose key is not found has the default of the key,
    the zero value when there is none. *)
Class ViperLaws (V : Type) `{Viper V} : Type := {
  found : V → string → option setting;
  default_of : V → gmap string setting;
  default_godotenv v : default_of (godotenv_Load v) = default_of v;
  default_prefix v p : default_of (SetEnvPrefix v p) = default_of v;
  default_replacer v a b : default_of (SetEnvKeyReplacer v a b) = default_of v;
  default_automatic v : default_of (AutomaticEnv v) = default_of v;
  default_set v k x : default_of (SetDefault v k x) = <[k := x]> (default_of v);
  default_name v n : default_of (SetConfigName v n) = default_of v;
  default_type v n : default_of (SetConfigType v n) = default_of v;
  default_path v n : default_of (AddConfigPath v n) = default_of v;
  default_read v : default_of (ReadInConfig v).1 = default_of v;
  unmarshal_default v c k x :
    Unmarshal v = Ok c → (k, x) ∈ config_fields c → found v k = None →
    match default_of v !! k with
    | Some d => same_kind d x = true → x = d
    | None => x = zero_like x
    end
}.

(** The defaults as a map. *)
Definition default_map : gmap string setting := list_to_map defaults.

(** The value every scalar field is to have when nothing sets its key. *)
Definition unset_values : list (string * setting) :=
  [("scheduler.name", SStr ""); ("scheduler.port", SInt 8888); ("scheduler.metricsPort", SInt 9090);
   ("scheduler.mode", SStr "standalone"); ("scheduler.gangTimeoutSeconds", SInt 300);
   ("scheduler.preemptionEnabled", SBool false); ("scheduler.checkpointTimeoutSeconds", SInt 60);
   ("scheduler.preemptionGracePeriod", SInt 30); ("scheduler.autoResumeMaxRetries", SInt 0);
   ("scheduler.autoResumePriorityBoost", SInt 0);
   ("queue.maxSize", SInt 0); ("queue.defaultPolicy", SStr "fifo");
   ("workflows.enabled", SBool false); ("workflows.allowCustom", SBool false);
   ("workflows.defaultPriority", SInt 0);
   ("gpu.pollIntervalSeconds", SInt 5); ("gpu.mockMode", SBool false);
   ("kubernetes.kubeconfig", SStr ""); ("kubernetes.namespace", SStr "default");
   ("logging.level", SStr "info"); ("logging.format", SStr "json");
   ("proxy.enabled", SBool false); ("proxy.port", SInt 0); ("proxy.scheduler_url", SStr "");
   ("rebalancing.enabled", SBool false); ("rebalancing.dry_run", SBool true);
   ("rebalancing.tick_interval_seconds", SInt 5); ("rebalancing.sustain_window_seconds", SInt 30);
   ("rebalancing.cooldown_seconds", SInt 90); ("rebalancing.drain_timeout_seconds", SInt 300);
   ("rebalancing.allow_scale_up", SBool true); ("rebalancing.allow_scale_down", SBool false)].

(** ** Lemmas *)
Lemma unset_fields c k x :
  (k, x) ∈ config_fields c → (k, default (zero_like x) (default_map !! k)) ∈ unset_values.
Proof.
  assert (forallb (λ kx, bool_decide ((kx.1, default (zero_like kx.2) (default_map !! kx.1)) ∈ unset_values))
    (config_fields c) = true) as Hall by (destruct c as [[] [] [] [] [] [] [] []]; vm_compute; reflexivity).
  intros Hin%list_elem_of_In. apply (proj1 (forallb_forall _ _) Hall) in Hin.
  by apply bool_decide_eq_true in Hin.
Qed.

Lemma defaults_fit c k x :
  (k, x) ∈ config_fields c →
  match default_map !! k with Some d => same_kind d x = true | None => True end.
Proof.
  assert (forallb (λ kx, match default_map !! kx.1 with Some d => same_kind d kx.2 | None => true end)
    (config_fields c) = true) as Hall by (destruct c as [[] [] [] [] [] [] [] []]; vm_compute; reflexivity).
  intros Hin%list_elem_of_In. apply (proj1 (forallb_forall _ _) Hall) in Hin.
  cbn [fst snd] in Hin. destruct (default_map !! k); [exact Hin|exact I].
Qed.

Section laws.
Context {V : Type} `{ViperLaws V}.

Lemma set_defaults_spec (v : V) : default_of v = ∅ → default_of (set_defaults v) = default_map.
Proof.
  intros Hv. unfold set_defaults.
  assert (∀ l (v : V), default_of (foldl (λ v kx, SetDefault v kx.1 kx.2) v l) =
    foldl (λ m kx, <[kx.1 := kx.2]> m) (default_of v) l) as Hl.
  { induction l as [|kx l IH]; intros v1; cbn; [done|]. by rewrite IH, default_set. }
  rewrite Hl, Hv. apply (bool_decide_unpack _). vm_compute. exact I.
Qed.

Lemma prepared_defaults (v : V) : default_of v = ∅ → default_of (prepared v) = default_map.
Proof.
  intros Hv. unfold prepared. rewrite default_path, default_type, default_name. apply set_defaults_spec.
  by rewrite default_automatic, default_replacer, default_prefix, default_godotenv.
Qed.

Lemma missing_field (v : V) c k x :
  default_of v = default_map → Unmarshal v = Ok c → (k, x) ∈ config_fields c → found v k = None →
  x = default (zero_like x) (default_map !! k).
Proof.
  intros Hd Hu Hin Hf. pose proof (unmarshal_default _ _ _ _ Hu Hin Hf) as Hx.
  pose proof (defaults_fit _ _ _ Hin) as Hk. rewrite Hd in Hx.
  destruct (default_map !! k) as [d|]; [by apply Hx|done].
Qed.

(** C37: loading is exact.  A configuration that [Load] returns satisfies every
    constraint of validation, its scalar fields that neither the file nor the
    environment sets have the values of the table [unset_values] (the retries and
    the boost of a resumed pod are then 0), and the name of the scheduler and the size of the queue, which have no
    default, were set; and an error says which of the three stages failed: the
    file could not be read, could not be decoded, or describes a configuration
    that breaks a constraint. *)
Theorem Load_exact (v v' : V) r :
  default_of v = ∅ → Load v = (v', r) →
  match r with
  | Ok c => config_ok c ∧
      (∀ k x, (k, x) ∈ config_fields c → found v' k = None → (k, x) ∈ unset_values) ∧
      found v' "scheduler.name" ≠ None ∧ found v' "queue.maxSize" ≠ None
  | Err (EReadConfig e) => ReadInConfig (prepared v) = (v', Some e)
  | Err (EDecodeConfig e) => ReadInConfig (prepared v) = (v', None) ∧ Unmarshal v' = Err e
  | Err (EValidateConfig e) => ∃ c, Unmarshal v' = Ok c ∧ Config_Validate c = Err e ∧ ¬ config_ok c
  end.
Proof.
  intros Hv. unfold Load. pose proof (default_read (prepared v)) as Hd. rewrite prepared_defaults in Hd by done.
  destruct (ReadInConfig (prepared v)) as [v1 [e|]]; cbn in Hd; [by intros [= <- <-]|].
  destruct (Unmarshal v1) as [c|e] eqn:Eu; [|by intros [= <- <-]].
  destruct (Config_Validate c) as [[]|e] eqn:Ec; intros [= <- <-].
  2: { exists c. split_and!; [done|done|]. intros Hc%Validate_exact. congruence. }
  apply Validate_exact in Ec. split; [done|].
  pose proof (missing_field v1 c) as Hm. split.
  { intros k x Hin Hf. rewrite (Hm k x Hd Eu Hin Hf). by eapply unset_fields. }
  destruct Ec as (Hname & Hsize & _). split; intros Hf.
  - destruct Hname. specialize (Hm "scheduler.name" (SStr (sc_Name (cfg_Scheduler c))) Hd Eu).
    enough (SStr (sc_Name (cfg_Scheduler c)) = SStr "") as [= ?]; [done|]. apply Hm; [by left|done].
  - specialize (Hm "queue.maxSize" (SInt (qc_MaxSize (cfg_Queue c))) Hd Eu).
    enough (SInt (qc_MaxSize (cfg_Queue c)) = SInt 0) as [= ?]; [lia|]. apply Hm; [|done].
    unfold config_fields. apply elem_of_app. right. apply elem_of_app. left. by left.
Qed.
End laws.

(** ** A library for the examples *)
Record FakeViper : Type := mkFakeViper {
  fv_file : option (gmap string setting);
  fv_types : list WorkFlowTypeConfig;
  fv_defaults : gmap string setting
}.

Definition fv_found (v : FakeViper) (k : string) : option setting := fv_file v ≫= λ m, m !! k.

Definition fv_value (v : FakeViper) (k : string) : option setting :=
  match fv_found v k with Some x => Some x | None => fv_defaults v !! k end.

Definition get_int (v : FakeViper) (k : string) : Z := match fv_value v k with Some (SInt z) => z | _ => 0 end.
Definition get_bool (v : FakeViper) (k : string) : bool :=
  match fv_value v k with Some (SBool b) => b | _ => false end.
Definition get_str (v : FakeViper) (k : string) : string :=
  match fv_value v k with Some (SStr s) => s | _ => "" end.

Definition fv_config (v : FakeViper) : Config :=
  let i := get_int v in let b := get_bool v in let s := get_str v in
  mkConfig
    (mkSchedulerConfig (s "scheduler.name") (i "scheduler.port") (i "scheduler.metricsPort") (s "scheduler.mode")
      (i "scheduler.gangTimeoutSeconds") (b "scheduler.preemptionEnabled")
      (i "scheduler.checkpointTimeoutSeconds") (i "scheduler.preemptionGracePeriod")
      (i "scheduler.autoResumeMaxRetries") (i "scheduler.autoResumePriorityBoost"))
    (mkQueueConfig (i "queue.maxSize") (s "queue.defaultPolicy"))
    (mkWorkflowConfig (b "workflows.enabled") (b "workflows.allowCustom") (i "workflows.defaultPriority") (fv_types v))
    (mkGPUConfig (i "gpu.pollIntervalSeconds") (b "gpu.mockMode"))
    (mkKubernetesConfig (s "kubernetes.kubeconfig") (s "kubernetes.namespace"))
    (mkLoggingConfig (s "logging.level") (s "logging.format"))
    (mkProxyConfig (b "proxy.enabled") (i "proxy.port") (s "proxy.scheduler_url"))
    (mkRebalancingConfig (b "rebalancing.enabled") (b "rebalancing.dry_run")
      (i "rebalancing.tick_interval_seconds") (i "rebalancing.sustain_window_seconds")
      (i "rebalancing.cooldown_seconds") (i "rebalancing.drain_timeout_seconds")
      (b "rebalancing.allow_scale_up") (b "rebalancing.allow_scale_down") []).

#[export] Instance fake_viper : Viper FakeViper := {|
  godotenv_Load v := v;
  SetEnvPrefix v _ := v;
  SetEnvKeyReplacer v _ _ := v;
  AutomaticEnv v := v;
  SetDefault v k x := mkFakeViper (fv_file v) (fv_types v) (<[k := x]> (fv_defaults v));
  SetConfigName v _ := v;
  SetConfigType v _ := v;
  AddConfigPath v _ := v;
  ReadInConfig v := (v, if fv_file v then None else Some "no such file");
  Unmarshal v := Ok (fv_config v)
|}.

(** A field has the value of its key when that is of its kind, else its zero. *)
Definition typed (o : option setting) (x : setting) : setting :=
  match o with Some d => if same_kind d x then d else zero_like x | None => zero_like x end.

Lemma fv_typed v : Forall (λ kx, kx.2 = typed (fv_value v kx.1) kx.2) (config_fields (fv_config v)).
Proof.
  assert (∀ k, SInt (get_int v k) = typed (fv_value v k) (SInt (get_int v k))) as Hi.
  { intros k. unfold get_int. by destruct (fv_value v k) as [[]|]. }
  assert (∀ k, SBool (get_bool v k) = typed (fv_value v k) (SBool (get_bool v k))) as Hb.
  { intros k. unfold get_bool. by destruct (fv_value v k) as [[]|]. }
  assert (∀ k, SStr (get_str v k) = typed (fv_value v k) (SStr (get_str v k))) as Hs.
  { intros k. unfold get_str. by destruct (fv_value v k) as [[]|]. }
  unfold config_fields, scheduler_fields, rebalancing_fields, fv_config. cbn [app].
  repeat (apply Forall_cons; split; [first [apply Hi|apply Hb|apply Hs]|]). by constructor.
Qed.

#[export] Instance fake_viper_laws : ViperLaws FakeViper.
Proof.
  refine {| found := fv_found; default_of := fv_defaults |}; try done.
  intros v c k x [= <-] Hin Hf. pose proof (proj1 (Forall_forall _ _) (fv_typed v) _ Hin) as Hx.
  cbn [fst snd] in Hx. unfold typed, fv_value in Hx. rewrite Hf in Hx.
  destruct (fv_defaults v !! k) as [d|]; [|exact Hx]. intros Hk. by rewrite Hk in Hx.
Defined.

Definition minimal_file : FakeViper :=
  mkFakeViper (Some {["scheduler.name" := SStr "gpu-scheduler"; "queue.maxSize" := SInt 1000]}) [] ∅.

Definition minimal_loaded : FakeViper := (Load minimal_file).1.

Lemma minimal_loads : Load minimal_file = (minimal_loaded, Ok (fv_config minimal_loaded)).
Proof. vm_compute. reflexivity. Qed.

Lemma minimal_missing :
  found minimal_loaded "scheduler.port" = None ∧ found minimal_loaded "queue.defaultPolicy" = None.
Proof. split; vm_compute; reflexivity. Qed.

(** A file with the two required keys leaves the port and the policy unset. *)
Lemma Load_exact_witness :
  ("scheduler.port", SInt (sc_Port (cfg_Scheduler (fv_config minimal_loaded)))) ∈ unset_values ∧
  ("queue.defaultPolicy", SStr (qc_DefaultPolicy (cfg_Queue (fv_config minimal_loaded)))) ∈ unset_values ∧
  sc_Port (cfg_Scheduler (fv_config minimal_loaded)) = 8888.
Proof.
  assert (default_of minimal_file = ∅) as Hfresh by reflexivity.
  destruct (Load_exact minimal_file minimal_loaded (Ok (fv_config minimal_loaded)) Hfresh minimal_loads)
    as (_ & Hdef & _). split; [|split; [|reflexivity]].
  - exact (Hdef "scheduler.port" _ ltac:(right; left) (proj1 minimal_missing)).
  - refine (Hdef "queue.defaultPolicy" _ _ (proj2 minimal_missing)).
    unfold config_fields. apply elem_of_app. right. apply elem_of_app. left. right. left.
Defined.

(** ** Findings *)

(** An interval of zero passes: only the rebalancer's intervals are validated. *)
Lemma zero_poll_interval_loads :
  match Load (mkFakeViper (Some {["scheduler.name" := SStr "s"; "queue.maxSize" := SInt 1;
      "gpu.pollIntervalSeconds" := SInt 0]}) [] ∅) with
  | (_, Ok c) => gc_PollIntervalSeconds (cfg_GPU c) = 0
  | _ => False
  end.
Proof. vm_compute. reflexivity. Qed.

(** The documentation gives three retries as the default; an unset key gives none,
    so that no evicted pod is resumed. *)
Lemma unset_retries_are_zero :
  sc_AutoResumeMaxRetries (cfg_Scheduler (fv_config minimal_loaded)) = 0.
Proof. vm_compute. reflexivity. Qed.
