(* ===== verification/Helpers.v ===== *)
(** * internal/scheduler/helpers.go: scheduling intent read from a pod

    Each helper is the source's function of the same name.  The theorems state
    what the annotation protocol needs: what the scheduler writes on a pod
    ([assigned-gpus], priorities, counters) it reads back, and exactly which
    inference-role annotations are accepted. *)

From Stdlib Require Import ZArith Lia Ascii String.
From stdpp Require Import base option list strings gmap.
From S2P Require Import Prelude GoFloat GoStrings Types K8s Config.
Open Scope string_scope.
Open Scope Z_scope.
Open Scope go_scope.

(** The value of an annotation read with [strconv.Atoi]: [None] when it is
    absent or is not an integer. *)
Definition int_annotation (pod : Pod) (k : string) : option Z := annotation pod k ≫= atoi.

Definition GetGPUMemoryFromPod (pod : Pod) : Z :=
  let value :=
    match annotation pod "gpu-scheduler.io/memory-mb" with
    | Some v => Some v
    | None => annotation pod "gpu-scheduler/memory-mb"
    end in
  match value ≫= atoi with
  | Some memory => memory
  | None =>
      match head (omap (λ c, c_Requests c !! "nvidia.com/gpu-memory") (pod_Containers pod)) with
      | Some quantity => q_Value quantity ⊘ (1024 * 1024)
      | None => 0
      end
  end.

Definition GetWorkflowFromPod (pod : Pod) : string :=
  match annotation pod "gpu-scheduler/workflow" with
  | Some value =>
      if String.eqb value "build" then Build
      else if String.eqb value "training" then Training
      else Inference
  | None => Inference
  end.

Definition find_type (cfg : WorkflowConfig) (name : string) : option WorkFlowTypeConfig :=
  List.find (λ wf, String.eqb (wf_Name wf) name) (wfc_Types cfg).

(** [workFlowName] is never empty, so its test is not repeated here. *)
Definition GetPriorityFromPod (pod : Pod) (cfg : WorkflowConfig) : Z :=
  match int_annotation pod "gpu-scheduler/priority" with
  | Some priority => priority
  | None =>
      match find_type cfg (GetWorkflowFromPod pod) with
      | Some wf => wf_Priority wf
      | None => wfc_DefaultPriority cfg
      end
  end.

(** The first [nvidia.com/gpu] limit among the containers. *)
Definition gpu_limit (pod : Pod) : option Quantity :=
  head (omap (λ c, c_Limits c !! "nvidia.com/gpu") (pod_Containers pod)).

Definition GetGPUCountFromPod (pod : Pod) : Z :=
  let from_resources := match gpu_limit pod with Some q => q_Value q | None => 1 end in
  match int_annotation pod "gpu-scheduler/gpu-count" with
  | Some count => if count >? 0 then count else from_resources
  | None => from_resources
  end.

Definition GetMemoryModeFromPod (pod : Pod) : string :=
  match annotation pod "gpu-scheduler/memory-mode" with
  | Some value =>
      if String.eqb value "total" then MemoryTotal
      else if String.eqb value "none" then MemoryNone
      else MemoryPerGPU
  | None => MemoryPerGPU
  end.

Definition IsGPUPod (pod : Pod) : bool :=
  bool_decide (is_Some (annotation pod "gpu-scheduler.io/memory-mb")) ||
  bool_decide (is_Some (annotation pod "gpu-scheduler/memory-mb")) ||
  bool_decide (annotation pod "gpu-scheduler/shared" = Some "true") ||
  existsb (λ c, match c_Requests c !! "nvidia.com/gpu" with
                | Some qty => negb (q_IsZero qty)
                | None => false
                end) (pod_Containers pod).

Definition IsSharedGPUPod (pod : Pod) : bool :=
  match annotation pod "gpu-scheduler/shared" with
  | Some value => String.eqb value "true"
  | None => false
  end.

Definition GetAssignedGPUS (pod : Pod) : list string :=
  match annotation pod "gpu-scheduler/assigned-gpus" with
  | Some value => split_on "," value
  | None => []
  end.

Definition GetGangIDFromPod (pod : Pod) : string := annotation_or_empty pod "gpu-scheduler/gang-id".

Definition GetGangSizeFromPod (pod : Pod) : Z :=
  match int_annotation pod "gpu-scheduler/gang-size" with
  | Some size => if size >? 0 then size else 0
  | None => 0
  end.

Definition GetCheckpointCmdFromPod (pod : Pod) : string :=
  annotation_or_empty pod "gpu-scheduler/checkpoint-cmd".

Definition GetResumeCmdFromPod (pod : Pod) : string :=
  annotation_or_empty pod "gpu-scheduler/resume-cmd".

Definition IsDrainingGPUPod (pod : option Pod) : bool :=
  match pod with
  | None => false
  | Some p =>
      match annotation p "gpu-scheduler/draining" with
      | Some value => String.eqb (to_lower (trim_space value)) "true"
      | None => false
      end
  end.

Definition IsPreemptible (pod : Pod) (cfg : WorkflowConfig) : bool :=
  match annotation pod "gpu-scheduler/preemptible" with
  | Some value => String.eqb value "true"
  | None =>
      match find_type cfg (GetWorkflowFromPod pod) with
      | Some wf => wf_Preemptible wf
      | None => false
      end
  end.

Definition GetAutoResumeFromPod (pod : Pod) : bool :=
  match annotation pod "gpu-scheduler/auto-resume" with
  | Some value => String.eqb value "true"
  | None => false
  end.

Definition GetPreemptCountFromPod (pod : Pod) : Z :=
  default 0 (int_annotation pod "gpu-scheduler/preempt-count").

Definition GetOriginalPriorityFromPod (pod : Pod) : Z :=
  default (-1) (int_annotation pod "gpu-scheduler/original-priority").

Definition GetPodInferenceRole (pod : Pod) : string :=
  match annotation pod "gpu-scheduler/inference-role" with
  | Some role =>
      if String.eqb role Prefill || String.eqb role Decode || String.eqb role Unified
      then role else Unknown
  | None => Unknown
  end.

Definition GetPodModelGroup (pod : Pod) : string :=
  trim_space (annotation_or_empty pod "gpu-scheduler/model-group").

Definition GetInferencePodEndpoint (pod : Pod) : string :=
  trim_space (annotation_or_empty pod "gpu-scheduler/inference-endpoint").

Definition shared_disagg_reason : string :=
  "shared GPU is not allowed for disaggregated inference roles (prefill/decode); set gpu-scheduler/shared=false".

(** The two identical checks of the prefill and decode cases: the last failing
    one gives the reason. *)
Definition disagg_checks (pod : Pod) (role modelGroup missing : string) : DisaggPodIntent :=
  let i1 := if String.eqb modelGroup ""
            then mkDisaggPodIntent role modelGroup true false missing
            else mkDisaggPodIntent role modelGroup true true "" in
  if IsSharedGPUPod pod
  then mkDisaggPodIntent role modelGroup true false shared_disagg_reason
  else i1.

Definition GetDisaggPodIntent (pod : Pod) : DisaggPodIntent :=
  let modelGroup := GetPodModelGroup pod in
  let role := GetPodInferenceRole pod in
  if String.eqb role Prefill then
    disagg_checks pod role modelGroup "missing model-group for prefill role"
  else if String.eqb role Decode then
    disagg_checks pod role modelGroup "missing model-group for decode role"
  else if String.eqb role Unified then mkDisaggPodIntent role modelGroup false true ""
  else if String.eqb role Unknown then
    if negb (String.eqb modelGroup "")
    then mkDisaggPodIntent role modelGroup false false "model-group set but inference-role is unknown"
    else mkDisaggPodIntent role modelGroup false true ""
  else mkDisaggPodIntent role modelGroup false false "invalid inference-role".

Definition IsInferencePod (pod : Pod) : bool :=
  let role := GetPodInferenceRole pod in
  String.eqb role Unified || String.eqb Prefill role || String.eqb Decode role.

(** A pod with one annotation overwritten. *)
Definition with_annotation (k v : string) (pod : Pod) : Pod :=
  mkPod (pod_Name pod) (pod_Namespace pod) (pod_Labels pod) (<[k := v]> (pod_Annotations pod))
    (pod_CreationTimestamp pod) (pod_SchedulerName pod) (pod_NodeName pod) (pod_Affinity pod)
    (pod_Containers pod) (pod_InitContainers pod) (pod_Volumes pod) (pod_Phase pod)
    (pod_Conditions pod).

(** ** Lemmas *)
Lemma annotation_with_eq k v pod : annotation (with_annotation k v pod) k = Some v.
Proof. apply lookup_insert_eq. Qed.

Lemma annotation_with_ne k k' v pod :
  k ≠ k' → annotation (with_annotation k v pod) k' = annotation pod k'.
Proof. intros. by apply lookup_insert_ne. Qed.

Create HintDb pod_annotations discriminated.
#[export] Hint Resolve annotation_with_eq annotation_with_ne : pod_annotations.

Lemma int_annotation_itoa k z pod :
  in_int z → int_annotation (with_annotation k (itoa z) pod) k = Some z.
Proof. intros Hz. unfold int_annotation. rewrite annotation_with_eq. by apply atoi_itoa. Qed.

(** The role is one of four values. *)
Lemma inference_role_cases pod :
  GetPodInferenceRole pod ∈ [Prefill; Decode; Unified; Unknown].
Proof.
  unfold GetPodInferenceRole. case_match; [|set_solver].
  destruct (String.eqb_spec s Prefill) as [->|]; [set_solver|].
  destruct (String.eqb_spec s Decode) as [->|]; [set_solver|].
  destruct (String.eqb_spec s Unified) as [->|]; set_solver.
Qed.

Lemma priority_annotation_wins pod cfg z :
  int_annotation pod "gpu-scheduler/priority" = Some z → GetPriorityFromPod pod cfg = z.
Proof. unfold GetPriorityFromPod. by intros ->. Qed.

(** The [assigned-gpus] annotation round trips: the GPU list the watcher
    joins with commas and patches onto a pod is the list reconciliation,
    preemption and the dashboard read back, as long as there is at least one
    GPU and no identifier holds a comma. *)
Theorem assigned_gpus_roundtrip pod ids :
  ids ≠ [] → Forall (λ id, str_mem "," id = false) ids →
  GetAssignedGPUS (with_annotation "gpu-scheduler/assigned-gpus" (join "," ids) pod) = ids.
Proof.
  intros Hne Hids. unfold GetAssignedGPUS. rewrite annotation_with_eq.
  by apply (split_join ",").
Qed.

Lemma assigned_gpus_roundtrip_witness :
  GetAssignedGPUS (with_annotation "gpu-scheduler/assigned-gpus" (join "," ["GPU-aaaa"; "GPU-bbbb"])
    (sample_pod "default" "train-0" [])) = ["GPU-aaaa"; "GPU-bbbb"].
Proof. apply assigned_gpus_roundtrip; [done|]. repeat constructor. Defined.

(** A pod's inference intent is accepted exactly when its role and model
    group fit together: prefill and decode need a model group and an exclusive
    GPU, unified takes anything, and a pod with no recognised role must not
    name a model group; the disaggregated roles are exactly prefill and decode. *)
Theorem disagg_intent_exact pod :
  let role := GetPodInferenceRole pod in
  let intent := GetDisaggPodIntent pod in
  (di_IsDisagg intent = true ↔ role = Prefill ∨ role = Decode) ∧
  (di_IsValid intent = true ↔
    ((role = Prefill ∨ role = Decode) ∧ GetPodModelGroup pod ≠ "" ∧ IsSharedGPUPod pod = false) ∨
    role = Unified ∨ (role = Unknown ∧ GetPodModelGroup pod = "")) ∧
  (di_IsValid intent = true ↔ di_Reason intent = "").
Proof.
  cbn zeta. pose proof (inference_role_cases pod) as Hrole.
  unfold GetDisaggPodIntent, disagg_checks.
  destruct (String.eqb_spec (GetPodModelGroup pod) "") as [Hg|Hg], (IsSharedGPUPod pod);
    rewrite !elem_of_cons in Hrole; destruct_or! Hrole; try (by apply elem_of_nil in Hrole);
    rewrite Hrole; cbn; naive_solver.
Qed.
