(* ===== verification/Registry.v ===== *)
(** * internal/gpu/registry.go: the GPU registry

    The registry merges what the node agents report ([reg_nodes],
    [reg_lastSeen]) with what the scheduler has promised: memory per GPU
    ([reg_reservations]), pods per GPU ([reg_podCountPerGPU]) and the entries
    of each pod ([reg_podAllocations]).  Every method is a function on the
    state; the ones that log [uuid[:12]] panic on a shorter identifier, and
    that is part of their model.  The methods hold the registry's lock for
    their whole body, so a concurrent history is a sequence of these steps. *)

From Stdlib Require Import ZArith Lia String.
From stdpp Require Import base option list strings gmap.
From S2P Require Import Prelude GoFloat GoStrings Types K8s.
Open Scope string_scope.
Open Scope Z_scope.
Open Scope go_scope.

(** ** State *)
Record AllocationEntry : Type := mkAllocationEntry {
  ae_NodeName : string;
  ae_GPUUUID : string;
  ae_MemoryMB : Z;
  ae_IsMIG : bool
}.

Record NodeGPUs : Type := mkNodeGPUs {
  ng_NodeName : string;
  ng_HasNVLink : bool;
  ng_GPUs : list GPUInfo;
  ng_ReportedAt : Time
}.

Record Registry : Type := mkRegistry {
  reg_nodes : gmap string NodeGPUs;
  reg_lastSeen : gmap string Time;
  reg_reservations : gmap string (gmap string Z);
  reg_podAllocations : gmap string (list AllocationEntry);
  reg_podCountPerGPU : gmap string (gmap string Z)
}.

Definition NewRegistry : Registry := mkRegistry ∅ ∅ ∅ ∅ ∅.

Definition set_nodes (ns : gmap string NodeGPUs) (r : Registry) : Registry :=
  mkRegistry ns (reg_lastSeen r) (reg_reservations r) (reg_podAllocations r) (reg_podCountPerGPU r).

Definition set_counters (res cnt : gmap string (gmap string Z)) (r : Registry) : Registry :=
  mkRegistry (reg_nodes r) (reg_lastSeen r) res (reg_podAllocations r) cnt.

Definition set_allocations (al : gmap string (list AllocationEntry)) (r : Registry) : Registry :=
  mkRegistry (reg_nodes r) (reg_lastSeen r) (reg_reservations r) al (reg_podCountPerGPU r).

Definition set_ng_GPUs (gs : list GPUInfo) (n : NodeGPUs) : NodeGPUs :=
  mkNodeGPUs (ng_NodeName n) (ng_HasNVLink n) gs (ng_ReportedAt n).

(** ** Reports and node views *)
Definition UpdateFromReport (now : Time) (report : GPUReport) (r : Registry) : Registry :=
  mkRegistry
    (<[rep_NodeName report :=
       mkNodeGPUs (rep_NodeName report) (rep_HasNVLink report) (rep_GPUs report) now]> (reg_nodes r))
    (<[rep_NodeName report := now]> (reg_lastSeen r))
    (reg_reservations r) (reg_podAllocations r) (reg_podCountPerGPU r).

(** [time.Since(lastSeen) >= threshold] for a node that reported. *)
Definition stale (now : Time) (threshold : Z) (r : Registry) (nodeName : string) : bool :=
  match reg_lastSeen r !! nodeName with
  | Some t => threshold <=? time_sub now t
  | None => false
  end.

Definition RemoveStaleNodes (now : Time) (threshold : Z) (r : Registry) : Registry :=
  mkRegistry
    (filter (λ kv, stale now threshold r kv.1 = false) (reg_nodes r))
    (filter (λ kv, stale now threshold r kv.1 = false) (reg_lastSeen r))
    (reg_reservations r) (reg_podAllocations r) (reg_podCountPerGPU r).

Definition GetAllNodes (now : Time) (order : list string) (r : Registry) :
    Registry * list NodeGPUs :=
  let r' := RemoveStaleNodes now (seconds 30) r in
  (r', (range (reg_nodes r') order).*2).

Definition GetNode (nodeName : string) (r : Registry) : option NodeGPUs := reg_nodes r !! nodeName.

Definition GetLastSeen (nodeName : string) (r : Registry) : Time :=
  default 0 (reg_lastSeen r !! nodeName).

(** ** Reading the reservations

    A missing inner map and a missing key both read as 0. *)
Definition cell (m : gmap string (gmap string Z)) (nodeName gpuUUID : string) : Z :=
  default 0 (m !! nodeName ≫= (λ inner, inner !! gpuUUID)).

Definition GetReservedMemory (nodeName gpuUUID : string) (r : Registry) : Z :=
  cell (reg_reservations r) nodeName gpuUUID.

Definition GetPodCount (nodeName gpuUUID : string) (r : Registry) : Z :=
  cell (reg_podCountPerGPU r) nodeName gpuUUID.

Definition GetAllPodAllocations (r : Registry) : gmap string (list AllocationEntry) :=
  reg_podAllocations r.

(** ** Candidates *)
Record MIGCandidate : Type := mkMIGCandidate {
  mc_NodeName : string;
  mc_GPUUUID : string;
  mc_MIGUUID : string;
  mc_ProfileName : string;
  mc_MemoryMB : Z;
  mc_SMCount : Z;
  mc_PodCount : Z
}.

Record GPUCandidate : Type := mkGPUCandidate {
  gc_NodeName : string;
  gc_GPUUUID : string;
  gc_GPUModel : string;
  gc_FreeMemoryMB : Z;
  gc_TotalMemoryMB : Z;
  gc_PodCount : Z;
  gc_MPSEnabled : bool
}.

Definition FindAvailableMIG (minMemoryMB : Z) (order : list string) (r : Registry) :
    list MIGCandidate :=
  nn ← range (reg_nodes r) order;
  gpu ← ng_GPUs nn.2;
  if gi_MIGEnabled gpu && gi_IsHealthy gpu then
    migGPU ← gi_MIGInstances gpu;
    if mig_IsAvailable migGPU && (mig_MemoryMB migGPU >=? minMemoryMB) then
      [mkMIGCandidate nn.1 (gi_UUID gpu) (mig_UUID migGPU) (mig_ProfileName migGPU)
         (mig_MemoryMB migGPU) (mig_SMCount migGPU) (GetPodCount nn.1 (gi_UUID gpu) r)]
    else []
  else [].

(** What the agent reports as free, or total minus used for partial reports. *)
Definition reported_free (gpu : GPUInfo) : Z :=
  if (gi_FreeMemoryMB gpu =? 0) && (gi_TotalMemoryMB gpu >? gi_UsedMemoryMB gpu)
  then gi_TotalMemoryMB gpu ⊟ gi_UsedMemoryMB gpu
  else gi_FreeMemoryMB gpu.

Definition free_memory (nodeName : string) (gpu : GPUInfo) (r : Registry) : Z :=
  match reg_reservations r !! nodeName with
  | Some nodeReservations => reported_free gpu ⊟ default 0 (nodeReservations !! gi_UUID gpu)
  | None => reported_free gpu
  end.

Definition FindAvailableFullGPU (minMemoryMB : Z) (order : list string) (r : Registry) :
    list GPUCandidate :=
  nn ← range (reg_nodes r) order;
  gpu ← ng_GPUs nn.2;
  if gi_MIGEnabled gpu || negb (gi_IsHealthy gpu) then []
  else
    let freeMB := free_memory nn.1 gpu r in
    if freeMB <? minMemoryMB then []
    else [mkGPUCandidate nn.1 (gi_UUID gpu) (gi_Name gpu) freeMB (gi_TotalMemoryMB gpu)
            (GetPodCount nn.1 (gi_UUID gpu) r) (gi_MPSEnabled gpu)].

Definition FindAvailableMPSGPU (minMemoryMB : Z) (order : list string) (r : Registry) :
    list GPUCandidate :=
  List.filter (λ c, gc_MPSEnabled c) (FindAvailableFullGPU minMemoryMB order r).

Definition FindAvailableNonMPSGPU (minMemoryMB : Z) (order : list string) (r : Registry) :
    list GPUCandidate :=
  List.filter (λ c, negb (gc_MPSEnabled c) && (gc_PodCount c =? 0))
    (FindAvailableFullGPU minMemoryMB order r).

(** ** MIG availability *)

(** Every instance with the identifier, on every GPU of the node. *)
Definition set_mig_all (b : bool) (migUUID : string) (n : NodeGPUs) : NodeGPUs :=
  set_ng_GPUs
    ((λ g, set_MIGInstances
       ((λ m, if String.eqb (mig_UUID m) migUUID then set_IsAvailable b m else m)
          <$> gi_MIGInstances g) g) <$> ng_GPUs n) n.

(** The first instance with the identifier in a list; [None] when there is none. *)
Fixpoint set_mig_in (b : bool) (migUUID : string) (ms : list MIGInstance) :
    option (list MIGInstance) :=
  match ms with
  | [] => None
  | m :: ms' =>
      if String.eqb (mig_UUID m) migUUID then Some (set_IsAvailable b m :: ms')
      else cons m <$> set_mig_in b migUUID ms'
  end.

Fixpoint set_mig_first (b : bool) (migUUID : string) (gs : list GPUInfo) : list GPUInfo :=
  match gs with
  | [] => []
  | g :: gs' =>
      match set_mig_in b migUUID (gi_MIGInstances g) with
      | Some ms => set_MIGInstances ms g :: gs'
      | None => g :: set_mig_first b migUUID gs'
      end
  end.

Definition update_node (nodeName : string) (f : NodeGPUs → NodeGPUs) (r : Registry) : Registry :=
  set_nodes (alter f nodeName (reg_nodes r)) r.

Definition MarkMIGAllocated (nodeName migUUID : string) (r : Registry) : Registry :=
  update_node nodeName (λ n, set_ng_GPUs (set_mig_first false migUUID (ng_GPUs n)) n) r.

Definition ReleaseMIG (nodeName migUUID : string) (r : Registry) : Registry :=
  update_node nodeName (λ n, set_ng_GPUs (set_mig_first true migUUID (ng_GPUs n)) n) r.

(** The first GPU with the identifier gives memory back, never below zero. *)
Fixpoint release_used (gpuUUID : string) (memoryMB : Z) (gs : list GPUInfo) : list GPUInfo :=
  match gs with
  | [] => []
  | g :: gs' =>
      if String.eqb (gi_UUID g) gpuUUID then
        let used := gi_UsedMemoryMB g ⊟ memoryMB in
        let used' := if used <? 0 then 0 else used in
        set_UsedFree used' (gi_TotalMemoryMB g ⊟ used') g :: gs'
      else g :: release_used gpuUUID memoryMB gs'
  end.

Definition ReleaseGPU (nodeName gpuUUID : string) (memoryMB : Z) (r : Registry) : Registry :=
  update_node nodeName (λ n, set_ng_GPUs (release_used gpuUUID memoryMB (ng_GPUs n)) n) r.

(** [MarkGPUAllocated] is deprecated and only logs. *)
Definition MarkGPUAllocated (nodeName gpuUUID : string) (memoryMB : Z) (r : Registry) : Registry := r.

(** ** Reservations of a pod *)

(** [alloc.Entries = append(alloc.Entries, e)], creating the record if needed. *)
Definition track_entry (podKey : string) (e : AllocationEntry) (r : Registry) : Registry :=
  set_allocations
    (<[podKey := (default [] (reg_podAllocations r !! podKey) ++ [e])%list]> (reg_podAllocations r)) r.

Definition init_node (nodeName : string) (r : Registry) : Registry :=
  match reg_reservations r !! nodeName with
  | Some _ => r
  | None => set_counters (<[nodeName := ∅]> (reg_reservations r))
              (<[nodeName := ∅]> (reg_podCountPerGPU r)) r
  end.

(** [m[nodeName][gpuUUID] = f(m[nodeName][gpuUUID])]; writing to a missing
    inner map panics. *)
Definition update_cell (nodeName gpuUUID : string) (f : Z → Z) (m : gmap string (gmap string Z)) :
    outcome (gmap string (gmap string Z)) :=
  match m !! nodeName with
  | Some inner => Done (<[nodeName := <[gpuUUID := f (default 0 (inner !! gpuUUID))]> inner]> m)
  | None => Panicked
  end.

Definition MarkGPUAllocatedForPod (nodeName gpuUUID : string) (memoryMB : Z)
    (namespace podName : string) (r : Registry) : outcome Registry :=
  let podKey := pod_key namespace podName in
  let r1 := init_node nodeName r in
  res ← update_cell nodeName gpuUUID (λ v, v ⊞ memoryMB) (reg_reservations r1);
  cnt ← update_cell nodeName gpuUUID (λ v, v ⊞ 1) (reg_podCountPerGPU r1);
  let r2 := track_entry podKey (mkAllocationEntry nodeName gpuUUID memoryMB false)
              (set_counters res cnt r1) in
  _ ← str_prefix 12 gpuUUID;
  Done r2.

Definition MarkMIGAllocatedForPod (nodeName migUUID : string) (memoryMB : Z)
    (namespace podName : string) (r : Registry) : outcome Registry :=
  let podKey := pod_key namespace podName in
  let r1 := update_node nodeName (set_mig_all false migUUID) r in
  let r2 := track_entry podKey (mkAllocationEntry nodeName migUUID memoryMB true) r1 in
  _ ← str_prefix 12 migUUID;
  Done r2.

(** One iteration of the release loop. *)
Definition release_entry (r : Registry) (e : AllocationEntry) : outcome Registry :=
  if ae_IsMIG e then
    _ ← str_prefix 12 (ae_GPUUUID e);
    Done (update_node (ae_NodeName e) (set_mig_all true (ae_GPUUUID e)) r)
  else
    let n := ae_NodeName e in
    let g := ae_GPUUUID e in
    r' ← match reg_reservations r !! n with
         | None => Done r
         | Some _ =>
             res ← update_cell n g (λ v, v ⊟ ae_MemoryMB e) (reg_reservations r);
             cnt ← update_cell n g (λ v, v ⊟ 1) (reg_podCountPerGPU r);
             if cell res n g <? 0 then
               res' ← update_cell n g (λ _, 0) res;
               cnt' ← update_cell n g (λ _, 0) cnt;
               Done (set_counters res' cnt' r)
             else Done (set_counters res cnt r)
         end;
    _ ← str_prefix 12 g;
    Done r'.

Definition ReleasePod (namespace podName : string) (r : Registry) : outcome Registry :=
  let podKey := pod_key namespace podName in
  match reg_podAllocations r !! podKey with
  | None => Done r
  | Some entries =>
      r' ← foldM release_entry r entries;
      Done (set_allocations (delete podKey (reg_podAllocations r')) r')
  end.

(** ** [GetNodes]: the scheduling view, with reserved memory as used memory *)
Definition to_types_GPU (nodeName : string) (r : Registry) (g : GPUInfo) : GPU :=
  mkGPU (gi_UUID g) (gi_Index g) nodeName (gi_TotalMemoryMB g)
    (GetReservedMemory nodeName (gi_UUID g) r) (f64_of_int (gi_UtilizationGPU g)) (gi_IsHealthy g)
    false (GetPodCount nodeName (gi_UUID g) r) (gi_MPSEnabled g).

Definition GetNodes (order : list string) (r : Registry) : list NodeInfo :=
  (λ nn, let gpus := to_types_GPU nn.1 r <$> ng_GPUs nn.2 in
     mkNodeInfo nn.1 ∅ gpus false (Z.of_nat (length gpus))
       (Z.of_nat (length (List.filter gi_IsHealthy (ng_GPUs nn.2)))) ["Ready"])
  <$> range (reg_nodes r) order.

(** ** Specification: what the counters must say

    [entries_of] is every tracked entry; the counters of a GPU are the sums
    over the entries placed on it. *)
Definition entries_of (al : gmap string (list AllocationEntry)) : list AllocationEntry :=
  mjoin ((map_to_list al).*2).

Definition entry_on (n g : string) (e : AllocationEntry) : bool :=
  negb (ae_IsMIG e) && String.eqb (ae_NodeName e) n && String.eqb (ae_GPUUUID e) g.

Definition mem_on (n g : string) (es : list AllocationEntry) : Z :=
  zsum ((λ e, if entry_on n g e then ae_MemoryMB e else 0) <$> es).

Definition count_on (n g : string) (es : list AllocationEntry) : Z :=
  zsum ((λ e, if entry_on n g e then 1 else 0) <$> es).

Definition entry_ok (e : AllocationEntry) : Prop :=
  0 ≤ ae_MemoryMB e ∧ (12 ≤ String.length (ae_GPUUUID e))%nat.

(** The counters of [r] account for exactly the entries [es]. *)
Definition accounts (r : Registry) (es : list AllocationEntry) : Prop :=
  (∀ n, is_Some (reg_reservations r !! n) ↔ is_Some (reg_podCountPerGPU r !! n)) ∧
  Forall entry_ok es ∧
  ∀ n g, GetReservedMemory n g r = mem_on n g es ∧ GetPodCount n g r = count_on n g es ∧
    mem_on n g es ≤ int_max ∧ count_on n g es ≤ int_max.

Definition registry_wf (r : Registry) : Prop := accounts r (entries_of (reg_podAllocations r)).

(** The identifiers the agents reported, which no operation of the scheduler
    changes. *)
Definition node_ids (n : NodeGPUs) : list (string * list string) :=
  (λ g, (gi_UUID g, mig_UUID <$> gi_MIGInstances g)) <$> ng_GPUs n.

Definition ids_map (r : Registry) : gmap string (list (string * list string)) :=
  node_ids <$> reg_nodes r.

(** A well-formed registry reached from [r] by operations of the scheduler. *)
Definition keeps (r r' : Registry) : Prop := registry_wf r' ∧ ids_map r' = ids_map r.

Definition full_candidate (n : string) (g : GPUInfo) (r : Registry) : GPUCandidate :=
  mkGPUCandidate n (gi_UUID g) (gi_Name g) (free_memory n g r) (gi_TotalMemoryMB g)
    (GetPodCount n (gi_UUID g) r) (gi_MPSEnabled g).

(** Freshness: what [lastSeen] records is the time of the stored report. *)
Definition seen_ok (r : Registry) : Prop :=
  ∀ k, reg_lastSeen r !! k = ng_ReportedAt <$> reg_nodes r !! k.

(** ** The registry as a transition system *)
Inductive reg_op : Type :=
  | OpReport (now : Time) (report : GPUReport)
  | OpRemoveStale (now : Time) (threshold : Z)
  | OpMarkGPU (nodeName gpuUUID : string) (memoryMB : Z) (namespace podName : string)
  | OpMarkMIG (nodeName migUUID : string) (memoryMB : Z) (namespace podName : string)
  | OpRelease (namespace podName : string)
  | OpMIG (available : bool) (nodeName migUUID : string)
  | OpReleaseGPU (nodeName gpuUUID : string) (memoryMB : Z).

Definition reg_exec (r : Registry) (op : reg_op) : outcome Registry :=
  match op with
  | OpReport now report => Done (UpdateFromReport now report r)
  | OpRemoveStale now threshold => Done (RemoveStaleNodes now threshold r)
  | OpMarkGPU n g m ns p => MarkGPUAllocatedForPod n g m ns p r
  | OpMarkMIG n g m ns p => MarkMIGAllocatedForPod n g m ns p r
  | OpRelease ns p => ReleasePod ns p r
  | OpMIG true n g => Done (ReleaseMIG n g r)
  | OpMIG false n g => Done (MarkMIGAllocated n g r)
  | OpReleaseGPU n g m => Done (ReleaseGPU n g m r)
  end.

(** What a caller owes: reservations are not negative and the totals fit [int]. *)
Definition op_ok (r : Registry) (op : reg_op) : Prop :=
  match op with
  | OpMarkGPU n g m _ _ =>
      0 ≤ m ∧ GetReservedMemory n g r + m ≤ int_max ∧ GetPodCount n g r + 1 ≤ int_max
  | OpMarkMIG _ _ m _ _ => 0 ≤ m
  | _ => True
  end.

Inductive reg_reachable : Registry → Prop :=
  | reach_new : reg_reachable NewRegistry
  | reach_step r op r' :
      reg_reachable r → op_ok r op → reg_exec r op = Done r' → reg_reachable r'.

(** ** A sample registry: one node, one full GPU and one in MIG mode *)
Definition sample_mig : MIGInstance :=
  mkMIGInstance 0 0 "MIG-aaaaaaaaaaaa" "MIG-1g.10gb" 0 9728 14 1 1 true.

Definition sample_gpu (uuid : string) (mig : bool) : GPUInfo :=
  mkGPUInfo uuid 0 "NVIDIA A100" 40960 0 40960 0 30 true false mig (if mig then [sample_mig] else []).

Definition sample_report : GPUReport :=
  mkGPUReport "node-a" true [sample_gpu "GPU-aaaaaaaaaaaa" false; sample_gpu "GPU-bbbbbbbbbbbb" true].

Definition sample_registry : Registry := UpdateFromReport 1000 sample_report NewRegistry.

(** The state after a call that did not panic. *)
Definition after (o : outcome Registry) : Registry :=
  match o with Done r => r | Panicked => NewRegistry end.

Definition sample_marked : Registry :=
  after (MarkGPUAllocatedForPod "node-a" "GPU-aaaaaaaaaaaa" 20000 "default" "train-0" sample_registry).

Definition sample_mig_marked : Registry :=
  after (MarkMIGAllocatedForPod "node-a" "MIG-aaaaaaaaaaaa" 5000 "default" "serve-0" sample_registry).

(** ** Lemmas on the counters *)
Lemma cell_update n g f m m' :
  update_cell n g f m = Done m' →
  (∀ n' g', cell m' n' g' = if decide (n' = n ∧ g' = g) then f (cell m n g) else cell m n' g') ∧
  (∀ n', is_Some (m' !! n') ↔ is_Some (m !! n')).
Proof.
  unfold update_cell, cell. destruct (m !! n) as [inner|] eqn:E; [intros [= <-]|done]. split.
  - intros n' g'. destruct (decide (n' = n)) as [->|Hn].
    + rewrite lookup_insert_eq, E. cbn. destruct (decide (g' = g)) as [->|Hg].
      * rewrite lookup_insert_eq. by rewrite decide_True.
      * rewrite lookup_insert_ne by done. rewrite decide_False by naive_solver. done.
    + rewrite lookup_insert_ne by done. by rewrite decide_False by naive_solver.
  - intros n'. destruct (decide (n' = n)) as [->|Hn].
    + rewrite lookup_insert_eq, E. naive_solver.
    + by rewrite lookup_insert_ne.
Qed.

Lemma update_cell_some n g f m : is_Some (m !! n) → ∃ m', update_cell n g f m = Done m'.
Proof. unfold update_cell. intros [inner ->]. eauto. Qed.

Lemma init_node_cells n r n' g :
  GetReservedMemory n' g (init_node n r) = GetReservedMemory n' g r.
Proof.
  unfold init_node, GetReservedMemory, cell.
  destruct (reg_reservations r !! n) eqn:E; [done|]. cbn.
  destruct (decide (n' = n)) as [->|]; [by rewrite lookup_insert_eq, E|by rewrite lookup_insert_ne].
Qed.

Lemma init_node_counts n r n' g :
  (∀ n, is_Some (reg_reservations r !! n) ↔ is_Some (reg_podCountPerGPU r !! n)) →
  GetPodCount n' g (init_node n r) = GetPodCount n' g r.
Proof.
  intros Hdom. unfold init_node, GetPodCount, cell.
  destruct (reg_reservations r !! n) eqn:E; [done|]. cbn.
  destruct (decide (n' = n)) as [->|]; [|by rewrite lookup_insert_ne].
  rewrite lookup_insert_eq. cbn.
  destruct (reg_podCountPerGPU r !! n) eqn:E'; [|done].
  destruct (proj2 (Hdom n)) as [? ?]; [by rewrite E'|congruence].
Qed.

(** ** Lemmas on the entries *)
Lemma entries_of_insert al k es :
  entries_of (<[k := es]> al) ≡ₚ (es ++ entries_of (delete k al))%list.
Proof.
  unfold entries_of. rewrite <-insert_delete_eq, map_to_list_insert by apply lookup_delete_eq.
  done.
Qed.

Lemma entries_of_delete al k es :
  al !! k = Some es → entries_of al ≡ₚ (es ++ entries_of (delete k al))%list.
Proof. intros H. rewrite <-entries_of_insert. by rewrite insert_id. Qed.

Lemma entries_of_delete_none al k : al !! k = None → entries_of (delete k al) = entries_of al.
Proof. intros H. by rewrite delete_id. Qed.

Lemma entries_of_track al k e :
  entries_of (<[k := (default [] (al !! k) ++ [e])%list]> al) ≡ₚ e :: entries_of al.
Proof.
  rewrite entries_of_insert. destruct (al !! k) as [es|] eqn:E; cbn.
  - rewrite (entries_of_delete al k es E), <-(assoc app). cbn. by rewrite Permutation_middle.
  - by rewrite entries_of_delete_none.
Qed.

Section sums.
Variables n g : string.

#[export] Instance mem_on_perm : Proper ((≡ₚ) ==> (=)) (mem_on n g).
Proof. intros l1 l2 H. unfold mem_on. by rewrite H. Qed.

#[export] Instance count_on_perm : Proper ((≡ₚ) ==> (=)) (count_on n g).
Proof. intros l1 l2 H. unfold count_on. by rewrite H. Qed.

Lemma mem_on_cons e es :
  mem_on n g (e :: es) = (if entry_on n g e then ae_MemoryMB e else 0) + mem_on n g es.
Proof. done. Qed.

Lemma count_on_cons e es :
  count_on n g (e :: es) = (if entry_on n g e then 1 else 0) + count_on n g es.
Proof. done. Qed.

Lemma mem_on_nonneg es : Forall entry_ok es → 0 ≤ mem_on n g es.
Proof.
  induction 1 as [|e es [He _] _ IH]; [done|]. rewrite mem_on_cons. case_match; lia.
Qed.

Lemma count_on_nonneg es : 0 ≤ count_on n g es.
Proof. induction es as [|e es IH]; [done|]. rewrite count_on_cons. case_match; lia. Qed.

Lemma mem_on_app es1 es2 : mem_on n g (es1 ++ es2) = mem_on n g es1 + mem_on n g es2.
Proof. unfold mem_on. by rewrite fmap_app, zsum_app. Qed.

Lemma count_on_app es1 es2 : count_on n g (es1 ++ es2) = count_on n g es1 + count_on n g es2.
Proof. unfold count_on. by rewrite fmap_app, zsum_app. Qed.
End sums.

#[export] Instance accounts_perm r : Proper ((≡ₚ) ==> iff) (accounts r).
Proof.
  intros l1 l2 H. unfold accounts. rewrite H. do 2 f_equiv.
  split; intros Ha n g; specialize (Ha n g); by rewrite ?H in *.
Qed.

Lemma entry_on_full n g m n' g' :
  entry_on n' g' (mkAllocationEntry n g m false) = bool_decide (n' = n ∧ g' = g).
Proof.
  unfold entry_on. cbn. rewrite bool_decide_and.
  destruct (String.eqb_spec n n') as [->|], (String.eqb_spec g g') as [->|];
    repeat first [rewrite bool_decide_true by done | rewrite bool_decide_false by done]; done.
Qed.

(** ** Preservation of the accounting *)
Lemma accounts_counters r r' es :
  reg_reservations r' = reg_reservations r → reg_podCountPerGPU r' = reg_podCountPerGPU r →
  accounts r es → accounts r' es.
Proof. unfold accounts, GetReservedMemory, GetPodCount. by intros -> ->. Qed.

Lemma str_prefix_done n s p : str_prefix n s = Done p → (n ≤ String.length s)%nat.
Proof. unfold str_prefix. case_match eqn:E; [|done]. by apply Nat.leb_le in E. Qed.

Lemma str_prefix_some n s : (n ≤ String.length s)%nat → ∃ p, str_prefix n s = Done p.
Proof. intros H. unfold str_prefix. rewrite (proj2 (Nat.leb_le _ _)) by done. eauto. Qed.

(** What [MarkGPUAllocatedForPod] does to the counters, on every cell. *)
Lemma mark_gpu_cells n g m ns p r r' :
  (∀ n, is_Some (reg_reservations r !! n) ↔ is_Some (reg_podCountPerGPU r !! n)) →
  MarkGPUAllocatedForPod n g m ns p r = Done r' →
  (∀ n' g', GetReservedMemory n' g' r' =
     if decide (n' = n ∧ g' = g) then GetReservedMemory n g r ⊞ m else GetReservedMemory n' g' r) ∧
  (∀ n' g', GetPodCount n' g' r' =
     if decide (n' = n ∧ g' = g) then GetPodCount n g r ⊞ 1 else GetPodCount n' g' r) ∧
  (∀ n', is_Some (reg_reservations r' !! n') ↔ is_Some (reg_podCountPerGPU r' !! n')) ∧
  reg_podAllocations r' =
    <[pod_key ns p := (default [] (reg_podAllocations r !! pod_key ns p)
        ++ [mkAllocationEntry n g m false])%list]> (reg_podAllocations r) ∧
  reg_nodes r' = reg_nodes r ∧ (12 ≤ String.length g)%nat.
Proof.
  intros Hdom H. unfold MarkGPUAllocatedForPod in H.
  apply outcome_bind_done in H as (res & Hres & H).
  apply outcome_bind_done in H as (cnt & Hcnt & H).
  apply outcome_bind_done in H as (s & Hs & [= <-]).
  apply cell_update in Hres as [Hres Hresd]. apply cell_update in Hcnt as [Hcnt Hcntd].
  assert (reg_podAllocations (init_node n r) = reg_podAllocations r) as Hal
    by (unfold init_node; by case_match).
  assert (reg_nodes (init_node n r) = reg_nodes r) as Hnodes
    by (unfold init_node; by case_match).
  split_and!.
  - intros n' g'. unfold GetReservedMemory at 1; cbn. rewrite Hres.
    pose proof (init_node_cells n r) as Hi. unfold GetReservedMemory in *. by rewrite !Hi.
  - intros n' g'. unfold GetPodCount at 1; cbn. rewrite Hcnt.
    pose proof (init_node_counts n r) as Hi. unfold GetPodCount in *. by rewrite !Hi.
  - intros n'. cbn. rewrite Hresd, Hcntd. unfold init_node.
    case_match; cbn; [apply Hdom|]. destruct (decide (n' = n)) as [->|].
    + by rewrite !lookup_insert_eq.
    + rewrite !lookup_insert_ne by done. apply Hdom.
  - cbn. by rewrite Hal.
  - done.
  - by eapply str_prefix_done.
Qed.

Lemma mark_gpu_accounts n g m ns p r r' es :
  accounts r es → op_ok r (OpMarkGPU n g m ns p) →
  MarkGPUAllocatedForPod n g m ns p r = Done r' →
  accounts r' (mkAllocationEntry n g m false :: es).
Proof.
  intros (Hdom & Hok & Hsum) (Hm & Hmax & Hcmax) H.
  apply mark_gpu_cells in H as (Hres & Hcnt & Hdom' & _ & _ & Hlen); [|done].
  split_and!; [done|by constructor|]. intros n' g'.
  rewrite Hres, Hcnt, mem_on_cons, count_on_cons, entry_on_full; cbn.
  pose proof (mem_on_nonneg n' g' es Hok). pose proof (count_on_nonneg n' g' es).
  destruct (Hsum n g) as (E1 & E2 & ? & ?), (Hsum n' g') as (E1' & E2' & ? & ?).
  destruct (decide (n' = n ∧ g' = g)) as [[-> ->]|Hne].
  - rewrite bool_decide_true by done. rewrite E1, E2 in *. int_norm. lia.
  - rewrite bool_decide_false by done. lia.
Qed.

(** One release step gives back exactly what the entry held: the clamp at zero
    is never taken when the counters account for the entry. *)
Lemma release_entry_accounts r e es :
  accounts r (e :: es) → ∃ r', release_entry r e = Done r' ∧ accounts r' es ∧
    reg_podAllocations r' = reg_podAllocations r.
Proof.
  intros (Hdom & Hok & Hsum). apply Forall_cons in Hok as [[Hmem Hlen] Hok].
  destruct (str_prefix_some 12 (ae_GPUUUID e) Hlen) as [s Hs].
  unfold release_entry. destruct (ae_IsMIG e) eqn:Hmig.
  { rewrite Hs. cbn. eexists. split; [done|]. split; [|done].
    apply (accounts_counters r); [done..|]. split_and!; [done..|]. intros n g.
    specialize (Hsum n g). rewrite mem_on_cons, count_on_cons in Hsum.
    unfold entry_on in Hsum. rewrite Hmig in Hsum. cbn in Hsum. lia. }
  assert (∀ n g, entry_on n g e = bool_decide (n = ae_NodeName e ∧ g = ae_GPUUUID e)) as Hon.
  { intros n g. rewrite <-(entry_on_full _ _ (ae_MemoryMB e)). f_equal.
    destruct e; cbn in *. by subst. }
  set (n := ae_NodeName e) in *. set (g := ae_GPUUUID e) in *.
  destruct (reg_reservations r !! n) as [inner|] eqn:Hn.
  - destruct (update_cell_some n g (λ v, v ⊟ ae_MemoryMB e) (reg_reservations r)) as [res Hres];
      [by eexists|].
    destruct (update_cell_some n g (λ v, v ⊟ 1) (reg_podCountPerGPU r)) as [cnt Hcnt];
      [apply Hdom; by eexists|].
    rewrite Hres, Hcnt. cbn.
    apply cell_update in Hres as [Hres Hresd]. apply cell_update in Hcnt as [Hcnt Hcntd].
    pose proof (mem_on_nonneg n g es Hok). pose proof (count_on_nonneg n g es).
    pose proof (Hsum n g) as Hng. rewrite mem_on_cons, count_on_cons, Hon in Hng.
    rewrite bool_decide_true in Hng by done. unfold GetReservedMemory, GetPodCount in Hng.
    assert (cell res n g = mem_on n g es) as Ec.
    { rewrite Hres, decide_True by done. int_norm. lia. }
    rewrite Ec, (proj2 (Z.ltb_ge _ _)) by done. cbn. rewrite Hs. cbn.
    eexists. split; [done|]. split; [|done]. split_and!; [|done|].
    + intros n'. cbn. rewrite Hresd, Hcntd. apply Hdom.
    + intros n' g'. unfold GetReservedMemory, GetPodCount. cbn. rewrite Hcnt.
      pose proof (Hsum n' g') as Hng'. rewrite mem_on_cons, count_on_cons, Hon in Hng'.
      pose proof (mem_on_nonneg n' g' es Hok). pose proof (count_on_nonneg n' g' es).
      unfold GetReservedMemory, GetPodCount in *. rewrite Hres in *.
      destruct (decide (n' = n ∧ g' = g)) as [[-> ->]|Hne].
      * rewrite decide_True in Ec by done. int_norm. lia.
      * rewrite bool_decide_false in Hng' by done. lia.
  - cbn. rewrite Hs. cbn. eexists. split; [done|]. split; [|done]. split_and!; [done..|].
    intros n' g'. specialize (Hsum n' g'). rewrite mem_on_cons, count_on_cons, Hon in Hsum.
    pose proof (mem_on_nonneg n' g' es Hok). pose proof (count_on_nonneg n' g' es).
    destruct (bool_decide_reflect (n' = n ∧ g' = g)) as [[-> ->]|Hne]; [|lia].
    exfalso. assert (GetPodCount n g r = 0) as Hz; [|lia].
    unfold GetPodCount, cell. destruct (reg_podCountPerGPU r !! n) eqn:E'; [|done].
    destruct (proj2 (Hdom n)) as [? ?]; [by rewrite E'|congruence].
Qed.

Lemma release_entries_accounts es rest r :
  accounts r (es ++ rest) → ∃ r', foldM release_entry r es = Done r' ∧ accounts r' rest ∧
    reg_podAllocations r' = reg_podAllocations r.
Proof.
  revert r. induction es as [|e es IH]; intros r Ha; cbn; [eauto|].
  destruct (release_entry_accounts r e (es ++ rest) Ha) as (r1 & -> & Ha1 & Eal). cbn.
  destruct (IH r1 Ha1) as (r2 & -> & Ha2 & Eal2). exists r2. split; [done|].
  split; [done|congruence].
Qed.

(** Releasing a pod of a well-formed registry succeeds and leaves the other
    pods' entries, and the counters that account for them. *)
Lemma release_pod_wf ns p r :
  registry_wf r → ∃ r', ReleasePod ns p r = Done r' ∧ registry_wf r' ∧
    reg_podAllocations r' = delete (pod_key ns p) (reg_podAllocations r).
Proof.
  intros Hwf. unfold ReleasePod. set (k := pod_key ns p).
  destruct (reg_podAllocations r !! k) as [es|] eqn:E.
  - unfold registry_wf in Hwf. rewrite (entries_of_delete _ _ _ E) in Hwf.
    destruct (release_entries_accounts _ _ _ Hwf) as (r' & -> & Ha & Eal). cbn.
    eexists. split; [done|]. cbn. rewrite Eal. split; [|done].
    unfold registry_wf. cbn. by apply (accounts_counters r').
  - exists r. split; [done|]. split; [done|]. by rewrite delete_id.
Qed.

Lemma mark_mig_wf n g m ns p r r' :
  registry_wf r → 0 ≤ m → MarkMIGAllocatedForPod n g m ns p r = Done r' → registry_wf r'.
Proof.
  intros Hwf Hm H. unfold MarkMIGAllocatedForPod in H.
  apply outcome_bind_done in H as (s & Hs%str_prefix_done & [= <-]).
  unfold registry_wf. cbn. rewrite entries_of_track.
  destruct Hwf as (Hdom & Hok & Hsum). split_and!; [done|by constructor|].
  intros n' g'. rewrite mem_on_cons, count_on_cons. unfold entry_on at 1 2. cbn. apply Hsum.
Qed.

Lemma mark_gpu_wf n g m ns p r r' :
  registry_wf r → op_ok r (OpMarkGPU n g m ns p) →
  MarkGPUAllocatedForPod n g m ns p r = Done r' → registry_wf r'.
Proof.
  intros Hwf Hop H. pose proof (mark_gpu_accounts _ _ _ _ _ _ _ _ Hwf Hop H) as Ha.
  unfold registry_wf.
  apply mark_gpu_cells in H as (_ & _ & _ & -> & _); [|apply Hwf].
  by rewrite entries_of_track.
Qed.

(** Marking panics on a short identifier only. *)
Lemma mark_gpu_total n g m ns p r :
  registry_wf r → (12 ≤ String.length g)%nat →
  ∃ r', MarkGPUAllocatedForPod n g m ns p r = Done r'.
Proof.
  intros (Hdom & _) Hlen. unfold MarkGPUAllocatedForPod.
  assert (is_Some (reg_reservations (init_node n r) !! n) ∧
          is_Some (reg_podCountPerGPU (init_node n r) !! n)) as [H1 H2].
  { unfold init_node. destruct (reg_reservations r !! n) as [inner|] eqn:E; cbn.
    - split; [by rewrite E|]. apply Hdom. by rewrite E.
    - by rewrite !lookup_insert_eq. }
  destruct (update_cell_some n g (λ v, v ⊞ m) _ H1) as [res ->]. cbn.
  destruct (update_cell_some n g (λ v, v ⊞ 1) _ H2) as [cnt ->]. cbn.
  destruct (str_prefix_some 12 g Hlen) as [s ->]. cbn. eauto.
Qed.

(** A well-formed registry is determined, as to its counters, by its entries. *)
Lemma wf_counters r r' :
  registry_wf r → registry_wf r' → reg_podAllocations r' = reg_podAllocations r →
  ∀ n g, GetReservedMemory n g r' = GetReservedMemory n g r ∧ GetPodCount n g r' = GetPodCount n g r.
Proof.
  intros (_ & _ & H) (_ & _ & H') E n g. specialize (H n g). specialize (H' n g).
  rewrite E in H'. lia.
Qed.

Lemma reg_exec_wf r op r' : registry_wf r → op_ok r op → reg_exec r op = Done r' → registry_wf r'.
Proof.
  intros Hwf Hop H. destruct op as [| | | | |[] |]; cbn in H;
    try (injection H as <-; by apply (accounts_counters r)).
  - by eapply mark_gpu_wf.
  - by eapply mark_mig_wf.
  - destruct (release_pod_wf namespace podName r Hwf) as (r1 & E & ? & _). congruence.
Qed.

Lemma registry_wf_new : registry_wf NewRegistry.
Proof. split_and!; [done|constructor|]. intros n g. done. Qed.

Lemma reachable_wf r : reg_reachable r → registry_wf r.
Proof. induction 1; [apply registry_wf_new|by eapply reg_exec_wf]. Qed.

Create HintDb registry discriminated.
#[export] Hint Resolve registry_wf_new reachable_wf mark_gpu_wf mark_mig_wf : registry.

(** ** Candidate search *)
Lemma GetNodes_elem order r ni :
  range_order (reg_nodes r) order →
  ni ∈ GetNodes order r ↔ ∃ node, reg_nodes r !! node_Name ni = Some node ∧
    ni = mkNodeInfo (node_Name ni) ∅ (to_types_GPU (node_Name ni) r <$> ng_GPUs node) false
      (Z.of_nat (length (ng_GPUs node)))
      (Z.of_nat (length (List.filter gi_IsHealthy (ng_GPUs node)))) ["Ready"].
Proof.
  intros Ho. unfold GetNodes. rewrite list_elem_of_fmap. split.
  - intros ([k node] & -> & Hin%(range_elem _ _ _ _ Ho)). exists node. cbn.
    by rewrite length_fmap.
  - intros (node & Hn & Heq). exists (node_Name ni, node).
    split; [by rewrite Heq at 1; cbn; rewrite length_fmap|by apply range_elem].
Qed.

(** The node names of the scheduling view are pairwise different. *)
Lemma GetNodes_nodup order r :
  range_order (reg_nodes r) order → NoDup (node_Name <$> GetNodes order r).
Proof.
  intros Ho. unfold GetNodes. rewrite <-list_fmap_compose.
  rewrite (list_fmap_ext _ fst) by done.
  rewrite (range_perm _ _ Ho). apply NoDup_fst_map_to_list.
Qed.

Lemma free_memory_eq n g r :
  in_int (reported_free g) →
  free_memory n g r = reported_free g ⊟ GetReservedMemory n (gi_UUID g) r.
Proof.
  intros Hr. unfold free_memory, GetReservedMemory, cell.
  destruct (reg_reservations r !! n) as [inner|]; cbn; [done|].
  rewrite Z.sub_0_r. by rewrite wrap64_id.
Qed.

Lemma FindAvailableFullGPU_elem m order r c :
  range_order (reg_nodes r) order →
  c ∈ FindAvailableFullGPU m order r ↔ ∃ n node g,
    reg_nodes r !! n = Some node ∧ g ∈ ng_GPUs node ∧
    gi_MIGEnabled g = false ∧ gi_IsHealthy g = true ∧ m ≤ free_memory n g r ∧
    c = full_candidate n g r.
Proof.
  intros Ho. unfold FindAvailableFullGPU. rewrite list_elem_of_bind. split.
  - intros ([n node] & (g & Hc & Hg)%list_elem_of_bind & Hin%(range_elem _ _ _ _ Ho)).
    exists n, node, g. cbn in *.
    destruct (gi_MIGEnabled g), (gi_IsHealthy g); cbn in Hc; try (by apply elem_of_nil in Hc).
    destruct (Z.ltb_spec (free_memory n g r) m); [by apply elem_of_nil in Hc|].
    apply list_elem_of_singleton in Hc. done.
  - intros (n & node & g & Hn & Hg & Hmig & Hh & Hm & ->). exists (n, node).
    split; [|by apply range_elem]. apply list_elem_of_bind. exists g. split; [|done].
    rewrite Hmig, Hh. cbn. rewrite (proj2 (Z.ltb_ge _ _)) by done.
    by apply list_elem_of_singleton.
Qed.

Lemma list_filter_elem {A} (p : A → bool) l x : x ∈ List.filter p l ↔ x ∈ l ∧ p x = true.
Proof. by rewrite !list_elem_of_In, filter_In. Qed.

Lemma FindAvailableMIG_elem m order r c :
  range_order (reg_nodes r) order →
  c ∈ FindAvailableMIG m order r ↔ ∃ n node g mi,
    reg_nodes r !! n = Some node ∧ g ∈ ng_GPUs node ∧ mi ∈ gi_MIGInstances g ∧
    gi_MIGEnabled g = true ∧ gi_IsHealthy g = true ∧ mig_IsAvailable mi = true ∧
    m ≤ mig_MemoryMB mi ∧
    c = mkMIGCandidate n (gi_UUID g) (mig_UUID mi) (mig_ProfileName mi) (mig_MemoryMB mi)
          (mig_SMCount mi) (GetPodCount n (gi_UUID g) r).
Proof.
  intros Ho. unfold FindAvailableMIG. rewrite list_elem_of_bind. split.
  - intros ([n node] & (g & Hc & Hg)%list_elem_of_bind & Hin%(range_elem _ _ _ _ Ho)).
    cbn in *. destruct (gi_MIGEnabled g) eqn:E1, (gi_IsHealthy g) eqn:E2; cbn in Hc;
      try (by apply elem_of_nil in Hc).
    apply list_elem_of_bind in Hc as (mi & Hc & Hmi).
    destruct (mig_IsAvailable mi) eqn:E3; cbn in Hc; [|by apply elem_of_nil in Hc].
    rewrite Z.geb_leb in Hc. destruct (Z.leb_spec m (mig_MemoryMB mi)); [|by apply elem_of_nil in Hc].
    apply list_elem_of_singleton in Hc. exists n, node, g, mi. done.
  - intros (n & node & g & mi & Hn & Hg & Hmi & E1 & E2 & E3 & Hm & ->). exists (n, node).
    split; [|by apply range_elem]. apply list_elem_of_bind. exists g. split; [|done].
    rewrite E1, E2. cbn. apply list_elem_of_bind. exists mi. split; [|done].
    rewrite E3, Z.geb_leb, (proj2 (Z.leb_le _ _)) by done. cbn. by apply list_elem_of_singleton.
Qed.

Lemma mark_gpu_alloc n g m ns p r r' :
  MarkGPUAllocatedForPod n g m ns p r = Done r' →
  reg_nodes r' = reg_nodes r ∧ reg_podAllocations r' =
    <[pod_key ns p := (default [] (reg_podAllocations r !! pod_key ns p)
        ++ [mkAllocationEntry n g m false])%list]> (reg_podAllocations r).
Proof.
  unfold MarkGPUAllocatedForPod. intros (res & _ & H)%outcome_bind_done.
  apply outcome_bind_done in H as (cnt & _ & H). apply outcome_bind_done in H as (_ & _ & [= <-]).
  unfold init_node. by destruct (reg_reservations r !! n).
Qed.

(** What releasing an entry leaves alone. *)
Lemma release_entry_frame r e r' :
  release_entry r e = Done r' →
  reg_nodes r' = reg_nodes (if ae_IsMIG e
    then update_node (ae_NodeName e) (set_mig_all true (ae_GPUUUID e)) r else r) ∧
  reg_podAllocations r' = reg_podAllocations r ∧ reg_lastSeen r' = reg_lastSeen r.
Proof.
  unfold release_entry. destruct (ae_IsMIG e).
  - by intros (_ & _ & [= <-])%outcome_bind_done.
  - intros (r1 & H & H2)%outcome_bind_done. apply outcome_bind_done in H2 as (_ & _ & [= <-]).
    destruct (reg_reservations r !! _); [|by injection H as <-].
    apply outcome_bind_done in H as (res & _ & H). apply outcome_bind_done in H as (cnt & _ & H).
    destruct (_ <? 0); [|by injection H as <-].
    apply outcome_bind_done in H as (res' & _ & H). by apply outcome_bind_done in H as (cnt' & _ & [= <-]).
Qed.

(** ** Identifiers *)
Lemma set_mig_all_ids b u n : node_ids (set_mig_all b u n) = node_ids n.
Proof.
  unfold node_ids, set_mig_all. cbn. rewrite <-list_fmap_compose. apply list_fmap_ext. intros i g _.
  cbn. f_equal. rewrite <-list_fmap_compose. apply list_fmap_ext. intros j m _. cbn.
  by destruct (String.eqb (mig_UUID m) u).
Qed.

Lemma update_node_ids n f r :
  (∀ x, node_ids (f x) = node_ids x) → ids_map (update_node n f r) = ids_map r.
Proof.
  intros Hf. apply map_eq. intros k. unfold ids_map, update_node. cbn. rewrite !lookup_fmap.
  destruct (decide (k = n)) as [->|Hne]; [rewrite lookup_alter_eq|by rewrite lookup_alter_ne].
  destruct (reg_nodes r !! n); cbn; [by rewrite Hf|done].
Qed.

Lemma mark_gpu_ids n g m ns p r r' :
  MarkGPUAllocatedForPod n g m ns p r = Done r' → ids_map r' = ids_map r.
Proof.
  unfold MarkGPUAllocatedForPod. intros (res & _ & H)%outcome_bind_done.
  apply outcome_bind_done in H as (cnt & _ & H). apply outcome_bind_done in H as (_ & _ & [= <-]).
  unfold ids_map, init_node. cbn. by destruct (reg_reservations r !! n).
Qed.

Lemma mark_mig_ids n g m ns p r r' :
  MarkMIGAllocatedForPod n g m ns p r = Done r' → ids_map r' = ids_map r.
Proof.
  unfold MarkMIGAllocatedForPod. intros (_ & _ & [= <-])%outcome_bind_done.
  by apply (update_node_ids n _ r), set_mig_all_ids.
Qed.

Lemma release_entry_ids r e r' : release_entry r e = Done r' → ids_map r' = ids_map r.
Proof.
  intros (E & _ & _)%release_entry_frame. unfold ids_map. rewrite E. destruct (ae_IsMIG e); [|done].
  apply (update_node_ids _ _ r), set_mig_all_ids.
Qed.

Lemma ReleasePod_ids ns p r r' : ReleasePod ns p r = Done r' → ids_map r' = ids_map r.
Proof.
  unfold ReleasePod. destruct (reg_podAllocations r !! _) as [es|]; [|by intros [= <-]].
  intros (r1 & H & [= <-])%outcome_bind_done.
  apply (foldM_inv (λ r1 _, ids_map r1 = ids_map r) release_entry es) in H; [done| |done].
  intros r2 e l r3 Hr2 H3. by rewrite (release_entry_ids _ _ _ H3).
Qed.

Lemma ids_map_lookup r r' k node :
  ids_map r' = ids_map r → reg_nodes r' !! k = Some node →
  ∃ node0, reg_nodes r !! k = Some node0 ∧ node_ids node0 = node_ids node.
Proof.
  intros E Hk. assert (ids_map r !! k = Some (node_ids node)) as H.
  { rewrite <-E. unfold ids_map. by rewrite lookup_fmap, Hk. }
  unfold ids_map in H. rewrite lookup_fmap in H. destruct (reg_nodes r !! k) as [n0|]; [|done].
  injection H as H. by exists n0.
Qed.

Lemma range_order_ids r r' order :
  ids_map r' = ids_map r → range_order (reg_nodes r) order → range_order (reg_nodes r') order.
Proof.
  intros E. unfold range_order.
  assert (∀ r, (map_to_list (ids_map r)).*1 = (map_to_list (reg_nodes r)).*1) as Hk.
  { intros r0. unfold ids_map. rewrite map_to_list_fmap, <-list_fmap_compose. by apply list_fmap_ext. }
  by rewrite <-!Hk, E.
Qed.

Lemma keeps_refl r : registry_wf r → keeps r r.
Proof. done. Qed.

Lemma keeps_trans r1 r2 r3 : keeps r1 r2 → keeps r2 r3 → keeps r1 r3.
Proof. intros [_ E1] [H E2]. split; [done|congruence]. Qed.

Lemma update_node_seen n f r :
  (∀ x, ng_ReportedAt (f x) = ng_ReportedAt x) → seen_ok r → seen_ok (update_node n f r).
Proof.
  intros Hf Hs k. unfold update_node. cbn. rewrite Hs.
  destruct (decide (k = n)) as [->|]; [|by rewrite lookup_alter_ne].
  rewrite lookup_alter_eq. destruct (reg_nodes r !! n); cbn; by rewrite ?Hf.
Qed.

Lemma release_entry_seen r e r' : seen_ok r → release_entry r e = Done r' → seen_ok r'.
Proof.
  intros Hs (En & _ & El)%release_entry_frame k. rewrite En, El. destruct (ae_IsMIG e); [|apply Hs].
  by apply update_node_seen.
Qed.

Lemma reg_exec_seen r op r' : seen_ok r → reg_exec r op = Done r' → seen_ok r'.
Proof.
  intros Hs H. destruct op as [now rep|now th|n g m ns p|n g m ns p|ns p|[] n g|n g m]; cbn in H.
  - injection H as <-. intros k. unfold UpdateFromReport. cbn.
    destruct (decide (k = rep_NodeName rep)) as [->|].
    + by rewrite !lookup_insert_eq.
    + by rewrite !lookup_insert_ne.
  - injection H as <-. intros k. unfold RemoveStaleNodes. cbn.
    rewrite !map_lookup_filter, Hs. destruct (reg_nodes r !! k); cbn; [|done].
    by destruct (guard _).
  - unfold MarkGPUAllocatedForPod in H.
    apply outcome_bind_done in H as (res & _ & H).
    apply outcome_bind_done in H as (cnt & _ & H).
    apply outcome_bind_done in H as (s & _ & [= <-]).
    intros k. cbn. unfold init_node. case_match; apply Hs.
  - unfold MarkMIGAllocatedForPod in H. apply outcome_bind_done in H as (s & _ & [= <-]).
    intros k. cbn. by apply update_node_seen.
  - unfold ReleasePod in H. case_match; [|by injection H as <-].
    apply outcome_bind_done in H as (r1 & H & [= <-]).
    change (seen_ok r1). eapply (foldM_inv (λ r _, seen_ok r)); [|exact Hs|exact H].
    intros. by eapply release_entry_seen.
  - injection H as <-. by apply update_node_seen.
  - injection H as <-. by apply update_node_seen.
  - injection H as <-. by apply update_node_seen.
Qed.

Lemma reachable_seen r : reg_reachable r → seen_ok r.
Proof. induction 1; [done|by eapply reg_exec_seen]. Qed.
#[export] Hint Resolve reachable_seen : registry.

Lemma sample_registry_reachable : reg_reachable sample_registry.
Proof. by eapply (reach_step NewRegistry (OpReport 1000 sample_report)); [apply reach_new|..]. Qed.

Lemma sample_marked_reachable : reg_reachable sample_marked.
Proof.
  eapply (reach_step sample_registry
    (OpMarkGPU "node-a" "GPU-aaaaaaaaaaaa" 20000 "default" "train-0"));
    [apply sample_registry_reachable|by vm_compute|vm_compute; reflexivity].
Qed.

(** ** Reserving what the search found *)
Lemma reservation_fits r order m c ns p r' :
  reg_reachable r → range_order (reg_nodes r) order → 0 ≤ m →
  (∀ n node g, reg_nodes r !! n = Some node → g ∈ ng_GPUs node → 0 ≤ reported_free g ≤ int_max) →
  c ∈ FindAvailableFullGPU m order r →
  MarkGPUAllocatedForPod (gc_NodeName c) (gc_GPUUUID c) m ns p r = Done r' →
  ∃ node g, reg_nodes r' !! gc_NodeName c = Some node ∧ g ∈ ng_GPUs node ∧
    gi_UUID g = gc_GPUUUID c ∧ gi_IsHealthy g = true ∧ gi_MIGEnabled g = false ∧
    GetReservedMemory (gc_NodeName c) (gc_GPUUUID c) r' =
      GetReservedMemory (gc_NodeName c) (gc_GPUUUID c) r + m ∧
    GetReservedMemory (gc_NodeName c) (gc_GPUUUID c) r' ≤ reported_free g.
Proof.
  intros Hr Ho Hm Hrep Hc Hmark. apply reachable_wf in Hr as Hwf.
  apply FindAvailableFullGPU_elem in Hc as (n & node & g & Hn & Hg & Hmig & Hh & Hfree & ->); [|done].
  cbn in *. specialize (Hrep _ _ _ Hn Hg).
  destruct Hwf as (Hdom & Hok & Hsum).
  assert (in_int (reported_free g)) as Hin by int_solve.
  rewrite (free_memory_eq n g r Hin) in Hfree.
  destruct (Hsum n (gi_UUID g)) as (E & _ & Hmax & _).
  pose proof (mem_on_nonneg n (gi_UUID g) _ Hok) as Hnn.
  rewrite <-E in Hmax, Hnn. int_norm.
  apply mark_gpu_cells in Hmark as (Hres & _ & _ & _ & Hnodes & _); [|done].
  exists node, g. rewrite Hnodes, Hres, decide_True by done. split_and!; try done; int_norm; lia.
Qed.

(** ** Properties *)

(** C6: reservation accounting.  In every registry state reachable by agent
    reports, stale-node removal, GPU and MIG marks, releases and MIG flips, the
    reserved memory of every GPU is the sum of the memory of the tracked
    entries placed on it, its pod count is their number, and neither is
    negative, so no reservation is lost, counted twice, or kept after its pod. *)
Theorem registry_accounting r n g :
  reg_reachable r →
  GetReservedMemory n g r = mem_on n g (entries_of (reg_podAllocations r)) ∧
  GetPodCount n g r = count_on n g (entries_of (reg_podAllocations r)) ∧
  0 ≤ GetReservedMemory n g r ∧ 0 ≤ GetPodCount n g r.
Proof.
  intros (_ & Hok & Hsum)%reachable_wf. destruct (Hsum n g) as (-> & -> & _).
  pose proof (mem_on_nonneg n g _ Hok). pose proof (count_on_nonneg n g).
  split_and!; auto.
Qed.

Lemma registry_accounting_witness :
  GetReservedMemory "node-a" "GPU-aaaaaaaaaaaa" sample_marked = 20000 ∧
  GetReservedMemory "node-a" "GPU-aaaaaaaaaaaa" sample_marked =
    mem_on "node-a" "GPU-aaaaaaaaaaaa" (entries_of (reg_podAllocations sample_marked)).
Proof.
  split; [vm_compute; reflexivity|].
  exact (proj1 (registry_accounting sample_marked "node-a" "GPU-aaaaaaaaaaaa"
    sample_marked_reachable)).
Defined.

(** C7: releasing a pod never panics in a reachable state and gives back exactly
    what the pod held: on every GPU the reserved memory drops by the memory of
    the pod's entries there and the pod count by their number (the clamp at
    zero is never taken), the pod is forgotten and no other pod changes. *)
Theorem ReleasePod_exact r ns p es :
  reg_reachable r → reg_podAllocations r !! pod_key ns p = Some es →
  ∃ r', ReleasePod ns p r = Done r' ∧
    (∀ n g, GetReservedMemory n g r' = GetReservedMemory n g r - mem_on n g es ∧
            GetPodCount n g r' = GetPodCount n g r - count_on n g es) ∧
    reg_podAllocations r' = delete (pod_key ns p) (reg_podAllocations r).
Proof.
  intros Hr Hes. apply reachable_wf in Hr as Hwf.
  destruct (release_pod_wf ns p r Hwf) as (r' & E & Hwf' & Eal).
  exists r'. split; [done|]. split; [|done]. intros n g.
  destruct Hwf as (_ & _ & Hsum), Hwf' as (_ & _ & Hsum').
  specialize (Hsum n g). specialize (Hsum' n g).
  rewrite (entries_of_delete _ _ _ Hes), mem_on_app, count_on_app in Hsum.
  rewrite Eal in Hsum'. lia.
Qed.

Lemma ReleasePod_exact_witness :
  ∃ r', ReleasePod "default" "train-0" sample_marked = Done r' ∧
    GetReservedMemory "node-a" "GPU-aaaaaaaaaaaa" r' = 0.
Proof.
  destruct (ReleasePod_exact sample_marked "default" "train-0"
    [mkAllocationEntry "node-a" "GPU-aaaaaaaaaaaa" 20000 false]) as (r' & E & Hcells & _).
  - apply sample_marked_reachable.
  - vm_compute. reflexivity.
  - exists r'. split; [exact E|]. rewrite (proj1 (Hcells _ _)). vm_compute. reflexivity.
Defined.

(** Searching and reserving respect capacity.  A GPU returned by
    [FindAvailableFullGPU] for a request of [m] MB is a healthy non-MIG GPU of
    a reported node, and after [MarkGPUAllocatedForPod] reserves those [m] MB on
    it the total reserved on it is still within the memory its agent reports as
    free. *)
Theorem reservation_within_capacity r order m c ns p r' :
  reg_reachable r → range_order (reg_nodes r) order → 0 ≤ m →
  (∀ n node g, reg_nodes r !! n = Some node → g ∈ ng_GPUs node → 0 ≤ reported_free g ≤ int_max) →
  c ∈ FindAvailableFullGPU m order r →
  MarkGPUAllocatedForPod (gc_NodeName c) (gc_GPUUUID c) m ns p r = Done r' →
  ∃ node g, reg_nodes r' !! gc_NodeName c = Some node ∧ g ∈ ng_GPUs node ∧
    gi_UUID g = gc_GPUUUID c ∧ gi_IsHealthy g = true ∧ gi_MIGEnabled g = false ∧
    GetReservedMemory (gc_NodeName c) (gc_GPUUUID c) r' =
      GetReservedMemory (gc_NodeName c) (gc_GPUUUID c) r + m ∧
    GetReservedMemory (gc_NodeName c) (gc_GPUUUID c) r' ≤ reported_free g.
Proof. apply reservation_fits. Qed.

Lemma reservation_within_capacity_witness :
  GetReservedMemory "node-a" "GPU-aaaaaaaaaaaa"
    (after (MarkGPUAllocatedForPod "node-a" "GPU-aaaaaaaaaaaa" 30000 "default" "p" sample_registry))
  = 0 + 30000.
Proof.
  destruct (reservation_within_capacity sample_registry ["node-a"] 30000
    (full_candidate "node-a" (sample_gpu "GPU-aaaaaaaaaaaa" false) sample_registry) "default" "p"
    (after (MarkGPUAllocatedForPod "node-a" "GPU-aaaaaaaaaaaa" 30000 "default" "p" sample_registry)))
    as (node & g & _ & _ & _ & _ & _ & E & _).
  - apply sample_registry_reachable.
  - by vm_compute.
  - done.
  - intros n node g Hn Hg. change (reg_nodes sample_registry) with
      (<["node-a" := mkNodeGPUs "node-a" true (rep_GPUs sample_report) 1000]> (∅ : gmap string NodeGPUs))
      in Hn.
    apply lookup_insert_Some in Hn as [[_ <-]|[_ Hn]]; [|by rewrite lookup_empty in Hn].
    cbn in Hg. rewrite !elem_of_cons in Hg.
    destruct Hg as [->|[->|Hg]]; [by vm_compute|by vm_compute|by apply elem_of_nil in Hg].
  - vm_compute. left.
  - vm_compute. reflexivity.
  - exact E.
Defined.

(** [FindAvailableFullGPU] is sound and complete, whatever order the node map
    is iterated in: its candidates are exactly the healthy GPUs without MIG
    whose free memory (reported free memory, or total minus used for a partial
    report, less the reservations) is at least the request. *)
Theorem FindAvailableFullGPU_exact m order r c :
  range_order (reg_nodes r) order →
  c ∈ FindAvailableFullGPU m order r ↔ ∃ n node g,
    reg_nodes r !! n = Some node ∧ g ∈ ng_GPUs node ∧
    gi_MIGEnabled g = false ∧ gi_IsHealthy g = true ∧ m ≤ free_memory n g r ∧
    c = full_candidate n g r.
Proof. apply FindAvailableFullGPU_elem. Qed.

Lemma FindAvailableFullGPU_exact_witness :
  full_candidate "node-a" (sample_gpu "GPU-aaaaaaaaaaaa" false) sample_registry
    ∈ FindAvailableFullGPU 40960 ["node-a"] sample_registry.
Proof.
  apply (FindAvailableFullGPU_exact 40960 ["node-a"] sample_registry); [by vm_compute|].
  exists "node-a", (mkNodeGPUs "node-a" true (rep_GPUs sample_report) 1000),
    (sample_gpu "GPU-aaaaaaaaaaaa" false).
  split; [vm_compute; reflexivity|]. split; [left|]. split; [done|]. split; [done|].
  split; [by vm_compute|done].
Defined.

(** A report forgets MIG allocations.  After any agent report, every MIG
    instance the agent lists as available is offered again by
    [FindAvailableMIG], whatever pods already hold it; and the agent lists every
    instance as available. *)
Theorem report_forgets_mig r now report order m g mi :
  let r' := UpdateFromReport now report r in
  range_order (reg_nodes r') order → g ∈ rep_GPUs report → mi ∈ gi_MIGInstances g →
  gi_MIGEnabled g = true → gi_IsHealthy g = true → mig_IsAvailable mi = true →
  m ≤ mig_MemoryMB mi →
  (∃ c, c ∈ FindAvailableMIG m order r' ∧ mc_MIGUUID c = mig_UUID mi ∧
    mc_NodeName c = rep_NodeName report) ∧
  reg_podAllocations r' = reg_podAllocations r.
Proof.
  cbn zeta. intros Ho Hg Hmi E1 E2 E3 Hm. split; [|done].
  eexists. split.
  - apply FindAvailableMIG_elem; [exact Ho|].
    exists (rep_NodeName report), (mkNodeGPUs (rep_NodeName report) (rep_HasNVLink report)
      (rep_GPUs report) now), g, mi.
    split; [apply lookup_insert_eq|]. by split_and!.
  - done.
Qed.

(** The pod [default/serve-0] still holds the instance, yet it is offered. *)
Lemma report_forgets_mig_witness :
  FindAvailableMIG 5000 ["node-a"] sample_mig_marked = [] ∧
  reg_podAllocations sample_mig_marked !! "default/serve-0"
    = Some [mkAllocationEntry "node-a" "MIG-aaaaaaaaaaaa" 5000 true] ∧
  ∃ c, c ∈ FindAvailableMIG 5000 ["node-a"] (UpdateFromReport 2000 sample_report sample_mig_marked) ∧
    mc_MIGUUID c = "MIG-aaaaaaaaaaaa".
Proof.
  split; [vm_compute; reflexivity|]. split; [vm_compute; reflexivity|].
  destruct (report_forgets_mig sample_mig_marked 2000 sample_report ["node-a"] 5000
    (sample_gpu "GPU-bbbbbbbbbbbb" true) sample_mig) as [(c & Hc & Hu & _) _].
  - by vm_compute.
  - right. left.
  - left.
  - done.
  - done.
  - done.
  - done.
  - exists c. split; [exact Hc|exact Hu].
Defined.

(** [GetAllNodes] shows exactly the live nodes: in a reachable state a node
    is returned iff its last report is less than 30 seconds old, and the
    reservations of a node that went stale are kept. *)
Theorem GetAllNodes_fresh r now order node :
  reg_reachable r →
  range_order (reg_nodes (RemoveStaleNodes now (seconds 30) r)) order →
  (node ∈ (GetAllNodes now order r).2 ↔
    ∃ k, reg_nodes r !! k = Some node ∧ time_sub now (ng_ReportedAt node) < 30000000000) ∧
  reg_reservations (GetAllNodes now order r).1 = reg_reservations r.
Proof.
  intros Hr%reachable_seen Ho. split; [|done]. unfold GetAllNodes. cbn [snd].
  rewrite list_elem_of_fmap. split.
  - intros ([k v] & -> & Hin%(range_elem _ _ _ _ Ho)). exists k. cbn in *.
    apply map_lookup_filter_Some in Hin as [Hk Hst]. split; [done|]. cbn in Hst.
    unfold stale in Hst. rewrite Hr, Hk in Hst. cbn in Hst. bool_hyps.
    change (seconds 30) with 30000000000 in Hst. done.
  - intros (k & Hk & Hlt). exists (k, node). split; [done|]. apply range_elem; [done|].
    cbn. apply map_lookup_filter_Some. split; [done|]. cbn. unfold stale.
    rewrite Hr, Hk. cbn. apply Z.leb_gt. done.
Qed.

Lemma GetAllNodes_fresh_witness :
  mkNodeGPUs "node-a" true (rep_GPUs sample_report) 1000
    ∈ (GetAllNodes 5000 ["node-a"] sample_registry).2.
Proof.
  apply (GetAllNodes_fresh sample_registry 5000 ["node-a"]).
  - apply sample_registry_reachable.
  - by vm_compute.
  - exists "node-a". split; [vm_compute; reflexivity|by vm_compute].
Defined.

(** A negative memory annotation is accepted by [MarkGPUAllocatedForPod]: the
    reservation becomes negative and the GPU appears to have more memory than
    it has. *)
Lemma negative_request_adds_memory :
  gc_FreeMemoryMB <$> FindAvailableFullGPU 50000 ["node-a"]
    (after (MarkGPUAllocatedForPod "node-a" "GPU-aaaaaaaaaaaa" (-20000) "default" "p" sample_registry))
  = [60960].
Proof. vm_compute. reflexivity. Qed.

(** Identifiers shorter than twelve bytes panic while logging. *)
Lemma short_uuid_panics :
  MarkGPUAllocatedForPod "node-a" "GPU-0" 1 "default" "p" sample_registry = Panicked.
Proof. reflexivity. Qed.
