(* ===== verification/Mig.v ===== *)
(** * MIG instances are exclusive between reports

    The registry marks an instance unavailable when it gives it to a pod and
    available again when the pod is released.  As long as instances are taken
    from [FindAvailableMIG] and no report says otherwise, no two pods hold the same
    one ([Registry.report_forgets_mig] shows what the agents' reports do). *)

From Stdlib Require Import ZArith Lia String.
From stdpp Require Import base option list strings gmap.
From S2P Require Import Prelude GoFloat GoStrings Types K8s Registry.
Open Scope string_scope.
Open Scope Z_scope.

(** The instances the tracked pods hold, with their nodes. *)
Definition device_of (e : AllocationEntry) : string * string := (ae_NodeName e, ae_GPUUUID e).

Definition mig_devices_in (es : list AllocationEntry) : list (string * string) :=
  device_of <$> List.filter ae_IsMIG es.

Definition mig_devices (r : Registry) : list (string * string) :=
  mig_devices_in (entries_of (reg_podAllocations r)).

(** Every instance of the node with the identifier is marked as taken. *)
Definition unavailable (r : Registry) (d : string * string) : Prop :=
  ∀ node g mi, reg_nodes r !! d.1 = Some node → g ∈ ng_GPUs node → mi ∈ gi_MIGInstances g →
    mig_UUID mi = d.2 → mig_IsAvailable mi = false.

(** Which operations keep the instances apart.  A report must list the instances
    held on its node as taken; an agent lists every instance as available, so
    that this fails at the next report of a node on which one is held.  A mark is
    for an instance that the search offers, or restores, before any node has
    reported, an instance that no other pod holds; an instance is marked available
    only when no pod holds it. *)
Definition keeps_apart (r : Registry) (op : reg_op) : Prop :=
  match op with
  | OpReport _ report => ∀ d g mi, d ∈ mig_devices r → d.1 = rep_NodeName report →
      g ∈ rep_GPUs report → mi ∈ gi_MIGInstances g → mig_UUID mi = d.2 → mig_IsAvailable mi = false
  | OpMIG available n u => available = true → (n, u) ∉ mig_devices r
  | OpMarkMIG n u _ _ _ =>
      (∃ m order c, range_order (reg_nodes r) order ∧
         c ∈ FindAvailableMIG m order r ∧ mc_NodeName c = n ∧ mc_MIGUUID c = u) ∨
      (reg_nodes r = ∅ ∧ (n, u) ∉ mig_devices r)
  | _ => True
  end.

Inductive mig_reachable : Registry → Prop :=
  | mig_start : mig_reachable NewRegistry
  | mig_step r op r' :
      mig_reachable r → keeps_apart r op → reg_exec r op = Done r' → mig_reachable r'.

(** ** Lemmas *)
#[export] Instance mig_devices_in_perm : Proper ((≡ₚ) ==> (≡ₚ)) mig_devices_in.
Proof.
  unfold mig_devices_in. induction 1 as [|e l1 l2 _ IH|e1 e2 l|l1 l2 l3 _ IH1 _ IH2]; cbn.
  - done.
  - destruct (ae_IsMIG e); cbn; [by constructor|done].
  - destruct (ae_IsMIG e1), (ae_IsMIG e2); cbn; try done. constructor.
  - by etrans.
Qed.

Lemma mig_devices_app l1 l2 : mig_devices_in (l1 ++ l2) = (mig_devices_in l1 ++ mig_devices_in l2)%list.
Proof. unfold mig_devices_in. by rewrite List.filter_app, fmap_app. Qed.

(** Changing only the availability of other instances keeps [d] taken. *)
Lemma unavailable_set_mig b n u r d :
  (b = true → (n, u) ≠ d) → unavailable r d → unavailable (update_node n (set_mig_all b u) r) d.
Proof.
  intros Hb Hd node g mi Hn Hg Hmi Hu. unfold update_node in Hn. cbn in Hn.
  destruct (decide (n = d.1)) as [->|Hne]; [|rewrite lookup_alter_ne in Hn by done; by eapply Hd].
  rewrite lookup_alter_eq in Hn. destruct (reg_nodes r !! d.1) as [node0|] eqn:E; [|done].
  injection Hn as <-. cbn in Hg. apply list_elem_of_fmap in Hg as (g0 & -> & Hg0). cbn in Hmi.
  apply list_elem_of_fmap in Hmi as (mi0 & -> & Hmi0). revert Hu.
  destruct (String.eqb_spec (mig_UUID mi0) u) as [E2|E2]; cbn; intros Hu; [|by eapply Hd].
  destruct b; [|done]. destruct d as [n' u']. cbn in *. destruct Hb; congruence.
Qed.

(** [ReleaseMIG] and [MarkMIGAllocated] change the first instance only. *)
Lemma set_mig_in_elem b u ms ms' mi :
  set_mig_in b u ms = Some ms' → mi ∈ ms' → mi ∈ ms ∨ mig_UUID mi = u ∧ mig_IsAvailable mi = b.
Proof.
  revert ms'. induction ms as [|m ms IH]; intros ms'; cbn; [done|].
  destruct (String.eqb_spec (mig_UUID m) u) as [E|E].
  - intros [= <-] [->|Hin]%elem_of_cons; [by right|left; by right].
  - destruct (set_mig_in b u ms) as [l|]; [|done]. intros [= <-] [->|Hin]%elem_of_cons; [left; by left|].
    destruct (IH l eq_refl Hin); [left; by right|by right].
Qed.

Lemma set_mig_first_elem b u gs g mi :
  g ∈ set_mig_first b u gs → mi ∈ gi_MIGInstances g →
  (∃ g0, g0 ∈ gs ∧ mi ∈ gi_MIGInstances g0) ∨ mig_UUID mi = u ∧ mig_IsAvailable mi = b.
Proof.
  induction gs as [|g1 gs IH]; cbn; [by intros ?%elem_of_nil|].
  destruct (set_mig_in b u (gi_MIGInstances g1)) as [ms|] eqn:E.
  - intros [->|Hg]%elem_of_cons Hmi; cbn in Hmi.
    + destruct (set_mig_in_elem _ _ _ _ _ E Hmi); [left; exists g1; split; [left|done]|by right].
    + left. exists g. split; [by right|done].
  - intros [->|Hg]%elem_of_cons Hmi; [left; exists g1; split; [left|done]|].
    destruct (IH Hg Hmi) as [(g0 & ? & ?)|?]; [left; exists g0; split; [by right|done]|by right].
Qed.

Lemma unavailable_set_first b n u r d :
  (b = true → (n, u) ≠ d) → unavailable r d →
  unavailable (update_node n (λ node, set_ng_GPUs (set_mig_first b u (ng_GPUs node)) node) r) d.
Proof.
  intros Hb Hd node g mi Hn Hg Hmi Hu. unfold update_node in Hn. cbn in Hn.
  destruct (decide (n = d.1)) as [->|Hne]; [|rewrite lookup_alter_ne in Hn by done; by eapply Hd].
  rewrite lookup_alter_eq in Hn. destruct (reg_nodes r !! d.1) as [node0|] eqn:E; [|done].
  injection Hn as <-. cbn in Hg. destruct (set_mig_first_elem _ _ _ _ _ Hg Hmi) as [(g0 & ? & ?)|[E1 E2]].
  - by eapply Hd.
  - destruct b; [|done]. destruct d as [n' u']. cbn in *. destruct Hb; congruence.
Qed.

Lemma set_mig_false_unavailable n u r : unavailable (update_node n (set_mig_all false u) r) (n, u).
Proof.
  intros node g mi Hn Hg Hmi Hu. unfold update_node in Hn. cbn in Hn, Hu.
  rewrite lookup_alter_eq in Hn. destruct (reg_nodes r !! n) as [node0|]; [|done].
  injection Hn as <-. cbn in Hg. apply list_elem_of_fmap in Hg as (g0 & -> & Hg0). cbn in Hmi.
  apply list_elem_of_fmap in Hmi as (mi0 & -> & Hmi0). revert Hu.
  by destruct (String.eqb_spec (mig_UUID mi0) u).
Qed.

Lemma unavailable_nodes r r' d : reg_nodes r' = reg_nodes r → unavailable r d → unavailable r' d.
Proof. unfold unavailable. by intros ->. Qed.

Lemma release_entries_unavailable es r r' d :
  foldM release_entry r es = Done r' → d ∉ mig_devices_in es → unavailable r d → unavailable r' d.
Proof.
  intros H Hd Hu.
  apply (foldM_inv (λ r l, d ∉ mig_devices_in l ∧ unavailable r d) release_entry es) in H; [by destruct H| |done].
  clear. intros r e l r' [Hd Hu] Hr. unfold mig_devices_in in *. cbn in *.
  apply release_entry_frame in Hr as (Hr & _ & _). destruct (ae_IsMIG e).
  - cbn in Hd. apply not_elem_of_cons in Hd as [Hne Hd]. split; [done|].
    eapply unavailable_nodes; [exact Hr|]. apply unavailable_set_mig; [|done]. intros _ E.
    apply Hne. by rewrite <-E.
  - split; [done|]. by eapply unavailable_nodes.
Qed.

(** The invariant: the instances held are distinct and marked as taken. *)
Definition mig_inv (r : Registry) : Prop :=
  NoDup (mig_devices r) ∧ Forall (unavailable r) (mig_devices r).

Lemma mig_inv_nodes r r' :
  reg_podAllocations r' = reg_podAllocations r →
  (∀ d, unavailable r d → unavailable r' d) → mig_inv r → mig_inv r'.
Proof.
  intros Hal Hu [Hnd Hf]. unfold mig_inv, mig_devices. rewrite Hal. split; [done|].
  eapply Forall_impl; [exact Hf|]. auto.
Qed.

Lemma mark_gpu_mig n g m ns p r r' :
  MarkGPUAllocatedForPod n g m ns p r = Done r' → mig_inv r → mig_inv r'.
Proof.
  intros H [Hnd Hf]. apply mark_gpu_alloc in H as [Hn Hal]. unfold mig_inv, mig_devices. rewrite Hal.
  rewrite (mig_devices_in_perm _ _ (entries_of_track _ _ _)). cbn.
  split; [done|]. eapply Forall_impl; [exact Hf|]. intros d. by apply unavailable_nodes.
Qed.

Lemma mark_mig_mig n u m ns p r r' :
  (n, u) ∉ mig_devices r → MarkMIGAllocatedForPod n u m ns p r = Done r' → mig_inv r → mig_inv r'.
Proof.
  intros Hnin H [Hnd Hf]. unfold MarkMIGAllocatedForPod in H.
  apply outcome_bind_done in H as (_ & _ & [= <-]). unfold mig_inv, mig_devices. cbn.
  rewrite (mig_devices_in_perm _ _ (entries_of_track _ _ _)). cbn.
  assert (∀ d, unavailable (update_node n (set_mig_all false u) r) d →
    unavailable (track_entry (pod_key ns p) (mkAllocationEntry n u m true)
      (update_node n (set_mig_all false u) r)) d) as Htrack by (intros d; by apply unavailable_nodes).
  split; [by apply NoDup_cons_2|]. constructor; [apply Htrack, set_mig_false_unavailable|].
  eapply Forall_impl; [exact Hf|]. intros d Hd. by apply Htrack, unavailable_set_mig.
Qed.

Lemma release_mig ns p r r' : ReleasePod ns p r = Done r' → mig_inv r → mig_inv r'.
Proof.
  unfold ReleasePod. destruct (reg_podAllocations r !! pod_key ns p) as [es|] eqn:E; [|by intros [= <-]].
  intros (r1 & H & [= <-])%outcome_bind_done [Hnd Hf].
  assert (reg_podAllocations r1 = reg_podAllocations r) as Hal.
  { apply (foldM_inv (λ r1 _, reg_podAllocations r1 = reg_podAllocations r) release_entry es) in H;
      [done| |done]. intros r2 e l r3 Hr2 H3. by destruct (release_entry_frame _ _ _ H3) as (_ & -> & _). }
  unfold mig_inv, mig_devices in *. cbn. rewrite Hal.
  rewrite (mig_devices_in_perm _ _ (entries_of_delete _ _ _ E)), mig_devices_app in Hnd, Hf.
  apply NoDup_app in Hnd as (_ & Hdisj & Hnd). apply Forall_app in Hf as [_ Hf].
  split; [done|]. apply Forall_forall. intros d Hd. rewrite Forall_forall in Hf.
  apply (unavailable_nodes r1); [done|]. eapply release_entries_unavailable; [exact H| |by apply Hf].
  intros Hin. by apply (Hdisj d).
Qed.

Lemma release_used_mig u m gs g :
  g ∈ release_used u m gs → ∃ g0, g0 ∈ gs ∧ gi_MIGInstances g = gi_MIGInstances g0.
Proof.
  induction gs as [|g1 gs IH]; cbn; [by intros ?%elem_of_nil|].
  destruct (String.eqb _ _); intros [->|Hg]%elem_of_cons.
  - exists g1. split; [left|done].
  - exists g. split; [by right|done].
  - exists g1. split; [left|done].
  - destruct (IH Hg) as (g0 & ? & ?). exists g0. split; [by right|done].
Qed.

Lemma release_gpu_unavailable n u m r d : unavailable r d → unavailable (ReleaseGPU n u m r) d.
Proof.
  intros Hd node g mi Hn Hg Hmi Hu. unfold ReleaseGPU, update_node in Hn. cbn in Hn.
  destruct (decide (n = d.1)) as [->|Hne]; [|rewrite lookup_alter_ne in Hn by done; by eapply Hd].
  rewrite lookup_alter_eq in Hn. destruct (reg_nodes r !! d.1) as [node0|] eqn:E; [|done].
  injection Hn as <-. cbn in Hg. apply release_used_mig in Hg as (g0 & Hg0 & Em).
  rewrite Em in Hmi. by eapply Hd.
Qed.

Lemma stale_unavailable now threshold r d :
  unavailable r d → unavailable (RemoveStaleNodes now threshold r) d.
Proof.
  intros Hd node g mi Hn. cbn in Hn. apply map_lookup_filter_Some in Hn as [Hn _]. by apply Hd.
Qed.

Lemma report_unavailable now report r d :
  (∀ g mi, d.1 = rep_NodeName report → g ∈ rep_GPUs report → mi ∈ gi_MIGInstances g →
     mig_UUID mi = d.2 → mig_IsAvailable mi = false) →
  unavailable r d → unavailable (UpdateFromReport now report r) d.
Proof.
  intros Hrep Hd node g mi Hn Hg Hmi Hu. cbn in Hn.
  apply lookup_insert_Some in Hn as [[E <-]|[_ Hn]]; [by eapply Hrep|by eapply Hd].
Qed.

Lemma candidate_free m order r c :
  range_order (reg_nodes r) order → mig_inv r → c ∈ FindAvailableMIG m order r →
  (mc_NodeName c, mc_MIGUUID c) ∉ mig_devices r.
Proof.
  intros Ho [_ Hf] Hc Hin. apply (FindAvailableMIG_elem m order r c Ho) in Hc
    as (n & node & g & mi & Hn & Hg & Hmi & _ & _ & Hav & _ & ->). cbn in Hin.
  rewrite Forall_forall in Hf. specialize (Hf _ Hin node g mi Hn Hg Hmi eq_refl). congruence.
Qed.

Lemma mig_reachable_inv r : mig_reachable r → mig_inv r.
Proof.
  induction 1 as [|r op r' _ IH Hop Hx].
  { split; constructor. }
  destruct op as [now report| | | | |[]|]; cbn in Hop, Hx; try done.
  - injection Hx as <-. destruct IH as [Hnd Hf]. split; [done|]. apply Forall_forall. intros d Hd.
    rewrite Forall_forall in Hf. by apply report_unavailable; [intros; eapply Hop|apply Hf].
  - injection Hx as <-. by eapply mig_inv_nodes; [|intros d; apply stale_unavailable|exact IH].
  - by eapply mark_gpu_mig.
  - eapply mark_mig_mig; [|done..]. destruct Hop as [(m & order & c & Ho & Hc & <- & <-)|[_ ?]]; [|done].
    by eapply candidate_free.
  - by eapply release_mig.
  - injection Hx as <-. destruct IH as [Hnd Hf]. split; [done|]. apply Forall_forall. intros d Hd.
    rewrite Forall_forall in Hf. apply (unavailable_set_first true); [|by apply Hf].
    intros _ <-. by apply Hop.
  - injection Hx as <-. by eapply mig_inv_nodes; [|intros d; by apply (unavailable_set_first false)|exact IH].
  - injection Hx as <-. by eapply mig_inv_nodes; [|intros d; apply release_gpu_unavailable|exact IH].
Qed.

(** C10: a MIG instance has one owner.  From the start of the scheduler on, through
    any operations of which the marks are for instances that the search offers or,
    in a recovery, for instances no other pod holds, the instances the tracked
    pods hold are pairwise distinct and none of them is offered again; this holds
    for as long as no report lists an instance that is held as available (what
    the agents do, see [Registry.report_forgets_mig]). *)
Theorem mig_exclusive r m order c :
  mig_reachable r → range_order (reg_nodes r) order →
  NoDup (mig_devices r) ∧
  (c ∈ FindAvailableMIG m order r → (mc_NodeName c, mc_MIGUUID c) ∉ mig_devices r).
Proof.
  intros Hr Ho. pose proof (mig_reachable_inv r Hr) as Hinv. split; [apply Hinv|].
  by apply candidate_free.
Qed.

Lemma mig_exclusive_witness :
  NoDup (mig_devices sample_mig_marked) ∧ mig_devices sample_mig_marked = [("node-a", "MIG-aaaaaaaaaaaa")].
Proof.
  split; [|vm_compute; reflexivity].
  refine (proj1 (mig_exclusive sample_mig_marked 0 ["node-a"]
    (mkMIGCandidate "" "" "" "" 0 0 0) _ _)); [|vm_compute; reflexivity].
  eapply (mig_step sample_registry (OpMarkMIG "node-a" "MIG-aaaaaaaaaaaa" 5000 "default" "serve-0"));
    [|left|vm_compute; reflexivity].
  - apply (mig_step NewRegistry (OpReport 1000 sample_report)); [apply mig_start| |reflexivity].
    intros d g mi Hd. by apply elem_of_nil in Hd.
  - exists 5000, ["node-a"], (mkMIGCandidate "node-a" "GPU-bbbbbbbbbbbb" "MIG-aaaaaaaaaaaa" "MIG-1g.10gb" 9728 14 0).
    split; [vm_compute; reflexivity|]. split; [vm_compute; left|done].
Defined.
