(* ===== verification/Manager.v ===== *)
(** * internal/gpu/manager.go: the standalone GPU manager

    [Manager] owns the view of the cluster used in standalone mode: the nodes
    with their GPUs, the allocations of each job, and a discoverer.  The
    discoverer is an interface with three implementations, so its state is a
    type parameter and its two calls are a class; [MockDiscoverer] is the
    implementation of nvml.go that needs no hardware. *)

From Stdlib Require Import ZArith Lia String.
From stdpp Require Import base option list strings gmap.
From S2P Require Import Prelude GoFloat GoStrings Types.
Open Scope string_scope.
Open Scope Z_scope.
Open Scope go_scope.

(** ** The discoverer interface (nvml.go)

    [Refresh] writes through its pointer only when it succeeds. *)
Class GPUDiscoverer (D : Type) : Type := {
  Discover : D → D * result string (list GPU);
  Refresh : D → GPU → D * result string GPU
}.

(** [MockDiscoverer.gpus]; it refreshes utilisation and health only. *)
Definition MockDiscoverer : Type := list GPU.

Definition set_observed (util : float64) (healthy : bool) (g : GPU) : GPU :=
  mkGPU (gpu_ID g) (gpu_Index g) (gpu_NodeName g) (gpu_TotalMemoryMB g) (gpu_UsedMemoryMB g)
    util healthy (gpu_IsShared g) (gpu_AllocatedPods g) (gpu_IsMPS g).

Definition Mock_Refresh (m : MockDiscoverer) (gpu : GPU) : MockDiscoverer * result string GPU :=
  (m, match List.find (λ g, String.eqb (gpu_ID g) (gpu_ID gpu)) m with
      | Some g => Ok (set_observed (gpu_UtilizationPercent g) (gpu_IsHealthy g) gpu)
      | None => Err "GPU not found"
      end).

#[export] Instance mock_discoverer : GPUDiscoverer MockDiscoverer := {|
  Discover m := (m, Ok m);
  Refresh := Mock_Refresh
|}.

(** ** State *)
Record Allocation : Type := mkAllocation {
  al_JobID : string;
  al_GPUID : string;
  al_NodeName : string;
  al_MemoryMB : Z
}.

Record Manager {D : Type} : Type := mkManager {
  mgr_discoverer : D;
  mgr_nodes : gmap string NodeInfo;
  mgr_allocations : gmap string (list Allocation)
}.
Arguments Manager D : clear implicits.
Arguments mkManager {D}.

Inductive ManagerError : Type :=
  | EGPUNotFound (gpuID : string)
  | EInsufficientMemory
  | ENoAllocation (jobID : string)
  | EDiscover (msg : string)
  | ERefresh (gpuID msg : string).

Section manager.
Context {D : Type} `{GPUDiscoverer D}.

Definition set_mgr_nodes (ns : gmap string NodeInfo) (m : Manager D) : Manager D :=
  mkManager (mgr_discoverer m) ns (mgr_allocations m).

(** ** Construction *)

(** [nodeGPUs[name] = append(nodeGPUs[name], gpu)] *)
Definition group_gpus (nodeName : string) (gpus : list GPU) : gmap string (list GPU) :=
  foldl (λ acc g,
    let actualNodeName := if String.eqb (gpu_NodeName g) "" then nodeName else gpu_NodeName g in
    <[actualNodeName := (default [] (acc !! actualNodeName) ++ [g])%list]> acc) ∅ gpus.

Definition healthy_count (gpus : list GPU) : Z :=
  Z.of_nat (length (List.filter gpu_IsHealthy gpus)).

Definition manager_node (name : string) (gpus : list GPU) : NodeInfo :=
  mkNodeInfo name ∅ gpus false (Z.of_nat (length gpus)) (healthy_count gpus) ["Ready"].

Definition NewManager (discoverer : D) (nodeName : string) : result ManagerError (Manager D) :=
  let (d, found) := Discover discoverer in
  match found with
  | Err e => Err (EDiscover e)
  | Ok gpus =>
      let nodes := map_imap (λ name gs, Some (manager_node name gs)) (group_gpus nodeName gpus) in
      let nodes' := if (size nodes =? 0)%nat
                    then {[nodeName := mkNodeInfo nodeName ∅ gpus false 0 0 ["Ready"]]} else nodes in
      Ok (mkManager d nodes' ∅)
  end.

(** ** Reads *)
Definition Manager_GetNodes (order : list string) (m : Manager D) : list NodeInfo :=
  (range (mgr_nodes m) order).*2.

(** The node, the index and the GPU at which the nested loops over the nodes
    and their GPUs stop. *)
Fixpoint find_gpu (gpuID : string) (nodes : list (string * NodeInfo)) :
    option (string * NodeInfo * nat * GPU) :=
  match nodes with
  | [] => None
  | (k, node) :: rest =>
      match list_find (λ g, gpu_ID g = gpuID) (node_GPUs node) with
      | Some (i, g) => Some (k, node, i, g)
      | None => find_gpu gpuID rest
      end
  end.

Definition Manager_GetGPU (gpuID : string) (order : list string) (m : Manager D) :
    result ManagerError GPU :=
  match find_gpu gpuID (range (mgr_nodes m) order) with
  | Some (_, _, _, g) => Ok g
  | None => Err (EGPUNotFound gpuID)
  end.

Definition GetAllocations (m : Manager D) : gmap string (list Allocation) := mgr_allocations m.

(** ** Allocation and release *)

(** The assignments of a successful [Allocate] to the GPU it found. *)
Definition commit_gpu (jobID : string) (memoryMB : Z) (k : string) (node : NodeInfo) (i : nat)
    (g : GPU) (m : Manager D) : Manager D :=
  let used := if memoryMB =? 0 then gpu_TotalMemoryMB g else gpu_UsedMemoryMB g ⊞ memoryMB in
  mkManager (mgr_discoverer m)
    (<[k := set_GPUs (<[i := set_UsedMemoryMB used g]> (node_GPUs node)) node]> (mgr_nodes m))
    (<[jobID := (default [] (mgr_allocations m !! jobID) ++
         [mkAllocation jobID (gpu_ID g) (node_Name node) memoryMB])%list]> (mgr_allocations m)).

Definition Manager_Allocate (jobID gpuID : string) (memoryMB : Z) (order : list string)
    (m : Manager D) : result ManagerError (Manager D) :=
  match find_gpu gpuID (range (mgr_nodes m) order) with
  | None => Err (EGPUNotFound gpuID)
  | Some (k, node, i, g) =>
      if AvailableMemoryMB g <? memoryMB then Err EInsufficientMemory
      else Ok (commit_gpu jobID memoryMB k node i g m)
  end.

(** One allocation handed back, on every GPU that carries the identifier. *)
Definition give_back (a : Allocation) (node : NodeInfo) : NodeInfo :=
  set_GPUs ((λ g, if String.eqb (gpu_ID g) (al_GPUID a)
                  then set_UsedMemoryMB (gpu_UsedMemoryMB g ⊟ al_MemoryMB a) g else g)
              <$> node_GPUs node) node.

Definition Manager_Release (jobID : string) (m : Manager D) : result ManagerError (Manager D) :=
  match mgr_allocations m !! jobID with
  | None => Err (ENoAllocation jobID)
  | Some allocations =>
      Ok (mkManager (mgr_discoverer m)
            (foldl (λ nodes a, give_back a <$> nodes) (mgr_nodes m) allocations)
            (delete jobID (mgr_allocations m)))
  end.

(** ** Refresh *)

(** The GPUs of one node, up to the first failure. *)
Fixpoint refresh_gpus (d : D) (gpus : list GPU) : D * list GPU * option ManagerError :=
  match gpus with
  | [] => (d, [], None)
  | g :: rest =>
      match Refresh d g with
      | (d', Err e) => (d', g :: rest, Some (ERefresh (gpu_ID g) e))
      | (d', Ok g') =>
          match refresh_gpus d' rest with
          | (d'', rest', err) => (d'', g' :: rest', err)
          end
      end
  end.

Definition set_AvailableGPUs (n : Z) (node : NodeInfo) : NodeInfo :=
  mkNodeInfo (node_Name node) (node_Labels node) (node_GPUs node) (node_HasNVLink node)
    (node_TotalGPUs node) n (node_Conditions node).

Fixpoint refresh_nodes (nodes : list (string * NodeInfo)) (m : Manager D) :
    Manager D * option ManagerError :=
  match nodes with
  | [] => (m, None)
  | (k, node) :: rest =>
      match refresh_gpus (mgr_discoverer m) (node_GPUs node) with
      | (d, gpus, err) =>
          let node' := set_GPUs gpus node in
          match err with
          | Some e => (mkManager d (<[k := node']> (mgr_nodes m)) (mgr_allocations m), Some e)
          | None =>
              refresh_nodes rest (mkManager d
                (<[k := set_AvailableGPUs (healthy_count gpus) node']> (mgr_nodes m))
                (mgr_allocations m))
          end
      end
  end.

Definition RefreshAll (order : list string) (m : Manager D) : Manager D * option ManagerError :=
  refresh_nodes (range (mgr_nodes m) order) m.

(** ** Specification *)

(** The two GPUs of the examples. *)
Definition manager_gpu (id : string) (used : Z) : GPU :=
  mkGPU id 0 "local" 16000 used f64_zero true false 0 false.

Definition sample_manager : Manager MockDiscoverer :=
  mkManager [] {["local" := manager_node "local" [manager_gpu "GPU-0" 0; manager_gpu "GPU-1" 4000]]} ∅.

(** An identifier names at most one GPU of the cluster. *)
Definition gpu_at (m : Manager D) (k : string) (i : nat) (g : GPU) : Prop :=
  ∃ node, mgr_nodes m !! k = Some node ∧ node_GPUs node !! i = Some g.

Definition ids_unique (m : Manager D) : Prop :=
  ∀ k1 i1 g1 k2 i2 g2, gpu_at m k1 i1 g1 → gpu_at m k2 i2 g2 → gpu_ID g1 = gpu_ID g2 →
    k1 = k2 ∧ i1 = i2.

(** ** Lemmas *)
Lemma find_gpu_some gpuID nodes k node i g :
  find_gpu gpuID nodes = Some (k, node, i, g) →
  (k, node) ∈ nodes ∧ node_GPUs node !! i = Some g ∧ gpu_ID g = gpuID.
Proof.
  induction nodes as [|[k0 n0] nodes IH]; cbn; [done|].
  destruct (list_find _ _) as [[i0 g0]|] eqn:E.
  - intros [= -> -> -> ->]. apply list_find_Some in E as (? & ? & _). split_and!; [left|done|done].
  - intros (? & ? & ?)%IH. split_and!; [by right|done|done].
Qed.

Lemma find_gpu_none gpuID nodes :
  find_gpu gpuID nodes = None ↔ ∀ k node g, (k, node) ∈ nodes → g ∈ node_GPUs node → gpu_ID g ≠ gpuID.
Proof.
  induction nodes as [|[k0 n0] nodes IH]; cbn.
  { split; [|done]. intros _ k node g Hin. by apply elem_of_nil in Hin. }
  destruct (list_find _ _) as [[i0 g0]|] eqn:E.
  - split; [done|]. intros Hn. apply list_find_Some in E as (? & ? & _). exfalso.
    eapply (Hn k0 n0 g0); [left|by eapply list_elem_of_lookup_2|done].
  - rewrite IH. apply list_find_None in E. rewrite Forall_forall in E. split.
    + intros Hn k node g [[= -> ->]|Hin]%elem_of_cons Hg; [by apply E|by eapply Hn].
    + intros Hn k node g Hin Hg. eapply Hn; [by right|done].
Qed.

Lemma find_gpu_range (m : Manager D) order gpuID k node i g :
  range_order (mgr_nodes m) order →
  find_gpu gpuID (range (mgr_nodes m) order) = Some (k, node, i, g) →
  mgr_nodes m !! k = Some node ∧ node_GPUs node !! i = Some g ∧ gpu_ID g = gpuID.
Proof.
  intros Ho (Hin & Hi & Hg)%find_gpu_some. by apply (range_elem _ _ _ _ Ho) in Hin.
Qed.

(** Under [ids_unique] the answer of the search does not depend on the order. *)
Lemma find_gpu_unique (m : Manager D) order gpuID k i g :
  range_order (mgr_nodes m) order → ids_unique m → gpu_at m k i g → gpu_ID g = gpuID →
  ∃ node, mgr_nodes m !! k = Some node ∧
    find_gpu gpuID (range (mgr_nodes m) order) = Some (k, node, i, g).
Proof.
  intros Ho Hu (node & Hk & Hi) Hg. exists node. split; [done|].
  destruct (find_gpu gpuID (range (mgr_nodes m) order)) as [[[[k' node'] i'] g']|] eqn:E.
  - apply (find_gpu_range _ _ _ _ _ _ _ Ho) in E as (Hk' & Hi' & Hg').
    destruct (Hu k i g k' i' g') as [<- <-]; [by exists node|by exists node'|congruence|].
    congruence.
  - exfalso. rewrite find_gpu_none in E. apply (E k node g); [|by eapply list_elem_of_lookup_2|done].
    by apply (range_elem _ _ _ _ Ho).
Qed.

Lemma set_GPUs_id n : set_GPUs (node_GPUs n) n = n.
Proof. by destruct n. Qed.

Lemma gpu_at_unique_other (m : Manager D) k i g k' node' g' :
  ids_unique m → gpu_at m k i g → mgr_nodes m !! k' = Some node' → g' ∈ node_GPUs node' →
  gpu_ID g' = gpu_ID g → k' = k ∧ node_GPUs node' !! i = Some g'.
Proof.
  intros Hu Hg Hk' [j Hj]%list_elem_of_lookup Hid.
  destruct (Hu k' j g' k i g) as [-> ->]; [by exists node'|done|done|done].
Qed.

(** Handing back an allocation that was just made restores the nodes. *)
Lemma give_back_restores (m : Manager D) k i g a node :
  ids_unique m → mgr_nodes m !! k = Some node → node_GPUs node !! i = Some g →
  al_GPUID a = gpu_ID g → in_int (gpu_UsedMemoryMB g) →
  give_back a <$> <[k := set_GPUs (<[i := set_UsedMemoryMB (gpu_UsedMemoryMB g ⊞ al_MemoryMB a) g]>
    (node_GPUs node)) node]> (mgr_nodes m) = mgr_nodes m.
Proof.
  intros Hu Hk Hi Ha Hint.
  assert (gpu_at m k i g) as Hat by (by exists node).
  assert (gpu_UsedMemoryMB g ⊞ al_MemoryMB a ⊟ al_MemoryMB a = gpu_UsedMemoryMB g) as Hback.
  { unfold Z.sub. rewrite wrap64_add_l. replace (_ + _ + _) with (gpu_UsedMemoryMB g) by lia.
    by apply wrap64_id. }
  rewrite fmap_insert. apply map_eq. intros k'. destruct (decide (k' = k)) as [->|Hne].
  - rewrite lookup_insert_eq, Hk. f_equal. transitivity (set_GPUs (node_GPUs node) node); [|apply set_GPUs_id].
    unfold give_back, set_GPUs. cbn. f_equal.
    apply list_eq. intros j. rewrite list_lookup_fmap.
    destruct (decide (j = i)) as [->|Hj].
    + rewrite list_lookup_insert_eq by (by eapply lookup_lt_Some). cbn.
      rewrite Ha, String.eqb_refl, Hi, Hback. cbn. f_equal. by destruct g.
    + rewrite list_lookup_insert_ne by done.
      destruct (node_GPUs node !! j) as [g'|] eqn:E; cbn; [|done]. rewrite Ha.
      destruct (String.eqb_spec (gpu_ID g') (gpu_ID g)) as [Eid|]; [|done].
      destruct (Hu k j g' k i g) as [_ ?]; [by exists node|done|done|done].
  - rewrite lookup_insert_ne by done. rewrite lookup_fmap.
    destruct (mgr_nodes m !! k') as [n'|] eqn:E; cbn; [|done]. f_equal.
    transitivity (set_GPUs (node_GPUs n') n'); [|apply set_GPUs_id].
    unfold give_back, set_GPUs. cbn. f_equal.
    rewrite <-(list_fmap_id (node_GPUs n')) at 2. apply list_fmap_ext. intros j g' Hj. cbn.
    rewrite Ha. destruct (String.eqb_spec (gpu_ID g') (gpu_ID g)) as [Eid|]; [|done].
    destruct (Hu k' j g' k i g) as [? _]; [by exists n'|done|done|done].
Qed.

Lemma Release_commit (m : Manager D) jobID memoryMB k node i g :
  ids_unique m → mgr_nodes m !! k = Some node → node_GPUs node !! i = Some g →
  in_int (gpu_UsedMemoryMB g) → mgr_allocations m !! jobID = None → memoryMB ≠ 0 →
  Manager_Release jobID (commit_gpu jobID memoryMB k node i g m) = Ok m.
Proof.
  intros Hu Hk Hi Hint Hnone Hmem. unfold Manager_Release, commit_gpu.
  rewrite (proj2 (Z.eqb_neq _ _) Hmem), Hnone. cbn [mgr_allocations mgr_nodes mgr_discoverer].
  rewrite lookup_insert_eq. cbn [default app foldl].
  pose proof (give_back_restores m k i g (mkAllocation jobID (gpu_ID g) (node_Name node) memoryMB)
    node Hu Hk Hi eq_refl Hint) as Hback.
  cbn [al_MemoryMB] in Hback. rewrite Hback, delete_insert_id by done. by destruct m.
Qed.

(** Releasing what was allocated restores the manager exactly. On a cluster
    where GPU identifiers are unique, a job that held nothing and is given a
    non-zero amount of memory on a GPU can be released, in any map iteration
    order, and the manager is then the one before the allocation. *)
Theorem Allocate_Release_id (m : Manager D) order jobID gpuID memoryMB m' :
  range_order (mgr_nodes m) order → ids_unique m →
  (∀ k i g, gpu_at m k i g → in_int (gpu_UsedMemoryMB g)) →
  mgr_allocations m !! jobID = None → memoryMB ≠ 0 →
  Manager_Allocate jobID gpuID memoryMB order m = Ok m' →
  Manager_Release jobID m' = Ok m.
Proof.
  intros Ho Hu Hint Hnone Hmem. unfold Manager_Allocate.
  destruct (find_gpu _ _) as [[[[k node] i] g]|] eqn:E; [|done].
  apply (find_gpu_range _ _ _ _ _ _ _ Ho) in E as (Hk & Hi & Hg).
  destruct (AvailableMemoryMB g <? memoryMB); [done|]. intros [= <-].
  apply Release_commit; try done. apply (Hint k i). by exists node.
Qed.

(** What [commit_gpu] does to the GPUs. *)
Lemma commit_gpu_at (m : Manager D) jobID memoryMB k node i g :
  mgr_nodes m !! k = Some node → node_GPUs node !! i = Some g →
  gpu_at (commit_gpu jobID memoryMB k node i g m) k i
    (set_UsedMemoryMB (if memoryMB =? 0 then gpu_TotalMemoryMB g else gpu_UsedMemoryMB g ⊞ memoryMB) g) ∧
  ∀ k' i' g', (k', i') ≠ (k, i) →
    gpu_at (commit_gpu jobID memoryMB k node i g m) k' i' g' ↔ gpu_at m k' i' g'.
Proof.
  intros Hk Hi. split.
  - eexists. cbn. rewrite lookup_insert_eq. split; [done|]. cbn.
    apply list_lookup_insert_eq. by eapply lookup_lt_Some.
  - intros k' i' g' Hne. unfold gpu_at. cbn. destruct (decide (k' = k)) as [->|Hk'].
    + rewrite lookup_insert_eq, Hk. assert (i' ≠ i) by congruence.
      split; intros (n & [= <-] & Hn); eexists; (split; [done|]); cbn in *;
        by rewrite list_lookup_insert_ne in *.
    + by rewrite lookup_insert_ne.
Qed.

(** The memory a commit leaves in use stays within the GPU. *)
Lemma commit_used g memoryMB :
  0 ≤ memoryMB → gpu_UsedMemoryMB g ≤ gpu_TotalMemoryMB g → 0 ≤ gpu_UsedMemoryMB g →
  gpu_TotalMemoryMB g ≤ int_max → memoryMB ≤ AvailableMemoryMB g →
  gpu_UsedMemoryMB g + memoryMB ≤
    (if memoryMB =? 0 then gpu_TotalMemoryMB g else gpu_UsedMemoryMB g ⊞ memoryMB) ≤ gpu_TotalMemoryMB g.
Proof.
  intros ? ? ? ? Hav. assert (AvailableMemoryMB g = gpu_TotalMemoryMB g - gpu_UsedMemoryMB g) as Hav'
    by (unfold AvailableMemoryMB; int_solve).
  destruct (Z.eqb_spec memoryMB 0); [lia|]. int_solve.
Qed.

(** [Allocate] is exact. It succeeds exactly when the identifier names a GPU
    with enough available memory; then only that GPU changes, its used memory
    stays within its total, and the allocation is appended to the job's list. *)
Theorem Allocate_exact (m : Manager D) order jobID gpuID memoryMB :
  range_order (mgr_nodes m) order → ids_unique m → 0 ≤ memoryMB →
  (∀ k i g, gpu_at m k i g → 0 ≤ gpu_UsedMemoryMB g ≤ gpu_TotalMemoryMB g ∧ gpu_TotalMemoryMB g ≤ int_max) →
  match Manager_Allocate jobID gpuID memoryMB order m with
  | Ok m' => ∃ k i g used, gpu_at m k i g ∧ gpu_ID g = gpuID ∧ memoryMB ≤ AvailableMemoryMB g ∧
      gpu_at m' k i (set_UsedMemoryMB used g) ∧
      gpu_UsedMemoryMB g + memoryMB ≤ used ≤ gpu_TotalMemoryMB g ∧
      (∀ k' i' g', (k', i') ≠ (k, i) → gpu_at m' k' i' g' ↔ gpu_at m k' i' g') ∧
      ∃ nodeName, mgr_allocations m' = <[jobID := (default [] (mgr_allocations m !! jobID) ++
        [mkAllocation jobID gpuID nodeName memoryMB])%list]> (mgr_allocations m)
  | Err EInsufficientMemory => ∃ k i g, gpu_at m k i g ∧ gpu_ID g = gpuID ∧ AvailableMemoryMB g < memoryMB
  | Err _ => ∀ k i g, gpu_at m k i g → gpu_ID g ≠ gpuID
  end.
Proof.
  intros Ho Hu Hmem Hsane. unfold Manager_Allocate.
  destruct (find_gpu _ _) as [[[[k node] i] g]|] eqn:E; [|].
  - apply (find_gpu_range _ _ _ _ _ _ _ Ho) in E as (Hk & Hi & Hg).
    assert (gpu_at m k i g) as Hat by (by exists node).
    destruct (Hsane _ _ _ Hat) as [[Hused Htot] Hint].
    destruct (Z.ltb_spec (AvailableMemoryMB g) memoryMB) as [Hlt|Hge]; [by exists k, i, g|].
    destruct (commit_gpu_at m jobID memoryMB k node i g Hk Hi) as [Hnew Hother].
    destruct (commit_used g memoryMB Hmem Htot Hused Hint Hge).
    eexists k, i, g, _. split_and!; [done|done|done|exact Hnew|done|done|done|].
    exists (node_Name node). by rewrite <-Hg.
  - intros k i g (node & Hk & Hi). rewrite find_gpu_none in E.
    apply (E k node); [by apply (range_elem _ _ _ _ Ho)|by eapply list_elem_of_lookup_2].
Qed.
End manager.

(** ** Examples *)
Lemma sample_manager_at k i g :
  gpu_at sample_manager k i g →
  k = "local" ∧ (i = 0%nat ∧ g = manager_gpu "GPU-0" 0 ∨ i = 1%nat ∧ g = manager_gpu "GPU-1" 4000).
Proof.
  intros (node & Hk & Hi). unfold sample_manager in Hk; cbn [mgr_nodes] in Hk. apply (lookup_singleton_Some "local" k) in Hk as [<- <-]. split; [done|].
  destruct i as [|[|i]]; cbn in Hi; simplify_eq; auto.
Qed.

Lemma sample_manager_unique : ids_unique sample_manager.
Proof.
  intros k1 i1 g1 k2 i2 g2 H1 H2 E.
  apply sample_manager_at in H1 as (-> & H1), H2 as (-> & H2).
  destruct H1 as [[-> ->]|[-> ->]], H2 as [[-> ->]|[-> ->]]; try done; discriminate E.
Qed.

Lemma sample_manager_order : range_order (mgr_nodes sample_manager) ["local"].
Proof. vm_compute. reflexivity. Qed.

Lemma sample_manager_sane k i g :
  gpu_at sample_manager k i g →
  0 ≤ gpu_UsedMemoryMB g ≤ gpu_TotalMemoryMB g ∧ gpu_TotalMemoryMB g ≤ int_max.
Proof.
  intros (_ & H)%sample_manager_at. destruct H as [[_ ->]|[_ ->]]; vm_compute; split_and!; discriminate.
Qed.

Lemma Allocate_Release_id_witness :
  ∃ m', Manager_Allocate "job-1" "GPU-1" 6000 ["local"] sample_manager = Ok m' ∧
    Manager_Release "job-1" m' = Ok sample_manager.
Proof.
  eexists. split; [reflexivity|].
  refine (Allocate_Release_id sample_manager ["local"] "job-1" "GPU-1" 6000 _
    sample_manager_order sample_manager_unique _ eq_refl _ eq_refl); [|discriminate].
  intros k i g H%sample_manager_sane. unfold in_int, int_min, int_max in *. lia.
Defined.

Lemma Allocate_exact_witness :
  match Manager_Allocate "job-1" "GPU-1" 12000 ["local"] sample_manager with
  | Ok m' => (∃ k i g, gpu_at sample_manager k i g ∧ gpu_ID g = "GPU-1" ∧ 12000 ≤ AvailableMemoryMB g) ∧
      Manager_Allocate "job-2" "GPU-1" 1 ["local"] m' = Err EInsufficientMemory
  | Err _ => False
  end.
Proof.
  pose proof (Allocate_exact sample_manager ["local"] "job-1" "GPU-1" 12000
    sample_manager_order sample_manager_unique ltac:(lia) sample_manager_sane) as H.
  destruct (Manager_Allocate "job-1" _ _ _ _) as [m'|e] eqn:E; [|vm_compute in E; discriminate].
  split; [|vm_compute in E; by injection E as <-].
  destruct H as (k & i & g & used & Hg & Hid & Hm & _). by exists k, i, g.
Defined.

(** A count-based allocation (0 MB) marks the whole GPU as used and its release
    gives back nothing: the GPU stays full. *)
Lemma count_based_release_leaks :
  ∃ m1 m2, Manager_Allocate "job-1" "GPU-0" 0 ["local"] sample_manager = Ok m1 ∧
    Manager_Release "job-1" m1 = Ok m2 ∧
    gpu_at m2 "local" 0 (manager_gpu "GPU-0" 16000) ∧ mgr_allocations m2 = ∅.
Proof.
  eexists _, _. split; [reflexivity|]. split; [reflexivity|]. split; [|reflexivity].
  eexists. split; reflexivity.
Qed.
