(* ===== verification/Strategy.v ===== *)
(** * internal/allocator/strategy.go: the scheduling-strategy interface

    [SchedulingStrategy] is the Go interface; [StrategyLaws] is what its clients
    (gang placement, the watcher) rely on: a strategy places a job exactly when
    some GPU can take it, and only on GPUs that can.  [Binpack] and [Fifo]
    discharge the laws; [GangMultiPod] is proved against them. *)

From Stdlib Require Import ZArith Lia.
From stdpp Require Import base option list strings gmap.
From S2P Require Import Prelude GoFloat Types.
Open Scope string_scope.
Open Scope Z_scope.
Open Scope go_scope.

Inductive SchedError : Type :=
  | ENilJob
  | ENoNodes
  | ENoGPU (requiredMemory : Z)
  | EGPUCount (gpuCount : Z)
  | ENoSingleNode (gpuCount requiredMemory : Z)
  | EMemoryMode (memoryMode : string)
  | ELengthMismatch
  | EGangPod (podName : string) (err : SchedError).

(** The three [continue] tests every strategy applies to a GPU, negated. *)
Definition eligible (allowShared : bool) (requiredMemory : Z) (gpu : GPU) : bool :=
  negb (negb (gpu_IsHealthy gpu) || (negb allowShared && (gpu_AllocatedPods gpu >? 0))) &&
  negb ((gpu_TotalMemoryMB gpu >? 0) && (AvailableMemoryMB gpu =? 0)) &&
  negb (AvailableMemoryMB gpu <? requiredMemory).

(** [(job.MemoryMB + gpuCount - 1) / gpuCount]: the share of each GPU, rounded up. *)
Definition share_of (memoryMB gpuCount : Z) : Z := (memoryMB ⊞ gpuCount ⊟ 1) ⊘ gpuCount.

Class SchedulingStrategy : Type := {
  Schedule : option Job → list NodeInfo → call SchedError SchedulingResult;
  ScheduleGang : option Job → list NodeInfo → Z → string → call SchedError GangSchedulingResult
}.

(** The memory a gang placement asks of each GPU. *)
Definition gang_share (job : Job) (gpuCount : Z) (memoryMode : string) : Z :=
  if String.eqb memoryMode MemoryTotal then share_of (job_MemoryMB job) gpuCount
  else if String.eqb memoryMode MemoryPerGPU then job_MemoryMB job
  else 0.

Definition placed_on (node : NodeInfo) (memoryMB : Z) (gpu : GPU) : GPUPlacement :=
  mkGPUPlacement (node_Name node) (gpu_ID gpu) memoryMB.

Class StrategyLaws (S : SchedulingStrategy) : Prop := {
  schedule_total job nodes : ∃ res, Schedule (Some job) nodes = Done res;
  schedule_sound job nodes r :
    Schedule (Some job) nodes = Done (Ok r) →
    ∃ node gpu, node ∈ nodes ∧ gpu ∈ node_GPUs node ∧
      eligible (job_Shared job) (job_MemoryMB job) gpu = true ∧
      r = mkSchedulingResult (job_ID job) (node_Name node) [gpu_ID gpu] true false;
  schedule_complete job nodes node gpu :
    node ∈ nodes → gpu ∈ node_GPUs node →
    eligible (job_Shared job) (job_MemoryMB job) gpu = true →
    ∃ r, Schedule (Some job) nodes = Done (Ok r);
  gang_total job nodes n mode : ∃ res, ScheduleGang (Some job) nodes n mode = Done res;
  gang_sound job nodes n mode r :
    ScheduleGang (Some job) nodes n mode = Done (Ok r) →
    0 < n ∧ ∃ node gpus, node ∈ nodes ∧ gpus ⊆+ node_GPUs node ∧ Z.of_nat (length gpus) = n ∧
      Forall (λ g, eligible (job_Shared job) (gang_share job n mode) g = true) gpus ∧
      r = mkGangSchedulingResult (job_ID job) (placed_on node (gang_share job n mode) <$> gpus);
  gang_complete job nodes n mode node :
    0 < n → mode ∈ [MemoryTotal; MemoryPerGPU; MemoryNone] → node ∈ nodes →
    n ≤ Z.of_nat (length (List.filter (eligible (job_Shared job) (gang_share job n mode)) (node_GPUs node))) →
    ∃ r, ScheduleGang (Some job) nodes n mode = Done (Ok r)
}.

(** ** A small cluster for the examples: two nodes with two GPUs each *)
Definition sample_gpu (id nodeName : string) (total used pods : Z) : GPU :=
  mkGPU id 0 nodeName total used f64_zero true false pods false.

Definition sample_node (name : string) (gpus : list GPU) : NodeInfo :=
  mkNodeInfo name ∅ gpus false (Z.of_nat (length gpus)) (Z.of_nat (length gpus)) ["Ready"].

Definition sample_nodes : list NodeInfo :=
  [sample_node "node-a" [sample_gpu "GPU-a0" "node-a" 24000 0 0; sample_gpu "GPU-a1" "node-a" 24000 8000 0];
   sample_node "node-b" [sample_gpu "GPU-b0" "node-b" 16000 0 0; sample_gpu "GPU-b1" "node-b" 16000 1000 0]].

Definition sample_job : Job := mkJob "job-1" "train" "default" 1 14000 "training" false.

(** ** Lemmas on eligibility *)
Lemma eligible_true shared req g :
  eligible shared req g = true ↔
  gpu_IsHealthy g = true ∧ (shared = true ∨ gpu_AllocatedPods g ≤ 0) ∧
  (gpu_TotalMemoryMB g ≤ 0 ∨ AvailableMemoryMB g ≠ 0) ∧ req ≤ AvailableMemoryMB g.
Proof.
  unfold eligible. rewrite !Z.gtb_ltb.
  destruct (gpu_IsHealthy g), shared, (Z.ltb_spec 0 (gpu_AllocatedPods g)),
    (Z.ltb_spec 0 (gpu_TotalMemoryMB g)), (Z.eqb_spec (AvailableMemoryMB g) 0),
    (Z.ltb_spec (AvailableMemoryMB g) req); cbn; split; try done; intros; naive_solver lia.
Qed.

Lemma eligible_memory shared req g : eligible shared req g = true → req ≤ AvailableMemoryMB g.
Proof. rewrite eligible_true. tauto. Qed.

Lemma eligible_exclusive req g : eligible false req g = true → gpu_AllocatedPods g ≤ 0.
Proof. rewrite eligible_true. intros (_ & [?|?] & _); done. Qed.

Lemma list_filter_sublist {A} (p : A → bool) l : List.filter p l `sublist_of` l.
Proof. induction l as [|x l IH]; cbn; [constructor|]. case_match; by constructor. Qed.

Lemma list_filter_Forall {A} (p : A → bool) l : Forall (λ x, p x = true) (List.filter p l).
Proof. induction l as [|x l IH]; cbn; [constructor|]. case_match; [by constructor|done]. Qed.

Lemma NoDup_sub {A} (l1 l2 : list A) : l1 ⊆+ l2 → NoDup l2 → NoDup l1.
Proof. intros [l3 ->]%submseteq_Permutation. by intros [??]%NoDup_app. Qed.

Lemma Forall_submseteq {A} (P : A → Prop) l1 l2 : l1 ⊆+ l2 → Forall P l2 → Forall P l1.
Proof. intros Hs. rewrite !Forall_forall. intros H x Hx. eapply H, elem_of_submseteq; eauto. Qed.
