(* ===== verification/Binpack.v ===== *)
(** * internal/allocator/binpack.go: best-fit placement

    [BinPacker] collects every GPU (or, for a gang, every node with enough
    GPUs) that can take the job and keeps the one that wastes least memory. *)

From Stdlib Require Import ZArith Lia.
From stdpp Require Import base option list strings gmap.
From S2P Require Import Prelude GoFloat Types Strategy.
Open Scope string_scope.
Open Scope Z_scope.
Open Scope go_scope.

Record candidate : Type := mkCandidate {
  cand_node : NodeInfo;
  cand_gpu : GPU;
  cand_waste : Z
}.

Record gangCandidate : Type := mkGangCandidate {
  gang_nodeName : string;
  gang_gpus : list GPU;
  gang_totalWaste : Z
}.

(** [candidates[0]] on an empty slice panics. *)
Definition selectBestFit (candidates : list candidate) : outcome candidate :=
  match candidates with
  | [] => Panicked
  | c0 :: cs =>
      Done (select_best
        (λ c best, (cand_waste c <? cand_waste best) ||
           ((cand_waste c =? cand_waste best) &&
            f64_ltb (gpu_UtilizationPercent (cand_gpu best)) (gpu_UtilizationPercent (cand_gpu c))))
        c0 cs)
  end.

Definition selectGangSchedulerBestFit (gangCandidates : list gangCandidate) : outcome gangCandidate :=
  match gangCandidates with
  | [] => Panicked
  | c0 :: cs => Done (select_best (λ c best, gang_totalWaste c <? gang_totalWaste best) c0 cs)
  end.

Definition findCandidates (requiredMemory : Z) (nodes : list NodeInfo) (allowShared : bool) :
    result SchedError (list candidate) :=
  let candidates :=
    node ← nodes; gpu ← node_GPUs node;
    if eligible allowShared requiredMemory gpu
    then [mkCandidate node gpu (AvailableMemoryMB gpu ⊟ requiredMemory)]
    else [] in
  match candidates with
  | [] => Err (ENoGPU requiredMemory)
  | _ => Ok candidates
  end.

Definition BinPacker_Schedule (job : option Job) (nodes : list NodeInfo) :
    call SchedError SchedulingResult :=
  match job with
  | None => Done (Err ENilJob)
  | Some job =>
      match nodes with
      | [] => Done (Err ENoNodes)
      | _ =>
          candidates ←! Done (findCandidates (job_MemoryMB job) nodes (job_Shared job));
          bestcandidate ← selectBestFit candidates;
          Done (Ok (mkSchedulingResult (job_ID job) (node_Name (cand_node bestcandidate))
                      [gpu_ID (cand_gpu bestcandidate)] true false))
      end
  end.

(** Waste of an eligible GPU, and the sum of the first [gpuCount] of them. *)
Definition waste (requiredMemory : Z) (gpu : GPU) : Z := AvailableMemoryMB gpu ⊟ requiredMemory.

Definition total_waste (requiredMemory : Z) (gpus : list GPU) : Z :=
  foldl (λ acc g, acc ⊞ waste requiredMemory g) 0 gpus.

Section gang.
Context `{GoSort}.

(** One iteration of the node loop of [findGangCandidates]. *)
Definition node_gang_candidate (gpuCount requiredMemory : Z) (allowShared : bool) (node : NodeInfo) :
    list gangCandidate :=
  if Z.of_nat (length (node_GPUs node)) <? gpuCount then []
  else
    let elig := List.filter (eligible allowShared requiredMemory) (node_GPUs node) in
    if Z.of_nat (length elig) <? gpuCount then []
    else
      let sorted := sort_slice (λ a b, waste requiredMemory a <? waste requiredMemory b) elig in
      let gpus := take (Z.to_nat gpuCount) sorted in
      [mkGangCandidate (node_Name node) gpus (total_waste requiredMemory gpus)].

Definition findGangCandidates (gpuCount requiredMemory : Z) (nodes : list NodeInfo)
    (allowShared : bool) : result SchedError (list gangCandidate) :=
  match nodes ≫= node_gang_candidate gpuCount requiredMemory allowShared with
  | [] => Err (ENoSingleNode gpuCount requiredMemory)
  | cs => Ok cs
  end.

(** The switch on the memory mode has no default: another mode asks for 0. *)
Definition BinPacker_ScheduleGang (job : option Job) (nodes : list NodeInfo) (gpuCount : Z)
    (memoryMode : string) : call SchedError GangSchedulingResult :=
  match job with
  | None => Done (Err ENilJob)
  | Some job =>
      if gpuCount <=? 0 then Done (Err (EGPUCount gpuCount)) else
      let requiredMemory :=
        if String.eqb memoryMode MemoryTotal then share_of (job_MemoryMB job) gpuCount
        else if String.eqb memoryMode MemoryPerGPU then job_MemoryMB job
        else 0 in
      gangCandidates ←! Done (findGangCandidates gpuCount requiredMemory nodes (job_Shared job));
      bestCandidate ← selectGangSchedulerBestFit
        (sort_slice (λ a b, gang_totalWaste a <? gang_totalWaste b) gangCandidates);
      Done (Ok (mkGangSchedulingResult (job_ID job)
        ((λ gpu, mkGPUPlacement (gang_nodeName bestCandidate) (gpu_ID gpu) requiredMemory)
           <$> take (Z.to_nat gpuCount) (gang_gpus bestCandidate))))
  end.

#[export] Instance BinPacker : SchedulingStrategy := {|
  Schedule := BinPacker_Schedule;
  ScheduleGang := BinPacker_ScheduleGang
|}.
End gang.

(** ** Lemmas on the candidates *)
Lemma findCandidates_elem req nodes shared cs c :
  findCandidates req nodes shared = Ok cs →
  c ∈ cs ↔ cand_node c ∈ nodes ∧ cand_gpu c ∈ node_GPUs (cand_node c) ∧
    eligible shared req (cand_gpu c) = true ∧ cand_waste c = waste req (cand_gpu c).
Proof.
  unfold findCandidates. set (l := nodes ≫= _). intros Hf.
  assert (cs = l) as -> by (destruct l; congruence).
  unfold l. rewrite list_elem_of_bind. setoid_rewrite list_elem_of_bind. split.
  - intros (node & (gpu & Hc & Hg) & Hn). destruct (eligible shared req gpu) eqn:E;
      [|by apply elem_of_nil in Hc]. apply list_elem_of_singleton in Hc as ->. done.
  - destruct c as [node gpu w]; cbn. intros (Hn & Hg & E & ->). exists node. split; [|done].
    exists gpu. split; [|done]. rewrite E. by apply list_elem_of_singleton.
Qed.

Lemma findCandidates_ok req nodes shared cs :
  findCandidates req nodes shared = Ok cs → cs ≠ [].
Proof. unfold findCandidates. set (l := nodes ≫= _). destruct l; naive_solver. Qed.

Lemma findCandidates_complete req nodes shared node gpu :
  node ∈ nodes → gpu ∈ node_GPUs node → eligible shared req gpu = true →
  ∃ cs, findCandidates req nodes shared = Ok cs.
Proof.
  intros Hn Hg E. unfold findCandidates. set (l := nodes ≫= _).
  assert (mkCandidate node gpu (AvailableMemoryMB gpu ⊟ req) ∈ l) as Hin.
  { apply list_elem_of_bind. exists node. split; [|done]. apply list_elem_of_bind.
    exists gpu. split; [|done]. rewrite E. by apply list_elem_of_singleton. }
  destruct l; [by apply elem_of_nil in Hin|eauto].
Qed.

(** The comparison of [selectBestFit] is a weak order where utilisation is a
    number. *)
Section best_fit.
Let better (c best : candidate) : bool :=
  (cand_waste c <? cand_waste best) ||
  ((cand_waste c =? cand_waste best) &&
   f64_ltb (gpu_UtilizationPercent (cand_gpu best)) (gpu_UtilizationPercent (cand_gpu c))).

Lemma better_asym a b : better a b = true → better b a = false.
Proof.
  unfold better. rewrite orb_true_iff, andb_true_iff, Z.ltb_lt, Z.eqb_eq.
  rewrite orb_false_iff, andb_false_iff, Z.ltb_ge, Z.eqb_neq.
  intros [?|[? H%f64_ltb_asym]]; split; try lia; auto.
Qed.

Lemma better_negtrans a b c :
  not_nan (gpu_UtilizationPercent (cand_gpu a)) → not_nan (gpu_UtilizationPercent (cand_gpu b)) →
  not_nan (gpu_UtilizationPercent (cand_gpu c)) →
  better a b = false → better b c = false → better a c = false.
Proof.
  unfold better. rewrite !orb_false_iff, !andb_false_iff, !Z.ltb_ge, !Z.eqb_neq.
  intros Ha Hb Hc [? H1] [? H2]. split; [lia|].
  destruct (decide (cand_waste a = cand_waste c)); [right|by left].
  apply (f64_ltb_negtrans _ (gpu_UtilizationPercent (cand_gpu b))); try done.
  - destruct H2; [lia|done].
  - destruct H1; [lia|done].
Qed.

Lemma selectBestFit_spec cs :
  cs ≠ [] → ∃ c, selectBestFit cs = Done c ∧ c ∈ cs ∧
    (Forall (λ c, not_nan (gpu_UtilizationPercent (cand_gpu c))) cs →
     ∀ c', c' ∈ cs → better c' c = false).
Proof.
  destruct cs as [|c0 cs]; [done|]. intros _. eexists. split; [reflexivity|].
  split; [apply select_best_elem|]. intros Hn c' Hc'.
  apply (select_best_max_on better (λ c, not_nan (gpu_UtilizationPercent (cand_gpu c)))); try done.
  - intros a b _ _. apply better_asym.
  - apply better_negtrans.
Qed.
End best_fit.

Lemma BinPacker_Schedule_ok job nodes r :
  BinPacker_Schedule (Some job) nodes = Done (Ok r) →
  ∃ cs c, findCandidates (job_MemoryMB job) nodes (job_Shared job) = Ok cs ∧
    selectBestFit cs = Done c ∧
    r = mkSchedulingResult (job_ID job) (node_Name (cand_node c)) [gpu_ID (cand_gpu c)] true false.
Proof.
  unfold BinPacker_Schedule. destruct nodes as [|n nodes]; [done|].
  intros (cs & [= Hcs] & (c & Hc & [= <-])%outcome_bind_done)%call_bind_ok. eauto.
Qed.

(** ** Lemmas on gang candidates *)
Section gang_lemmas.
Context `{GoSort}.

Lemma node_gang_candidate_spec n req shared node c :
  0 < n → c ∈ node_gang_candidate n req shared node ↔
  n ≤ Z.of_nat (length (List.filter (eligible shared req) (node_GPUs node))) ∧
  c = mkGangCandidate (node_Name node)
        (take (Z.to_nat n) (sort_slice (λ a b, waste req a <? waste req b)
           (List.filter (eligible shared req) (node_GPUs node))))
        (total_waste req (take (Z.to_nat n) (sort_slice (λ a b, waste req a <? waste req b)
           (List.filter (eligible shared req) (node_GPUs node))))).
Proof.
  intros Hn. unfold node_gang_candidate.
  pose proof (sublist_length _ _ (list_filter_sublist (eligible shared req) (node_GPUs node))).
  destruct (Z.ltb_spec (Z.of_nat (length (node_GPUs node))) n).
  { rewrite elem_of_nil. split; [done|]. intros [? _]. lia. }
  destruct (Z.ltb_spec (Z.of_nat (length (List.filter (eligible shared req) (node_GPUs node)))) n).
  { rewrite elem_of_nil. split; [done|]. intros [? _]. lia. }
  rewrite list_elem_of_singleton. split; [done|]. by intros [_ ?].
Qed.

(** What a gang candidate promises. *)
Lemma gang_candidate_gpus n req shared node c :
  0 < n → c ∈ node_gang_candidate n req shared node →
  gang_nodeName c = node_Name node ∧ gang_gpus c ⊆+ node_GPUs node ∧
  Z.of_nat (length (gang_gpus c)) = n ∧
  Forall (λ g, eligible shared req g = true) (gang_gpus c) ∧
  gang_totalWaste c = total_waste req (gang_gpus c).
Proof.
  intros Hn [Hlen ->]%node_gang_candidate_spec; [|done]. cbn.
  set (elig := List.filter _ _) in *.
  assert (take (Z.to_nat n) (sort_slice (λ a b, waste req a <? waste req b) elig) ⊆+ elig) as Hsub.
  { etrans; [apply submseteq_take|]. by rewrite sort_slice_perm. }
  split_and!; [done| | | |done].
  - etrans; [exact Hsub|]. apply sublist_submseteq, list_filter_sublist.
  - rewrite length_take, sort_slice_length. lia.
  - eapply Forall_submseteq; [exact Hsub|]. apply list_filter_Forall.
Qed.

Lemma gang_candidate_fits n req shared node c :
  0 < n → c ∈ node_gang_candidate n req shared node →
  gang_gpus c ⊆+ List.filter (eligible shared req) (node_GPUs node).
Proof.
  intros Hn [_ ->]%node_gang_candidate_spec; [|done]. cbn.
  etrans; [apply submseteq_take|]. by rewrite sort_slice_perm.
Qed.

Lemma findGangCandidates_elem n req nodes shared cs c :
  findGangCandidates n req nodes shared = Ok cs →
  c ∈ cs ↔ ∃ node, node ∈ nodes ∧ c ∈ node_gang_candidate n req shared node.
Proof.
  unfold findGangCandidates. set (l := nodes ≫= _). intros Hf.
  assert (cs = l) as -> by (destruct l; congruence).
  unfold l. rewrite list_elem_of_bind. naive_solver.
Qed.

Lemma selectGang_spec cs :
  cs ≠ [] → ∃ c, selectGangSchedulerBestFit cs = Done c ∧ c ∈ cs ∧
    ∀ c', c' ∈ cs → gang_totalWaste c ≤ gang_totalWaste c'.
Proof.
  destruct cs as [|c0 cs]; [done|]. intros _. eexists. split; [reflexivity|].
  split; [apply select_best_elem|]. intros c' Hc'. apply Z.ltb_ge.
  apply (select_best_max (λ c best, gang_totalWaste c <? gang_totalWaste best)); [|done].
  apply weak_less_key.
Qed.

Lemma BinPacker_gang_ok job nodes n mode r :
  BinPacker_ScheduleGang (Some job) nodes n mode = Done (Ok r) →
  0 < n ∧ ∃ cs c node, findGangCandidates n (gang_share job n mode) nodes (job_Shared job) = Ok cs ∧
    c ∈ cs ∧ (∀ c', c' ∈ cs → gang_totalWaste c ≤ gang_totalWaste c') ∧
    node ∈ nodes ∧ c ∈ node_gang_candidate n (gang_share job n mode) (job_Shared job) node ∧
    r = mkGangSchedulingResult (job_ID job)
          (placed_on node (gang_share job n mode) <$> gang_gpus c).
Proof.
  unfold BinPacker_ScheduleGang. destruct (Z.leb_spec n 0); [done|].
  fold (gang_share job n mode). intros (cs & [= Hcs] & Hr)%call_bind_ok. split; [done|].
  apply outcome_bind_done in Hr as (c & Hc & [= <-]).
  assert (cs ≠ []) as Hne.
  { unfold findGangCandidates in Hcs. destruct (nodes ≫= _); congruence. }
  destruct (selectGang_spec (sort_slice (λ a b, gang_totalWaste a <? gang_totalWaste b) cs))
    as (c' & Hc' & Hin & Hmin).
  { intros E. apply Hne. apply Permutation_nil_r. by rewrite <-(sort_slice_perm
      (λ a b, gang_totalWaste a <? gang_totalWaste b) cs), E. }
  assert (c' = c) as -> by congruence. rewrite sort_slice_elem in Hin.
  apply (findGangCandidates_elem _ _ _ _ _ c) in Hcs as Hel.
  destruct (proj1 Hel Hin) as (node & Hnode & Hcn).
  exists cs, c, node. split_and!; try done.
  - intros c2 Hc2. apply Hmin. by rewrite sort_slice_elem.
  - destruct (gang_candidate_gpus n _ _ _ _ ltac:(lia) Hcn) as (En & _ & Hlen & _).
    f_equal. rewrite take_ge by lia. apply list_fmap_ext. intros i g _.
    unfold placed_on. by rewrite En.
Qed.
End gang_lemmas.

(** ** The contract *)
Lemma BinPacker_ScheduleGang_total `{GoSort} job nodes n mode :
  ∃ res, BinPacker_ScheduleGang (Some job) nodes n mode = Done res.
Proof.
  unfold BinPacker_ScheduleGang. destruct (n <=? 0); [eauto|]. fold (gang_share job n mode).
  apply call_bind_done; [eauto|]. intros cs [= Hcs].
  destruct (selectGang_spec (sort_slice (λ a b, gang_totalWaste a <? gang_totalWaste b) cs))
    as (c & -> & _); [|cbn; eauto].
  intros E. assert (cs = []) as ->.
  { apply Permutation_nil_r. by rewrite <-(sort_slice_perm
      (λ a b, gang_totalWaste a <? gang_totalWaste b) cs), E. }
  unfold findGangCandidates in Hcs. destruct (nodes ≫= _); congruence.
Qed.

#[export] Instance BinPacker_laws `{GoSort} : StrategyLaws BinPacker.
Proof.
  split; cbn [Schedule ScheduleGang BinPacker].
  - intros job nodes. unfold BinPacker_Schedule. destruct nodes; [eauto|].
    apply call_bind_done; [eauto|]. intros cs [= Hcs%findCandidates_ok].
    destruct (selectBestFit_spec cs Hcs) as (c & -> & _). cbn. eauto.
  - intros job nodes r (cs & c & Hcs & Hc & ->)%BinPacker_Schedule_ok.
    destruct (selectBestFit_spec cs (findCandidates_ok _ _ _ _ Hcs)) as (c' & Hc' & Hin & _).
    assert (c' = c) as -> by congruence.
    apply (findCandidates_elem _ _ _ _ _ Hcs) in Hin as (? & ? & ? & _). eauto 10.
  - intros job nodes node gpu Hn Hg E. unfold BinPacker_Schedule.
    destruct nodes as [|n0 nodes]; [by apply elem_of_nil in Hn|].
    destruct (findCandidates_complete _ _ _ _ _ Hn Hg E) as [cs Hcs]. rewrite Hcs.
    destruct (selectBestFit_spec cs (findCandidates_ok _ _ _ _ Hcs)) as (c' & Hc' & _).
    cbn. rewrite Hc'. cbn. eauto.
  - apply BinPacker_ScheduleGang_total.
  - intros job nodes n mode r (Hn & cs & c & node & _ & _ & _ & Hnode & Hc & ->)%BinPacker_gang_ok.
    split; [done|]. apply gang_candidate_gpus in Hc as (_ & ? & ? & ? & _); [|done].
    exists node, (gang_gpus c). done.
  - intros job nodes n mode node Hn _ Hnode Hlen.
    destruct (BinPacker_ScheduleGang_total job nodes n mode) as [[r|e] E]; [eauto|].
    exfalso. revert E. unfold BinPacker_ScheduleGang.
    rewrite (proj2 (Z.leb_gt _ _)) by done. fold (gang_share job n mode).
    unfold findGangCandidates.
    destruct (nodes ≫= _) as [|c0 cs] eqn:E.
    + assert (∃ c, c ∈ node_gang_candidate n (gang_share job n mode) (job_Shared job) node)
        as [c Hc] by (eexists; apply node_gang_candidate_spec; done).
      assert (c ∈ nodes ≫= node_gang_candidate n (gang_share job n mode) (job_Shared job)) as Hin
        by (apply list_elem_of_bind; eauto).
      rewrite E in Hin. by apply elem_of_nil in Hin.
    + cbn [call_bind]. destruct (selectGangSchedulerBestFit _); cbn; congruence.
Qed.

(** ** Optimality *)

(** C20: [BinPacker.Schedule] never panics; it answers with an error exactly when
    no GPU of any node can take the job, and otherwise with a GPU that can and
    that is a best fit: no eligible GPU would be left with less unused memory,
    and among the equals none is busier. *)
Theorem Schedule_best_fit job nodes :
  Forall (λ node, Forall (λ g, not_nan (gpu_UtilizationPercent g)) (node_GPUs node)) nodes →
  ∃ res, BinPacker_Schedule (Some job) nodes = Done res ∧
  let fits g := eligible (job_Shared job) (job_MemoryMB job) g = true in
  match res with
  | Ok r => ∃ node g, node ∈ nodes ∧ g ∈ node_GPUs node ∧ fits g ∧
      r = mkSchedulingResult (job_ID job) (node_Name node) [gpu_ID g] true false ∧
      ∀ node' g', node' ∈ nodes → g' ∈ node_GPUs node' → fits g' →
        waste (job_MemoryMB job) g < waste (job_MemoryMB job) g' ∨
        waste (job_MemoryMB job) g = waste (job_MemoryMB job) g' ∧
        f64_ltb (gpu_UtilizationPercent g) (gpu_UtilizationPercent g') = false
  | Err _ => ∀ node g, node ∈ nodes → g ∈ node_GPUs node → ¬ fits g
  end.
Proof.
  intros Hnan. destruct (schedule_total (S:=BinPacker) job nodes) as [[r|e] E]; cbn in E.
  - exists (Ok r). split; [done|].
    apply BinPacker_Schedule_ok in E as (cs & c & Hcs & Hc & ->).
    destruct (selectBestFit_spec cs (findCandidates_ok _ _ _ _ Hcs)) as (c' & Hc' & Hin & Hbest).
    assert (c' = c) as -> by congruence. cbn.
    apply (findCandidates_elem _ _ _ _ _ Hcs) in Hin as (Hn & Hg & He & Hw).
    exists (cand_node c), (cand_gpu c). split_and!; try done. intros node' g' Hn' Hg' He'.
    specialize (Hbest ltac:(apply Forall_forall; intros c2
      (Hn2 & Hg2 & _)%(findCandidates_elem _ _ _ _ _ Hcs);
      rewrite Forall_forall in Hnan; specialize (Hnan _ Hn2);
      rewrite Forall_forall in Hnan; auto)).
    specialize (Hbest (mkCandidate node' g' (waste (job_MemoryMB job) g'))).
    rewrite (findCandidates_elem _ _ _ _ _ Hcs) in Hbest. cbn in Hbest.
    specialize (Hbest ltac:(done)). rewrite Hw in Hbest.
    apply orb_false_iff in Hbest as [H1%Z.ltb_ge H2%andb_false_iff].
    destruct H2 as [H2%Z.eqb_neq|H2]; [left; lia|]. destruct (decide (waste (job_MemoryMB job) (cand_gpu c) = waste (job_MemoryMB job) g')); [by right|left; lia].
  - exists (Err e). split; [done|]. intros fits node g Hn Hg Hf.
    destruct (schedule_complete (S:=BinPacker) job nodes node g Hn Hg Hf) as [r Hr].
    cbn in Hr. congruence.
Qed.

Section gang_optimal.
Context `{GoSort}.

Lemma total_waste_sum shared req gpus acc :
  0 ≤ req → Forall (λ g, eligible shared req g = true) gpus →
  0 ≤ acc → acc + zsum (AvailableMemoryMB <$> gpus) ≤ int_max →
  foldl (λ acc g, acc ⊞ waste req g) acc gpus = acc + zsum (waste req <$> gpus).
Proof.
  intros Hr He. revert acc. induction He as [|g gpus Hg He IH]; intros acc Ha Hs.
  { cbn. lia. }
  rewrite fmap_cons, zsum_cons in *. cbn [foldl].
  apply eligible_memory in Hg.
  assert (0 ≤ zsum (AvailableMemoryMB <$> gpus)).
  { apply zsum_nonneg, Forall_fmap. eapply Forall_impl; [exact He|]. intros g' H'.
    apply eligible_memory in H'. cbn. lia. }
  assert (waste req g = AvailableMemoryMB g - req) as Hw by (unfold waste; int_solve).
  rewrite IH; rewrite ?wrap64_id; unfold in_int, int_min, int_max in *; lia.
Qed.

(** C21: [BinPacker.ScheduleGang] is optimal: as long as the memory of a node fits
    an [int], the GPUs it picks are on one node, are eligible, and leave no more
    unused memory in total than any other choice of [n] eligible GPUs of one
    node. *)
Theorem ScheduleGang_minimal_waste job nodes n mode r :
  let req := gang_share job n mode in
  let fits node := List.filter (eligible (job_Shared job) req) (node_GPUs node) in
  0 ≤ req →
  Forall (λ node, zsum (AvailableMemoryMB <$> fits node) ≤ int_max) nodes →
  BinPacker_ScheduleGang (Some job) nodes n mode = Done (Ok r) →
  ∃ node gpus, node ∈ nodes ∧ gpus ⊆+ fits node ∧ Z.of_nat (length gpus) = n ∧
    r = mkGangSchedulingResult (job_ID job) (placed_on node req <$> gpus) ∧
    ∀ node' gpus', node' ∈ nodes → gpus' ⊆+ fits node' → Z.of_nat (length gpus') = n →
      zsum (waste req <$> gpus) ≤ zsum (waste req <$> gpus').
Proof.
  intros req fits Hreq Hmem (Hn & cs & c & node & Hcs & _ & Hmin & Hnode & Hc & ->)%BinPacker_gang_ok.
  fold req in Hcs, Hc |- *.
  assert (∀ node c, node ∈ nodes → c ∈ node_gang_candidate n req (job_Shared job) node →
    gang_gpus c ⊆+ fits node ∧ gang_totalWaste c = zsum (waste req <$> gang_gpus c)) as Hsum.
  { clear node c Hmin Hnode Hc. intros node c Hnode Hc.
    pose proof (gang_candidate_fits _ _ _ _ _ Hn Hc) as Hsub. split; [done|].
    apply gang_candidate_gpus in Hc as (_ & _ & _ & He & ->); [|done].
    rewrite Forall_forall in Hmem. specialize (Hmem _ Hnode).
    unfold total_waste. rewrite (total_waste_sum (job_Shared job)); [lia|done|done|lia|].
    etrans; [|exact Hmem]. rewrite Z.add_0_l. apply zsum_submseteq; [|by apply fmap_submseteq].
    apply Forall_fmap. eapply Forall_impl; [apply list_filter_Forall|]. intros g Hg.
    apply eligible_memory in Hg. exact (Z.le_trans _ _ _ Hreq Hg). }
  destruct (Hsum _ _ Hnode Hc) as [Hfit Hw].
  exists node, (gang_gpus c). split_and!; try done.
  { by apply gang_candidate_gpus in Hc as (_ & _ & ? & _). }
  intros node' gpus' Hnode' Hsub' Hlen'.
  pose proof (submseteq_length _ _ Hsub') as Hl.
  assert (n ≤ Z.of_nat (length (fits node'))) as Hcount by lia.
  pose proof (proj2 (node_gang_candidate_spec n req (job_Shared job) node' _ Hn)
    (conj Hcount eq_refl)) as Hc'.
  destruct (Hsum _ _ Hnode' Hc') as [_ Hw']. cbn [gang_totalWaste gang_gpus] in Hw'.
  rewrite <-Hw. etrans.
  { apply Hmin, (findGangCandidates_elem _ _ _ _ _ _ Hcs). eauto. }
  cbn [gang_totalWaste]. rewrite Hw'. rewrite <-Hlen', Nat2Z.id.
  apply sorted_take_min.
  - apply (sorted_by_key (waste req)), sort_slice_sorted, weak_less_key.
  - rewrite sort_slice_perm. exact Hsub'.
Qed.
End gang_optimal.

(** ** Examples *)
Lemma Schedule_best_fit_witness :
  ∃ res, BinPacker_Schedule (Some sample_job) sample_nodes = Done res ∧
    sr_GPUIDs <$> res = Ok ["GPU-b1"].
Proof.
  destruct (Schedule_best_fit sample_job sample_nodes ltac:(by repeat constructor)) as (res & E & _).
  exists res. split; [exact E|]. vm_compute in E. by injection E as <-.
Defined.

Lemma ScheduleGang_minimal_waste_witness :
  ∃ node gpus, node ∈ sample_nodes ∧ Z.of_nat (length gpus) = 2 ∧
    BinPacker_ScheduleGang (Some sample_job) sample_nodes 2 MemoryPerGPU =
      Done (Ok (mkGangSchedulingResult "job-1" (placed_on node 14000 <$> gpus))).
Proof.
  destruct (ScheduleGang_minimal_waste sample_job sample_nodes 2 MemoryPerGPU _
    ltac:(vm_compute; discriminate)
    ltac:(repeat (constructor; [vm_compute; discriminate|]); constructor) eq_refl)
    as (node & gpus & Hn & _ & Hl & Hr & _).
  exists node, gpus. split; [exact Hn|]. split; [exact Hl|]. exact (f_equal (λ r, Done (Ok r)) Hr).
Defined.
