(* ===== verification/Fifo.v ===== *)
(** * internal/allocator/fifo.go: first-fit placement

    [FIFOScheduler] takes the first GPU, or the first node with enough GPUs, in
    the order the cluster lists them. *)

From Stdlib Require Import ZArith Lia.
From stdpp Require Import base option list strings gmap.
From S2P Require Import Prelude GoFloat Types Strategy.
Open Scope string_scope.
Open Scope Z_scope.
Open Scope go_scope.

(** The tests of the inner loop of [Schedule]. *)
Definition fifo_fits (job : Job) (gpu : GPU) : bool :=
  if negb (gpu_IsHealthy gpu) || (negb (job_Shared job) && (gpu_AllocatedPods gpu >? 0)) then false
  else if (gpu_TotalMemoryMB gpu >? 0) && (AvailableMemoryMB gpu =? 0) then false
  else AvailableMemoryMB gpu >=? job_MemoryMB job.

Fixpoint fifo_first (job : Job) (nodes : list NodeInfo) : option (NodeInfo * GPU) :=
  match nodes with
  | [] => None
  | node :: rest =>
      match List.find (fifo_fits job) (node_GPUs node) with
      | Some gpu => Some (node, gpu)
      | None => fifo_first job rest
      end
  end.

Definition FIFO_Schedule (job : option Job) (nodes : list NodeInfo) :
    call SchedError SchedulingResult :=
  match job with
  | None => Done (Err ENilJob)
  | Some job =>
      match nodes with
      | [] => Done (Err ENoNodes)
      | _ =>
          match fifo_first job nodes with
          | Some (node, gpu) =>
              Done (Ok (mkSchedulingResult (job_ID job) (node_Name node) [gpu_ID gpu] true false))
          | None => Done (Err (ENoGPU (job_MemoryMB job)))
          end
      end
  end.

(** The inner loop of [ScheduleGang]: append, and [break] once there are enough. *)
Fixpoint gang_collect (gpuCount requiredMemory : Z) (shared : bool) (node : NodeInfo)
    (gpuPlacements : list GPUPlacement) (gpus : list GPU) : list GPUPlacement :=
  match gpus with
  | [] => gpuPlacements
  | gpu :: rest =>
      if negb (eligible shared requiredMemory gpu)
      then gang_collect gpuCount requiredMemory shared node gpuPlacements rest
      else
        let gpuPlacements' := (gpuPlacements ++ [placed_on node requiredMemory gpu])%list in
        if Z.of_nat (length gpuPlacements') >=? gpuCount then gpuPlacements'
        else gang_collect gpuCount requiredMemory shared node gpuPlacements' rest
  end.

(** The outer loop; a node with too few GPUs leaves the slice of the node before. *)
Fixpoint gang_nodes (gpuCount requiredMemory : Z) (shared : bool)
    (gpuPlacements : list GPUPlacement) (nodes : list NodeInfo) : list GPUPlacement :=
  match nodes with
  | [] => gpuPlacements
  | node :: rest =>
      if Z.of_nat (length (node_GPUs node)) <? gpuCount
      then gang_nodes gpuCount requiredMemory shared gpuPlacements rest
      else
        let gpuPlacements' := gang_collect gpuCount requiredMemory shared node [] (node_GPUs node) in
        if Z.of_nat (length gpuPlacements') >=? gpuCount then gpuPlacements'
        else gang_nodes gpuCount requiredMemory shared gpuPlacements' rest
  end.

Definition fifo_required (job : Job) (gpuCount : Z) (memoryMode : string) : result SchedError Z :=
  if String.eqb memoryMode MemoryTotal then Ok (share_of (job_MemoryMB job) gpuCount)
  else if String.eqb memoryMode MemoryPerGPU then Ok (job_MemoryMB job)
  else if String.eqb memoryMode MemoryNone then Ok 0
  else Err (EMemoryMode memoryMode).

Definition FIFO_ScheduleGang (job : option Job) (nodes : list NodeInfo) (gpuCount : Z)
    (memoryMode : string) : call SchedError GangSchedulingResult :=
  match job with
  | None => Done (Err ENilJob)
  | Some job =>
      match nodes with
      | [] => Done (Err ENoNodes)
      | _ =>
          if gpuCount <=? 0 then Done (Err (EGPUCount gpuCount)) else
          requiredMemory ←! Done (fifo_required job gpuCount memoryMode);
          let gpuPlacements := gang_nodes gpuCount requiredMemory (job_Shared job) [] nodes in
          if Z.of_nat (length gpuPlacements) <? gpuCount
          then Done (Err (ENoSingleNode gpuCount requiredMemory))
          else Done (Ok (mkGangSchedulingResult (job_ID job) gpuPlacements))
      end
  end.

#[export] Instance FIFOScheduler : SchedulingStrategy := {|
  Schedule := FIFO_Schedule;
  ScheduleGang := FIFO_ScheduleGang
|}.

(** ** Specification of the loops *)
Definition eligible_gpus (shared : bool) (req : Z) (node : NodeInfo) : list GPU :=
  List.filter (eligible shared req) (node_GPUs node).

(** The first node with [n] eligible GPUs. *)
Definition first_node (n req : Z) (shared : bool) (nodes : list NodeInfo) : option NodeInfo :=
  List.find (λ node, n <=? Z.of_nat (length (eligible_gpus shared req node))) nodes.

(** ** Lemmas *)
Lemma fifo_fits_eligible job gpu :
  fifo_fits job gpu = eligible (job_Shared job) (job_MemoryMB job) gpu.
Proof.
  unfold fifo_fits, eligible. rewrite Z.geb_leb.
  destruct (negb (gpu_IsHealthy gpu) || _); [done|].
  destruct ((gpu_TotalMemoryMB gpu >? 0) && _); [done|]. cbn.
  by rewrite Z.ltb_antisym, negb_involutive.
Qed.

Lemma fifo_first_some job nodes node gpu :
  fifo_first job nodes = Some (node, gpu) →
  ∃ ns1 ns2 gs1 gs2, nodes = (ns1 ++ node :: ns2)%list ∧ node_GPUs node = (gs1 ++ gpu :: gs2)%list ∧
    fifo_fits job gpu = true ∧ Forall (λ g, fifo_fits job g = false) gs1 ∧
    Forall (λ n, Forall (λ g, fifo_fits job g = false) (node_GPUs n)) ns1.
Proof.
  induction nodes as [|n nodes IH]; cbn; [done|].
  destruct (List.find (fifo_fits job) (node_GPUs n)) as [g|] eqn:E.
  - intros [= -> ->]. apply list_find_first in E as (gs1 & gs2 & ? & ? & ?).
    exists [], nodes, gs1, gs2. split_and!; done.
  - intros (ns1 & ns2 & gs1 & gs2 & -> & ? & ? & ? & ?)%IH. apply list_find_none in E.
    exists (n :: ns1), ns2, gs1, gs2. split_and!; try done. by constructor.
Qed.

Lemma fifo_first_none job nodes :
  fifo_first job nodes = None ↔
  Forall (λ n, Forall (λ g, fifo_fits job g = false) (node_GPUs n)) nodes.
Proof.
  induction nodes as [|n nodes IH]; cbn; [done|]. rewrite Forall_cons, <-IH, <-list_find_none.
  destruct (List.find (fifo_fits job) (node_GPUs n)); naive_solver.
Qed.

Lemma gang_collect_spec n req shared node acc gpus :
  Z.of_nat (length acc) < n →
  gang_collect n req shared node acc gpus =
  (acc ++ (placed_on node req <$>
     take (Z.to_nat n - length acc) (List.filter (eligible shared req) gpus)))%list.
Proof.
  revert acc. induction gpus as [|g gpus IH]; intros acc Hacc; cbn [gang_collect List.filter].
  { by rewrite take_nil, app_nil_r. }
  destruct (eligible shared req g); cbn [negb]; [|by apply IH].
  rewrite Z.geb_leb. rewrite length_app. cbn [length].
  destruct (Z.to_nat n - length acc)%nat as [|k] eqn:Ek; [lia|].
  destruct (Z.leb_spec n (Z.of_nat (length acc + 1))).
  - replace k with 0%nat by lia. done.
  - rewrite IH by (rewrite length_app; cbn; lia). rewrite length_app. cbn [length take].
    replace (Z.to_nat n - (length acc + 1))%nat with k by lia.
    by rewrite fmap_cons, <-(assoc app).
Qed.

Lemma gang_nodes_spec n req shared acc nodes :
  0 < n → Z.of_nat (length acc) < n →
  match first_node n req shared nodes with
  | Some node => gang_nodes n req shared acc nodes =
      placed_on node req <$> take (Z.to_nat n) (eligible_gpus shared req node)
  | None => Z.of_nat (length (gang_nodes n req shared acc nodes)) < n
  end.
Proof.
  intros Hn. revert acc. unfold first_node.
  induction nodes as [|node nodes IH]; intros acc Hacc; cbn [List.find gang_nodes]; [done|].
  pose proof (sublist_length _ _ (list_filter_sublist (eligible shared req) (node_GPUs node))) as Hs.
  unfold eligible_gpus at 1 2. destruct (Z.ltb_spec (Z.of_nat (length (node_GPUs node))) n).
  { rewrite (proj2 (Z.leb_gt _ _)) by lia. by apply IH. }
  rewrite gang_collect_spec by done. cbn [length app]. rewrite Nat.sub_0_r, Z.geb_leb.
  rewrite length_fmap, length_take.
  destruct (Z.leb_spec n (Z.of_nat (length (List.filter (eligible shared req) (node_GPUs node))))).
  - by rewrite (proj2 (Z.leb_le _ _)) by lia.
  - rewrite (proj2 (Z.leb_gt _ _)) by lia. apply IH. rewrite length_fmap, length_take. lia.
Qed.

Lemma first_node_spec n req shared nodes node :
  first_node n req shared nodes = Some node →
  node ∈ nodes ∧ n ≤ Z.of_nat (length (eligible_gpus shared req node)).
Proof.
  intros (l1 & l2 & -> & H%Z.leb_le & _)%list_find_first. split; [|done].
  apply elem_of_app. right. left.
Qed.

(** How [ScheduleGang] decides, once its arguments are accepted. *)
Lemma FIFO_gang_eq job nodes n req mode :
  nodes ≠ [] → 0 < n → fifo_required job n mode = Ok req →
  FIFO_ScheduleGang (Some job) nodes n mode = Done
    match first_node n req (job_Shared job) nodes with
    | Some node => Ok (mkGangSchedulingResult (job_ID job)
        (placed_on node req <$> take (Z.to_nat n) (eligible_gpus (job_Shared job) req node)))
    | None => Err (ENoSingleNode n req)
    end.
Proof.
  intros Hne Hn Hreq. unfold FIFO_ScheduleGang. destruct nodes as [|n0 nodes]; [done|].
  rewrite (proj2 (Z.leb_gt _ _)) by done. rewrite Hreq. unfold call_bind.
  pose proof (gang_nodes_spec n req (job_Shared job) [] (n0 :: nodes) Hn Hn) as H.
  destruct (first_node _ _ _ _) as [node|] eqn:E.
  - rewrite H. apply first_node_spec in E as [_ E].
    rewrite (proj2 (Z.ltb_ge _ _)); [done|]. rewrite length_fmap, length_take. lia.
  - by rewrite (proj2 (Z.ltb_lt _ _)).
Qed.

Lemma fifo_required_share job n mode req :
  fifo_required job n mode = Ok req → req = gang_share job n mode.
Proof. unfold fifo_required, gang_share. repeat case_match; congruence. Qed.

(** A gang answer is the first node's first [n] eligible GPUs. *)
Lemma FIFO_gang_ok job nodes n mode r :
  FIFO_ScheduleGang (Some job) nodes n mode = Done (Ok r) →
  0 < n ∧ ∃ node, first_node n (gang_share job n mode) (job_Shared job) nodes = Some node ∧
    r = mkGangSchedulingResult (job_ID job) (placed_on node (gang_share job n mode) <$>
          take (Z.to_nat n) (eligible_gpus (job_Shared job) (gang_share job n mode) node)).
Proof.
  intros Hr. assert (nodes ≠ [] ∧ 0 < n ∧ ∃ req, fifo_required job n mode = Ok req)
    as (Hne & Hn & req & Hreq).
  { revert Hr. unfold FIFO_ScheduleGang. destruct nodes; [done|].
    destruct (Z.leb_spec n 0); [done|]. unfold call_bind.
    destruct (fifo_required job n mode); [|done]. eauto. }
  rewrite (FIFO_gang_eq _ _ _ _ _ Hne Hn Hreq) in Hr.
  rewrite (fifo_required_share _ _ _ _ Hreq) in Hr.
  destruct (first_node _ _ _ _) as [node|] eqn:E; [|done]. injection Hr as <-. eauto.
Qed.

#[export] Instance FIFO_laws : StrategyLaws FIFOScheduler.
Proof.
  split; cbn [Schedule ScheduleGang FIFOScheduler].
  - intros job nodes. unfold FIFO_Schedule. repeat case_match; eauto.
  - intros job nodes r. unfold FIFO_Schedule. destruct nodes as [|n0 nodes]; [done|].
    destruct (fifo_first job _) as [[node gpu]|] eqn:E; [|done]. intros [= <-].
    apply fifo_first_some in E as (ns1 & ns2 & gs1 & gs2 & -> & Hg & Hf & _).
    exists node, gpu. rewrite <-fifo_fits_eligible, Hg. split_and!; try done; set_solver.
  - intros job nodes node gpu Hn Hg E. unfold FIFO_Schedule.
    destruct nodes as [|n0 nodes]; [by apply elem_of_nil in Hn|].
    destruct (fifo_first job _) as [[node' gpu']|] eqn:E'; [eauto|].
    apply fifo_first_none in E'. rewrite Forall_forall in E'. specialize (E' _ Hn).
    rewrite Forall_forall in E'. specialize (E' _ Hg). rewrite fifo_fits_eligible in E'. congruence.
  - intros job nodes n mode. unfold FIFO_ScheduleGang, call_bind. repeat case_match; eauto.
  - intros job nodes n mode r (Hn & node & Hnode & ->)%FIFO_gang_ok. split; [done|].
    apply first_node_spec in Hnode as [Hin Hlen].
    eexists node, _. split; [done|]. split; [|split; [|split; [|reflexivity]]].
    + etrans; [apply submseteq_take|]. apply sublist_submseteq, list_filter_sublist.
    + rewrite length_take. lia.
    + apply Forall_take, list_filter_Forall.
  - intros job nodes n mode node Hn Hmode Hnode Hlen.
    assert (fifo_required job n mode = Ok (gang_share job n mode)) as Hreq.
    { rewrite !elem_of_cons in Hmode. by destruct Hmode as [->|[->|[->|?%elem_of_nil]]]. }
    assert (nodes ≠ []) as Hne by (intros ->; by apply elem_of_nil in Hnode).
    rewrite (FIFO_gang_eq _ _ _ _ _ Hne Hn Hreq).
    destruct (first_node _ _ _ _) eqn:E; [eauto|].
    apply list_find_none in E. rewrite Forall_forall in E. specialize (E _ Hnode).
    apply Z.leb_gt in E. unfold eligible_gpus in E. lia.
Qed.

(** First fit. [FIFOScheduler.Schedule] answers with the first GPU, in node
    order and then GPU order, that can take the job: every GPU listed before it
    cannot.  It fails only when no GPU of the cluster can. *)
Theorem FIFO_first_fit job nodes :
  match FIFO_Schedule (Some job) nodes with
  | Done (Ok r) => ∃ ns1 node ns2 gs1 g gs2,
      nodes = (ns1 ++ node :: ns2)%list ∧ node_GPUs node = (gs1 ++ g :: gs2)%list ∧
      r = mkSchedulingResult (job_ID job) (node_Name node) [gpu_ID g] true false ∧
      eligible (job_Shared job) (job_MemoryMB job) g = true ∧
      Forall (λ g, eligible (job_Shared job) (job_MemoryMB job) g = false)
        ((ns1 ≫= node_GPUs) ++ gs1)%list
  | Done (Err _) =>
      Forall (λ g, eligible (job_Shared job) (job_MemoryMB job) g = false) (nodes ≫= node_GPUs)
  | Panicked => False
  end.
Proof.
  assert (∀ l, Forall (λ n, Forall (λ g, fifo_fits job g = false) (node_GPUs n)) l →
    Forall (λ g, eligible (job_Shared job) (job_MemoryMB job) g = false) (l ≫= node_GPUs)) as Hb.
  { intros l H. apply Forall_forall. intros g (n & Hg & Hn)%list_elem_of_bind.
    rewrite Forall_forall in H. specialize (H _ Hn). rewrite Forall_forall in H.
    rewrite <-fifo_fits_eligible. auto. }
  unfold FIFO_Schedule. destruct nodes as [|n0 nodes]; [constructor|].
  destruct (fifo_first job _) as [[node gpu]|] eqn:E.
  - apply fifo_first_some in E as (ns1 & ns2 & gs1 & gs2 & Hn & Hg & Hf & Hgs1 & Hns1).
    exists ns1, node, ns2, gs1, gpu, gs2. rewrite <-fifo_fits_eligible.
    split_and!; try done. apply Forall_app. split; [by apply Hb|].
    eapply Forall_impl; [exact Hgs1|]. intros. by rewrite <-fifo_fits_eligible.
  - apply fifo_first_none in E. by apply Hb.
Qed.

(** [FIFOScheduler.ScheduleGang] takes the first node with [n] eligible GPUs
    and its first [n] of them, whatever the earlier nodes left in the slice
    under construction, and fails only when no node has [n]. *)
Theorem FIFO_gang_first_node job nodes n mode :
  0 < n → nodes ≠ [] → mode ∈ [MemoryTotal; MemoryPerGPU; MemoryNone] →
  let req := gang_share job n mode in
  let enough node := (n <=? Z.of_nat (length (eligible_gpus (job_Shared job) req node))) in
  match FIFO_ScheduleGang (Some job) nodes n mode with
  | Done (Ok r) => ∃ ns1 node ns2, nodes = (ns1 ++ node :: ns2)%list ∧ enough node = true ∧
      Forall (λ node, enough node = false) ns1 ∧
      gsr_Placements r =
        placed_on node req <$> take (Z.to_nat n) (eligible_gpus (job_Shared job) req node)
  | Done (Err e) => e = ENoSingleNode n req ∧ Forall (λ node, enough node = false) nodes
  | Panicked => False
  end.
Proof.
  intros Hn Hne Hmode req enough.
  assert (fifo_required job n mode = Ok req) as Hreq.
  { rewrite !elem_of_cons in Hmode. by destruct Hmode as [->|[->|[->|?%elem_of_nil]]]. }
  rewrite (FIFO_gang_eq _ _ _ _ _ Hne Hn Hreq). unfold first_node. fold enough.
  destruct (List.find _ nodes) as [node|] eqn:E.
  - apply list_find_first in E as (ns1 & ns2 & ? & ? & ?). exists ns1, node, ns2. done.
  - split; [done|]. by apply list_find_none in E.
Qed.

Lemma FIFO_gang_first_node_witness :
  ∃ r ns1 node ns2, FIFO_ScheduleGang (Some sample_job) sample_nodes 2 MemoryPerGPU = Done (Ok r) ∧
    sample_nodes = (ns1 ++ node :: ns2)%list ∧ gp_GPUID <$> gsr_Placements r = ["GPU-a0"; "GPU-a1"].
Proof.
  pose proof (FIFO_gang_first_node sample_job sample_nodes 2 MemoryPerGPU
    ltac:(lia) ltac:(discriminate) ltac:(vm_compute; right; left)) as H.
  destruct (FIFO_ScheduleGang _ _ _ _) as [[r|e]|] eqn:E; [|vm_compute in E; discriminate..].
  destruct H as (ns1 & node & ns2 & En & _). exists r, ns1, node, ns2.
  split; [done|]. split; [exact En|]. vm_compute in E. by injection E as <-.
Defined.
