(* ===== verification/GangMultiPod.v ===== *)
(** * internal/allocator/gang_multi_pod.go: placing a gang of pods

    [ScheduleMultiPodGang] places the pods of a gang one by one with a
    [SchedulingStrategy] on a private copy of the cluster, charging each
    placement to the copy, and answers only when every pod has a place.  The
    theorems are proved against [StrategyLaws], so they hold of both
    strategies. *)

From Stdlib Require Import ZArith Lia.
From stdpp Require Import base option list strings gmap.
From S2P Require Import Prelude GoFloat GoStrings Types K8s Strategy Binpack Fifo.
Open Scope string_scope.
Open Scope Z_scope.
Open Scope go_scope.

Record PodPlacement : Type := mkPodPlacement {
  pp_Pod : Pod;
  pp_NodeName : string;
  pp_GPUIDs : list string;
  pp_MemoryMB : Z;
  pp_IsMIG : bool
}.

(** A slice of structs is copied by value; only the GPU slices are fresh. *)
Definition deepCopyNodes (nodes : list NodeInfo) : list NodeInfo :=
  (λ n, set_GPUs (node_GPUs n) n) <$> nodes.

Definition per_gpu (gpuIDs : list string) (memoryMB : Z) : Z :=
  if Z.of_nat (length gpuIDs) >? 1 then memoryMB ⊘ Z.of_nat (length gpuIDs) else memoryMB.

(** The innermost loop: once per identifier that names the GPU. *)
Definition charge_gpu (gpuIDs : list string) (perGPU : Z) (g : GPU) : GPU :=
  foldl (λ g id, if String.eqb (gpu_ID g) id
                 then set_AllocatedPods (gpu_AllocatedPods g ⊞ 1)
                        (set_UsedMemoryMB (gpu_UsedMemoryMB g ⊞ perGPU) g)
                 else g) g gpuIDs.

Definition subtractFromShadow (shadow : list NodeInfo) (nodeName : string) (gpuIDs : list string)
    (memoryMB : Z) : list NodeInfo :=
  (λ n, if String.eqb (node_Name n) nodeName
        then set_GPUs (charge_gpu gpuIDs (per_gpu gpuIDs memoryMB) <$> node_GPUs n) n
        else n) <$> shadow.

(** [fmt.Errorf("gang pod %s: %w", ...)] around a failed call. *)
Definition wrap_err {A} (pod : Pod) (c : call SchedError A) : call SchedError A :=
  match c with
  | Done (Err e) => Done (Err (EGangPod (pod_Name pod) e))
  | _ => c
  end.

Section placement.
Context (strategy : SchedulingStrategy).

(** One job on the shadow: the node and the GPUs chosen. *)
Definition place_one (pod : Pod) (job : Job) (shadow : list NodeInfo) :
    call SchedError (string * list string) :=
  let gpuCount := if job_GPUCount job <=? 0 then 1 else job_GPUCount job in
  if gpuCount >? 1 then
    result ←! wrap_err pod (ScheduleGang (Some job) shadow gpuCount MemoryPerGPU);
    match gsr_Placements result with
    | [] => Panicked
    | p0 :: _ => Done (Ok (gp_NodeName p0, gp_GPUID <$> gsr_Placements result))
    end
  else
    result ←! wrap_err pod (Schedule (Some job) shadow);
    Done (Ok (sr_NodeName result, sr_GPUIDs result)).

Fixpoint place_all (pods : list Pod) (jobs : list Job) (shadow : list NodeInfo)
    (placements : list PodPlacement) : call SchedError (list PodPlacement) :=
  match jobs, pods with
  | [], _ => Done (Ok placements)
  | _ :: _, [] => Panicked
  | job :: jobs', pod :: pods' =>
      placed ←! place_one pod job shadow;
      place_all pods' jobs' (subtractFromShadow shadow placed.1 placed.2 (job_MemoryMB job))
        (placements ++ [mkPodPlacement pod placed.1 placed.2 (job_MemoryMB job) false])%list
  end.

Definition ScheduleMultiPodGang (pods : list Pod) (nodes : list NodeInfo) (jobs : list Job) :
    call SchedError (list PodPlacement) :=
  if negb (length pods =? length jobs)%nat then Done (Err ELengthMismatch)
  else place_all pods jobs (deepCopyNodes nodes) [].
End placement.

(** ** Specification: what the placements cost each GPU

    A pod costs each of its GPUs an equal share of its memory: what
    [Watcher.bind_placement] then reserves there. *)
Definition reserved_share (p : PodPlacement) : Z := pp_MemoryMB p / Z.of_nat (length (pp_GPUIDs p)).

Definition placed_mem (ps : list PodPlacement) (nodeName gpuID : string) : Z :=
  zsum ((λ p, if String.eqb (pp_NodeName p) nodeName && bool_decide (gpuID ∈ pp_GPUIDs p)
              then reserved_share p else 0) <$> ps).

(** When [p] was placed, after [ps], each of its GPUs had room for the whole request. *)
Definition had_room (nodes : list NodeInfo) (ps : list PodPlacement) (p : PodPlacement) : Prop :=
  ∀ n g, n ∈ nodes → g ∈ node_GPUs n → node_Name n = pp_NodeName p → gpu_ID g ∈ pp_GPUIDs p →
    gpu_UsedMemoryMB g + placed_mem ps (node_Name n) (gpu_ID g) + pp_MemoryMB p ≤ gpu_TotalMemoryMB g.

Definition gpu_sane (g : GPU) : Prop :=
  0 ≤ gpu_UsedMemoryMB g ≤ gpu_TotalMemoryMB g ∧ gpu_TotalMemoryMB g ≤ int_max.

(** Node names and, within a node, GPU identifiers name one thing. *)
Definition cluster_wf (nodes : list NodeInfo) : Prop :=
  NoDup (node_Name <$> nodes) ∧
  Forall (λ n, NoDup (gpu_ID <$> node_GPUs n) ∧ Forall gpu_sane (node_GPUs n)) nodes.

(** The shadow is the cluster with the placements charged to it. *)
Definition gpu_charged (ps : list PodPlacement) (nodeName : string) (g g' : GPU) : Prop :=
  gpu_ID g' = gpu_ID g ∧ gpu_TotalMemoryMB g' = gpu_TotalMemoryMB g ∧
  gpu_UsedMemoryMB g' = gpu_UsedMemoryMB g + placed_mem ps nodeName (gpu_ID g) ∧ gpu_sane g'.

Definition node_charged (ps : list PodPlacement) (n n' : NodeInfo) : Prop :=
  node_Name n' = node_Name n ∧ NoDup (gpu_ID <$> node_GPUs n') ∧
  Forall2 (gpu_charged ps (node_Name n)) (node_GPUs n) (node_GPUs n').

(** Whatever the memory figures: the placements are on nodes and GPUs that exist. *)
Definition node_ids_of (nodes : list NodeInfo) : list (string * list string) :=
  (λ n, (node_Name n, gpu_ID <$> node_GPUs n)) <$> nodes.

Definition gang_pod (name : string) : Pod := sample_pod "default" name [].

(** ** Lemmas *)
Lemma deepCopyNodes_id nodes : deepCopyNodes nodes = nodes.
Proof. unfold deepCopyNodes. induction nodes as [|[] nodes IH]; cbn; [done|]. by f_equal. Qed.

Lemma charge_gpu_fields ids m g :
  gpu_ID (charge_gpu ids m g) = gpu_ID g ∧
  gpu_TotalMemoryMB (charge_gpu ids m g) = gpu_TotalMemoryMB g.
Proof.
  unfold charge_gpu. revert g. induction ids as [|id ids IH]; intros g; cbn; [done|].
  destruct (IH (if String.eqb (gpu_ID g) id then set_AllocatedPods (gpu_AllocatedPods g ⊞ 1)
    (set_UsedMemoryMB (gpu_UsedMemoryMB g ⊞ m) g) else g)) as [-> ->].
  by case_match.
Qed.

Lemma charge_gpu_used ids m g :
  NoDup ids →
  gpu_UsedMemoryMB (charge_gpu ids m g) =
  if bool_decide (gpu_ID g ∈ ids) then gpu_UsedMemoryMB g ⊞ m else gpu_UsedMemoryMB g.
Proof.
  unfold charge_gpu. intros Hnd. revert g. induction Hnd as [|id ids Hid Hnd IH]; intros g; cbn; [done|].
  rewrite IH. destruct (String.eqb_spec (gpu_ID g) id) as [E|E]; cbn.
  - subst id. rewrite bool_decide_false by done. rewrite bool_decide_true by left. done.
  - destruct (decide (gpu_ID g ∈ ids)).
    + by rewrite !bool_decide_true by (done || by right).
    + rewrite !bool_decide_false; [done| |done]. by intros [?|?]%elem_of_cons.
Qed.

Lemma placed_mem_snoc ps p n g :
  placed_mem (ps ++ [p]) n g = placed_mem ps n g +
    (if String.eqb (pp_NodeName p) n && bool_decide (g ∈ pp_GPUIDs p)
     then reserved_share p else 0).
Proof. unfold placed_mem. rewrite fmap_app, zsum_app. cbn. lia. Qed.

Lemma per_gpu_share p :
  0 ≤ pp_MemoryMB p ≤ int_max → pp_GPUIDs p ≠ [] →
  per_gpu (pp_GPUIDs p) (pp_MemoryMB p) = reserved_share p ∧ 0 ≤ reserved_share p ≤ pp_MemoryMB p.
Proof.
  intros Hm Hne. unfold per_gpu, reserved_share. set (k := Z.of_nat (length (pp_GPUIDs p))).
  assert (1 ≤ k) by (destruct (pp_GPUIDs p); [done|cbn in k; lia]).
  assert (0 ≤ pp_MemoryMB p / k ≤ pp_MemoryMB p) as Hb.
  { split; [apply Z.div_pos; lia|]. apply Z.div_le_upper_bound; nia. }
  split; [|done]. rewrite Z.gtb_ltb. destruct (Z.ltb_spec 1 k).
  - rewrite Z.quot_div_nonneg by lia. int_solve.
  - assert (k = 1) as -> by lia. by rewrite Z.div_1_r.
Qed.

Lemma available_sane g :
  gpu_sane g → AvailableMemoryMB g = gpu_TotalMemoryMB g - gpu_UsedMemoryMB g.
Proof. intros [? ?]. unfold AvailableMemoryMB. int_solve. Qed.

Lemma charge_gpu_charged ps p n g g' :
  gpu_charged ps n g g' → pp_NodeName p = n → 0 ≤ pp_MemoryMB p ≤ int_max →
  NoDup (pp_GPUIDs p) →
  (gpu_ID g' ∈ pp_GPUIDs p → pp_MemoryMB p ≤ AvailableMemoryMB g') →
  gpu_charged (ps ++ [p]) n g
    (charge_gpu (pp_GPUIDs p) (per_gpu (pp_GPUIDs p) (pp_MemoryMB p)) g').
Proof.
  intros (Ei & Et & Eu & Hs) En Hmem Hids Hav.
  set (k := per_gpu (pp_GPUIDs p) (pp_MemoryMB p)) in *.
  destruct (charge_gpu_fields (pp_GPUIDs p) k g') as [Fi Ft].
  pose proof (charge_gpu_used _ k g' Hids) as Fu.
  rewrite (available_sane _ Hs) in Hav.
  unfold gpu_charged, gpu_sane in *. rewrite Fi, Ft, Fu, placed_mem_snoc.
  rewrite (proj2 (String.eqb_eq _ _) En), <-Ei. rewrite <-Ei in Eu. cbn [andb].
  destruct (bool_decide_reflect (gpu_ID g' ∈ pp_GPUIDs p)) as [Hin|Hin]; [|split_and!; lia || done].
  specialize (Hav Hin). destruct (per_gpu_share p Hmem) as [Ek Hper]; [by intros En'; rewrite En' in Hin; apply elem_of_nil in Hin|].
  fold k in Ek. rewrite <-Ek in *. rewrite wrap64_id by (unfold in_int, int_min, int_max in *; lia).
  split_and!; lia || done.
Qed.

Lemma uncharged_gpu ps p n g g' :
  gpu_charged ps n g g' → pp_NodeName p ≠ n → gpu_charged (ps ++ [p]) n g g'.
Proof.
  intros (Ei & Et & Eu & Hs) Hn. unfold gpu_charged. rewrite placed_mem_snoc.
  rewrite (proj2 (String.eqb_neq _ _) Hn). cbn. split_and!; [done..|lia|done].
Qed.

(** Charging a placement whose GPUs are eligible for what it costs. *)
Lemma charge_step ps nodes shadow p node :
  Forall2 (node_charged ps) nodes shadow → NoDup (node_Name <$> nodes) →
  node ∈ shadow → node_Name node = pp_NodeName p →
  0 ≤ pp_MemoryMB p ≤ int_max → NoDup (pp_GPUIDs p) →
  (∀ g, g ∈ node_GPUs node → gpu_ID g ∈ pp_GPUIDs p → pp_MemoryMB p ≤ AvailableMemoryMB g) →
  Forall2 (node_charged (ps ++ [p])) nodes
    (subtractFromShadow shadow (pp_NodeName p) (pp_GPUIDs p) (pp_MemoryMB p)).
Proof.
  intros Hch Hnd Hnode Hname Hmem Hids Havail.
  assert (∀ n n', node_charged ps n n' → (node_Name n' = pp_NodeName p → n' = node) →
    node_charged (ps ++ [p]) n
      (if String.eqb (node_Name n') (pp_NodeName p)
       then set_GPUs (charge_gpu (pp_GPUIDs p) (per_gpu (pp_GPUIDs p) (pp_MemoryMB p)) <$> node_GPUs n') n'
       else n')) as Hone.
  { intros n n' (En & Hnd' & Hg) Heq. destruct (String.eqb_spec (node_Name n') (pp_NodeName p)) as [E|E].
    - specialize (Heq E) as ->. split; [done|]. cbn. split.
      { rewrite <-list_fmap_compose. erewrite list_fmap_ext; [exact Hnd'|].
        intros; cbn. apply charge_gpu_fields. }
      rewrite Forall2_fmap_r. apply Forall2_same_length_lookup.
      rewrite Forall2_same_length_lookup in Hg. destruct Hg as [Hlen Hg]. split; [done|].
      intros i g g' H1 H2. apply charge_gpu_charged; try done; [by eapply Hg|congruence|].
      apply Havail. by eapply list_elem_of_lookup_2.
    - split; [done|]. split; [done|]. eapply Forall2_impl; [exact Hg|].
      intros g g' Hgg. apply uncharged_gpu; [done|]. congruence. }
  unfold subtractFromShadow. rewrite Forall2_fmap_r.
  apply Forall2_same_length_lookup. rewrite Forall2_same_length_lookup in Hch.
  destruct Hch as [Hlen Hch]. split; [done|]. intros i n n' H1 H2. apply Hone; [eauto|].
  intros E. apply list_elem_of_lookup in Hnode as [j Hj].
  destruct (lookup_lt_is_Some_2 nodes j) as [m Hm].
  { rewrite Hlen. by eapply lookup_lt_Some. }
  assert (i = j) as ->; [|congruence].
  eapply (NoDup_lookup _ i j (node_Name n) Hnd); rewrite list_lookup_fmap.
  - by rewrite H1.
  - rewrite Hm. cbn. f_equal. destruct (Hch _ _ _ H1 H2) as [? _], (Hch _ _ _ Hm Hj) as [? _]. congruence.
Qed.

(** A placement of one job: [gpuCount] GPUs of one node, all eligible. *)
Section place_one.
Context (strategy : SchedulingStrategy) `{!StrategyLaws strategy}.

Lemma wrap_err_ok {A} pod (c : call SchedError A) a :
  wrap_err pod c = Done (Ok a) ↔ c = Done (Ok a).
Proof. destruct c as [[]|]; cbn; split; congruence. Qed.

Lemma place_one_sound pod job shadow placed :
  place_one strategy pod job shadow = Done (Ok placed) →
  ∃ node gpus, node ∈ shadow ∧ gpus ⊆+ node_GPUs node ∧ placed = (node_Name node, gpu_ID <$> gpus) ∧
    Z.of_nat (length gpus) = Z.max 1 (job_GPUCount job) ∧
    Forall (λ g, eligible (job_Shared job) (job_MemoryMB job) g = true) gpus.
Proof.
  unfold place_one. rewrite Z.gtb_ltb.
  set (n := if job_GPUCount job <=? 0 then 1 else job_GPUCount job).
  assert (n = Z.max 1 (job_GPUCount job)) as Hn.
  { unfold n. destruct (Z.leb_spec (job_GPUCount job) 0); lia. }
  rewrite <-Hn. destruct (Z.ltb_spec 1 n).
  - intros (r & Hr%wrap_err_ok & Hp)%call_bind_ok.
    apply gang_sound in Hr as (_ & node & gpus & Hnode & Hsub & Hlen & Hel & ->). cbn in Hp.
    destruct gpus as [|g gpus]; [cbn in Hlen; lia|]. injection Hp as <-.
    exists node, (g :: gpus). split_and!; try done. cbn. by rewrite <-list_fmap_compose.
  - intros (r & Hr%wrap_err_ok & [= <-])%call_bind_ok.
    apply schedule_sound in Hr as (node & gpu & Hnode & Hg & Hel & ->).
    exists node, [gpu]. split_and!; try done; [|cbn; lia|by repeat constructor].
    by apply singleton_submseteq_l.
Qed.

Lemma place_one_total pod job shadow : ∃ res, place_one strategy pod job shadow = Done res.
Proof.
  unfold place_one. set (n := if job_GPUCount job <=? 0 then 1 else job_GPUCount job).
  destruct (Z.gtb_spec n 1); apply call_bind_done.
  - destruct (gang_total job shadow n MemoryPerGPU) as [[]  ->]; cbn; eauto.
  - intros r Hr%wrap_err_ok. apply gang_sound in Hr as (_ & node & gpus & _ & _ & Hlen & _ & ->).
    destruct gpus as [|g gpus]; [cbn in Hlen; lia|]. cbn. eauto.
  - destruct (schedule_total job shadow) as [[] ->]; cbn; eauto.
  - eauto.
Qed.

Lemma place_all_total pods jobs shadow ps :
  length pods = length jobs → ∃ res, place_all strategy pods jobs shadow ps = Done res.
Proof.
  revert pods shadow ps. induction jobs as [|job jobs IH]; intros [|pod pods] shadow ps Hlen;
    cbn in *; try lia; [eauto|].
  apply (call_bind_done (place_one strategy pod job shadow)); [apply place_one_total|]. eauto.
Qed.

Lemma subtractFromShadow_ids shadow n ids mem :
  node_ids_of (subtractFromShadow shadow n ids mem) = node_ids_of shadow.
Proof.
  unfold node_ids_of, subtractFromShadow. rewrite <-list_fmap_compose. apply list_fmap_ext.
  intros i node _. cbn. destruct (String.eqb _ n); [|done]. cbn. f_equal.
  rewrite <-list_fmap_compose. apply list_fmap_ext. intros j g _. apply charge_gpu_fields.
Qed.

Lemma place_all_sound nodes pods jobs shadow ps0 ps :
  length pods = length jobs → node_ids_of shadow = node_ids_of nodes →
  place_all strategy pods jobs shadow ps0 = Done (Ok ps) →
  ∃ new, ps = (ps0 ++ new)%list ∧ pp_Pod <$> new = pods ∧
    Forall2 (λ j p, pp_MemoryMB p = job_MemoryMB j ∧
      Z.of_nat (length (pp_GPUIDs p)) = Z.max 1 (job_GPUCount j) ∧
      ∃ node, node ∈ nodes ∧ pp_NodeName p = node_Name node ∧
        pp_GPUIDs p ⊆+ gpu_ID <$> node_GPUs node) jobs new.
Proof.
  revert pods shadow ps0. induction jobs as [|job jobs IH]; intros [|pod pods] shadow ps0 Hlen Hids; try done.
  { intros [= <-]. exists []. by rewrite app_nil_r. }
  intros (placed & Hp & Hrest)%call_bind_ok.
  apply place_one_sound in Hp as (node & gpus & Hnode & Hsub & -> & Hcount & _). cbn [fst snd] in Hrest.
  apply (IH pods) in Hrest as (new & -> & Hpods & Hnew);
    [|cbn in Hlen; lia|by rewrite subtractFromShadow_ids].
  eexists (_ :: new). rewrite <-(assoc app). split; [done|]. split; [cbn; by f_equal|].
  constructor; [|done]. cbn. rewrite length_fmap. split; [done|]. split; [done|].
  assert ((node_Name node, gpu_ID <$> node_GPUs node) ∈ node_ids_of nodes) as Hin.
  { rewrite <-Hids. by apply (list_elem_of_fmap_2 (λ n, (node_Name n, gpu_ID <$> node_GPUs n))). }
  apply list_elem_of_fmap in Hin as (n & [= En Eg] & Hn). exists n. split; [done|].
  split; [done|]. rewrite <-Eg. by apply fmap_submseteq.
Qed.

Lemma same_gpu (gs : list GPU) g1 g2 :
  NoDup (gpu_ID <$> gs) → g1 ∈ gs → g2 ∈ gs → gpu_ID g1 = gpu_ID g2 → g1 = g2.
Proof.
  intros Hnd [i Hi]%list_elem_of_lookup [k Hk]%list_elem_of_lookup E. assert (i = k) as ->; [|congruence].
  eapply (NoDup_lookup _ i k (gpu_ID g1) Hnd); rewrite list_lookup_fmap, ?Hi, ?Hk; cbn; congruence.
Qed.

Lemma same_node (nodes : list NodeInfo) n1 n2 :
  NoDup (node_Name <$> nodes) → n1 ∈ nodes → n2 ∈ nodes → node_Name n1 = node_Name n2 → n1 = n2.
Proof.
  intros Hnd [i Hi]%list_elem_of_lookup [k Hk]%list_elem_of_lookup E. assert (i = k) as ->; [|congruence].
  eapply (NoDup_lookup _ i k (node_Name n1) Hnd); rewrite list_lookup_fmap, ?Hi, ?Hk; cbn; congruence.
Qed.

(** The GPUs of a job had room, on the shadow and so in the cluster. *)
Lemma placed_had_room nodes ps n node (gpus : list GPU) shared p :
  NoDup (node_Name <$> nodes) → n ∈ nodes → node_charged ps n node → gpus ⊆+ node_GPUs node →
  Forall (λ g, eligible shared (pp_MemoryMB p) g = true) gpus →
  pp_NodeName p = node_Name node → pp_GPUIDs p = gpu_ID <$> gpus → had_room nodes ps p.
Proof.
  intros Hnd Hn (En & Hids & Hgs) Hsub Hel Ename Eids n1 g Hn1 Hg E1 Hin.
  rewrite (same_node nodes n1 n Hnd Hn1 Hn ltac:(congruence)) in *.
  apply list_elem_of_lookup in Hg as [i Hi]. destruct (Forall2_lookup_l _ _ _ _ _ Hgs Hi) as (g' & Hi' & Ei & Et & Eu & Hs).
  rewrite Eids in Hin. apply list_elem_of_fmap in Hin as (g2 & E2 & Hg2).
  assert (g2 = g') as ->.
  { apply (same_gpu (node_GPUs node)); [done|by eapply elem_of_submseteq|by eapply list_elem_of_lookup_2|congruence]. }
  rewrite Forall_forall in Hel. pose proof (eligible_memory _ _ _ (Hel _ Hg2)) as Hav.
  rewrite (available_sane _ Hs), Et, Eu in Hav. lia.
Qed.

(** What the loop maintains. *)
Lemma place_all_inv nodes pods jobs shadow ps0 ps :
  cluster_wf nodes → Forall (λ j, 0 ≤ job_MemoryMB j ≤ int_max) jobs →
  length pods = length jobs → Forall2 (node_charged ps0) nodes shadow →
  place_all strategy pods jobs shadow ps0 = Done (Ok ps) →
  ∃ shadow' new, ps = (ps0 ++ new)%list ∧ Forall2 (node_charged ps) nodes shadow' ∧
    pp_Pod <$> new = pods ∧
    Forall2 (λ j p, pp_MemoryMB p = job_MemoryMB j ∧ NoDup (pp_GPUIDs p) ∧
      Z.of_nat (length (pp_GPUIDs p)) = Z.max 1 (job_GPUCount j) ∧
      pp_NodeName p ∈ node_Name <$> nodes) jobs new ∧
    ∀ l1 p l2, new = (l1 ++ p :: l2)%list → had_room nodes (ps0 ++ l1)%list p.
Proof.
  intros [Hnd Hwf]. revert pods shadow ps0.
  induction jobs as [|job jobs IH]; intros [|pod pods] shadow ps0 Hmem Hlen Hch; try done.
  { intros [= <-]. exists shadow, []. rewrite app_nil_r. split_and!; try done. by intros []. }
  apply Forall_cons in Hmem as [Hj Hmem]. intros (placed & Hp & Hrest)%call_bind_ok.
  apply place_one_sound in Hp as (node & gpus & Hnode & Hsub & -> & Hcount & Hel). cbn [fst snd] in Hrest.
  set (p := mkPodPlacement pod (node_Name node) (gpu_ID <$> gpus) (job_MemoryMB job) false) in *.
  assert (∃ n, n ∈ nodes ∧ node_charged ps0 n node) as (n & Hn & Hcn).
  { apply list_elem_of_lookup in Hnode as [i Hi].
    destruct (Forall2_lookup_r _ _ _ _ _ Hch Hi) as (n & ? & ?). exists n.
    split; [by eapply list_elem_of_lookup_2|done]. }
  pose proof (placed_had_room nodes ps0 n node gpus (job_Shared job) p Hnd Hn Hcn Hsub Hel eq_refl eq_refl) as Hfit.
  destruct Hcn as (En & Hids & Hgs).
  assert (NoDup (gpu_ID <$> gpus)) as Hnodup.
  { apply (NoDup_sub _ (gpu_ID <$> node_GPUs node)); [|done]. by apply fmap_submseteq. }
  apply (IH pods _ (ps0 ++ [p])%list) in Hrest as (shadow' & new & -> & Hch' & Hpods & Hnew & Hroom); try done.
  - exists shadow', (p :: new). rewrite <-(assoc app) in *. split_and!; try done.
    + cbn. by f_equal.
    + constructor; [|done]. cbn. rewrite length_fmap. split_and!; try done.
      rewrite En. by apply list_elem_of_fmap_2.
    + intros [|q l1] p1 l2 [= <- El]; [by rewrite app_nil_r|]. specialize (Hroom l1 p1 l2 El).
      by rewrite <-(assoc app) in Hroom.
  - cbn in Hlen. lia.
  - apply (charge_step ps0 nodes shadow p node); try done. cbn.
    intros g Hg Hid. apply list_elem_of_fmap in Hid as (g2 & Hid & Hg2).
    rewrite (same_gpu (node_GPUs node) g g2 Hids Hg ltac:(by eapply elem_of_submseteq) ltac:(done)).
    rewrite Forall_forall in Hel. by apply (eligible_memory (job_Shared job)), Hel.
Qed.

(** C8: a gang placement is all or nothing and respects the memory of the GPUs.
    For any strategy that keeps its contract, [ScheduleMultiPodGang] never panics
    on as many jobs as pods, and when it answers, it answers for every pod, in
    order, with the requested number of distinct GPUs on one node of the cluster.
    Whatever the gang: on every GPU the equal shares that the placements will
    reserve there fit in the memory the GPU had left; and when a pod was placed,
    after the shares of the pods before it, each of its GPUs still had room for
    its whole request.  The share of a pod on one GPU is its whole request, that of
    a pod on several GPUs is not ([multi_gpu_gang_undercharges]). *)
Theorem gang_never_overcommits nodes pods jobs :
  cluster_wf nodes → Forall (λ j, 0 ≤ job_MemoryMB j ≤ int_max) jobs → length pods = length jobs →
  ∃ res, ScheduleMultiPodGang strategy pods nodes jobs = Done res ∧
  ∀ ps, res = Ok ps →
    pp_Pod <$> ps = pods ∧
    Forall2 (λ j p, pp_MemoryMB p = job_MemoryMB j ∧ NoDup (pp_GPUIDs p) ∧
      Z.of_nat (length (pp_GPUIDs p)) = Z.max 1 (job_GPUCount j) ∧
      pp_NodeName p ∈ node_Name <$> nodes) jobs ps ∧
    (∀ n g, n ∈ nodes → g ∈ node_GPUs n →
      gpu_UsedMemoryMB g + placed_mem ps (node_Name n) (gpu_ID g) ≤ gpu_TotalMemoryMB g) ∧
    ∀ l1 p l2, ps = (l1 ++ p :: l2)%list → had_room nodes l1 p.
Proof.
  intros Hwf Hmem Hlen. unfold ScheduleMultiPodGang.
  rewrite (proj2 (Nat.eqb_eq _ _) Hlen). cbn [negb]. rewrite deepCopyNodes_id.
  destruct (place_all_total pods jobs nodes [] Hlen) as [res Hres]. exists res. split; [done|].
  intros ps ->. destruct (place_all_inv nodes pods jobs nodes [] ps) as (shadow' & new & -> & Hch & Hp & Hnew & Hroom);
    try done.
  - apply Forall_Forall2_diag, Forall_forall. destruct Hwf as [_ Hwf]. intros n Hn. rewrite Forall_forall in Hwf.
    destruct (Hwf _ Hn) as [? Hs]. split_and!; try done. apply Forall_Forall2_diag, Forall_forall. intros g Hg.
    rewrite Forall_forall in Hs. split_and!; try done; try apply Hs; try done. cbn. lia.
  - split_and!; try done. intros n g Hn Hg.
    apply list_elem_of_lookup in Hn as [i Hi], Hg as [j Hj].
    destruct (Forall2_lookup_l _ _ _ _ _ Hch Hi) as (n' & _ & _ & _ & Hgs).
    destruct (Forall2_lookup_l _ _ _ _ _ Hgs Hj) as (g' & _ & _ & Ht & Hu & Hs & _).
    cbn [app] in *. lia.
Qed.
End place_one.

(** ** Examples *)
Lemma sample_cluster_wf : cluster_wf sample_nodes.
Proof.
  split; [by apply (bool_decide_unpack _)|].
  repeat apply Forall_cons_2; try apply Forall_nil_2;
    (split; [by apply (bool_decide_unpack _)|]);
    repeat apply Forall_cons_2; try apply Forall_nil_2; vm_compute; split_and!; discriminate.
Qed.

Lemma gang_never_overcommits_witness :
  ∃ ps, ScheduleMultiPodGang BinPacker [gang_pod "w0"; gang_pod "w1"] sample_nodes [sample_job; sample_job]
      = Done (Ok ps) ∧ pp_Pod <$> ps = [gang_pod "w0"; gang_pod "w1"] ∧
    (λ p, (pp_NodeName p, pp_GPUIDs p)) <$> ps = [("node-b", ["GPU-b1"]); ("node-a", ["GPU-a1"])].
Proof.
  destruct (gang_never_overcommits BinPacker sample_nodes [gang_pod "w0"; gang_pod "w1"]
    [sample_job; sample_job] sample_cluster_wf
    ltac:(repeat constructor; vm_compute; discriminate) eq_refl) as (res & E & H).
  destruct res as [ps|e]; [|vm_compute in E; discriminate].
  exists ps. split; [exact E|]. split; [apply (H ps eq_refl)|].
  vm_compute in E. by injection E as <-.
Defined.

(** Two pods that ask for 10000 MB on each of two GPUs are both placed on the
    same pair of 16000 MB GPUs: only half of the first request is charged. *)
Lemma multi_gpu_gang_undercharges :
  let job := mkJob "job-2" "infer" "default" 2 10000 "inference" true in
  let nodes := [sample_node "node-b" [sample_gpu "GPU-b0" "node-b" 16000 0 0;
                                      sample_gpu "GPU-b1" "node-b" 16000 0 0]] in
  ∃ p1 p2, ScheduleMultiPodGang BinPacker [gang_pod "w0"; gang_pod "w1"] nodes [job; job]
      = Done (Ok [p1; p2]) ∧
    pp_GPUIDs p1 ≡ₚ pp_GPUIDs p2 ∧ pp_MemoryMB p1 + pp_MemoryMB p2 > 16000.
Proof. eexists _, _. split; [vm_compute; reflexivity|]. split; [done|]. vm_compute. done. Qed.
