(* ===== verification/Routing.v ===== *)
(** * internal/allocator/routing.go: which pool a pod may use, and best fit in a pool *)

From Stdlib Require Import ZArith Lia String.
From stdpp Require Import base option list strings gmap.
From S2P Require Import Prelude GoFloat GoStrings Types K8s Registry.
Open Scope string_scope.
Open Scope Z_scope.
Open Scope go_scope.

Inductive PoolPreference : Type := PoolMIG | PoolFull | PoolAuto.

#[export] Instance PoolPreference_eq_dec : EqDecision PoolPreference.
Proof. solve_decision. Defined.

Definition pool_string (p : PoolPreference) : string :=
  match p with PoolMIG => "mig" | PoolFull => "full" | PoolAuto => "auto" end.

Definition LabelPool : string := "gpu-scheduler.io/pool".
Definition LabelAllowFallback : string := "gpu-scheduler.io/allow-fallback".

Record JobClassification : Type := mkJobClassification {
  jc_Pool : PoolPreference;
  jc_MemoryRequestMB : Z;
  jc_StrictMode : bool
}.

Definition extractGPUMemoryRequest (pod : Pod) : Z :=
  match annotation pod "gpu-scheduler.io/memory-mb" with
  | Some memStr => match atoi memStr with Some mem => mem | None => 0 end
  | None => 0
  end.

(** The two label checks, in order: the pool label sets strict mode, a true
    fallback label clears it. *)
Definition ClassifyJob (pod : option Pod) : JobClassification :=
  match pod with
  | None => mkJobClassification PoolAuto 0 false
  | Some pod =>
      let '(pool, strict) :=
        match pod_Labels pod !! LabelPool with
        | Some poolLabel =>
            if String.eqb poolLabel (pool_string PoolMIG) then (PoolMIG, true)
            else if String.eqb poolLabel (pool_string PoolFull) then (PoolFull, true)
            else (PoolAuto, false)
        | None => (PoolAuto, false)
        end in
      let strict' :=
        match pod_Labels pod !! LabelAllowFallback with
        | Some fallbackLabel =>
            match parse_bool fallbackLabel with Some true => false | _ => strict end
        | None => strict
        end in
      mkJobClassification pool (extractGPUMemoryRequest pod) strict'
  end.

Definition mig_less (preferShared : bool) (a b : MIGCandidate) : bool :=
  if mc_MemoryMB a =? mc_MemoryMB b then
    if preferShared then mc_PodCount a >? mc_PodCount b else mc_PodCount a <? mc_PodCount b
  else mc_MemoryMB a <? mc_MemoryMB b.

Definition full_less (preferShared : bool) (a b : GPUCandidate) : bool :=
  if gc_FreeMemoryMB a =? gc_FreeMemoryMB b then
    if preferShared then gc_PodCount a >? gc_PodCount b else gc_PodCount a <? gc_PodCount b
  else gc_FreeMemoryMB a <? gc_FreeMemoryMB b.

Section select.
Context `{GoSort}.

Definition SelectBestMIG (candidates : list MIGCandidate) (preferShared : bool) :
    option MIGCandidate :=
  if (length candidates =? 0)%nat then None
  else head (sort_slice (mig_less preferShared) candidates).

Definition SelectBestFullGPU (candidates : list GPUCandidate) (preferShared : bool) :
    option GPUCandidate :=
  if (length candidates =? 0)%nat then None
  else head (sort_slice (full_less preferShared) candidates).
End select.

(** [a] is at least as good a fit as [b]: less memory, then the preferred pod count. *)
Definition fit_le (preferShared : bool) (mem_a mem_b pods_a pods_b : Z) : Prop :=
  mem_a < mem_b ∨ mem_a = mem_b ∧ (if preferShared then pods_b ≤ pods_a else pods_a ≤ pods_b).

(** ** Lemmas *)
#[export] Instance mig_less_weak s : WeakLess (mig_less s).
Proof.
  apply (weak_less_lex mc_MemoryMB
    (λ a b, if s then mc_PodCount a >? mc_PodCount b else mc_PodCount a <? mc_PodCount b)).
  destruct s.
  - split; intros; bool_hyps; rewrite Z.gtb_ltb; apply Z.ltb_ge; lia.
  - apply weak_less_key.
Qed.

#[export] Instance full_less_weak s : WeakLess (full_less s).
Proof.
  apply (weak_less_lex gc_FreeMemoryMB
    (λ a b, if s then gc_PodCount a >? gc_PodCount b else gc_PodCount a <? gc_PodCount b)).
  destruct s.
  - split; intros; bool_hyps; rewrite Z.gtb_ltb; apply Z.ltb_ge; lia.
  - apply weak_less_key.
Qed.

Lemma mig_less_false s a b :
  mig_less s b a = false → fit_le s (mc_MemoryMB a) (mc_MemoryMB b) (mc_PodCount a) (mc_PodCount b).
Proof.
  unfold mig_less, fit_le. destruct (Z.eqb_spec (mc_MemoryMB b) (mc_MemoryMB a)), s;
    intros; bool_hyps; lia.
Qed.

Lemma full_less_false s a b :
  full_less s b a = false →
  fit_le s (gc_FreeMemoryMB a) (gc_FreeMemoryMB b) (gc_PodCount a) (gc_PodCount b).
Proof.
  unfold full_less, fit_le. destruct (Z.eqb_spec (gc_FreeMemoryMB b) (gc_FreeMemoryMB a)), s;
    intros; bool_hyps; lia.
Qed.

Section select_spec.
Context `{GoSort} {A : Type} (less : A → A → bool) `{!WeakLess less}.

(** The head of a non-empty sorted slice exists, is an element and is minimal. *)
Lemma head_sort_slice (l : list A) :
  l ≠ [] → ∃ x, head (sort_slice less l) = Some x ∧ x ∈ l ∧ ∀ y, y ∈ l → less y x = false.
Proof.
  intros Hl. destruct (sort_slice less l) as [|x l'] eqn:E.
  - exfalso. apply Hl, Permutation_nil_r. by rewrite <-(sort_slice_perm less l), E.
  - exists x. split; [done|]. split.
    + rewrite <-(sort_slice_elem less l), E. left.
    + intros y Hy. by eapply sort_slice_head.
Qed.
End select_spec.

Lemma SelectBestMIG_spec `{GoSort} l s :
  l ≠ [] → ∃ c, SelectBestMIG l s = Some c ∧ c ∈ l ∧ ∀ c', c' ∈ l →
    fit_le s (mc_MemoryMB c) (mc_MemoryMB c') (mc_PodCount c) (mc_PodCount c').
Proof.
  intros Hl. destruct (head_sort_slice (mig_less s) l Hl) as (c & Hc & Hin & Hmin).
  exists c. unfold SelectBestMIG. destruct l; [done|]. split_and!; [done|done|].
  intros c' Hc'. by apply mig_less_false, Hmin.
Qed.

Lemma SelectBestFullGPU_spec `{GoSort} l s :
  l ≠ [] → ∃ c, SelectBestFullGPU l s = Some c ∧ c ∈ l ∧ ∀ c', c' ∈ l →
    fit_le s (gc_FreeMemoryMB c) (gc_FreeMemoryMB c') (gc_PodCount c) (gc_PodCount c').
Proof.
  intros Hl. destruct (head_sort_slice (full_less s) l Hl) as (c & Hc & Hin & Hmin).
  exists c. unfold SelectBestFullGPU. destruct l; [done|]. split_and!; [done|done|].
  intros c' Hc'. by apply full_less_false, Hmin.
Qed.

(** Strict mode needs one of the two pool labels. *)
Lemma ClassifyJob_strict pod :
  jc_StrictMode (ClassifyJob (Some pod)) = true → jc_Pool (ClassifyJob (Some pod)) ≠ PoolAuto.
Proof.
  cbn. destruct (pod_Labels pod !! LabelPool) as [l|]; cbn.
  - destruct (String.eqb l "mig"); [done|]. destruct (String.eqb l "full"); [done|]. cbn.
    destruct (pod_Labels pod !! LabelAllowFallback) as [f|]; [|done]. by destruct (parse_bool f) as [[]|].
  - destruct (pod_Labels pod !! LabelAllowFallback) as [f|]; [|done]. by destruct (parse_bool f) as [[]|].
Qed.
