(* ===== verification/Allocator.v ===== *)
(** * internal/allocator/allocator.go: the allocator

    In standalone mode [Allocate] places a job with the bin packer and commits
    it to the [Manager]; with node agents [AllocateWithRouting] picks a device
    from the registry, a MIG instance or a full GPU, according to the pod's
    classification. Each loop over the node map takes its own iteration order. *)

From Stdlib Require Import ZArith Lia String.
From stdpp Require Import base option list strings gmap.
From S2P Require Import Prelude GoFloat GoStrings Types K8s Registry Manager Strategy Binpack Routing.
Open Scope string_scope.
Open Scope Z_scope.
Open Scope go_scope.

Inductive AllocError : Type :=
  | EScheduling (e : SchedError)
  | EAllocation (e : ManagerError)
  | ENoMIG (memoryMB : Z)
  | ENoMPS (memoryMB : Z)
  | ENoNonMPS (memoryMB : Z)
  | ESelect
  | EUnknownPool (pool : PoolPreference)
  | EStrict (pool : PoolPreference) (e : AllocError)
  | EAnyPool (e : AllocError).

Section allocator.
Context `{GoSort} {D : Type}.

Record Allocator : Type := mkAllocator {
  all_manager : Manager D;
  all_registry : Registry
}.

Definition set_manager (m : Manager D) (a : Allocator) : Allocator := mkAllocator m (all_registry a).

Definition Allocator_Allocate (job : option Job) (o1 o2 : list string) (a : Allocator) :
    call AllocError (Allocator * SchedulingResult) :=
  match BinPacker_Schedule job (Manager_GetNodes o1 (all_manager a)) with
  | Panicked => Panicked
  | Done (Err e) => Done (Err (EScheduling e))
  | Done (Ok r) =>
      match job, sr_GPUIDs r with
      | Some j, gpuID :: _ =>
          match Manager_Allocate (job_ID j) gpuID (job_MemoryMB j) o2 (all_manager a) with
          | Ok m => Done (Ok (set_manager m a, r))
          | Err e => Done (Err (EAllocation e))
          end
      | _, _ => Panicked
      end
  end.

Definition Allocator_Release (job : Job) (a : Allocator) : result AllocError Allocator :=
  match Manager_Release (job_ID job) (all_manager a) with
  | Ok m => Ok (set_manager m a)
  | Err e => Err (EAllocation e)
  end.

Definition Allocator_GetNodes (order : list string) (a : Allocator) : list NodeInfo :=
  Manager_GetNodes order (all_manager a).
End allocator.
Arguments Allocator D : clear implicits.

(** ** Routing: these methods only read the registry *)
Section routing.
Context `{GoSort} (r : Registry).

Definition autoSelectPool (memoryMB : Z) (order : list string) : PoolPreference :=
  match FindAvailableMIG memoryMB order r with [] => PoolFull | _ => PoolMIG end.

Definition allocateFromMIG (memoryMB : Z) (job : Job) (isShared : bool) (order : list string) :
    result AllocError SchedulingResult :=
  match FindAvailableMIG memoryMB order r with
  | [] => Err (ENoMIG memoryMB)
  | candidates =>
      match SelectBestMIG candidates isShared with
      | None => Err ESelect
      | Some best =>
          Ok (mkSchedulingResult (job_ID job) (mc_NodeName best) [mc_MIGUUID best] true true)
      end
  end.

Definition allocateFromFullGPU (memoryMB : Z) (job : Job) (isShared : bool) (order : list string) :
    result AllocError SchedulingResult :=
  candidates ← (if isShared
    then match FindAvailableMPSGPU memoryMB order r with
         | [] => Err (ENoMPS memoryMB) | cs => Ok cs end
    else match FindAvailableNonMPSGPU memoryMB order r with
         | [] => Err (ENoNonMPS memoryMB) | cs => Ok cs end);
  match SelectBestFullGPU candidates isShared with
  | None => Err ESelect
  | Some best =>
      Ok (mkSchedulingResult (job_ID job) (gc_NodeName best) [gc_GPUUUID best] true false)
  end.

Definition tryPool (pool : PoolPreference) (memoryMB : Z) (job : Job) (isShared : bool)
    (order : list string) : result AllocError SchedulingResult :=
  match pool with
  | PoolMIG => allocateFromMIG memoryMB job isShared order
  | PoolFull => allocateFromFullGPU memoryMB job isShared order
  | PoolAuto => Err (EUnknownPool pool)
  end.

Definition getOtherPool (pool : PoolPreference) : PoolPreference :=
  if decide (pool = PoolMIG) then PoolFull else PoolMIG.

(** The memory to look for: the classification's, or the job's when it is 0. *)
Definition routed_memory (pod : Pod) (job : Job) : Z :=
  let m := jc_MemoryRequestMB (ClassifyJob (Some pod)) in
  if m =? 0 then job_MemoryMB job else m.

Definition AllocateWithRouting (pod : Pod) (job : Job) (o1 o2 o3 : list string) :
    result AllocError SchedulingResult :=
  let classification := ClassifyJob (Some pod) in
  let memoryMB := routed_memory pod job in
  let isShared := String.eqb (annotation_or_empty pod "gpu-scheduler/shared") "true" in
  let preferredPool :=
    if decide (jc_Pool classification = PoolAuto) then autoSelectPool memoryMB o1
    else jc_Pool classification in
  match tryPool preferredPool memoryMB job isShared o2 with
  | Ok result => Ok result
  | Err err =>
      if jc_StrictMode classification then Err (EStrict preferredPool err)
      else
        match tryPool (getOtherPool preferredPool) memoryMB job isShared o3 with
        | Ok result => Ok result
        | Err err => Err (EAnyPool err)
        end
  end.
End routing.

(** ** Specification of routing

    The devices a pool can offer, whatever the iteration order. *)
Definition mig_device (r : Registry) (mem : Z) (c : MIGCandidate) : Prop :=
  ∃ n node g mi, reg_nodes r !! n = Some node ∧ g ∈ ng_GPUs node ∧ mi ∈ gi_MIGInstances g ∧
    gi_MIGEnabled g = true ∧ gi_IsHealthy g = true ∧ mig_IsAvailable mi = true ∧
    mem ≤ mig_MemoryMB mi ∧
    c = mkMIGCandidate n (gi_UUID g) (mig_UUID mi) (mig_ProfileName mi) (mig_MemoryMB mi)
          (mig_SMCount mi) (GetPodCount n (gi_UUID g) r).

Definition full_device (r : Registry) (mem : Z) (shared : bool) (c : GPUCandidate) : Prop :=
  (∃ n node g, reg_nodes r !! n = Some node ∧ g ∈ ng_GPUs node ∧
    gi_MIGEnabled g = false ∧ gi_IsHealthy g = true ∧ mem ≤ free_memory n g r ∧
    c = full_candidate n g r) ∧
  if shared then gc_MPSEnabled c = true else gc_MPSEnabled c = false ∧ gc_PodCount c = 0.

(** [res] is a best fit of the pool. *)
Definition best_of_pool (r : Registry) (pool : PoolPreference) (mem : Z) (shared : bool) (job : Job)
    (res : SchedulingResult) : Prop :=
  match pool with
  | PoolMIG => ∃ c, mig_device r mem c ∧
      res = mkSchedulingResult (job_ID job) (mc_NodeName c) [mc_MIGUUID c] true true ∧
      ∀ c', mig_device r mem c' →
        fit_le shared (mc_MemoryMB c) (mc_MemoryMB c') (mc_PodCount c) (mc_PodCount c')
  | PoolFull => ∃ c, full_device r mem shared c ∧
      res = mkSchedulingResult (job_ID job) (gc_NodeName c) [gc_GPUUUID c] true false ∧
      ∀ c', full_device r mem shared c' →
        fit_le shared (gc_FreeMemoryMB c) (gc_FreeMemoryMB c') (gc_PodCount c) (gc_PodCount c')
  | PoolAuto => False
  end.

Definition pool_empty (r : Registry) (pool : PoolPreference) (mem : Z) (shared : bool) : Prop :=
  match pool with
  | PoolMIG => ∀ c, ¬ mig_device r mem c
  | PoolFull => ∀ c, ¬ full_device r mem shared c
  | PoolAuto => True
  end.

(** The pool a pod is tried in first, by its pool label: the one it names, else
    MIG when an instance of that memory is free, else the full GPUs. *)
Definition first_choice (r : Registry) (pod : Pod) (mem : Z) (pool : PoolPreference) : Prop :=
  let label := pod_Labels pod !! "gpu-scheduler.io/pool" in
  (label = Some "mig" → pool = PoolMIG) ∧
  (label = Some "full" → pool = PoolFull) ∧
  (label ≠ Some "mig" → label ≠ Some "full" →
     (∃ c, mig_device r mem c) ∧ pool = PoolMIG ∨ (∀ c, ¬ mig_device r mem c) ∧ pool = PoolFull).

(** A pod that names a pool stays in it, unless its fallback label is true. *)
Definition confined (pod : Pod) : Prop :=
  (pod_Labels pod !! "gpu-scheduler.io/pool" = Some "mig" ∨
   pod_Labels pod !! "gpu-scheduler.io/pool" = Some "full") ∧
  pod_Labels pod !! "gpu-scheduler.io/allow-fallback" ≫= parse_bool ≠ Some true.

(** The memory a device must offer: the annotation's, or the job's when it is
    absent, unreadable or 0. *)
Definition device_memory (pod : Pod) (job : Job) : Z :=
  match annotation pod "gpu-scheduler.io/memory-mb" ≫= atoi with
  | Some m => if decide (m = 0) then job_MemoryMB job else m
  | None => job_MemoryMB job
  end.

(** ** Lemmas *)
Section routing_lemmas.
Context `{GoSort} (r : Registry).

Lemma mig_device_order mem order c :
  range_order (reg_nodes r) order → mig_device r mem c ↔ c ∈ FindAvailableMIG mem order r.
Proof.
  intros Ho. by rewrite (FindAvailableMIG_elem mem order r c Ho).
Qed.

Lemma full_device_order mem shared order c :
  range_order (reg_nodes r) order → full_device r mem shared c ↔
  c ∈ (if shared then FindAvailableMPSGPU mem order r else FindAvailableNonMPSGPU mem order r).
Proof.
  intros Ho. unfold full_device. destruct shared; unfold FindAvailableMPSGPU, FindAvailableNonMPSGPU;
    rewrite list_filter_elem, (FindAvailableFullGPU_elem mem order r c Ho); [done|].
  rewrite andb_true_iff, negb_true_iff, Z.eqb_eq. done.
Qed.

(** Each pool, in any order: a best fit, or an error on an empty pool. *)
Lemma tryPool_spec pool mem job shared order :
  pool ≠ PoolAuto → range_order (reg_nodes r) order →
  match tryPool r pool mem job shared order with
  | Ok res => best_of_pool r pool mem shared job res
  | Err _ => pool_empty r pool mem shared
  end.
Proof.
  intros Hpool Ho. destruct pool; [| |done]; cbn.
  - unfold allocateFromMIG. destruct (FindAvailableMIG mem order r) as [|c0 cs] eqn:E.
    + intros c Hc. apply (mig_device_order _ order _ Ho) in Hc. rewrite E in Hc. by apply elem_of_nil in Hc.
    + destruct (SelectBestMIG_spec (c0 :: cs) shared ltac:(done)) as (c & -> & Hin & Hmin).
      exists c. split_and!; [by apply (mig_device_order _ order _ Ho); rewrite E|done|].
      intros c' Hc'. apply Hmin. apply (mig_device_order _ order _ Ho) in Hc'. by rewrite E in Hc'.
  - unfold allocateFromFullGPU.
    set (l := if shared then FindAvailableMPSGPU mem order r else FindAvailableNonMPSGPU mem order r).
    assert (∀ c, full_device r mem shared c ↔ c ∈ l) as Hl by (intros c; by apply full_device_order).
    assert (l = [] ∧ (∃ e, (if shared then match FindAvailableMPSGPU mem order r with
         | [] => Err (ENoMPS mem) | cs => Ok cs end
       else match FindAvailableNonMPSGPU mem order r with
         | [] => Err (ENoNonMPS mem) | cs => Ok cs end) = Err e) ∨
      l ≠ [] ∧ (if shared then match FindAvailableMPSGPU mem order r with
         | [] => Err (ENoMPS mem) | cs => Ok cs end
       else match FindAvailableNonMPSGPU mem order r with
         | [] => Err (ENoNonMPS mem) | cs => Ok cs end) = Ok l) as [[Hnil [e ->]]|[Hne ->]].
    { unfold l. destruct shared.
      - destruct (FindAvailableMPSGPU mem order r); [left; eauto|right; done].
      - destruct (FindAvailableNonMPSGPU mem order r); [left; eauto|right; done]. }
    + cbn. intros c Hc%Hl. rewrite Hnil in Hc. by apply elem_of_nil in Hc.
    + cbn. destruct (SelectBestFullGPU_spec l shared Hne) as (c & -> & Hin & Hmin).
      exists c. split_and!; [by apply Hl|done|]. intros c' Hc'%Hl. by apply Hmin.
Qed.

Lemma autoSelectPool_spec mem order :
  range_order (reg_nodes r) order → autoSelectPool r mem order ≠ PoolAuto ∧
  (autoSelectPool r mem order = PoolFull → ∀ c, ¬ mig_device r mem c) ∧
  (autoSelectPool r mem order = PoolMIG → ∃ c, mig_device r mem c).
Proof.
  intros Ho. unfold autoSelectPool. destruct (FindAvailableMIG mem order r) as [|c0 cs] eqn:E.
  - split_and!; try done. intros _ c Hc. apply (mig_device_order _ order _ Ho) in Hc. rewrite E in Hc.
    by apply elem_of_nil in Hc.
  - split_and!; try done. intros _. exists c0. apply (mig_device_order _ order _ Ho). rewrite E. left.
Qed.

(** Whatever the route, the answer is a best fit of one of the two pools. *)
Lemma AllocateWithRouting_device pod job o1 o2 o3 res :
  range_order (reg_nodes r) o1 → range_order (reg_nodes r) o2 → range_order (reg_nodes r) o3 →
  AllocateWithRouting r pod job o1 o2 o3 = Ok res →
  ∃ pool mem shared, best_of_pool r pool mem shared job res.
Proof.
  intros Ho1 Ho2 Ho3. unfold AllocateWithRouting.
  set (pool := if decide _ then _ else _).
  assert (pool ≠ PoolAuto) as Hpool.
  { unfold pool. case_decide; [by apply autoSelectPool_spec|done]. }
  set (shared := String.eqb _ _). set (mem := routed_memory pod job).
  pose proof (tryPool_spec pool mem job shared o2 Hpool Ho2) as H1.
  destruct (tryPool r pool mem job shared o2); [intros [= <-]; eauto|].
  destruct (jc_StrictMode _); [done|].
  assert (getOtherPool pool ≠ PoolAuto) as Hother by (unfold getOtherPool; by case_decide).
  pose proof (tryPool_spec _ mem job shared o3 Hother Ho3) as H2.
  destruct (tryPool r _ mem job shared o3); [intros [= <-]; eauto|done].
Qed.

(** *** The classification, read off the labels *)
Lemma routed_memory_device pod job : routed_memory pod job = device_memory pod job.
Proof.
  unfold routed_memory, device_memory, ClassifyJob, extractGPUMemoryRequest.
  destruct (match pod_Labels pod !! LabelPool with Some _ => _ | None => _ end) as [pool strict].
  cbn [jc_MemoryRequestMB]. destruct (annotation pod _) as [s|]; cbn [mbind option_bind]; [|done].
  destruct (atoi s) as [m|]; [|done]. case_decide; [by subst|]. by destruct (Z.eqb_spec m 0).
Qed.

Lemma classified pod :
  let label := pod_Labels pod !! "gpu-scheduler.io/pool" in
  (label = Some "mig" ∧ jc_Pool (ClassifyJob (Some pod)) = PoolMIG ∨
   label = Some "full" ∧ jc_Pool (ClassifyJob (Some pod)) = PoolFull ∨
   label ≠ Some "mig" ∧ label ≠ Some "full" ∧ jc_Pool (ClassifyJob (Some pod)) = PoolAuto) ∧
  (jc_StrictMode (ClassifyJob (Some pod)) = true ↔ confined pod).
Proof.
  unfold confined, ClassifyJob, LabelPool, LabelAllowFallback. cbn.
  destruct (pod_Labels pod !! "gpu-scheduler.io/pool") as [l|] eqn:El;
    [destruct (String.eqb_spec l "mig"); [subst|destruct (String.eqb_spec l "full"); [subst|]]|];
    (split; [naive_solver|]);
    destruct (pod_Labels pod !! "gpu-scheduler.io/allow-fallback") as [f|]; cbn;
    try (destruct (parse_bool f) as [[]|]); naive_solver.
Qed.

(** C11: routing is exact. [AllocateWithRouting] tries one pool first, the one
    the pod's label names, else MIG exactly when a healthy GPU has a free
    instance of that memory ([first_choice]). It answers with a best fit of that
    pool when the pool has a device; otherwise with a best fit of the other
    pool, when the labels do not confine the pod; and it fails only when no pool
    it may use has a device. *)
Theorem AllocateWithRouting_exact pod job o1 o2 o3 :
  range_order (reg_nodes r) o1 → range_order (reg_nodes r) o2 → range_order (reg_nodes r) o3 →
  let mem := device_memory pod job in
  let shared := String.eqb (annotation_or_empty pod "gpu-scheduler/shared") "true" in
  ∃ first, first_choice r pod mem first ∧
  match AllocateWithRouting r pod job o1 o2 o3 with
  | Ok res =>
      best_of_pool r first mem shared job res ∨
      ¬ confined pod ∧ pool_empty r first mem shared ∧
        ∃ second, second ≠ first ∧ best_of_pool r second mem shared job res
  | Err _ => pool_empty r first mem shared ∧
      (confined pod ∨ ∀ second, pool_empty r second mem shared)
  end.
Proof.
  intros Ho1 Ho2 Ho3 mem shared. destruct (classified pod) as [Hlabel Hstrict].
  unfold AllocateWithRouting. rewrite routed_memory_device. fold mem. fold shared.
  set (pool := if decide _ then _ else _).
  destruct (autoSelectPool_spec mem o1 Ho1) as (Hne & Hfull & Hmig).
  assert (pool ≠ PoolAuto ∧ first_choice r pod mem pool) as [Hpool Hfirst].
  { unfold pool, first_choice. destruct Hlabel as [[-> ->]|[[-> ->]|(Hm & Hf & ->)]];
      [naive_solver..|]. rewrite decide_True by done. split_and!; [done..|]. intros _ _.
    destruct (autoSelectPool r mem o1); naive_solver. }
  exists pool. split; [done|].
  pose proof (tryPool_spec pool mem job shared o2 Hpool Ho2) as H1.
  destruct (tryPool r pool mem job shared o2); [by left|].
  destruct (jc_StrictMode _); [by split; [|left; apply Hstrict]|].
  assert (¬ confined pod) as Hconf by (intros Hc%Hstrict; done).
  assert (getOtherPool pool ≠ PoolAuto ∧ getOtherPool pool ≠ pool) as [Hother Hdiff]
    by (unfold getOtherPool; by destruct pool).
  pose proof (tryPool_spec _ mem job shared o3 Hother Ho3) as H2.
  destruct (tryPool r _ mem job shared o3); [right; eauto|].
  split; [done|right]. intros q. unfold getOtherPool in H2. by destruct pool, q.
Qed.
End routing_lemmas.

(** ** Allocation in standalone mode *)
Section allocate.
Context `{GoSort} {D : Type}.

Lemma Manager_GetNodes_elem (m : Manager D) order node :
  range_order (mgr_nodes m) order →
  node ∈ Manager_GetNodes order m ↔ ∃ k, mgr_nodes m !! k = Some node.
Proof.
  intros Ho. unfold Manager_GetNodes. rewrite list_elem_of_fmap. split.
  - intros ([k n] & -> & Hin%(range_elem _ _ _ _ Ho)). eauto.
  - intros [k Hk]. exists (k, node). split; [done|]. by apply (range_elem _ _ _ _ Ho).
Qed.

Lemma Allocate_spec (a : Allocator D) job o1 o2 :
  range_order (mgr_nodes (all_manager a)) o1 → range_order (mgr_nodes (all_manager a)) o2 →
  ids_unique (all_manager a) → 0 ≤ job_MemoryMB job →
  (∀ k i g, gpu_at (all_manager a) k i g →
     0 ≤ gpu_UsedMemoryMB g ≤ gpu_TotalMemoryMB g ∧ gpu_TotalMemoryMB g ≤ int_max) →
  ∃ res, Allocator_Allocate (Some job) o1 o2 a = Done res ∧
  match res with
  | Ok (a', r) => ∃ k i g used,
      gpu_at (all_manager a) k i g ∧ eligible (job_Shared job) (job_MemoryMB job) g = true ∧
      sr_GPUIDs r = [gpu_ID g] ∧ gpu_at (all_manager a') k i (set_UsedMemoryMB used g) ∧
      gpu_UsedMemoryMB g + job_MemoryMB job ≤ used ≤ gpu_TotalMemoryMB g ∧
      (mgr_allocations (all_manager a) !! job_ID job = None → job_MemoryMB job ≠ 0 →
       Allocator_Release job a' = Ok a)
  | Err e => (∃ e', e = EScheduling e') ∧
      ∀ k i g, gpu_at (all_manager a) k i g →
        eligible (job_Shared job) (job_MemoryMB job) g = false
  end.
Proof.
  intros Ho1 Ho2 Hu Hmem Hsane. set (m := all_manager a) in *. unfold Allocator_Allocate. fold m.
  destruct (schedule_total (S:=BinPacker) job (Manager_GetNodes o1 m)) as [[r|e] E]; cbn [Schedule BinPacker] in E; rewrite E.
  - apply (schedule_sound (S:=BinPacker)) in E as (node & g & Hn & Hg & He & ->). cbn [sr_GPUIDs].
    apply (Manager_GetNodes_elem m o1 _ Ho1) in Hn as [k Hk].
    apply list_elem_of_lookup in Hg as [i Hi].
    assert (gpu_at m k i g) as Hat by (by exists node).
    destruct (find_gpu_unique m o2 _ k i g Ho2 Hu Hat eq_refl) as (node' & Hk' & Hfind).
    unfold Manager_Allocate. rewrite Hfind.
    pose proof (eligible_memory _ _ _ He) as Hge. rewrite (proj2 (Z.ltb_ge _ _) Hge).
    assert (node' = node) as -> by congruence.
    destruct (Hsane _ _ _ Hat) as [[Hused Htot] Hint].
    eexists. split; [reflexivity|]. exists k, i, g, (if job_MemoryMB job =? 0 then gpu_TotalMemoryMB g
      else gpu_UsedMemoryMB g ⊞ job_MemoryMB job).
    split_and!; try done.
    + exact (proj1 (commit_gpu_at m (job_ID job) (job_MemoryMB job) k node i g Hk Hi)).
    + by apply commit_used.
    + by apply commit_used.
    + intros Hnone Hz. unfold Allocator_Release. cbn.
      rewrite (Release_commit m); try done; [by destruct a|]. unfold in_int, int_min. lia.
  - eexists. split; [reflexivity|]. split; [eauto|]. intros k i g (node & Hk & Hi).
    destruct (eligible _ _ g) eqn:He; [|done]. exfalso.
    destruct (schedule_complete (S:=BinPacker) job (Manager_GetNodes o1 m) node g) as [r Hr].
    + apply (Manager_GetNodes_elem m o1 _ Ho1). eauto.
    + by eapply list_elem_of_lookup_2.
    + done.
    + cbn [Schedule BinPacker] in Hr. congruence.
Qed.

(** Placing and committing agree. When the cluster's GPU identifiers are
    unique and its memory figures are sane, [Allocator.Allocate] never panics
    and never fails in the manager: it commits the job to an eligible GPU,
    without exceeding its memory, or reports that no GPU is eligible; and a job
    that held nothing can be released, which restores the allocator. *)
Theorem Allocate_commits (a : Allocator D) job o1 o2 :
  range_order (mgr_nodes (all_manager a)) o1 → range_order (mgr_nodes (all_manager a)) o2 →
  ids_unique (all_manager a) → 0 ≤ job_MemoryMB job →
  (∀ k i g, gpu_at (all_manager a) k i g →
     0 ≤ gpu_UsedMemoryMB g ≤ gpu_TotalMemoryMB g ∧ gpu_TotalMemoryMB g ≤ int_max) →
  ∃ res, Allocator_Allocate (Some job) o1 o2 a = Done res ∧
  match res with
  | Ok (a', r) => ∃ k i g used,
      gpu_at (all_manager a) k i g ∧ eligible (job_Shared job) (job_MemoryMB job) g = true ∧
      sr_GPUIDs r = [gpu_ID g] ∧ gpu_at (all_manager a') k i (set_UsedMemoryMB used g) ∧
      gpu_UsedMemoryMB g + job_MemoryMB job ≤ used ≤ gpu_TotalMemoryMB g ∧
      (mgr_allocations (all_manager a) !! job_ID job = None → job_MemoryMB job ≠ 0 →
       Allocator_Release job a' = Ok a)
  | Err e => (∃ e', e = EScheduling e') ∧
      ∀ k i g, gpu_at (all_manager a) k i g →
        eligible (job_Shared job) (job_MemoryMB job) g = false
  end.
Proof. exact (Allocate_spec a job o1 o2). Qed.
End allocate.

(** ** Examples *)
Lemma Allocate_commits_witness :
  ∃ res, Allocator_Allocate (Some sample_job) ["local"] ["local"]
      (mkAllocator sample_manager NewRegistry) = Done res ∧
    match res with
    | Ok (a', r) => sr_GPUIDs r = ["GPU-0"] ∧
        Allocator_Release sample_job a' = Ok (mkAllocator sample_manager NewRegistry)
    | Err _ => False
    end.
Proof.
  destruct (Allocate_commits (mkAllocator sample_manager NewRegistry) sample_job ["local"] ["local"]
    sample_manager_order sample_manager_order sample_manager_unique ltac:(by vm_compute)
    sample_manager_sane) as (res & E & H).
  exists res. split; [exact E|]. destruct res as [[a' r]|e]; [|vm_compute in E; discriminate].
  destruct H as (k & i & g & used & _ & _ & _ & _ & _ & H).
  split; [vm_compute in E; by injection E as _ <-|]. by apply H.
Defined.

(** A pod labelled for MIG that may fall back and asks for more than the
    instance offers gets the full GPU. *)
Definition fallback_pod : Pod :=
  mkPod "train-0" "default"
    (list_to_map [("gpu-scheduler.io/pool", "mig"); ("gpu-scheduler.io/allow-fallback", "true")])
    (list_to_map [("gpu-scheduler.io/memory-mb", "40000")])
    0 "gpu-scheduler" "" None [] [] [] PodPending [].

Lemma AllocateWithRouting_exact_witness :
  match AllocateWithRouting sample_registry fallback_pod sample_job ["node-a"] ["node-a"] ["node-a"] with
  | Ok res => sr_GPUIDs res = ["GPU-aaaaaaaaaaaa"] ∧
      best_of_pool sample_registry PoolFull 40000 false sample_job res
  | Err _ => False
  end.
Proof.
  destruct (AllocateWithRouting_exact sample_registry fallback_pod sample_job
    ["node-a"] ["node-a"] ["node-a"] ltac:(by vm_compute) ltac:(by vm_compute) ltac:(by vm_compute))
    as (first & (Hmig & _) & H).
  rewrite (Hmig ltac:(by vm_compute)) in H.
  change (device_memory fallback_pod sample_job) with 40000 in H.
  change (String.eqb (annotation_or_empty fallback_pod "gpu-scheduler/shared") "true") with false in H.
  destruct (AllocateWithRouting _ _ _ _ _ _) as [res|e] eqn:E; [|vm_compute in E; discriminate].
  vm_compute in E. injection E as <-. split; [done|].
  destruct H as [(c & _ & Heq & _)|(_ & _ & [] & Hne & H)]; try done. 
Defined.
