(* ===== verification/GangCollector.v ===== *)
(** * internal/scheduler/gang.go: collecting the pods of a gang

    [Collect] groups the pending pods by their gang annotation and decides for
    each gang whether it is ready, timed out, or to be looked at again. *)

From Stdlib Require Import ZArith Lia String.
From stdpp Require Import base option list strings gmap.
From S2P Require Import Prelude GoFloat GoStrings Types K8s Config Helpers.
Open Scope string_scope.
Open Scope Z_scope.
Open Scope go_scope.

Record GangState : Type := mkGangState {
  gs_GangID : string;
  gs_Size : Z;
  gs_Pods : list Pod;
  gs_CreatedAt : Time
}.

(** [state.Pods = append(state.Pods, pod)] and the earliest-creation update. *)
Definition add_pod (pod : Pod) (s : GangState) : GangState :=
  mkGangState (gs_GangID s) (gs_Size s) (gs_Pods s ++ [pod])%list
    (if pod_CreationTimestamp pod <? gs_CreatedAt s then pod_CreationTimestamp pod else gs_CreatedAt s).

(** One iteration of the loop over the pods: the map of gangs and the
    standalone pods. *)
Definition collect_pod (acc : gmap string GangState * list Pod) (pod : Pod) :
    gmap string GangState * list Pod :=
  let '(gangMap, standalonePods) := acc in
  let gangID := GetGangIDFromPod pod in
  if String.eqb gangID "" then (gangMap, (standalonePods ++ [pod])%list)
  else
    let state :=
      match gangMap !! gangID with
      | Some state => state
      | None => mkGangState gangID (GetGangSizeFromPod pod) [] (pod_CreationTimestamp pod)
      end in
    (<[gangID := add_pod pod state]> gangMap, standalonePods).

Definition collect_pods (pods : list Pod) : gmap string GangState * list Pod :=
  foldl collect_pod (∅, []) pods.

Definition gang_ready (s : GangState) : bool := Z.of_nat (length (gs_Pods s)) >=? gs_Size s.

Definition gang_timed_out (now : Time) (timeout : Z) (s : GangState) : bool :=
  negb (gang_ready s) && (time_sub now (gs_CreatedAt s) >? timeout).

(** [Collect]; [order] is the iteration order of its map of gangs. *)
Definition Collect (timeout : Z) (now : Time) (order : list string) (pods : list Pod) :
    list GangState * list Pod * list string :=
  let '(gangMap, standalonePods) := collect_pods pods in
  let states := (range gangMap order).*2 in
  (List.filter gang_ready states, standalonePods,
   gs_GangID <$> List.filter (gang_timed_out now timeout) states).

(** ** Specification *)
Definition in_gang (id : string) (pod : Pod) : bool := String.eqb (GetGangIDFromPod pod) id.

(** The gang an identifier stands for: its pods in arrival order, the size the
    first of them declares, and the earliest creation time. *)
Definition gang_of (id : string) (pods : list Pod) : option GangState :=
  match List.filter (in_gang id) pods with
  | [] => None
  | p0 :: rest =>
      Some (mkGangState id (GetGangSizeFromPod p0) (p0 :: rest)
              (foldl Z.min (pod_CreationTimestamp p0) (pod_CreationTimestamp <$> rest)))
  end.

Definition sample_gang_pods : list Pod :=
  [sample_pod "ml" "w0" [("gpu-scheduler/gang-id", "g1"); ("gpu-scheduler/gang-size", "2")];
   sample_pod "ml" "solo" [];
   sample_pod "ml" "w1" [("gpu-scheduler/gang-id", "g1"); ("gpu-scheduler/gang-size", "2")];
   sample_pod "ml" "v0" [("gpu-scheduler/gang-id", "g2"); ("gpu-scheduler/gang-size", "3")]].

(** ** Lemmas *)
Lemma filter_snoc {A} (p : A → bool) l x :
  List.filter p (l ++ [x]) = (List.filter p l ++ if p x then [x] else [])%list.
Proof. induction l as [|y l IH]; cbn; [by destruct (p x)|]. destruct (p y); cbn; by rewrite IH. Qed.

Lemma gang_of_snoc id pods p :
  gang_of id (pods ++ [p]) =
  if in_gang id p then
    Some (add_pod p (default (mkGangState id (GetGangSizeFromPod p) [] (pod_CreationTimestamp p))
                       (gang_of id pods)))
  else gang_of id pods.
Proof.
  unfold gang_of. rewrite filter_snoc. destruct (in_gang id p); [|by rewrite app_nil_r].
  destruct (List.filter (in_gang id) pods) as [|p0 rest]; unfold add_pod; cbn.
  - by rewrite Z.ltb_irrefl.
  - f_equal. f_equal. rewrite fmap_app, foldl_app. cbn.
    destruct (Z.ltb_spec (pod_CreationTimestamp p)
      (foldl Z.min (pod_CreationTimestamp p0) (pod_CreationTimestamp <$> rest))); lia.
Qed.

Lemma collect_pods_spec pods :
  (∀ id, id ≠ "" → (collect_pods pods).1 !! id = gang_of id pods) ∧
  (collect_pods pods).1 !! "" = None ∧
  (collect_pods pods).2 = List.filter (in_gang "") pods.
Proof.
  induction pods as [|p pods (IH1 & IH2 & IH3)] using rev_ind; [done|].
  unfold collect_pods in *. rewrite foldl_app. cbn [foldl].
  destruct (foldl collect_pod (∅, []) pods) as [gm sp]. cbn [fst snd] in *. unfold collect_pod.
  rewrite filter_snoc. unfold in_gang at 2.
  destruct (String.eqb_spec (GetGangIDFromPod p) "") as [E|E]; cbn [fst snd].
  - split_and!; [|done|by rewrite IH3]. intros id Hid. rewrite gang_of_snoc. unfold in_gang.
    rewrite E, (proj2 (String.eqb_neq _ _)) by done. by apply IH1.
  - split_and!; [|by rewrite lookup_insert_ne|by rewrite app_nil_r].
    intros id Hid. rewrite gang_of_snoc. unfold in_gang.
    destruct (String.eqb_spec (GetGangIDFromPod p) id) as [<-|Hne].
    + rewrite lookup_insert_eq, IH1 by done. by destruct (gang_of _ pods).
    + rewrite lookup_insert_ne by done. by apply IH1.
Qed.

Lemma gang_of_id id pods s : gang_of id pods = Some s → gs_GangID s = id.
Proof. unfold gang_of. destruct (List.filter _ _); [done|]. by intros [= <-]. Qed.

Lemma gang_of_pods id pods s : gang_of id pods = Some s → gs_Pods s = List.filter (in_gang id) pods.
Proof. unfold gang_of. destruct (List.filter _ _); [done|]. by intros [= <-]. Qed.

Lemma collect_range pods order id s :
  range_order (collect_pods pods).1 order →
  (id, s) ∈ range (collect_pods pods).1 order ↔ id ≠ "" ∧ gang_of id pods = Some s.
Proof.
  intros Ho. rewrite (range_elem _ _ _ _ Ho).
  destruct (collect_pods_spec pods) as (H1 & H2 & _). destruct (decide (id = "")) as [->|Hid].
  - rewrite H2. naive_solver.
  - rewrite H1 by done. naive_solver.
Qed.

(** Splitting a list by the value of a key gives its elements back. *)
Lemma bind_filter_key {A} (key : A → string) (keys : list string) (l : list A) :
  NoDup keys →
  keys ≫= (λ k, List.filter (λ x, String.eqb (key x) k) l) ≡ₚ
  List.filter (λ x, bool_decide (key x ∈ keys)) l.
Proof.
  intros Hnd. induction l as [|x l IH]; cbn.
  { clear. induction keys; cbn; done. }
  destruct (bool_decide_reflect (key x ∈ keys)) as [Hin|Hin].
  - apply list_elem_of_split in Hin as (k1 & k2 & ->).
    rewrite !bind_app in *. cbn in *. rewrite String.eqb_refl.
    apply NoDup_app in Hnd as (_ & H1 & H2). apply NoDup_cons in H2 as [H2 _].
    assert (∀ ks, key x ∉ ks → ks ≫= (λ k, if String.eqb (key x) k
      then x :: List.filter (λ y, String.eqb (key y) k) l else List.filter (λ y, String.eqb (key y) k) l)
      = ks ≫= (λ k, List.filter (λ y, String.eqb (key y) k) l)) as Hks.
    { intros ks Hk. induction ks as [|k ks IHk]; cbn; [done|].
      rewrite (proj2 (String.eqb_neq _ _)) by set_solver. f_equal. apply IHk. set_solver. }
    rewrite !Hks; [|done|intros Hx; apply (H1 _ Hx); left].
    rewrite <-IH. cbn. by rewrite <-Permutation_middle.
  - rewrite <-IH. clear -Hin. induction keys as [|k ks IHk]; cbn; [done|].
    rewrite (proj2 (String.eqb_neq _ _)) by set_solver. rewrite IHk; [done|set_solver].
Qed.

Lemma filter_split {A} (p q : A → bool) (l : list A) :
  (∀ x, p x = true → q x = false) → (List.filter p l ++ List.filter q l)%list ⊆+ l.
Proof.
  intros Hpq. induction l as [|x l IH]; cbn; [done|].
  destruct (p x) eqn:Ep; [rewrite (Hpq _ Ep); cbn; by constructor|].
  destruct (q x); [|by constructor]. rewrite <-Permutation_middle. by constructor.
Qed.

Lemma filter_bind_fmap {A B C} (f : A → B) (p : B → bool) (g : B → list C) (l : list A) :
  List.filter p (f <$> l) ≫= g = l ≫= (λ x, if p (f x) then g (f x) else []).
Proof. induction l as [|x l IH]; cbn; [done|]. destruct (p (f x)); cbn; by rewrite IH. Qed.

Lemma bind_fmap_list {A B C} (f : A → B) (g : B → list C) (l : list A) :
  (f <$> l) ≫= g = l ≫= (λ x, g (f x)).
Proof. induction l as [|x l IH]; cbn; [done|]. by rewrite IH. Qed.

Lemma bind_submseteq {A B} (f g : A → list B) (l : list A) :
  (∀ x, x ∈ l → f x ⊆+ g x) → l ≫= f ⊆+ l ≫= g.
Proof.
  induction l as [|x l IH]; intros H; cbn; [done|].
  apply submseteq_app; [apply H; left|]. apply IH. intros y Hy. apply H. by right.
Qed.

Lemma range_keys_nodup {A} (m : gmap string A) order :
  range_order m order → NoDup (range m order).*1.
Proof.
  intros Ho. rewrite (fmap_Permutation fst _ _ (range_perm m order Ho)). apply NoDup_fst_map_to_list.
Qed.

Lemma collect_nothing_twice timeout now order pods :
  range_order (collect_pods pods).1 order →
  (((Collect timeout now order pods).1.1 ≫= gs_Pods) ++ (Collect timeout now order pods).1.2)%list ⊆+ pods.
Proof.
  intros Ho. unfold Collect. destruct (collect_pods pods) as [gm sp] eqn:Ec.
  pose proof (collect_range pods order) as Hr. rewrite Ec in Hr. cbn [fst] in Hr, Ho.
  destruct (collect_pods_spec pods) as (_ & _ & Hsp). rewrite Ec in Hsp. cbn [fst snd] in *.
  rewrite filter_bind_fmap, Hsp.
  assert (range gm order ≫= (λ x, if gang_ready x.2 then gs_Pods x.2 else []) ⊆+
    List.filter (λ x, bool_decide (GetGangIDFromPod x ∈ (range gm order).*1)) pods) as Hsub.
  { rewrite <-(bind_filter_key GetGangIDFromPod _ pods) by (by apply range_keys_nodup).
    rewrite bind_fmap_list. apply bind_submseteq. intros [id s] [Hid Hg]%Hr; [|done]. cbn.
    rewrite (gang_of_pods _ _ _ Hg). destruct (gang_ready s); [done|apply submseteq_nil_l]. }
  etrans; [apply submseteq_app; [exact Hsub|reflexivity]|].
  apply filter_split. intros x Hx%bool_decide_eq_true_1. unfold in_gang.
  apply list_elem_of_fmap in Hx as ([id s] & -> & [Hid _]%Hr); [|done].
  by apply String.eqb_neq.
Qed.

(** [Collect] is exact and loses nothing. A gang is reported ready exactly
    when the pods that name it are at least as many as the first of them
    declares; timed out exactly when there are fewer and the earliest was
    created more than the timeout ago; the standalone pods are those without a
    gang, in order; and no pod is handed out twice. *)
Theorem Collect_exact timeout now order pods :
  range_order (collect_pods pods).1 order →
  match Collect timeout now order pods with
  | (ready, standalone, timedOut) =>
      (∀ s, s ∈ ready ↔ ∃ id, id ≠ "" ∧ gang_of id pods = Some s ∧
         gs_Size s ≤ Z.of_nat (length (gs_Pods s))) ∧
      (∀ id, id ∈ timedOut ↔ id ≠ "" ∧ ∃ s, gang_of id pods = Some s ∧
         Z.of_nat (length (gs_Pods s)) < gs_Size s ∧ timeout < time_sub now (gs_CreatedAt s)) ∧
      standalone = List.filter (in_gang "") pods ∧
      ((ready ≫= gs_Pods) ++ standalone)%list ⊆+ pods
  end.
Proof.
  intros Ho. unfold Collect. destruct (collect_pods pods) as [gm sp] eqn:Ec.
  pose proof (collect_range pods order) as Hr. rewrite Ec in Hr. cbn [fst] in Hr, Ho.
  destruct (collect_pods_spec pods) as (_ & _ & Hsp). rewrite Ec in Hsp. cbn [snd] in Hsp.
  split_and!; [| |done|].
  - intros s. rewrite list_elem_of_In, List.filter_In, <-list_elem_of_In, list_elem_of_fmap.
    unfold gang_ready. rewrite Z.geb_leb, Z.leb_le. split.
    + intros [([id s'] & -> & [Hid Hg]%Hr) Hs]; eauto.
    + intros (id & Hid & Hg & Hs). split; [|done]. exists (id, s). split; [done|]. by apply Hr.
  - intros id. rewrite list_elem_of_fmap.
    setoid_rewrite list_elem_of_In. setoid_rewrite List.filter_In. setoid_rewrite <-list_elem_of_In.
    setoid_rewrite list_elem_of_fmap. unfold gang_timed_out, gang_ready. split.
    + intros (s & -> & ([id' s'] & -> & [Hid Hg]%Hr) & Hs); [|done]. cbn in *.
      rewrite (gang_of_id _ _ _ Hg). split; [done|]. exists s'. bool_hyps. done.
    + intros (Hid & s & Hg & Hlen & Ht). exists s. split; [by apply gang_of_id in Hg|].
      split; [exists (id, s); split; [done|]; by apply Hr|].
      rewrite Z.geb_leb, Z.gtb_ltb. by rewrite (proj2 (Z.leb_gt _ _)), (proj2 (Z.ltb_lt _ _)).
  - pose proof (collect_nothing_twice timeout now order pods) as Hsub. unfold Collect in Hsub.
    rewrite Ec in Hsub. by apply Hsub.
Qed.

Lemma Collect_exact_witness :
  match Collect 60000000000 100000000000 ["g1"; "g2"] sample_gang_pods with
  | (ready, standalone, timedOut) =>
      gs_GangID <$> ready = ["g1"] ∧ timedOut = ["g2"] ∧
      ((ready ≫= gs_Pods) ++ standalone)%list ⊆+ sample_gang_pods
  end.
Proof.
  pose proof (Collect_exact 60000000000 100000000000 ["g1"; "g2"] sample_gang_pods
    ltac:(vm_compute; reflexivity)) as H.
  destruct (Collect _ _ _ _) as [[ready standalone] timedOut] eqn:E.
  split; [|split; [|apply H]]; vm_compute in E; by injection E as <- <- <-.
Defined.

(** A pod without a size annotation declares size 0, so its gang is ready at
    once, and the fourth pod of a gang of three is part of the ready gang. *)
Lemma unsized_gang_ready timeout now :
  let pod := sample_pod "ml" "w0" [("gpu-scheduler/gang-id", "g1")] in
  (Collect timeout now ["g1"] [pod]).1.1 = [mkGangState "g1" 0 [pod] 0].
Proof. vm_compute. reflexivity. Qed.
