(* ===== verification/Queue.v ===== *)
(** * internal/scheduler/queue.go: the bounded job queue

    [FIFOQueue] keeps its jobs in a slice that is appended to, re-sliced from
    the front and shifted in place.  The model keeps the backing array and the
    runtime's freedom to reallocate; the refinement theorem shows that all a
    client sees is a bounded first-in first-out list.  Each method runs under
    the queue's lock, so a concurrent history is a sequence of operations. *)

From Stdlib Require Import ZArith Lia String.
From stdpp Require Import base option list strings gmap.
From S2P Require Import Prelude GoFloat Types.
Open Scope string_scope.
Open Scope Z_scope.
Open Scope go_scope.

(** ** Slices: the window of the backing array from the slice's start to its
    capacity, and the length in use *)
Record slice (A : Type) : Type := mkSlice {
  sl_array : list A;
  sl_len : nat
}.
Arguments mkSlice {A}.
Arguments sl_array {A}.
Arguments sl_len {A}.

Definition slice_cap {A} (s : slice A) : nat := length (sl_array s).

Definition contents {A} (s : slice A) : list A := take (sl_len s) (sl_array s).

(** [append(s, x)]: in place while there is capacity, else into a fresh array
    with [extra] unused cells, which the runtime chooses. *)
Definition append_one {A} (zero x : A) (extra : nat) (s : slice A) : slice A :=
  if (sl_len s <? slice_cap s)%nat
  then mkSlice (<[sl_len s := x]> (sl_array s)) (S (sl_len s))
  else mkSlice (contents s ++ x :: replicate extra zero)%list (S (sl_len s)).

(** [s[1:]] *)
Definition slice_tail {A} (s : slice A) : slice A :=
  mkSlice (drop 1 (sl_array s)) (sl_len s - 1).

(** [append(s[:i], s[i+1:]...)]: the elements after [i] move down one cell and
    the last cell in use keeps its old value beyond the new length. *)
Definition slice_remove {A} (i : nat) (s : slice A) : slice A :=
  mkSlice (take i (sl_array s) ++ drop (S i) (contents s) ++ drop (sl_len s - 1) (sl_array s))%list
    (sl_len s - 1).

(** ** The queue *)
Record FIFOQueue : Type := mkFIFOQueue {
  q_jobs : slice (option Job);
  q_maxSize : Z
}.

(** [make] panics on a negative capacity. *)
Definition NewFIFOQueue (maxSize : Z) : outcome FIFOQueue :=
  if maxSize <? 0 then Panicked
  else Done (mkFIFOQueue (mkSlice (replicate (Z.to_nat maxSize) None) 0) maxSize).

Inductive QueueError : Type := EQueueFull (maxSize : Z) | EQueueEmpty.

Definition with_jobs (s : slice (option Job)) (q : FIFOQueue) : FIFOQueue :=
  mkFIFOQueue s (q_maxSize q).

Definition Enqueue (job : option Job) (extra : nat) (q : FIFOQueue) : FIFOQueue * option QueueError :=
  if Z.of_nat (sl_len (q_jobs q)) >=? q_maxSize q then (q, Some (EQueueFull (q_maxSize q)))
  else (with_jobs (append_one None job extra (q_jobs q)) q, None).

Definition Dequeue (q : FIFOQueue) : FIFOQueue * result QueueError (option Job) :=
  match contents (q_jobs q) with
  | [] => (q, Err EQueueEmpty)
  | nextJob :: _ => (with_jobs (slice_tail (q_jobs q)) q, Ok nextJob)
  end.

Definition Peek (q : FIFOQueue) : result QueueError (option Job) :=
  match contents (q_jobs q) with
  | [] => Err EQueueEmpty
  | j :: _ => Ok j
  end.

Definition Len (q : FIFOQueue) : Z := Z.of_nat (sl_len (q_jobs q)).

(** The search loop of [Remove]; [job.ID] on a nil job panics. *)
Fixpoint find_job (jobID : string) (i : nat) (jobs : list (option Job)) : outcome (option nat) :=
  match jobs with
  | [] => Done None
  | None :: _ => Panicked
  | Some job :: rest =>
      if String.eqb (job_ID job) jobID then Done (Some i) else find_job jobID (S i) rest
  end.

Definition Remove (jobID : string) (q : FIFOQueue) : outcome (FIFOQueue * bool) :=
  found ← find_job jobID 0 (contents (q_jobs q));
  match found with
  | Some i => Done (with_jobs (slice_remove i (q_jobs q)) q, true)
  | None => Done (q, false)
  end.

(** ** The queue as a transition system *)
Inductive queue_op : Type :=
  | OpEnqueue (job : option Job) (extra : nat)
  | OpDequeue
  | OpPeek
  | OpLen
  | OpRemove (jobID : string).

Inductive queue_out : Type :=
  | OutErr (e : QueueError)
  | OutOk
  | OutJob (job : option Job)
  | OutLen (n : Z)
  | OutBool (b : bool).

Definition queue_exec (q : FIFOQueue) (op : queue_op) : outcome (FIFOQueue * queue_out) :=
  match op with
  | OpEnqueue job extra =>
      let '(q', e) := Enqueue job extra q in
      Done (q', match e with Some e => OutErr e | None => OutOk end)
  | OpDequeue =>
      let '(q', r) := Dequeue q in
      Done (q', match r with Ok j => OutJob j | Err e => OutErr e end)
  | OpPeek => Done (q, match Peek q with Ok j => OutJob j | Err e => OutErr e end)
  | OpLen => Done (q, OutLen (Len q))
  | OpRemove jobID => r ← Remove jobID q; Done (r.1, OutBool r.2)
  end.

(** ** Specification: a bounded list *)
Definition spec_exec (maxSize : Z) (l : list (option Job)) (op : queue_op) :
    outcome (list (option Job) * queue_out) :=
  match op with
  | OpEnqueue job _ =>
      if maxSize <=? Z.of_nat (length l) then Done (l, OutErr (EQueueFull maxSize))
      else Done ((l ++ [job])%list, OutOk)
  | OpDequeue =>
      match l with [] => Done ([], OutErr EQueueEmpty) | j :: l' => Done (l', OutJob j) end
  | OpPeek => Done (l, match l with [] => OutErr EQueueEmpty | j :: _ => OutJob j end)
  | OpLen => Done (l, OutLen (Z.of_nat (length l)))
  | OpRemove jobID =>
      found ← find_job jobID 0 l;
      Done (match found with
            | Some i => ((take i l ++ drop (S i) l)%list, OutBool true)
            | None => (l, OutBool false)
            end)
  end.

(** Running a sequence of operations and collecting what each answers. *)
Fixpoint run {S} (exec : S → queue_op → outcome (S * queue_out)) (s : S) (ops : list queue_op) :
    outcome (S * list queue_out) :=
  match ops with
  | [] => Done (s, [])
  | op :: ops' =>
      r ← exec s op;
      rs ← run exec r.1 ops';
      Done (rs.1, r.2 :: rs.2)
  end.

(** The concrete queue [q] implements the list [l]. *)
Definition refines (maxSize : Z) (q : FIFOQueue) (l : list (option Job)) : Prop :=
  contents (q_jobs q) = l ∧ (sl_len (q_jobs q) ≤ slice_cap (q_jobs q))%nat ∧
  q_maxSize q = maxSize ∧ Z.of_nat (length l) ≤ Z.max 0 maxSize.

Definition outcome_rel {A B} (R : A → B → Prop) (a : outcome A) (b : outcome B) : Prop :=
  match a, b with
  | Done a, Done b => R a b
  | Panicked, Panicked => True
  | _, _ => False
  end.

(** The jobs a history enqueued with success, and those it dequeued. *)
Fixpoint accepted (ops : list queue_op) (outs : list queue_out) : list (option Job) :=
  match ops, outs with
  | OpEnqueue job _ :: ops', OutOk :: outs' => job :: accepted ops' outs'
  | _ :: ops', _ :: outs' => accepted ops' outs'
  | _, _ => []
  end.

Fixpoint served (ops : list queue_op) (outs : list queue_out) : list (option Job) :=
  match ops, outs with
  | OpDequeue :: ops', OutJob job :: outs' => job :: served ops' outs'
  | _ :: ops', _ :: outs' => served ops' outs'
  | _, _ => []
  end.

Definition no_remove (ops : list queue_op) : Prop :=
  Forall (λ op, match op with OpRemove _ => False | _ => True end) ops.

(** ** Lemmas on slices *)
Lemma contents_length {A} (s : slice A) :
  (sl_len s ≤ slice_cap s)%nat → length (contents s) = sl_len s.
Proof. unfold contents, slice_cap. rewrite length_take. lia. Qed.

Lemma append_one_spec {A} (zero x : A) extra s :
  (sl_len s ≤ slice_cap s)%nat →
  contents (append_one zero x extra s) = (contents s ++ [x])%list ∧
  (sl_len (append_one zero x extra s) ≤ slice_cap (append_one zero x extra s))%nat.
Proof.
  intros Hs. unfold append_one. destruct (Nat.ltb_spec (sl_len s) (slice_cap s)) as [H|H]; cbn.
  - unfold slice_cap in *. cbn. rewrite length_insert. split; [|lia].
    unfold contents. cbn. rewrite (take_S_r _ _ x) by (by apply list_lookup_insert_eq).
    by rewrite take_insert_ge.
  - unfold slice_cap. cbn. rewrite length_app, contents_length by done. cbn. split; [|lia].
    change (take (S (sl_len s)) (contents s ++ x :: replicate extra zero) = contents s ++ [x])%list.
    rewrite take_app_ge by (rewrite contents_length; [lia|done]).
    rewrite contents_length by done. by replace (S (sl_len s) - sl_len s)%nat with 1%nat by lia.
Qed.

Lemma slice_tail_spec {A} (s : slice A) :
  (sl_len s ≤ slice_cap s)%nat →
  contents (slice_tail s) = drop 1 (contents s) ∧
  (sl_len (slice_tail s) ≤ slice_cap (slice_tail s))%nat.
Proof.
  intros Hs. unfold contents, slice_tail, slice_cap in *. cbn. rewrite length_drop.
  split; [|lia]. by rewrite skipn_firstn_comm.
Qed.

Lemma slice_remove_spec {A} i (s : slice A) :
  (sl_len s ≤ slice_cap s)%nat → (i < sl_len s)%nat →
  contents (slice_remove i s) = (take i (contents s) ++ drop (S i) (contents s))%list ∧
  (sl_len (slice_remove i s) ≤ slice_cap (slice_remove i s))%nat.
Proof.
  intros Hs Hi. pose proof (contents_length s Hs) as Hl.
  assert (length (take i (sl_array s) ++ drop (S i) (contents s))%list = (sl_len s - 1)%nat) as Hlen.
  { rewrite length_app, length_take, length_drop, Hl. unfold slice_cap in Hs. lia. }
  unfold slice_remove, slice_cap. cbn [sl_array sl_len]. rewrite (assoc app). split.
  - unfold contents at 1. cbn [sl_array sl_len]. rewrite <-Hlen, take_app_length.
    f_equal. unfold contents. rewrite take_take. f_equal. lia.
  - rewrite length_app, Hlen, length_drop. unfold slice_cap in Hs. lia.
Qed.

(** ** Refinement *)
Lemma find_job_bound id k jobs i :
  find_job id k jobs = Done (Some i) → (k ≤ i < k + length jobs)%nat.
Proof.
  revert k. induction jobs as [|[job|] jobs IH]; intros k; cbn; [done| |done].
  case_match; [intros [= <-]; lia|]. intros Hj%IH. lia.
Qed.

Lemma queue_exec_refines maxSize q l op :
  refines maxSize q l →
  outcome_rel (λ a b, refines maxSize a.1 b.1 ∧ a.2 = b.2) (queue_exec q op) (spec_exec maxSize l op).
Proof.
  intros (Hc & Hcap & Hmax & Hlen). pose proof (contents_length _ Hcap) as Hl. rewrite Hc in Hl.
  destruct op as [job extra| | | |jobID]; cbn.
  - unfold Enqueue. rewrite Hmax, Z.geb_leb, <-Hl.
    destruct (Z.leb_spec maxSize (Z.of_nat (length l))); cbn; [done|]. split; [|done].
    destruct (append_one_spec None job extra _ Hcap) as [H1 H2].
    split_and!; cbn [fst q_jobs q_maxSize with_jobs]; [by rewrite H1, Hc|done|done|]. rewrite length_app. cbn. lia.
  - unfold Dequeue. rewrite Hc. destruct l as [|j l']; cbn; [done|]. split; [|done].
    destruct (slice_tail_spec _ Hcap) as [H1 H2].
    split_and!; cbn [fst q_jobs q_maxSize with_jobs]; [by rewrite H1, Hc|done|done|]. cbn in *. lia.
  - unfold Peek. rewrite Hc. by destruct l.
  - split; [done|]. unfold Len. by rewrite Hl.
  - unfold Remove. rewrite Hc. destruct (find_job jobID 0 l) as [[i|]|] eqn:E; cbn; [|done|done].
    apply find_job_bound in E. split; [|done].
    destruct (slice_remove_spec i _ Hcap ltac:(lia)) as [H1 H2].
    split_and!; cbn [fst q_jobs q_maxSize with_jobs]; [by rewrite H1, Hc|done|done|].
    rewrite length_app, length_take, length_drop. lia.
Qed.

Lemma run_refines maxSize q l ops :
  refines maxSize q l →
  outcome_rel (λ a b, refines maxSize a.1 b.1 ∧ a.2 = b.2)
    (run queue_exec q ops) (run (spec_exec maxSize) l ops).
Proof.
  revert q l. induction ops as [|op ops IH]; intros q l H; cbn; [done|].
  pose proof (queue_exec_refines _ _ _ op H) as Hstep.
  destruct (queue_exec q op) as [[q' o]|], (spec_exec maxSize l op) as [[l' o']|]; cbn in *; try done.
  destruct Hstep as [Hr ->]. specialize (IH _ _ Hr).
  destruct (run queue_exec q' ops) as [[]|], (run (spec_exec maxSize) l' ops) as [[]|]; cbn in *; try done.
  destruct IH as [? ->]. done.
Qed.

(** C27: the queue refines a bounded FIFO list. Whatever sequence of operations is
    run on a new queue, and however the runtime reallocates its array, the
    answers are those of a plain list with the same bound, it panics exactly
    when the list does, and it never holds more than [maxSize] jobs. *)
Theorem queue_refinement maxSize q ops :
  NewFIFOQueue maxSize = Done q →
  outcome_rel (λ a b, a.2 = b.2 ∧ contents (q_jobs a.1) = b.1 ∧ Len a.1 ≤ maxSize)
    (run queue_exec q ops) (run (spec_exec maxSize) [] ops).
Proof.
  unfold NewFIFOQueue. destruct (Z.ltb_spec maxSize 0) as [|Hpos]; [done|]. intros [= <-].
  assert (refines maxSize (mkFIFOQueue (mkSlice (replicate (Z.to_nat maxSize) None) 0) maxSize) []) as H0.
  { split_and!; cbn; [done|lia|done|lia]. }
  pose proof (run_refines _ _ _ ops H0) as Hsim.
  destruct (run queue_exec _ ops) as [[q' o]|], (run (spec_exec maxSize) [] ops) as [[l' o']|]; try done.
  destruct Hsim as [(Hc & Hcap & _ & Hlen) Ho]. cbn in *. split_and!; [done|done|].
  unfold Len. rewrite <-(contents_length _ Hcap), Hc. lia.
Qed.

Lemma queue_refinement_witness :
  let ops := [OpEnqueue None 0; OpEnqueue None 0; OpDequeue; OpEnqueue None 3; OpLen] in
  ∃ q, NewFIFOQueue 1 = Done q ∧
    outcome_rel (λ a b, a.2 = b.2 ∧ contents (q_jobs a.1) = b.1 ∧ Len a.1 ≤ 1)
      (run queue_exec q ops) (run (spec_exec 1) [] ops) ∧
    snd <$> run (spec_exec 1) [] ops =
      Done [OutOk; OutErr (EQueueFull 1); OutJob None; OutOk; OutLen 1].
Proof.
  intros ops. eexists. split; [reflexivity|].
  split; [exact (queue_refinement 1 _ ops eq_refl)|reflexivity].
Defined.

(** ** First in, first out *)
Lemma spec_fifo maxSize ops l l' outs :
  no_remove ops → run (spec_exec maxSize) l ops = Done (l', outs) →
  (l ++ accepted ops outs)%list = (served ops outs ++ l')%list.
Proof.
  intros Hops. revert l outs. induction Hops as [|op ops Hop _ IH]; intros l outs; cbn.
  { intros [= <- <-]. by rewrite app_nil_r. }
  intros ([l1 o] & Hs & ([l2 os] & Hr & [= <- <-])%outcome_bind_done)%outcome_bind_done.
  cbn in *. apply IH in Hr.
  destruct op as [job extra| | | |jobID]; [| | | |done]; cbn in Hs.
  - destruct (maxSize <=? Z.of_nat (length l)); injection Hs as <- <-; cbn; [done|].
    by rewrite <-(assoc app) in Hr.
  - destruct l as [|j l1']; injection Hs as <- <-; cbn; [done|]. by f_equal.
  - injection Hs as <- <-. destruct l; done.
  - injection Hs as <- <-. done.
Qed.

(** First in, first out. Without removals, the jobs a new queue accepted are,
    in order, the jobs it served followed by the jobs it still holds. *)
Theorem queue_fifo maxSize q q' ops outs :
  NewFIFOQueue maxSize = Done q → no_remove ops → run queue_exec q ops = Done (q', outs) →
  accepted ops outs = (served ops outs ++ contents (q_jobs q'))%list.
Proof.
  unfold NewFIFOQueue. destruct (Z.ltb_spec maxSize 0) as [|Hpos]; [done|]. intros [= <-] Hops Hrun.
  assert (refines maxSize (mkFIFOQueue (mkSlice (replicate (Z.to_nat maxSize) None) 0) maxSize) []) as H0.
  { split_and!; cbn; [done|lia|done|lia]. }
  pose proof (run_refines _ _ _ ops H0) as Hsim. rewrite Hrun in Hsim.
  destruct (run (spec_exec maxSize) [] ops) as [[l' o']|] eqn:E; [|done].
  destruct Hsim as [(Hc & _) Ho]. cbn in Hc, Ho. subst o'. rewrite Hc.
  exact (spec_fifo maxSize ops [] l' outs Hops E).
Qed.

Lemma queue_fifo_witness :
  let job i := Some (mkJob i i "default" 1 1000 "inference" true) in
  let ops := [OpEnqueue (job "a") 0; OpEnqueue (job "b") 0; OpDequeue; OpEnqueue (job "c") 1] in
  ∃ q q' outs, NewFIFOQueue 2 = Done q ∧ run queue_exec q ops = Done (q', outs) ∧
    accepted ops outs = [job "a"; job "b"; job "c"] ∧
    accepted ops outs = (served ops outs ++ contents (q_jobs q'))%list.
Proof.
  intros job ops. eexists _, _, _. split; [reflexivity|]. split; [reflexivity|].
  split; [reflexivity|]. exact (queue_fifo 2 _ _ ops _ eq_refl ltac:(repeat constructor) eq_refl).
Defined.
