(* ===== verification/Preemption.v ===== *)
(** * internal/scheduler/preemption.go: choosing victims, checkpointing, evicting, resuming

    [SelectVictims] chooses which running pods to evict for a pending one;
    [Preempt] checkpoints and deletes them through the [PodExecutor] interface
    and recreates those that asked for it.  The executor is the Kubernetes API,
    so its state is a type parameter and its calls a class. *)

From Stdlib Require Import ZArith Lia Ascii String.
From stdpp Require Import base option list strings gmap sorting.
From S2P Require Import Prelude GoFloat GoStrings Types K8s Config Helpers.
Open Scope string_scope.
Open Scope Z_scope.
Open Scope go_scope.

(** ** Victim selection *)
Record PreemptionCandidate : Type := mkPreemptionCandidate {
  pcd_Pod : Pod;
  pcd_Priority : Z;
  pcd_Workflow : string;
  pcd_Preemptible : bool;
  pcd_GPUIDs : list string;
  pcd_NodeName : string;
  pcd_MemoryMB : Z
}.

Inductive PreemptError : Type :=
  | ENoCandidates (requesterPriority : Z)
  | ENotEnough (requiredMemoryMB freedMB : Z) (candidates : nat).

Definition workflowEvictOrder (workflow : string) : Z :=
  if String.eqb workflow "training" then 0
  else if String.eqb workflow "inference" then 1
  else 2.

Definition evictable (requesterPriority : Z) (c : PreemptionCandidate) : bool :=
  pcd_Preemptible c && negb (pcd_Priority c >=? requesterPriority).

Definition evict_less (a b : PreemptionCandidate) : bool :=
  let oi := workflowEvictOrder (pcd_Workflow a) in
  let oj := workflowEvictOrder (pcd_Workflow b) in
  if negb (oi =? oj) then oi <? oj else pcd_Priority a <? pcd_Priority b.

(** The greedy loop: [inl] is the early return, [inr] the memory all of them free. *)
Fixpoint pick_victims (requiredMemoryMB : Z) (victims : list PreemptionCandidate) (freedMB : Z)
    (eligible : list PreemptionCandidate) : list PreemptionCandidate + Z :=
  match eligible with
  | [] => inr freedMB
  | c :: rest =>
      let victims' := (victims ++ [c])%list in
      let freedMB' := freedMB ⊞ pcd_MemoryMB c in
      if freedMB' >=? requiredMemoryMB then inl victims'
      else pick_victims requiredMemoryMB victims' freedMB' rest
  end.

Definition SelectVictims `{GoSort} (requesterPriority requiredMemoryMB : Z)
    (candidates : list PreemptionCandidate) : result PreemptError (list PreemptionCandidate) :=
  match List.filter (evictable requesterPriority) candidates with
  | [] => Err (ENoCandidates requesterPriority)
  | eligible =>
      match pick_victims requiredMemoryMB [] 0 (sort_slice evict_less eligible) with
      | inl victims => Ok victims
      | inr freedMB => Err (ENotEnough requiredMemoryMB freedMB (length eligible))
      end
  end.

(** ** The orchestrator *)
Record PreemptionConfig : Type := mkPreemptionConfig {
  po_CheckpointTimeout : Z;
  po_GracePeriod : Z;
  po_MaxRetries : Z;
  po_PriorityBoost : Z;
  po_SchedulerName : string;
  po_WorkflowCfg : WorkflowConfig;
  po_Publisher : bool
}.

(** executor.go; an [option string] result is Go's [error]. *)
Class PodExecutor (W : Type) : Type := {
  ExecInPod : W → string → string → string → list string → W * option string;
  DeletePod : W → string → string → Z → W * option string;
  CreatePod : W → Pod → W * result string Pod
}.

Definition Event : Type := string * list (string * string).

Definition resume_sep : string := "-resume-".

(** [baseName[:idx]] at the first [-resume-]. *)
Definition resume_base (name : string) : string :=
  match str_index name resume_sep with
  | Some idx => String.substring 0 idx name
  | None => name
  end.

Definition resume_annotations (cfg : PreemptionConfig) (victim : Pod) (preemptCount : Z) :
    gmap string string :=
  let a0 := delete "gpu-scheduler/allocation-type"
              (delete "gpu-scheduler/assigned-gpus" (pod_Annotations victim)) in
  let a1 := <["gpu-scheduler/preempt-count" := itoa preemptCount]> a0 in
  let stored := GetOriginalPriorityFromPod victim in
  let '(origPriority, a2) :=
    if stored =? -1 then
      let p := GetPriorityFromPod victim (po_WorkflowCfg cfg) in
      (p, <["gpu-scheduler/original-priority" := itoa p]> a1)
    else (stored, a1) in
  let newPriority := origPriority ⊞ (preemptCount ⊠ po_PriorityBoost cfg) in
  <["gpu-scheduler/priority" := itoa (if newPriority >? 100 then 100 else newPriority)]> a2.

(** Only name, namespace and annotations of the metadata are set: labels are not. *)
Definition buildResumePod (cfg : PreemptionConfig) (victim : PreemptionCandidate)
    (preemptCount : Z) : Pod :=
  let victimPod := pcd_Pod victim in
  mkPod (resume_base (pod_Name victimPod) ++ "-resume-" ++ itoa preemptCount)
    (pod_Namespace victimPod) ∅ (resume_annotations cfg victimPod preemptCount) 0
    (po_SchedulerName cfg) ""
    (if negb (String.eqb (pod_NodeName victimPod) "")
     then Some [mkPreferredTerm 100 "kubernetes.io/hostname" "In" [pod_NodeName victimPod]]
     else pod_Affinity victimPod)
    (pod_Containers victimPod) (pod_InitContainers victimPod) (pod_Volumes victimPod) "" [].

Section orchestrator.
Context `{GoSort} {W : Type} `{PodExecutor W} (cfg : PreemptionConfig).

Definition publish (e : Event) (events : list Event) : list Event :=
  if po_Publisher cfg then (events ++ [e])%list else events.

Definition tryAutoResume (victim : PreemptionCandidate) (w : W) (events : list Event) :
    W * list Event :=
  let victimPod := pcd_Pod victim in
  if negb (GetAutoResumeFromPod victimPod) then (w, events)
  else
    let preemptCount := GetPreemptCountFromPod victimPod ⊞ 1 in
    if preemptCount >? po_MaxRetries cfg then (w, events)
    else
      let pod := buildResumePod cfg victim preemptCount in
      match CreatePod w pod with
      | (w', Err _) => (w', events)
      | (w', Ok createdPod) =>
          (w', publish ("pod-resumed",
                 [("original_pod", pod_Name victimPod); ("new_pod", pod_Name createdPod);
                  ("namespace", pod_Namespace createdPod); ("attempt", itoa preemptCount)]) events)
      end.

(** One iteration of the loop over the victims. *)
Definition evict (v : PreemptionCandidate) (w : W) (events : list Event) : W * list Event :=
  let pod := pcd_Pod v in
  let checkpointCmd := GetCheckpointCmdFromPod pod in
  let w1 :=
    if negb (String.eqb checkpointCmd "")
    then (ExecInPod w (pod_Namespace pod) (pod_Name pod) "" ["sh"; "-c"; checkpointCmd]).1
    else w in
  match DeletePod w1 (pod_Namespace pod) (pod_Name pod) (po_GracePeriod cfg) with
  | (w2, Some _) => (w2, events)
  | (w2, None) =>
      tryAutoResume v w2
        (publish ("pod-preempted",
           [("pod", pod_Name pod); ("namespace", pod_Namespace pod);
            ("priority", itoa (pcd_Priority v)); ("workflow", pcd_Workflow v)]) events)
  end.

Definition evict_all (victims : list PreemptionCandidate) (w : W) (events : list Event) :
    W * list Event :=
  foldl (λ st v, evict v st.1 st.2) (w, events) victims.

Definition Preempt (requesterPriority requiredMemoryMB : Z) (candidates : list PreemptionCandidate)
    (w : W) (events : list Event) :
    (W * list Event) * result PreemptError (list PreemptionCandidate) :=
  match SelectVictims requesterPriority requiredMemoryMB candidates with
  | Err e => ((w, events), Err e)
  | Ok victims => (evict_all victims w events, Ok victims)
  end.
End orchestrator.

(** ** Specification of the calls

    [logged W] is the executor [W] with the calls it receives written down. *)
Inductive pod_call : Type :=
  | CallExec (namespace podName container : string) (cmd : list string)
  | CallDelete (namespace podName : string) (gracePeriod : Z)
  | CallCreate (pod : Pod).

Definition logged (W : Type) : Type := W * list pod_call.

#[export] Instance logged_executor {W} `{PodExecutor W} : PodExecutor (logged W) := {|
  ExecInPod w ns name c cmd :=
    let '(w', e) := ExecInPod w.1 ns name c cmd in ((w', w.2 ++ [CallExec ns name c cmd])%list, e);
  DeletePod w ns name grace :=
    let '(w', e) := DeletePod w.1 ns name grace in ((w', w.2 ++ [CallDelete ns name grace])%list, e);
  CreatePod w pod :=
    let '(w', r) := CreatePod w.1 pod in ((w', w.2 ++ [CallCreate pod])%list, r)
|}.

(** The calls one eviction may make, given whether the deletion succeeded. *)
Definition victim_calls (cfg : PreemptionConfig) (v : PreemptionCandidate) (deleted : bool) :
    list pod_call :=
  let pod := pcd_Pod v in
  let cmd := GetCheckpointCmdFromPod pod in
  let n := GetPreemptCountFromPod pod ⊞ 1 in
  ((if String.eqb cmd "" then []
    else [CallExec (pod_Namespace pod) (pod_Name pod) "" ["sh"; "-c"; cmd]]) ++
   [CallDelete (pod_Namespace pod) (pod_Name pod) (po_GracePeriod cfg)] ++
   (if deleted && GetAutoResumeFromPod pod && (n <=? po_MaxRetries cfg)
    then [CallCreate (buildResumePod cfg v n)] else []))%list.

(** ** Chains of resumed pods

    A resumed pod is admitted again by the API server and the scheduler, which
    may write the scheduling annotations but keep the others. *)
Definition scheduling_keys : list string :=
  ["gpu-scheduler/assigned-gpus"; "gpu-scheduler/allocation-type"; "gpu-scheduler/gang-id"].

Definition rescheduled (q p : Pod) : Prop :=
  ∀ k, k ∉ scheduling_keys → annotation p k = annotation q k.

(** [resumed cfg p0 n p]: [p] is the [n]-th incarnation of [p0]. An eviction of the
    one before asked the API server to create [q], and [p] is what it became. *)
Inductive resumed {W : Type} `{PodExecutor W} (cfg : PreemptionConfig) (p0 : Pod) : Z → Pod → Prop :=
  | resumed_O : resumed cfg p0 0 p0
  | resumed_S n v (w w' : logged W) events events' calls q p' :
      resumed cfg p0 n (pcd_Pod v) → evict cfg v w events = (w', events') →
      w'.2 = (w.2 ++ calls)%list → CallCreate q ∈ calls → rescheduled q p' →
      resumed cfg p0 (n + 1) p'.

Definition freed (vs : list PreemptionCandidate) : Z := zsum (pcd_MemoryMB <$> vs).

(** ** Examples *)
Definition sample_candidate (name workflow : string) (priority mem : Z) : PreemptionCandidate :=
  mkPreemptionCandidate (sample_pod "ml" name [("gpu-scheduler/auto-resume", "true");
    ("gpu-scheduler/checkpoint-cmd", "save")]) priority workflow true ["GPU-0"] "node-a" mem.

Definition sample_candidates : list PreemptionCandidate :=
  [sample_candidate "infer" "inference" 5 9000; sample_candidate "train-a" "training" 20 8000;
   sample_candidate "train-b" "training" 10 1000; sample_candidate "high" "training" 90 90000].

Definition sample_preempt_cfg : PreemptionConfig :=
  mkPreemptionConfig 300 30 3 10 "gpu-scheduler" (mkWorkflowConfig true true 50 []) true.

(** The priority the first incarnation had, as the chain remembers it. *)
Definition remembered (cfg : PreemptionConfig) (p : Pod) : Z :=
  if GetOriginalPriorityFromPod p =? -1 then GetPriorityFromPod p (po_WorkflowCfg cfg)
  else GetOriginalPriorityFromPod p.

(** [y] is a non-empty end of [s], so an occurrence may start at it. *)
Definition suffix_of (y s : string) : Prop := y ≠ "" ∧ ∃ x, s = x ++ y.

(** An API server that accepts everything. *)
Definition yes_executor : PodExecutor unit := {|
  ExecInPod w _ _ _ _ := (w, None);
  DeletePod w _ _ _ := (w, None);
  CreatePod w pod := (w, Ok pod)
|}.

(** ** Lemmas on victim selection *)
#[export] Instance evict_less_weak : WeakLess evict_less.
Proof.
  pose proof (weak_less_lex (λ c, workflowEvictOrder (pcd_Workflow c)) _ (weak_less_key pcd_Priority))
    as [Ha Hn].
  assert (∀ a b, evict_less a b =
    if workflowEvictOrder (pcd_Workflow a) =? workflowEvictOrder (pcd_Workflow b)
    then pcd_Priority a <? pcd_Priority b
    else workflowEvictOrder (pcd_Workflow a) <? workflowEvictOrder (pcd_Workflow b)) as E.
  { intros a b. unfold evict_less. by destruct (_ =? _). }
  split; intros *; rewrite !E; [apply Ha|apply Hn].
Qed.

Lemma freed_app l1 l2 : freed (l1 ++ l2) = freed l1 + freed l2.
Proof. unfold freed. by rewrite fmap_app, zsum_app. Qed.

Lemma freed_nonneg l : Forall (λ c, 0 ≤ pcd_MemoryMB c) l → 0 ≤ freed l.
Proof. intros H. apply zsum_nonneg. by rewrite Forall_fmap. Qed.

(** The greedy loop takes the shortest prefix that frees enough. *)
Lemma pick_victims_spec req vs l :
  Forall (λ c, 0 ≤ pcd_MemoryMB c) (vs ++ l) → freed (vs ++ l) ≤ int_max →
  match pick_victims req vs (freed vs) l with
  | inl vs' => ∃ c l1 l2, l = (l1 ++ c :: l2)%list ∧ vs' = (vs ++ l1 ++ [c])%list ∧
      req ≤ freed vs' ∧ (l1 = [] ∨ freed (vs ++ l1) < req)
  | inr f => f = freed (vs ++ l) ∧ (l = [] ∨ freed (vs ++ l) < req)
  end.
Proof.
  revert vs. induction l as [|c l IH]; intros vs Hpos Hmax; cbn [pick_victims].
  { rewrite app_nil_r. auto. }
  assert (0 ≤ freed vs) by (apply freed_nonneg; by apply Forall_app in Hpos as [? _]).
  assert (0 ≤ pcd_MemoryMB c ∧ 0 ≤ freed l) as [Hc Hl].
  { apply Forall_app in Hpos as [_ [??]%Forall_cons]. split; [done|by apply freed_nonneg]. }
  assert (freed (vs ++ [c]) = freed vs + pcd_MemoryMB c) as Ec by (rewrite freed_app; unfold freed; cbn; lia).
  assert (freed (vs ++ c :: l) = freed (vs ++ [c]) + freed l) as El.
  { rewrite !freed_app. unfold freed. rewrite fmap_cons, zsum_cons. cbn. lia. }
  assert (freed vs ⊞ pcd_MemoryMB c = freed (vs ++ [c])) as Ew by (rewrite Ec; int_solve).
  rewrite Ew, Z.geb_leb. destruct (Z.leb_spec req (freed (vs ++ [c]))).
  - exists c, [], l. split_and!; auto.
  - specialize (IH (vs ++ [c])%list). rewrite <-!(assoc app) in IH. cbn [app] in IH.
    specialize (IH Hpos Hmax).
    destruct (pick_victims req (vs ++ [c]) (freed (vs ++ [c])) l) as [vs'|f].
    + destruct IH as (c' & l1 & l2 & -> & -> & Hf & Hmin).
      exists c', (c :: l1), l2. split_and!; [done|by rewrite <-(assoc app)|done|right].
      destruct Hmin as [->|Hmin]; [done|]. by rewrite <-(assoc app) in Hmin.
    + destruct IH as [-> Hmin]. rewrite <-(assoc app) in *. split; [done|]. right.
      by destruct Hmin as [->|?].
Qed.

(** The victims are evictable candidates, whatever the memory figures. *)
Lemma SelectVictims_elem `{GoSort} prio req cs vs v :
  SelectVictims prio req cs = Ok vs → v ∈ vs → v ∈ cs ∧ evictable prio v = true.
Proof.
  assert (∀ l acc f vs, pick_victims req acc f l = inl vs → ∃ l1 l2, l = (l1 ++ l2)%list ∧ vs = (acc ++ l1)%list)
    as Hpick.
  { clear. induction l as [|c l IH]; intros acc f vs; cbn; [done|]. case_match.
    - intros [= <-]. exists [c], l. done.
    - intros (l1 & l2 & -> & ->)%IH. exists (c :: l1), l2. by rewrite <-(assoc app). }
  unfold SelectVictims. intros Hs Hv.
  assert (v ∈ List.filter (evictable prio) cs) as Hin; [|by rewrite list_elem_of_In, List.filter_In, <-list_elem_of_In in Hin].
  destruct (List.filter (evictable prio) cs) as [|c0 el]; [done|].
  destruct (pick_victims _ _ _ _) as [vs'|] eqn:E; [|done]. injection Hs as <-.
  apply Hpick in E as (l1 & l2 & E & ->). rewrite <-(sort_slice_elem evict_less), E.
  apply elem_of_app. by left.
Qed.

(** Both outcomes of the selection, on requests whose total fits an [int]. *)
Lemma SelectVictims_spec `{GoSort} prio req cs :
  Forall (λ c, 0 ≤ pcd_MemoryMB c) cs → freed (List.filter (evictable prio) cs) ≤ int_max →
  match SelectVictims prio req cs with
  | Ok vs => ∃ l1 c rest, vs = (l1 ++ [c])%list ∧
      (vs ++ rest)%list = sort_slice evict_less (List.filter (evictable prio) cs) ∧
      req ≤ freed vs ∧ (l1 = [] ∨ freed l1 < req)
  | Err _ => List.filter (evictable prio) cs = [] ∨ freed (List.filter (evictable prio) cs) < req
  end.
Proof.
  intros Hpos Hmax. unfold SelectVictims.
  destruct (List.filter (evictable prio) cs) as [|c0 el] eqn:E; [by left|].
  set (l := sort_slice evict_less (c0 :: el)).
  assert (l ≡ₚ c0 :: el) as Hperm by apply sort_slice_perm.
  assert (freed l = freed (c0 :: el)) as Hf by (unfold freed; by rewrite Hperm).
  assert (Forall (λ c, 0 ≤ pcd_MemoryMB c) l) as Hl.
  { rewrite Hperm, <-E. apply Forall_forall. intros c Hc. rewrite Forall_forall in Hpos. apply Hpos.
    rewrite list_elem_of_In, List.filter_In, <-list_elem_of_In in Hc. tauto. }
  pose proof (pick_victims_spec req [] l Hl ltac:(change (freed l ≤ int_max); rewrite Hf; exact Hmax)) as Hp. change (freed []) with 0 in Hp.
  destruct (pick_victims req [] 0 l) as [vs|f].
  - destruct Hp as (c & l1 & l2 & El & -> & ? & ?). cbn [app] in *. exists l1, c, l2.
    split_and!; try done. by rewrite <-(assoc app).
  - right. destruct Hp as [_ [Hn|Hn]]; [|cbn [app] in Hn; lia].
    rewrite Hn in Hperm. by apply Permutation_nil_l in Hperm.
Qed.

(** C12: victim selection is sound, ordered and without waste at its end. With
    non-negative requests whose total fits an [int], the victims are distinct
    candidates that are preemptible and of strictly lower priority; they free
    enough; nobody spared should have been evicted before a victim; and without
    the last victim they would not be enough. It fails only when all the
    candidates it may evict together free too little, or there are none. *)
Theorem SelectVictims_exact `{GoSort} prio req cs :
  Forall (λ c, 0 ≤ pcd_MemoryMB c) cs → freed (List.filter (evictable prio) cs) ≤ int_max →
  match SelectVictims prio req cs with
  | Ok vs => ∃ l1 c rest, vs = (l1 ++ [c])%list ∧
      (vs ++ rest)%list ≡ₚ List.filter (λ c, pcd_Preemptible c && (pcd_Priority c <? prio)) cs ∧
      req ≤ freed vs ∧ (l1 = [] ∨ freed l1 < req) ∧
      ∀ v r, v ∈ vs → r ∈ rest → evict_less r v = false
  | Err _ => ∀ vs, vs ⊆+ List.filter (λ c, pcd_Preemptible c && (pcd_Priority c <? prio)) cs →
      vs = [] ∨ freed vs < req
  end.
Proof.
  intros Hpos Hmax.
  assert (List.filter (λ c, pcd_Preemptible c && (pcd_Priority c <? prio)) cs =
    List.filter (evictable prio) cs) as ->.
  { apply List.filter_ext. intros c. unfold evictable. rewrite Z.geb_leb, Z.leb_antisym.
    by rewrite negb_involutive. }
  pose proof (SelectVictims_spec prio req cs Hpos Hmax) as Hs.
  destruct (SelectVictims prio req cs) as [vs|e].
  - destruct Hs as (l1 & c & rest & -> & Hsort & Hreq & Hmin). exists l1, c, rest.
    split_and!; try done.
    + by rewrite Hsort, sort_slice_perm.
    + pose proof (sort_slice_sorted evict_less (List.filter (evictable prio) cs) _) as Hst.
      rewrite <-Hsort in Hst. intros v r Hv Hr. unfold sorted_by in Hst.
      exact (StronglySorted_app_1_elem_of _ _ _ _ _ Hst Hv Hr).
  - intros vs Hvs. destruct Hs as [Hnil|Hlt].
    + left. rewrite Hnil in Hvs. by apply submseteq_nil_r in Hvs.
    + right. eapply Z.le_lt_trans; [|exact Hlt]. unfold freed.
      apply zsum_submseteq; [|by apply fmap_submseteq]. apply Forall_fmap, Forall_forall.
      intros c Hc. rewrite Forall_forall in Hpos. apply Hpos.
      rewrite list_elem_of_In, List.filter_In, <-list_elem_of_In in Hc. tauto.
Qed.

Lemma SelectVictims_exact_witness :
  match SelectVictims 50 8500 sample_candidates with
  | Ok vs => 8500 ≤ freed vs ∧ (pod_Name ∘ pcd_Pod) <$> vs = ["train-b"; "train-a"]
  | Err _ => False
  end.
Proof.
  pose proof (SelectVictims_exact 50 8500 sample_candidates
    ltac:(repeat constructor; vm_compute; discriminate) ltac:(vm_compute; discriminate)) as H.
  destruct (SelectVictims _ _ _) as [vs|e] eqn:E; [|vm_compute in E; discriminate].
  destruct H as (_ & _ & _ & _ & _ & H & _). split; [exact H|].
  vm_compute in E. by injection E as <-.
Defined.

(** The greedy choice is not the smallest set: one of these two victims would
    have been enough. *)
Lemma SelectVictims_not_smallest :
  let a := sample_candidate "train-b" "training" 10 1000 in
  let b := sample_candidate "train-a" "training" 20 8000 in
  SelectVictims 50 8000 [a; b] = Ok [a; b] ∧ SelectVictims 50 8000 [b] = Ok [b].
Proof. vm_compute. split; reflexivity. Qed.

(** ** The calls of an eviction *)
Section calls.
Context `{GoSort} {W : Type} `{PodExecutor W} (cfg : PreemptionConfig).

Lemma evict_calls v (w : logged W) events :
  ∃ deleted w' events',
    evict cfg v w events = (w', events') ∧ w'.2 = (w.2 ++ victim_calls cfg v deleted)%list.
Proof.
  unfold evict, victim_calls. destruct w as [w log]. cbn zeta.
  set (pod := pcd_Pod v). set (n := GetPreemptCountFromPod pod ⊞ 1).
  set (ck := if String.eqb (GetCheckpointCmdFromPod pod) "" then []
    else [CallExec (pod_Namespace pod) (pod_Name pod) "" ["sh"; "-c"; GetCheckpointCmdFromPod pod]]).
  assert (∃ w1, (if negb (String.eqb (GetCheckpointCmdFromPod pod) "")
    then (ExecInPod (W:=logged W) (w, log) (pod_Namespace pod) (pod_Name pod) ""
            ["sh"; "-c"; GetCheckpointCmdFromPod pod]).1
    else (w, log)) = (w1, log ++ ck)%list) as [w1 ->].
  { unfold ck. destruct (String.eqb _ ""); cbn.
    - exists w. by rewrite app_nil_r.
    - destruct (ExecInPod w _ _ _ _) as [w1 r1]. by exists w1. }
  cbn. destruct (DeletePod w1 _ _ _) as [w2 [e|]]; cbn.
  { exists false. eexists _, _. split; [reflexivity|]. cbn. by rewrite <-(assoc app). }
  exists true. unfold tryAutoResume. fold pod. fold n.
  destruct (GetAutoResumeFromPod pod); cbn [negb andb];
    [|eexists _, _; split; [reflexivity|]; cbn; by rewrite <-(assoc app)].
  rewrite Z.gtb_ltb, Z.leb_antisym. destruct (po_MaxRetries cfg <? n); cbn [negb];
    [eexists _, _; split; [reflexivity|]; cbn; by rewrite <-(assoc app)|].
  cbn. destruct (CreatePod w2 _) as [w3 [p|e]]; cbn;
    (eexists _, _; split; [reflexivity|]; cbn; by rewrite <-!(assoc app)).
Qed.

Lemma evict_all_calls vs (w : logged W) events :
  ∃ deleted w' events', evict_all cfg vs w events = (w', events') ∧ length deleted = length vs ∧
    w'.2 = (w.2 ++ mjoin (zip_with (victim_calls cfg) vs deleted))%list.
Proof.
  revert w events. induction vs as [|v vs IH]; intros w events.
  { exists [], w, events. cbn. by rewrite app_nil_r. }
  destruct (evict_calls v w events) as (d & w1 & ev1 & E1 & Hw1).
  destruct (IH w1 ev1) as (ds & w2 & ev2 & E2 & Hlen & Hw2).
  exists (d :: ds), w2, ev2. unfold evict_all in *. cbn. rewrite E1. cbn. split_and!; [done|by rewrite Hlen|].
  by rewrite Hw2, Hw1, <-(assoc app).
Qed.

(** What [Preempt] does to the cluster, whatever the API server answers. On
    success it makes, for each victim in order and for nobody else, one
    checkpoint call if the victim has a checkpoint command, then one deletion
    with the configured grace period whether or not the checkpoint worked, and
    then, only if the deletion worked and the victim opted in and has retries
    left, one creation of its replacement. When no victims are found it does
    nothing. *)
Theorem Preempt_calls prio req cs (w : logged W) events :
  match SelectVictims prio req cs with
  | Ok vs => ∃ deleted w' events',
      Preempt cfg prio req cs w events = ((w', events'), Ok vs) ∧ length deleted = length vs ∧
      w'.2 = (w.2 ++ mjoin (zip_with (victim_calls cfg) vs deleted))%list
  | Err e => Preempt cfg prio req cs w events = ((w, events), Err e)
  end.
Proof.
  unfold Preempt. destruct (SelectVictims prio req cs) as [vs|e]; [|done].
  destruct (evict_all_calls vs w events) as (ds & w' & ev' & E & ? & ?).
  exists ds, w', ev'. by rewrite E.
Qed.
End calls.

(** ** The annotations of a resumed pod *)
Section resume.
Context {W : Type} `{PodExecutor W} (cfg : PreemptionConfig).

(** An eviction creates the resumed pod, and only within the limit of retries. *)
Lemma evict_creates v (w w' : logged W) events events' calls q :
  evict cfg v w events = (w', events') → w'.2 = (w.2 ++ calls)%list → CallCreate q ∈ calls →
  GetPreemptCountFromPod (pcd_Pod v) ⊞ 1 ≤ po_MaxRetries cfg ∧
  q = buildResumePod cfg v (GetPreemptCountFromPod (pcd_Pod v) ⊞ 1).
Proof.
  intros E Ecalls Hq. destruct (evict_calls cfg v w events) as (deleted & w1 & ev1 & E1 & Hw1).
  rewrite E in E1. injection E1 as <- <-. rewrite Ecalls in Hw1. apply app_inv_head in Hw1 as ->.
  unfold victim_calls in Hq. rewrite !elem_of_app in Hq.
  destruct (Z.leb_spec (GetPreemptCountFromPod (pcd_Pod v) ⊞ 1) (po_MaxRetries cfg)) as [Hle|Hle].
  - split; [done|]. rewrite andb_true_r in Hq. destruct Hq as [Hq|[Hq|Hq]].
    + case_match; [by apply elem_of_nil in Hq|by apply list_elem_of_singleton in Hq].
    + by apply list_elem_of_singleton in Hq.
    + case_match; [by apply list_elem_of_singleton in Hq as [= ->]|by apply elem_of_nil in Hq].
  - exfalso. rewrite andb_false_r in Hq. destruct Hq as [Hq|[Hq|Hq]].
    + case_match; [by apply elem_of_nil in Hq|by apply list_elem_of_singleton in Hq].
    + by apply list_elem_of_singleton in Hq.
    + by apply elem_of_nil in Hq.
Qed.

Lemma resume_pod_annotation v n k :
  annotation (buildResumePod cfg v n) k = resume_annotations cfg (pcd_Pod v) n !! k.
Proof. done. Qed.

Lemma resume_count v n p :
  in_int n → rescheduled (buildResumePod cfg v n) p → GetPreemptCountFromPod p = n.
Proof.
  intros Hn Hr. unfold GetPreemptCountFromPod, int_annotation.
  rewrite (Hr "gpu-scheduler/preempt-count") by (unfold scheduling_keys; set_solver).
  rewrite resume_pod_annotation. unfold resume_annotations.
  destruct (GetOriginalPriorityFromPod (pcd_Pod v) =? -1);
    rewrite !lookup_insert_ne, lookup_insert_eq by done; cbn; by rewrite atoi_itoa.
Qed.

Lemma resume_priority v n p :
  rescheduled (buildResumePod cfg v n) p →
  GetPriorityFromPod p (po_WorkflowCfg cfg) =
    Z.min 100 (remembered cfg (pcd_Pod v) ⊞ (n ⊠ po_PriorityBoost cfg)).
Proof.
  intros Hr. apply priority_annotation_wins. unfold int_annotation.
  rewrite (Hr "gpu-scheduler/priority") by (unfold scheduling_keys; set_solver).
  rewrite resume_pod_annotation. unfold resume_annotations, remembered.
  assert (∀ z, in_int (if wrap64 z >? 100 then 100 else wrap64 z)) as Hin.
  { intros z. case_match; [done|apply wrap64_range]. }
  assert (∀ z, (if wrap64 z >? 100 then 100 else wrap64 z) = Z.min 100 (wrap64 z)) as Hmin.
  { intros z. destruct (Z.gtb_spec (wrap64 z) 100); lia. }
  destruct (GetOriginalPriorityFromPod (pcd_Pod v) =? -1); rewrite lookup_insert_eq; cbn;
    by rewrite atoi_itoa, Hmin.
Qed.

Lemma resume_remembered v n p :
  remembered cfg (pcd_Pod v) ≠ -1 → in_int (remembered cfg (pcd_Pod v)) →
  rescheduled (buildResumePod cfg v n) p → remembered cfg p = remembered cfg (pcd_Pod v).
Proof.
  intros Hne Hin Hr.
  assert (GetOriginalPriorityFromPod p = remembered cfg (pcd_Pod v)) as E.
  { unfold GetOriginalPriorityFromPod, int_annotation.
    rewrite (Hr "gpu-scheduler/original-priority") by (unfold scheduling_keys; set_solver).
    rewrite resume_pod_annotation. unfold resume_annotations. unfold remembered in *.
    destruct (Z.eqb_spec (GetOriginalPriorityFromPod (pcd_Pod v)) (-1)) as [E|E].
    - rewrite lookup_insert_ne by done. rewrite lookup_insert_eq. cbn. by rewrite atoi_itoa.
    - rewrite !lookup_insert_ne, !lookup_delete_ne by done.
      unfold GetOriginalPriorityFromPod, int_annotation, annotation in E |- *. done. }
  unfold remembered at 1. rewrite E. by rewrite (proj2 (Z.eqb_neq _ _)).
Qed.

Lemma resumed_inv p0 n p :
  GetPreemptCountFromPod p0 = 0 → po_MaxRetries cfg < int_max →
  remembered cfg p0 ≠ -1 → in_int (remembered cfg p0) → resumed (W:=W) cfg p0 n p →
  0 ≤ n ≤ Z.max 0 (po_MaxRetries cfg) ∧ GetPreemptCountFromPod p = n ∧ remembered cfg p = remembered cfg p0 ∧
  (n = 0 ∨ GetPriorityFromPod p (po_WorkflowCfg cfg) =
    Z.min 100 (remembered cfg p0 ⊞ (n ⊠ po_PriorityBoost cfg))).
Proof.
  intros H0 Hmax Hne Hin.
  induction 1 as [|n v w w' events events' calls q p' Hp (Hn & Hc & Hrem & _) Hev Hcalls Hq Hr].
  { split_and!; auto; lia. }
  destruct (evict_creates _ _ _ _ _ _ _ Hev Hcalls Hq) as [Hle ->].
  rewrite Hc in *. assert (n ⊞ 1 = n + 1) as E by int_solve. rewrite E in *.
  split_and!; [lia|lia| | |right].
  - apply (resume_count v); [int_solve|done].
  - rewrite <-Hrem in *. by apply (resume_remembered v (n + 1)).
  - rewrite (resume_priority v (n + 1)) by done. by rewrite Hrem.
Qed.


End resume.

(** ** The name of a resumed pod *)

Lemma suffix_of_cons y c s : suffix_of y (String c s) ↔ y = String c s ∨ suffix_of y s.
Proof.
  unfold suffix_of. split.
  - intros (Hy & [|c' x] & E); [by left|]. injection E as -> ->. right. eauto.
  - intros [->|(Hy & x & ->)]; (split; [done|]); [by exists ""|by exists (String c x)].
Qed.

Lemma index_cons w c s :
  String.index 0 w (String c s) =
  if String.prefix w (String c s) then Some 0%nat else S <$> String.index 0 w s.
Proof. reflexivity. Qed.

(** The index search stops at the first suffix the word is a prefix of. *)
Lemma index_first w s m :
  w ≠ "" → String.index 0 w s = Some m →
  ∃ r, s = String.substring 0 m s ++ r ∧
    ∀ y, suffix_of y (String.substring 0 m s) → String.prefix w (y ++ r) = false.
Proof.
  intros Hw. revert m. induction s as [|c s IH]; intros m; [by destruct w|]. rewrite index_cons.
  destruct (String.prefix w (String c s)) eqn:Ep.
  { intros [= <-]. exists (String c s). split; [done|]. intros y (Hy & x & E).
    by destruct x, y. }
  destruct (String.index 0 w s) as [m'|] eqn:Ei; [|done]. intros [= <-].
  destruct (IH m' eq_refl) as (r & Er & Hr). exists r. split; [exact (f_equal (String c) Er)|].
  intros y [->|Hy]%suffix_of_cons; [|by apply Hr].
  change (String.prefix w (String c (String.substring 0 m' s ++ r)) = false). by rewrite <-Er.
Qed.

Lemma index_absent w s y :
  w ≠ "" → String.index 0 w s = None → suffix_of y s → String.prefix w y = false.
Proof.
  intros Hw. revert y. induction s as [|c s IH]; intros y.
  { intros _ (Hy & x & E). by destruct x, y. }
  rewrite index_cons.
  destruct (String.prefix w (String c s)) eqn:Ep; [done|].
  destruct (String.index 0 w s) eqn:Ei; [done|]. intros _ [->|Hy]%suffix_of_cons; [done|].
  by apply IH.
Qed.

Lemma index_at w s t :
  (∀ y, suffix_of y s → String.prefix w (y ++ t) = false) → String.prefix w t = true →
  String.index 0 w (s ++ t) = Some (String.length s).
Proof.
  intros Hs Ht. induction s as [|c s IH].
  - destruct t; [by destruct w|]. change ("" ++ String a t) with (String a t).
    by rewrite index_cons, Ht.
  - pose proof (Hs (String c s) ltac:(by apply suffix_of_cons; left)) as Hc.
    change (String c s ++ t) with (String c (s ++ t)) in *. rewrite index_cons, Hc.
    rewrite IH; [done|]. intros y Hy. apply Hs. apply suffix_of_cons. by right.
Qed.

#[local] Arguments String.append : simpl nomatch.

Lemma prefix_cons a p b s :
  String.prefix (String a p) (String b s) = if ascii_dec a b then String.prefix p s else false.
Proof. reflexivity. Qed.

Lemma prefix_nil s : String.prefix "" s = true.
Proof. by destruct s. Qed.

(** The word overlaps itself only in its dash. *)
Lemma resume_sep_overlap y t d :
  y ≠ "" → y ≠ "-resume" → String.prefix resume_sep (y ++ t) = false →
  String.prefix resume_sep (y ++ resume_sep ++ d) = false.
Proof.
  intros H0 H7. unfold resume_sep.
  destruct y as [|a1 [|a2 [|a3 [|a4 [|a5 [|a6 [|a7 [|a8 y]]]]]]]]; [done|..|]; cbn [String.append].
  all: rewrite !prefix_cons; repeat (case_decide || case_match; subst; try done).
  by rewrite !prefix_nil.
Qed.

Lemma substring_app s t : String.substring 0 (String.length s) (s ++ t) = s.
Proof. induction s as [|c s IH]; cbn; [by destruct t|]. by rewrite IH. Qed.

(** Names do not pile up. The replacement of a replacement is named after the
    same base: unless the base itself ends in [-resume], cutting the name of a
    resumed pod at its first [-resume-] gives the base back. *)
Theorem resume_name_stable cfg v n :
  (∀ x, resume_base (pod_Name (pcd_Pod v)) ≠ x ++ "-resume") →
  resume_base (pod_Name (buildResumePod cfg v n)) = resume_base (pod_Name (pcd_Pod v)).
Proof.
  set (name := pod_Name (pcd_Pod v)). intros Hbase. cbn [pod_Name buildResumePod]. fold name.
  set (base := resume_base name) in *.
  assert (∃ r, ∀ y, suffix_of y base → String.prefix resume_sep (y ++ r) = false) as [r Hr].
  { unfold base, resume_base, str_index. destruct (String.index 0 resume_sep name) as [m|] eqn:E.
    - apply index_first in E as (r & _ & Hr); [eauto|done].
    - exists "". intros y Hy. rewrite str_app_nil_r. by apply (index_absent _ name). }
  unfold resume_base at 1, str_index. change ("-resume-" ++ itoa n) with (resume_sep ++ itoa n).
  rewrite (index_at resume_sep base (resume_sep ++ itoa n)).
  - apply substring_app.
  - intros y Hy. apply (resume_sep_overlap y r); [by destruct Hy| |by apply Hr].
    intros ->. destruct Hy as (_ & x & E). by apply (Hbase x).
  - apply prefix_app. eauto.
Qed.

(** A base that does end in [-resume] is cut further at the second resumption. *)
Lemma resume_name_drifts :
  let p name := mkPreemptionCandidate (sample_pod "ml" name []) 10 "training" true [] "" 0 in
  pod_Name (buildResumePod sample_preempt_cfg (p "job-resume") 1) = "job-resume-resume-1" ∧
  pod_Name (buildResumePod sample_preempt_cfg (p "job-resume-resume-1") 2) = "job-resume-2".
Proof. split; reflexivity. Qed.

Lemma resume_name_stable_witness :
  pod_Name (buildResumePod sample_preempt_cfg
    (sample_candidate "train-resume-1" "training" 10 1000) 2) = "train-resume-2" ∧
  resume_base "train-resume-2" = resume_base "train-resume-1".
Proof.
  split; [reflexivity|].
  refine (resume_name_stable sample_preempt_cfg (sample_candidate "train-resume-1" "training" 10 1000) 2 _).
  intros x E. change (resume_base _) with "train" in E.
  pose proof (f_equal String.length E) as El. rewrite str_length_app in El. cbn in El. lia.
Defined.

