(* ===== verification/Rebalancer.v ===== *)
(** * internal/scheduler/rebalancer.go: deciding when to scale a model group

    [Evaluate] is one tick of a state machine per model group: it updates how
    long the group has been in its pressure state, then decides whether to add
    or remove a worker.  The state of a group lives behind a pointer that only
    the rebalancer holds, so the map of states is a map of values. *)

From Stdlib Require Import ZArith Lia String.
From stdpp Require Import base option list strings gmap sorting.
From S2P Require Import Prelude GoFloat GoStrings Types Config.
Open Scope string_scope.
Open Scope Z_scope.
Open Scope go_scope.

Record ModelGroupRebalanceState : Type := mkState {
  prefillHotSince : Time;
  decodeHotSince : Time;
  normalSince : Time;
  lastActionAt : Time
}.

Definition zeroState : ModelGroupRebalanceState := mkState 0 0 0 0.

Definition set_lastActionAt (t : Time) (s : ModelGroupRebalanceState) : ModelGroupRebalanceState :=
  mkState (prefillHotSince s) (decodeHotSince s) (normalSince s) t.

Inductive RebalancerDecision : Type :=
  | NoAction | ScaleBoth | AddPrefill | AddDecode | RemovePrefill | RemoveDecode.

#[export] Instance RebalancerDecision_eq_dec : EqDecision RebalancerDecision.
Proof. solve_decision. Defined.

Inductive RebalancerDecisionReason : Type :=
  | ReasonDisabled | ReasonModelGroupMismatch | ReasonNoWorkers | ReasonNormal
  | ReasonScaleUpDisabled | ReasonScaleDownDisabled | ReasonUnifiedHot | ReasonPrefillHot
  | ReasonDecodeHot | ReasonAtMaxPrefill | ReasonAtMaxDecode | ReasonExtraPrefillNormal
  | ReasonExtraDecodeNormal | ReasonThresholdNotMet | ReasonNotSustained | ReasonCooldown.

Record RebalancerDecisionResult : Type := mkDecision {
  rd_Action : RebalancerDecision;
  rd_Reason : RebalancerDecisionReason;
  rd_DryRun : bool
}.

Record ModelGroupPolicy : Type := mkPolicy {
  mp_Name : string;
  mp_TTFTHotMs : Z;
  mp_ITLHotMs : Z;
  mp_MaxPrefillWorkers : Z;
  mp_MaxDecodeWorkers : Z;
  mp_ExecutionScript : string
}.

Record Rebalancer : Type := mkRebalancer {
  rb_Enabled : bool;
  rb_DryRun : bool;
  rb_TickIntervalSeconds : Z;
  rb_SustainWindowSeconds : Z;
  rb_CooldownSeconds : Z;
  rb_AllowScaleUp : bool;
  rb_AllowScaleDown : bool;
  rb_DrainTimeoutSeconds : Z;
  rb_ModelGroupPolicies : list ModelGroupPolicy;
  rb_modelGroupStates : gmap string ModelGroupRebalanceState
}.

Definition set_states (m : gmap string ModelGroupRebalanceState) (r : Rebalancer) : Rebalancer :=
  mkRebalancer (rb_Enabled r) (rb_DryRun r) (rb_TickIntervalSeconds r) (rb_SustainWindowSeconds r)
    (rb_CooldownSeconds r) (rb_AllowScaleUp r) (rb_AllowScaleDown r) (rb_DrainTimeoutSeconds r)
    (rb_ModelGroupPolicies r) m.

Definition decision (r : Rebalancer) (action : RebalancerDecision) (reason : RebalancerDecisionReason) :
    RebalancerDecisionResult := mkDecision action reason (rb_DryRun r).

(** The map gains a fresh state for an unknown group; [Evaluate] writes the
    state it reads back under the same key. *)
Definition getStateFor (r : Rebalancer) (modelGroup : string) : ModelGroupRebalanceState :=
  default zeroState (rb_modelGroupStates r !! modelGroup).

Definition sustainedSince (r : Rebalancer) (since now : Time) : bool :=
  if IsZero since then false
  else time_sub now since >=? seconds (rb_SustainWindowSeconds r).

Definition inCooldown (r : Rebalancer) (state : ModelGroupRebalanceState) (now : Time) : bool :=
  if IsZero (lastActionAt state) then false
  else time_sub now (lastActionAt state) <? seconds (rb_CooldownSeconds r).

(** The first switch of [Evaluate]. *)
Definition update_pressure (pressureState : string) (now : Time) (s : ModelGroupRebalanceState) :
    ModelGroupRebalanceState :=
  if String.eqb pressureState Normal then
    mkState 0 0 (if IsZero (normalSince s) then now else normalSince s) (lastActionAt s)
  else if String.eqb pressureState DecodeHot then
    mkState 0 (if IsZero (decodeHotSince s) then now else decodeHotSince s) 0 (lastActionAt s)
  else if String.eqb pressureState PrefillHot then
    mkState (if IsZero (prefillHotSince s) then now else prefillHotSince s) 0 0 (lastActionAt s)
  else mkState 0 0 0 (lastActionAt s).

Definition count_role (role : string) (workers : list WorkerInfo) : Z :=
  Z.of_nat (length (List.filter (λ w, String.eqb (wi_Role w) role) workers)).

(** The decision tree on the updated state; the boolean says whether
    [lastActionAt] is set to [now]. *)
Definition decide_action (r : Rebalancer) (policy : ModelGroupPolicy) (report : PressureReport)
    (workers : list WorkerInfo) (now : Time) (state : ModelGroupRebalanceState) :
    RebalancerDecision * RebalancerDecisionReason :=
  let unified := count_role Unified workers in
  let prefill := count_role Prefill workers in
  let decode := count_role Decode workers in
  let ps := pr_PressureState report in
  if (unified =? 1) && (prefill =? 0) && (decode =? 0) then
    if String.eqb ps Normal then (NoAction, ReasonNormal)
    else if negb (rb_AllowScaleUp r) then (NoAction, ReasonScaleUpDisabled)
    else if prefill >=? mp_MaxPrefillWorkers policy then (NoAction, ReasonAtMaxPrefill)
    else if decode >=? mp_MaxDecodeWorkers policy then (NoAction, ReasonAtMaxDecode)
    else if String.eqb ps PrefillHot && negb (sustainedSince r (prefillHotSince state) now)
    then (NoAction, ReasonNotSustained)
    else if String.eqb ps DecodeHot && negb (sustainedSince r (decodeHotSince state) now)
    then (NoAction, ReasonNotSustained)
    else if inCooldown r state now then (NoAction, ReasonCooldown)
    else (ScaleBoth, ReasonUnifiedHot)
  else if String.eqb ps DecodeHot then
    if negb (rb_AllowScaleUp r) then (NoAction, ReasonScaleUpDisabled)
    else if f64_leb (pr_ITLP95 report) (f64_of_int (mp_ITLHotMs policy))
    then (NoAction, ReasonThresholdNotMet)
    else if decode >=? mp_MaxDecodeWorkers policy then (NoAction, ReasonAtMaxDecode)
    else if negb (sustainedSince r (decodeHotSince state) now) then (NoAction, ReasonNotSustained)
    else if inCooldown r state now then (NoAction, ReasonCooldown)
    else (AddDecode, ReasonDecodeHot)
  else if String.eqb ps PrefillHot then
    if negb (rb_AllowScaleUp r) then (NoAction, ReasonScaleUpDisabled)
    else if f64_leb (pr_TTFTP95 report) (f64_of_int (mp_TTFTHotMs policy))
    then (NoAction, ReasonThresholdNotMet)
    else if prefill >=? mp_MaxPrefillWorkers policy then (NoAction, ReasonAtMaxPrefill)
    else if negb (sustainedSince r (prefillHotSince state) now) then (NoAction, ReasonNotSustained)
    else if inCooldown r state now then (NoAction, ReasonCooldown)
    else (AddPrefill, ReasonPrefillHot)
  else if String.eqb ps Normal then
    if ((decode >? 1) || (prefill >? 1)) && negb (sustainedSince r (normalSince state) now)
    then (NoAction, ReasonNotSustained)
    else if (decode >? 1) && rb_AllowScaleDown r then
      if inCooldown r state now then (NoAction, ReasonCooldown)
      else (RemoveDecode, ReasonExtraDecodeNormal)
    else if (prefill >? 1) && rb_AllowScaleDown r then
      if inCooldown r state now then (NoAction, ReasonCooldown)
      else (RemovePrefill, ReasonExtraPrefillNormal)
    else if ((decode >? 1) || (prefill >? 1)) && negb (rb_AllowScaleDown r)
    then (NoAction, ReasonScaleDownDisabled)
    else (NoAction, ReasonNormal)
  else (NoAction, ReasonNormal).

(** Every branch that returns an action first sets [state.lastActionAt = now]. *)
Definition Evaluate (r : Rebalancer) (policy : ModelGroupPolicy) (report : PressureReport)
    (workers : list WorkerInfo) (now : Time) : Rebalancer * RebalancerDecisionResult :=
  if negb (rb_Enabled r) then (r, decision r NoAction ReasonDisabled)
  else if negb (String.eqb (pr_ModelGroup report) (mp_Name policy))
  then (r, decision r NoAction ReasonModelGroupMismatch)
  else if Z.of_nat (length workers) <=? 0 then (r, decision r NoAction ReasonNoWorkers)
  else
    let state := update_pressure (pr_PressureState report) now (getStateFor r (mp_Name policy)) in
    let '(action, reason) := decide_action r policy report workers now state in
    let state' := if decide (action = NoAction) then state else set_lastActionAt now state in
    (set_states (<[mp_Name policy := state']> (rb_modelGroupStates r)) r, decision r action reason).

Definition policy_of (mg : ModelGroups) : ModelGroupPolicy :=
  mkPolicy (mg_Name mg) (mg_TTFTHotMs mg) (mg_ITLHotMs mg) (mg_MaxPrefillWorkers mg)
    (mg_MaxDecodeWorkers mg) (mg_ExecutionScript mg).

Definition NewRebalancer (cfg : Config) : Rebalancer :=
  let c := cfg_Rebalancing cfg in
  mkRebalancer (rc_Enabled c) (rc_DryRun c) (rc_TickIntervalSeconds c) (rc_SustainWindowSeconds c)
    (rc_CooldownSeconds c) (rc_AllowScaleUp c) (rc_AllowScaleDown c) (rc_DrainTimeoutSeconds c)
    (policy_of <$> rc_ModelGroups c)
    (foldl (λ m mg, <[mg_Name mg := zeroState]> m) ∅ (rc_ModelGroups c)).

(** ** Histories *)
Record eval_input : Type := mkEval {
  ev_policy : ModelGroupPolicy;
  ev_report : PressureReport;
  ev_workers : list WorkerInfo;
  ev_now : Time
}.

Fixpoint run_evals (r : Rebalancer) (evs : list eval_input) :
    Rebalancer * list (eval_input * RebalancerDecision) :=
  match evs with
  | [] => (r, [])
  | e :: evs' =>
      let '(r1, d) := Evaluate r (ev_policy e) (ev_report e) (ev_workers e) (ev_now e) in
      let '(r2, h) := run_evals r1 evs' in
      (r2, (e, rd_Action d) :: h)
  end.

(** ** Specification *)

(** The conditions for an action, the pressure being [ps] and its start [since]. *)
Definition sustained (r : Rebalancer) (since now : Time) : Prop :=
  since ≠ 0 ∧ seconds (rb_SustainWindowSeconds r) ≤ time_sub now since.

Definition justified (r : Rebalancer) (policy : ModelGroupPolicy) (report : PressureReport)
    (workers : list WorkerInfo) (now : Time) (s : ModelGroupRebalanceState)
    (a : RebalancerDecision) : Prop :=
  let unified := count_role Unified workers in
  let prefill := count_role Prefill workers in
  let decode := count_role Decode workers in
  let ps := pr_PressureState report in
  let lone := unified = 1 ∧ prefill = 0 ∧ decode = 0 in
  match a with
  | NoAction => True
  | ScaleBoth => lone ∧ ps ≠ Normal ∧ rb_AllowScaleUp r = true ∧
      0 < mp_MaxPrefillWorkers policy ∧ 0 < mp_MaxDecodeWorkers policy ∧
      (ps = PrefillHot → sustained r (prefillHotSince s) now) ∧
      (ps = DecodeHot → sustained r (decodeHotSince s) now)
  | AddDecode => ¬ lone ∧ ps = DecodeHot ∧ rb_AllowScaleUp r = true ∧
      f64_leb (pr_ITLP95 report) (f64_of_int (mp_ITLHotMs policy)) = false ∧
      decode < mp_MaxDecodeWorkers policy ∧ sustained r (decodeHotSince s) now
  | AddPrefill => ¬ lone ∧ ps = PrefillHot ∧ rb_AllowScaleUp r = true ∧
      f64_leb (pr_TTFTP95 report) (f64_of_int (mp_TTFTHotMs policy)) = false ∧
      prefill < mp_MaxPrefillWorkers policy ∧ sustained r (prefillHotSince s) now
  | RemoveDecode => ps = Normal ∧ rb_AllowScaleDown r = true ∧ 1 < decode ∧
      sustained r (normalSince s) now
  | RemovePrefill => ps = Normal ∧ rb_AllowScaleDown r = true ∧ 1 < prefill ∧ decode ≤ 1 ∧
      sustained r (normalSince s) now
  end.

(** An evaluation that reaches the state of its group. *)
Definition effective (g : string) (e : eval_input) : Prop :=
  mp_Name (ev_policy e) = g ∧ pr_ModelGroup (ev_report e) = g ∧ ev_workers e ≠ [].

(** The group has been in pressure state [ps] since [since] in history [h]. *)
Definition streak (h : list (eval_input * RebalancerDecision)) (g ps : string) (since : Time) : Prop :=
  ∃ h1 e h2, h = (h1 ++ e :: h2)%list ∧ effective g e.1 ∧ ev_now e.1 = since ∧
    Forall (λ x, effective g x.1 → pr_PressureState (ev_report x.1) = ps) (e :: h2).

(** The pressure state an action answers. *)
Definition answers (a : RebalancerDecision) (ps : string) : Prop :=
  match a with
  | NoAction => False
  | ScaleBoth => ps ≠ Normal
  | AddPrefill => ps = PrefillHot
  | AddDecode => ps = DecodeHot
  | RemovePrefill | RemoveDecode => ps = Normal
  end.

(** Clocks do not run backwards and are never the zero time. *)
Definition clock_ok (evs : list eval_input) : Prop :=
  StronglySorted (λ a b, ev_now a ≤ ev_now b) evs ∧ Forall (λ e, 0 < ev_now e) evs.

Definition group_inv (h : list (eval_input * RebalancerDecision)) (g : string)
    (s : ModelGroupRebalanceState) : Prop :=
  (∀ x, x ∈ h → mp_Name (ev_policy x.1) = g → x.2 ≠ NoAction →
     lastActionAt s ≠ 0 ∧ ev_now x.1 ≤ lastActionAt s) ∧
  (lastActionAt s ≠ 0 → ∃ x, x ∈ h ∧ ev_now x.1 = lastActionAt s) ∧
  (prefillHotSince s ≠ 0 → streak h g PrefillHot (prefillHotSince s)) ∧
  (decodeHotSince s ≠ 0 → streak h g DecodeHot (decodeHotSince s)) ∧
  (normalSince s ≠ 0 → streak h g Normal (normalSince s)).

Definition same_settings (r r' : Rebalancer) : Prop :=
  rb_Enabled r' = rb_Enabled r ∧ rb_SustainWindowSeconds r' = rb_SustainWindowSeconds r ∧
  rb_CooldownSeconds r' = rb_CooldownSeconds r ∧ rb_AllowScaleUp r' = rb_AllowScaleUp r ∧
  rb_AllowScaleDown r' = rb_AllowScaleDown r.

(** ** Examples *)
Definition sample_policy : ModelGroupPolicy := mkPolicy "llama" 500 50 4 4 "".

Definition sample_config : Config :=
  mkConfig (mkSchedulerConfig "gpu-scheduler" 8080 9090 "agent" 60 true 300 30 3 10)
    (mkQueueConfig 100 "binpack") (mkWorkflowConfig true true 50 []) (mkGPUConfig 5 true) (mkKubernetesConfig "" "default")
    (mkLoggingConfig "info" "json") (mkProxyConfig false 8000 "")
    (mkRebalancingConfig true false 5 10 60 30 true true [mkModelGroups "llama" 500 50 4 4 ""]).

Definition sample_worker (id role : string) : WorkerInfo :=
  mkWorkerInfo id role Ready true true "http://w" "llama".

Definition sample_eval (ps : string) (workers : list WorkerInfo) (now : Z) : eval_input :=
  mkEval sample_policy (mkPressureReport "llama" 0 f64_zero f64_zero (f64_of_int 100) ps) workers
    (seconds now).

(** A decode-hot group: it acts at 110 s and, after the cooldown, at 180 s. *)
Definition sample_workers : list WorkerInfo := [sample_worker "p0" Prefill; sample_worker "d0" Decode].

Definition sample_history : list eval_input :=
  (λ t, sample_eval DecodeHot sample_workers t) <$> [100; 105; 110; 130; 180].

(** ** Lemmas on one evaluation *)
Lemma sustainedSince_true r since now :
  sustainedSince r since now = true ↔ sustained r since now.
Proof.
  unfold sustainedSince, sustained, IsZero. rewrite Z.geb_leb.
  destruct (Z.eqb_spec since 0); [naive_solver|]. rewrite Z.leb_le. naive_solver.
Qed.

Lemma decide_action_sound r policy report workers now s a reason :
  decide_action r policy report workers now s = (a, reason) →
  justified r policy report workers now s a ∧ (a ≠ NoAction → inCooldown r s now = false).
Proof.
  unfold decide_action, justified. rewrite !Z.geb_leb, !Z.gtb_ltb.
  set (u := count_role Unified workers). set (p := count_role Prefill workers).
  set (d := count_role Decode workers).
  assert ((u =? 1) && (p =? 0) && (d =? 0) = true ↔ u = 1 ∧ p = 0 ∧ d = 0) as Hlone
    by (rewrite !andb_true_iff, !Z.eqb_eq; tauto).
  destruct ((u =? 1) && (p =? 0) && (d =? 0)).
  - apply proj1 in Hlone. specialize (Hlone eq_refl).
    destruct (String.eqb_spec (pr_PressureState report) Normal); [by intros [= <- <-]|].
    destruct (rb_AllowScaleUp r); cbn [negb]; [|by intros [= <- <-]].
    destruct (Z.leb_spec (mp_MaxPrefillWorkers policy) p); [by intros [= <- <-]|].
    destruct (Z.leb_spec (mp_MaxDecodeWorkers policy) d); [by intros [= <- <-]|].
    destruct (String.eqb_spec (pr_PressureState report) PrefillHot) as [E1|E1],
      (sustainedSince r (prefillHotSince s) now) eqn:S1,
      (String.eqb_spec (pr_PressureState report) DecodeHot) as [E2|E2],
      (sustainedSince r (decodeHotSince s) now) eqn:S2; cbn [andb negb];
      try (by intros [= <- <-]);
      (destruct (inCooldown r s now); [by intros [= <- <-]|]); intros [= <- <-];
      (split; [|done]); split_and!; try done; try lia; try (intros _; by apply sustainedSince_true).
  - assert (¬ (u = 1 ∧ p = 0 ∧ d = 0)) as Hnl by (intros ?%Hlone; done).
    destruct (String.eqb_spec (pr_PressureState report) DecodeHot) as [E2|E2].
    { destruct (rb_AllowScaleUp r); cbn [negb]; [|by intros [= <- <-]].
      destruct (f64_leb _ _) eqn:Ef; [by intros [= <- <-]|].
      destruct (Z.leb_spec (mp_MaxDecodeWorkers policy) d); [by intros [= <- <-]|].
      destruct (sustainedSince _ _ _) eqn:S2; cbn [negb]; [|by intros [= <- <-]].
      apply sustainedSince_true in S2.
      destruct (inCooldown r s now); intros [= <- <-]; done. }
    destruct (String.eqb_spec (pr_PressureState report) PrefillHot) as [E1|E1].
    { destruct (rb_AllowScaleUp r); cbn [negb]; [|by intros [= <- <-]].
      destruct (f64_leb _ _) eqn:Ef; [by intros [= <- <-]|].
      destruct (Z.leb_spec (mp_MaxPrefillWorkers policy) p); [by intros [= <- <-]|].
      destruct (sustainedSince _ _ _) eqn:S2; cbn [negb]; [|by intros [= <- <-]].
      apply sustainedSince_true in S2.
      destruct (inCooldown r s now); intros [= <- <-]; done. }
    destruct (String.eqb_spec (pr_PressureState report) Normal) as [E0|E0]; [|by intros [= <- <-]].
    destruct (sustainedSince _ _ _) eqn:S0; cbn [negb]; rewrite ?andb_true_r, ?andb_false_r.
    + apply sustainedSince_true in S0.
      destruct (Z.ltb_spec 1 d), (Z.ltb_spec 1 p), (rb_AllowScaleDown r), (inCooldown r s now);
        cbn; intros [= <- <-]; done.
    + destruct (Z.ltb_spec 1 d), (Z.ltb_spec 1 p), (rb_AllowScaleDown r), (inCooldown r s now);
        cbn; intros [= <- <-]; done.
Qed.

Lemma update_pressure_last ps now s : lastActionAt (update_pressure ps now s) = lastActionAt s.
Proof. unfold update_pressure. by repeat case_match. Qed.

(** How one evaluation changes the rebalancer. *)
Lemma Evaluate_cases r e r' d :
  Evaluate r (ev_policy e) (ev_report e) (ev_workers e) (ev_now e) = (r', d) →
  let g := mp_Name (ev_policy e) in
  let s := update_pressure (pr_PressureState (ev_report e)) (ev_now e) (getStateFor r g) in
  same_settings r r' ∧ (∀ g', g' ≠ g → getStateFor r' g' = getStateFor r g') ∧
  (rd_Action d = NoAction ∧ r' = r ∧ (rb_Enabled r = false ∨ ¬ effective g e) ∨
   rb_Enabled r = true ∧ effective g e ∧
   decide_action r (ev_policy e) (ev_report e) (ev_workers e) (ev_now e) s = (rd_Action d, rd_Reason d) ∧
   getStateFor r' g = if decide (rd_Action d = NoAction) then s else set_lastActionAt (ev_now e) s).
Proof.
  unfold Evaluate, effective. intros He.
  destruct (rb_Enabled r) eqn:En; cbn [negb] in He; [|injection He as <- <-; do 2 (split; [done|]); by left; auto].
  destruct (String.eqb_spec (pr_ModelGroup (ev_report e)) (mp_Name (ev_policy e))) as [Eg|Eg];
    cbn [negb] in He; [|injection He as <- <-; do 2 (split; [done|]); left; do 2 (split; [done|]); tauto].
  destruct (Z.leb_spec (Z.of_nat (length (ev_workers e))) 0) as [Hw|Hw].
  { injection He as <- <-. do 2 (split; [done|]). left. do 2 (split; [done|]). right.
    intros (_ & _ & Hne). apply Hne. destruct (ev_workers e); [done|cbn in Hw; lia]. }
  cbn zeta. destruct (decide_action _ _ _ _ _ _) as [a reason] eqn:Ed. injection He as <- <-.
  split_and!; [done| |right].
  - intros g' Hg'. unfold getStateFor. cbn. by rewrite lookup_insert_ne.
  - split_and!; try done.
    + destruct (ev_workers e); [cbn in Hw; lia|done].
    + unfold getStateFor. cbn. by rewrite lookup_insert_eq.
Qed.

(** An action is always justified. When [Evaluate] acts, the rebalancer is
    enabled, the report is about the policy's group and the group has workers;
    scaling up is allowed and below its limit, or scaling down is allowed and
    leaves a worker; the threshold is exceeded; the group is not in cooldown;
    and the time of the action is recorded. When it does not act, the time of
    the group's last action is untouched; other groups never change. *)
Theorem Evaluate_justified r e r' d :
  Evaluate r (ev_policy e) (ev_report e) (ev_workers e) (ev_now e) = (r', d) →
  let g := mp_Name (ev_policy e) in
  let s := update_pressure (pr_PressureState (ev_report e)) (ev_now e) (getStateFor r g) in
  (rd_Action d ≠ NoAction →
     rb_Enabled r = true ∧ effective g e ∧
     justified r (ev_policy e) (ev_report e) (ev_workers e) (ev_now e) s (rd_Action d) ∧
     (lastActionAt (getStateFor r g) ≠ 0 →
        seconds (rb_CooldownSeconds r) ≤ time_sub (ev_now e) (lastActionAt (getStateFor r g)))) ∧
  lastActionAt (getStateFor r' g) =
    (if decide (rd_Action d = NoAction) then lastActionAt (getStateFor r g) else ev_now e) ∧
  ∀ g', g' ≠ g → getStateFor r' g' = getStateFor r g'.
Proof.
  intros He g s. apply Evaluate_cases in He as (_ & Hother & Hcase). fold g s in Hcase.
  destruct Hcase as [(Ha & -> & _)|(En & Heff & Hd & Hs)].
  - rewrite Ha. split; [done|]. split; [by rewrite decide_True|done].
  - apply decide_action_sound in Hd as [Hj Hc]. split; [|split; [|done]].
    + intros Ha. split_and!; try done. intros Hl. specialize (Hc Ha). unfold inCooldown in Hc.
      unfold s in Hc. rewrite update_pressure_last in Hc. unfold IsZero in Hc.
      rewrite (proj2 (Z.eqb_neq _ _) Hl) in Hc. by apply Z.ltb_ge in Hc.
    + rewrite Hs. case_decide; [|done]. unfold s. by rewrite update_pressure_last.
Qed.

(** ** Lemmas on histories *)
Lemma run_evals_snoc r evs e :
  run_evals r (evs ++ [e]) =
  let '(r1, h) := run_evals r evs in
  let '(r2, d) := Evaluate r1 (ev_policy e) (ev_report e) (ev_workers e) (ev_now e) in
  (r2, (h ++ [(e, rd_Action d)])%list).
Proof.
  revert r. induction evs as [|e0 evs IH]; intros r; cbn.
  - by destruct (Evaluate _ _ _ _ _).
  - destruct (Evaluate r _ _ _ _) as [r1 d1]. rewrite IH. destruct (run_evals r1 evs) as [r2 h].
    by destruct (Evaluate r2 _ _ _ _).
Qed.

Lemma run_evals_inputs r evs r' h : run_evals r evs = (r', h) → h.*1 = evs.
Proof.
  revert r r' h. induction evs as [|e evs IH]; intros r r' h; cbn; [by intros [= <- <-]|].
  destruct (Evaluate r _ _ _ _) as [r1 d1]. destruct (run_evals r1 evs) as [r2 h2] eqn:E.
  intros [= <- <-]. cbn. by rewrite (IH _ _ _ E).
Qed.

Lemma streak_snoc_skip h g ps since x :
  streak h g ps since → (effective g x.1 → pr_PressureState (ev_report x.1) = ps) →
  streak (h ++ [x]) g ps since.
Proof.
  intros (h1 & e & h2 & -> & He & Ht & Hall) Hx. exists h1, e, (h2 ++ [x])%list.
  split_and!; [by rewrite <-(assoc app)|done|done|]. rewrite app_comm_cons. apply Forall_app. split; [done|].
  by repeat constructor.
Qed.

Lemma streak_start h g x :
  effective g x.1 →
  streak (h ++ [x]) g (pr_PressureState (ev_report x.1)) (ev_now x.1).
Proof. intros He. exists h, x, []. split_and!; try done. by repeat constructor. Qed.

(** The field for the current pressure after the update, when it is set. *)
Lemma streak_update h g x ps since :
  effective g x.1 → pr_PressureState (ev_report x.1) = ps →
  (since ≠ 0 → streak h g ps since) →
  streak (h ++ [x]) g ps (if IsZero since then ev_now x.1 else since).
Proof.
  intros He Hps Hs. unfold IsZero. destruct (Z.eqb_spec since 0) as [->|Hn].
  - rewrite <-Hps. by apply streak_start.
  - apply streak_snoc_skip; auto.
Qed.

Lemma group_inv_other h g s x :
  group_inv h g s → ¬ effective g x.1 → (mp_Name (ev_policy x.1) = g → x.2 = NoAction) →
  group_inv (h ++ [x]) g s.
Proof.
  intros (H1 & H2 & H3 & H4 & H5) Hne Ha.
  assert (∀ ps since, streak h g ps since → streak (h ++ [x]) g ps since) as Hskip
    by (intros; by apply streak_snoc_skip).
  split_and!; auto.
  - intros y Hy Hg Hy2. apply elem_of_app in Hy as [Hy|Hy]; [by eapply H1|].
    apply list_elem_of_singleton in Hy as ->. by destruct (Hy2 (Ha Hg)).
  - intros Hl. destruct (H2 Hl) as (y & ? & ?). exists y. split; [by apply elem_of_app; left|done].
Qed.

Lemma group_inv_step h g s x a :
  group_inv h g s → effective g x → (∀ y, y ∈ h → ev_now y.1 ≤ ev_now x) → 0 < ev_now x →
  let s' := update_pressure (pr_PressureState (ev_report x)) (ev_now x) s in
  group_inv (h ++ [(x, a)]) g (if decide (a = NoAction) then s' else set_lastActionAt (ev_now x) s').
Proof.
  intros (H1 & H2 & H3 & H4 & H5) He Hclock Hpos s'.
  set (sf := if decide (a = NoAction) then s' else set_lastActionAt (ev_now x) s').
  assert (prefillHotSince sf = prefillHotSince s' ∧ decodeHotSince sf = decodeHotSince s' ∧
    normalSince sf = normalSince s') as (F1 & F2 & F3) by (unfold sf; by case_decide).
  assert (lastActionAt sf = if decide (a = NoAction) then lastActionAt s else ev_now x) as Hlast.
  { unfold sf, s'. case_decide; [apply update_pressure_last|done]. }
  assert (lastActionAt s ≠ 0 → lastActionAt s ≤ ev_now x) as Hle.
  { intros Hl. destruct (H2 Hl) as (y & Hy & <-). by apply Hclock. }
  unfold group_inv. rewrite F1, F2, F3. split; [|split].
  - intros y Hy Hg Ha. rewrite Hlast. apply elem_of_app in Hy as [Hy|Hy]; [|apply list_elem_of_singleton in Hy as ->].
    + destruct (H1 y Hy Hg Ha). case_decide; [done|]. specialize (Hclock y Hy). lia.
    + cbn in Ha. rewrite decide_False by done. cbn. lia.
  - rewrite Hlast. case_decide as Ha.
    + intros Hl. destruct (H2 Hl) as (y & ? & ?). exists y. split; [by apply elem_of_app; left|done].
    + intros _. exists (x, a). split; [|done]. apply elem_of_app. right. by apply list_elem_of_singleton.
  - unfold s', update_pressure.
    destruct (String.eqb_spec (pr_PressureState (ev_report x)) Normal) as [E|E];
      [|destruct (String.eqb_spec (pr_PressureState (ev_report x)) DecodeHot) as [E'|E'];
        [|destruct (String.eqb_spec (pr_PressureState (ev_report x)) PrefillHot) as [E''|E'']]];
      cbn; split_and!; try done; intros _; by apply (streak_update h g (x, a)).
Qed.

Lemma new_rebalancer_state cfg g : getStateFor (NewRebalancer cfg) g = zeroState.
Proof.
  unfold getStateFor. cbn.
  assert (∀ l (m : gmap string ModelGroupRebalanceState),
    (∀ k, default zeroState (m !! k) = zeroState) →
    default zeroState (foldl (λ m mg, <[mg_Name mg := zeroState]> m) m l !! g) = zeroState) as Hl.
  { induction l as [|mg l IH]; intros m Hm; cbn; [done|]. apply IH. intros k.
    destruct (decide (k = mg_Name mg)) as [->|]; [by rewrite lookup_insert_eq|by rewrite lookup_insert_ne]. }
  apply Hl. intros k. by rewrite lookup_empty.
Qed.

Lemma run_evals_disabled r evs :
  rb_Enabled r = false → run_evals r evs = (r, (λ e, (e, NoAction)) <$> evs).
Proof.
  intros Hen. induction evs as [|e evs IH]; cbn; [done|].
  unfold Evaluate at 1. rewrite Hen. cbn [negb]. by rewrite IH.
Qed.

(** The invariant holds along every history of a fresh rebalancer. *)
Lemma run_evals_inv cfg evs r h :
  clock_ok evs → run_evals (NewRebalancer cfg) evs = (r, h) →
  same_settings (NewRebalancer cfg) r ∧ ∀ g, group_inv h g (getStateFor r g).
Proof.
  intros Hclock Hrun. destruct (rb_Enabled (NewRebalancer cfg)) eqn:Hen.
  2: { pose proof (run_evals_disabled _ evs Hen) as Hd. rewrite Hrun in Hd. injection Hd as -> ->.
    split; [done|]. intros g. rewrite new_rebalancer_state. split; [|done].
    intros x (e & -> & _)%list_elem_of_fmap _ Ha. by destruct Ha. }
  revert r h Hclock Hrun.
  induction evs as [|e evs IH] using rev_ind; intros r h Hclock; cbn.
  { intros [= <- <-]. split; [done|]. intros g. rewrite new_rebalancer_state.
    split; [|done]. intros x Hx. by apply elem_of_nil in Hx. }
  destruct Hclock as [Hs Hp]. apply StronglySorted_app in Hs as (Hle & Hs & _).
  apply Forall_app in Hp as [Hp He]. apply Forall_cons in He as [He _].
  rewrite run_evals_snoc. destruct (run_evals _ evs) as [r1 h1] eqn:E1.
  destruct (Evaluate r1 _ _ _ _) as [r2 d] eqn:E2. intros [= <- <-].
  destruct (IH r1 h1 (conj Hs Hp) eq_refl) as [Hset Hinv].
  assert (∀ y, y ∈ h1 → ev_now y.1 ≤ ev_now e) as Hnow.
  { intros y Hy. apply Hle; [|by apply list_elem_of_singleton].
    rewrite <-(run_evals_inputs _ _ _ _ E1). by apply list_elem_of_fmap_2. }
  apply Evaluate_cases in E2 as (Hset2 & Hother & Hcase). split.
  { unfold same_settings in *. destruct_and! Hset. destruct_and! Hset2. split_and!; congruence. }
  intros g. destruct (decide (g = mp_Name (ev_policy e))) as [->|Hg].
  - destruct Hcase as [(Ha & -> & [Hdis|Hne])|(En & Heff & Hd & ->)].
    + destruct Hset as [Hset _]. congruence.
    + by apply group_inv_other.
    + by apply group_inv_step.
  - rewrite Hother by done. apply group_inv_other; [done| |].
    + intros (Eg & _). by apply Hg.
    + intros Eg. by destruct Hg.
Qed.

(** A history cut at one of its evaluations. *)
Lemma run_evals_split r0 evs r h j e a :
  run_evals r0 evs = (r, h) → h !! j = Some (e, a) →
  ∃ evs1 evs2 r1 h1 r2 d, evs = (evs1 ++ e :: evs2)%list ∧ run_evals r0 evs1 = (r1, h1) ∧
    Evaluate r1 (ev_policy e) (ev_report e) (ev_workers e) (ev_now e) = (r2, d) ∧ rd_Action d = a ∧
    length h1 = j ∧ ∀ k, (k < j)%nat → h1 !! k = h !! k.
Proof.
  revert r0 r h j. induction evs as [|e0 evs IH]; intros r0 r h j; cbn; [by intros [= <- <-]|].
  destruct (Evaluate r0 _ _ _ _) as [r1 d1] eqn:E0. destruct (run_evals r1 evs) as [r2 h2] eqn:E.
  intros [= <- <-]. destruct j as [|j]; cbn.
  - intros [= -> <-]. exists [], evs, r0, [], r1, d1. split_and!; try done. intros k Hk. lia.
  - intros Hj. destruct (IH _ _ _ _ E Hj) as (evs1 & evs2 & r3 & h3 & r4 & d & -> & E3 & E4 & Ha & Hlen & Hk).
    exists (e0 :: evs1), evs2, r3, ((e0, rd_Action d1) :: h3), r4, d. cbn. rewrite E0, E3.
    split_and!; try done; [by rewrite Hlen|]. intros [|k] Hkj; [done|]. apply Hk. lia.
Qed.

(** C16: actions keep their distance. Along any history of a new rebalancer with a
    clock that does not run backwards, two actions on the same model group are
    at least the cooldown apart. *)
Theorem cooldown_separates cfg evs r h i j e1 a1 e2 a2 :
  clock_ok evs → run_evals (NewRebalancer cfg) evs = (r, h) →
  (i < j)%nat → h !! i = Some (e1, a1) → h !! j = Some (e2, a2) →
  mp_Name (ev_policy e1) = mp_Name (ev_policy e2) → a1 ≠ NoAction → a2 ≠ NoAction →
  seconds (rc_CooldownSeconds (cfg_Rebalancing cfg)) ≤ time_sub (ev_now e2) (ev_now e1).
Proof.
  intros Hclock Hrun Hij H1 H2 Hg Ha1 Ha2.
  destruct (run_evals_split _ _ _ _ j _ _ Hrun H2) as (evs1 & evs2 & r1 & h1 & r2 & d & -> & E1 & E2 & Hd & Hlen & Hh1).
  destruct Hclock as [Hs Hp]. apply StronglySorted_app_1_l in Hs as Hs1. apply Forall_app in Hp as [Hp1 _].
  destruct (run_evals_inv cfg evs1 r1 h1 (conj Hs1 Hp1) E1) as [Hset Hinv].
  apply Evaluate_cases in E2 as (_ & _ & [(Ha & _)|(_ & _ & Hdec & _)]); [congruence|].
  apply decide_action_sound in Hdec as [_ Hcool]. rewrite Hd in Hcool. specialize (Hcool Ha2).
  destruct (Hinv (mp_Name (ev_policy e2))) as (Hlast & _).
  destruct (Hlast (e1, a1)) as [Hne Hle]; [|done|done|].
  { rewrite <-Hh1 in H1 by done. by eapply list_elem_of_lookup_2. }
  unfold inCooldown in Hcool. rewrite update_pressure_last in Hcool. unfold IsZero in Hcool.
  rewrite (proj2 (Z.eqb_neq _ _) Hne) in Hcool. apply Z.ltb_ge in Hcool.
  destruct Hset as (_ & _ & Hc & _). rewrite Hc in Hcool.
  etrans; [exact Hcool|]. unfold time_sub. cbn in Hle. lia.
Qed.

(** C15: actions answer a sustained pressure. Along any history of a new
    rebalancer, an action answers the pressure state of its evaluation (prefill
    or decode workers are added when that role is hot, workers removed when the
    state is normal, and both roles scaled when it is not); and every evaluation
    that reached the group, since some evaluation at least the sustain window
    ago, saw that same state, with one exception: a lone unified worker is scaled
    at once under a state that is none of the three the proxy reports
    ([unknown_pressure_scales_at_once]). *)
Theorem action_sustained cfg evs r h j e a :
  clock_ok evs → run_evals (NewRebalancer cfg) evs = (r, h) → h !! j = Some (e, a) → a ≠ NoAction →
  let ps := pr_PressureState (ev_report e) in
  answers a ps ∧
  ((∃ since, streak (take (S j) h) (mp_Name (ev_policy e)) ps since ∧
      seconds (rc_SustainWindowSeconds (cfg_Rebalancing cfg)) ≤ time_sub (ev_now e) since) ∨
   a = ScaleBoth ∧ ps ∉ ["normal"; "prefill_hot"; "decode_hot"]).
Proof.
  intros Hclock Hrun Hj Ha ps.
  destruct (run_evals_split _ _ _ _ j _ _ Hrun Hj) as (evs1 & evs2 & r1 & h1 & r2 & d & -> & E1 & E2 & Hd & Hlen & Hh1).
  destruct Hclock as [Hs Hp]. apply StronglySorted_app in Hs as (Hle & Hs1 & _).
  apply Forall_app in Hp as [Hp1 Hp2]. apply Forall_cons in Hp2 as [He _].
  destruct (run_evals_inv cfg evs1 r1 h1 (conj Hs1 Hp1) E1) as [Hset Hinv].
  pose proof (run_evals_inputs _ _ _ _ E1) as Hin.
  apply Evaluate_cases in E2 as (_ & _ & [(Hna & _)|(_ & Heff & Hdec & _)]); [congruence|].
  rewrite Hd in Hdec. apply decide_action_sound in Hdec as [Hjust _].
  pose proof (group_inv_step h1 _ _ e a (Hinv _) Heff) as Hstep.
  specialize (Hstep ltac:(intros y Hy; apply Hle; [rewrite <-Hin; by apply list_elem_of_fmap_2|left]) He).
  cbn zeta in Hstep. rewrite decide_False in Hstep by done.
  rewrite (take_S_r _ _ _ Hj).
  replace (take j h) with h1 by (apply list_eq; intros k; rewrite lookup_take;
    case_decide; [by apply Hh1|apply lookup_ge_None; lia]).
  destruct Hstep as (_ & _ & HP & HD & HN). destruct Hset as (_ & Hw & _).
  unfold justified, sustained in Hjust. rewrite Hw in Hjust.
  assert (answers a ps) as Hans by (destruct a; naive_solver). split; [done|].
  destruct a; [done| |destruct Hjust as (_ & E & _ & _ & _ & J1 & J2)
    |destruct Hjust as (_ & E & _ & _ & _ & J1 & J2)|destruct Hjust as (E & _ & _ & _ & J1 & J2)
    |destruct Hjust as (E & _ & _ & J1 & J2)];
    try (left; unfold ps; rewrite E in *; by eauto).
  destruct Hjust as (_ & Hn & _ & _ & _ & JP & JD). fold ps in Hn, JP, JD, HP, HD.
  destruct (decide (ps = PrefillHot)) as [E|]; [|destruct (decide (ps = DecodeHot)) as [E|]].
  - left. rewrite E. destruct (JP E) as [J1 J2]. eauto.
  - left. rewrite E. destruct (JD E) as [J1 J2]. eauto.
  - right. split; [done|]. rewrite !elem_of_cons. by intros [?|[?|[?|?%elem_of_nil]]].
Qed.

(** ** Examples *)
Lemma sample_history_clock : clock_ok sample_history.
Proof.
  split.
  - repeat constructor; vm_compute; discriminate.
  - repeat constructor.
Qed.

Lemma Evaluate_justified_witness :
  ∃ r' d, Evaluate (NewRebalancer sample_config) sample_policy
      (ev_report (sample_eval Normal sample_workers 100)) sample_workers (seconds 100) = (r', d) ∧
    rd_Action d = NoAction ∧
    ∀ g', g' ≠ "llama" → getStateFor r' g' = getStateFor (NewRebalancer sample_config) g'.
Proof.
  destruct (Evaluate_justified (NewRebalancer sample_config) (sample_eval Normal sample_workers 100)
    _ _ eq_refl) as (_ & _ & H).
  eexists _, _. split; [reflexivity|]. split; [reflexivity|]. exact H.
Defined.

Lemma cooldown_separates_witness :
  (run_evals (NewRebalancer sample_config) sample_history).2.*2 =
    [NoAction; NoAction; AddDecode; NoAction; AddDecode] ∧
  seconds 60 ≤ time_sub (seconds 180) (seconds 110).
Proof.
  split; [vm_compute; reflexivity|].
  refine (cooldown_separates sample_config sample_history _ _ 2 4
    (sample_eval DecodeHot sample_workers 110) AddDecode (sample_eval DecodeHot sample_workers 180) AddDecode
    sample_history_clock (surjective_pairing _) _ _ _ eq_refl _ _);
    [lia|vm_compute; reflexivity|vm_compute; reflexivity|discriminate|discriminate].
Defined.

Lemma action_sustained_witness :
  ∃ since, streak (take 3 (run_evals (NewRebalancer sample_config) sample_history).2)
    "llama" DecodeHot since ∧ seconds 10 ≤ time_sub (seconds 110) since.
Proof.
  destruct (action_sustained sample_config sample_history _ _ 2
    (sample_eval DecodeHot sample_workers 110) AddDecode
    sample_history_clock (surjective_pairing _) ltac:(vm_compute; reflexivity) ltac:(discriminate))
    as [_ [H|[E _]]]; [exact H|discriminate E].
Defined.

(** Under an unrecognised pressure state a lone unified worker is scaled at
    once, with no sustain window. *)
Lemma unknown_pressure_scales_at_once :
  rd_Action (Evaluate (NewRebalancer sample_config) sample_policy
    (ev_report (sample_eval "warming" [sample_worker "u0" Unified] 100))
    [sample_worker "u0" Unified] (seconds 100)).2 = ScaleBoth.
Proof. reflexivity. Qed.
