(* ===== verification/Router.v ===== *)
(** * internal/proxy/router.go: choosing the workers of an inference request

    A request for a model group goes to one unified worker, or to a prefill and
    a decode worker; among the candidates the one with the fewest requests in
    flight is taken. *)

From Stdlib Require Import ZArith Lia String.
From stdpp Require Import base option list strings gmap.
From S2P Require Import Prelude GoFloat GoStrings Types.
Open Scope string_scope.
Open Scope Z_scope.
Open Scope go_scope.

Record RequestWorker : Type := mkRequestWorker {
  rw_UnifiedWorker : option WorkerInfo;
  rw_PrefillWorker : option WorkerInfo;
  rw_DecodeWorker : option WorkerInfo
}.

Inductive RouteError : Type := ErrNoCapacity | ErrUnableToMatchDisagg.

(** The comparison of the selection loops; [None] statistics are Go's nil. *)
Definition shouldReplaceBestByInflightAndMetric (bestStats candidateStats : option WorkerStat)
    (metricFn : WorkerStat → float64) : bool * option WorkerStat :=
  match candidateStats, bestStats with
  | None, _ => (false, bestStats)
  | Some _, None => (true, candidateStats)
  | Some c, Some b =>
      if ws_Inflight c <? ws_Inflight b then (true, candidateStats)
      else if ws_Inflight c >? ws_Inflight b then (false, bestStats)
      else if f64_ltb (metricFn c) (metricFn b) then (true, candidateStats)
      else (false, bestStats)
  end.

(** The loop the three selection functions share; it starts from [workers[0]]
    and visits it again. *)
Definition find_best (metricFn : WorkerStat → float64) (workers : list WorkerInfo)
    (workerStats : gmap string WorkerStat) : option WorkerInfo :=
  match workers with
  | [] => None
  | w0 :: _ =>
      Some (foldl (λ best worker,
        let '(bestWorker, bestStats) := best in
        let '(replace, updatedStats) :=
          shouldReplaceBestByInflightAndMetric bestStats (workerStats !! wi_ID worker) metricFn in
        if replace then (worker, updatedStats) else (bestWorker, bestStats))
        (w0, workerStats !! wi_ID w0) workers).1
  end.

Definition FindBestPrefillWorker := find_best ws_TTFTP95.
Definition FindBestDecodeWorker := find_best ws_ITLP95.
Definition FindBestUnifiedWorker := find_best ws_ITLP95.

(** The [continue] test of the first loop of [FindRequestWorker]. *)
Definition skip_worker (modelGroup : string) (worker : WorkerInfo) : bool :=
  negb (String.eqb (wi_ModelGroup worker) modelGroup) || String.eqb (wi_Role worker) Unknown ||
  negb (String.eqb (wi_State worker) Ready) || negb (wi_Routable worker) ||
  String.eqb (wi_Endpoint worker) "" ||
  (negb (wi_GPU2GPUReady worker) &&
   (String.eqb (wi_Role worker) Prefill || String.eqb Decode (wi_Role worker))).

(** The workers the first loop appends for a role. *)
Definition candidates (modelGroup role : string) (workers : list WorkerInfo) : list WorkerInfo :=
  List.filter (λ w, negb (skip_worker modelGroup w) && String.eqb (wi_Role w) role) workers.

Definition pressure_hot (report : option PressureReport) : bool :=
  match report with
  | Some r => String.eqb (pr_PressureState r) PrefillHot || String.eqb (pr_PressureState r) DecodeHot
  | None => false
  end.

Definition FindRequestWorker (modelGroup : string) (workers : list WorkerInfo)
    (workerStats : gmap string WorkerStat) (pressureReport : gmap string PressureReport) :
    result RouteError RequestWorker :=
  let unifiedWorkers := candidates modelGroup Unified workers in
  let prefillWorkers := candidates modelGroup Prefill workers in
  let decodeWorkers := candidates modelGroup Decode workers in
  let disagg :=
    match FindBestPrefillWorker prefillWorkers workerStats,
          FindBestDecodeWorker decodeWorkers workerStats with
    | Some p, Some d => Ok (mkRequestWorker None (Some p) (Some d))
    | _, _ => Err ErrUnableToMatchDisagg
    end in
  let unified :=
    match FindBestUnifiedWorker unifiedWorkers workerStats with
    | Some u => Ok (mkRequestWorker (Some u) None None)
    | None => Err ErrNoCapacity
    end in
  let hasDisagg := (0 <? length prefillWorkers)%nat && (0 <? length decodeWorkers)%nat in
  let hasUnified := (0 <? length unifiedWorkers)%nat in
  if hasDisagg && hasUnified then
    if pressure_hot (pressureReport !! modelGroup) then disagg else unified
  else if hasDisagg then disagg
  else if hasUnified then unified
  else Err ErrNoCapacity.

(** ** Specification *)

(** [w] is a best choice among [l]: a worker with statistics is never passed
    over for one without, nor for one with more requests in flight, nor, among
    equals, for one with a higher metric. *)
Definition best_worker (metricFn : WorkerStat → float64) (stats : gmap string WorkerStat)
    (l : list WorkerInfo) (w : WorkerInfo) : Prop :=
  w ∈ l ∧ ∀ w' st', w' ∈ l → stats !! wi_ID w' = Some st' →
    ∃ st, stats !! wi_ID w = Some st ∧
      (ws_Inflight st < ws_Inflight st' ∨
       ws_Inflight st = ws_Inflight st' ∧ f64_ltb (metricFn st') (metricFn st) = false).

(** What the loop asks of a worker. *)
Definition usable (modelGroup role : string) (w : WorkerInfo) : Prop :=
  wi_ModelGroup w = modelGroup ∧ wi_Role w = role ∧ wi_State w = Ready ∧ wi_Routable w = true ∧
  wi_Endpoint w ≠ "" ∧ (role = Prefill ∨ role = Decode → wi_GPU2GPUReady w = true).

Definition stats_sane (stats : gmap string WorkerStat) : Prop :=
  map_Forall (λ _ st, not_nan (ws_TTFTP95 st) ∧ not_nan (ws_ITLP95 st)) stats.

(** The loop of [find_best] as a comparison of the workers. *)
Definition better_worker (metricFn : WorkerStat → float64) (stats : gmap string WorkerStat)
    (c best : WorkerInfo) : bool :=
  (shouldReplaceBestByInflightAndMetric (stats !! wi_ID best) (stats !! wi_ID c) metricFn).1.

(** ** A group with two decode workers for the examples *)
Definition route_worker (id role : string) : WorkerInfo :=
  mkWorkerInfo id role Ready true true "http://worker" "llama".

Definition route_workers : list WorkerInfo :=
  [route_worker "p0" Prefill; route_worker "d0" Decode; route_worker "d1" Decode; route_worker "u0" Unified].

Definition route_stats : gmap string WorkerStat :=
  {["d0" := mkWorkerStat "d0" 4 f64_zero f64_zero f64_zero;
    "d1" := mkWorkerStat "d1" 1 f64_zero f64_zero f64_zero]}.

Definition route_pressure : gmap string PressureReport :=
  {["llama" := mkPressureReport "llama" 5 f64_zero f64_zero f64_zero DecodeHot]}.

(** ** Lemmas *)
Lemma candidates_elem g role workers w :
  role ∈ [Unified; Prefill; Decode] →
  w ∈ candidates g role workers ↔ w ∈ workers ∧ usable g role w.
Proof.
  intros Hrole. unfold candidates. rewrite list_elem_of_In, List.filter_In, <-list_elem_of_In.
  f_equiv. unfold skip_worker, usable.
  rewrite andb_true_iff, negb_true_iff, !orb_false_iff, !negb_false_iff, andb_false_iff,
    orb_false_iff, negb_false_iff, !String.eqb_eq, !String.eqb_neq.
  rewrite !elem_of_cons in Hrole.
  assert (role ≠ Unknown) by (by destruct Hrole as [->|[->|[->|E%elem_of_nil]]]).
  split.
  - intros [[[[[[H1 H2] H3] H4] H5] H6] H7]. split_and!; try done.
    intros Hr. destruct H6 as [?|[? ?]]; [done|]. destruct Hr; congruence.
  - intros (H1 & H2 & H3 & H4 & H5 & H6). split_and!; try congruence.
    destruct (wi_GPU2GPUReady w); [by left|right].
    split; intros E; discriminate H6; [left|right]; congruence.
Qed.

Section best.
Context (metricFn : WorkerStat → float64) (stats : gmap string WorkerStat).

Lemma find_best_select l w0 rest :
  l = w0 :: rest → find_best metricFn l stats = Some (select_best (better_worker metricFn stats) w0 (w0 :: rest)).
Proof.
  intros ->. unfold find_best, select_best. f_equal. generalize (w0 :: rest). intros l.
  assert (∀ w, foldl (λ best worker,
      let '(bestWorker, bestStats) := best in
      let '(replace, updatedStats) :=
        shouldReplaceBestByInflightAndMetric bestStats (stats !! wi_ID worker) metricFn in
      if replace then (worker, updatedStats) else (bestWorker, bestStats)) (w, stats !! wi_ID w) l =
    let b := foldl (λ best c, if better_worker metricFn stats c best then c else best) w l in (b, stats !! wi_ID b))
    as H; [|by rewrite H].
  induction l as [|w l IH]; intros b; cbn; [done|]. rewrite <-IH. f_equal. unfold better_worker.
  destruct (shouldReplaceBestByInflightAndMetric (stats !! wi_ID b) (stats !! wi_ID w) metricFn)
    as [rep upd] eqn:E. cbn. destruct rep; [|done]. f_equal.
  unfold shouldReplaceBestByInflightAndMetric in E. repeat case_match; congruence.
Qed.

Lemma better_worker_false c b :
  better_worker metricFn stats c b = false ↔ ∀ st', stats !! wi_ID c = Some st' →
    ∃ st, stats !! wi_ID b = Some st ∧
      (ws_Inflight st < ws_Inflight st' ∨
       ws_Inflight st = ws_Inflight st' ∧ f64_ltb (metricFn st') (metricFn st) = false).
Proof.
  unfold better_worker, shouldReplaceBestByInflightAndMetric. rewrite Z.gtb_ltb || idtac.
  destruct (stats !! wi_ID c) as [sc|]; [|naive_solver].
  destruct (stats !! wi_ID b) as [sb|]; cbn; [|naive_solver].
  rewrite Z.gtb_ltb. destruct (Z.ltb_spec (ws_Inflight sc) (ws_Inflight sb)); cbn.
  { split; [done|]. intros H'. destruct (H' sc eq_refl) as (? & [= <-] & ?). lia. }
  destruct (Z.ltb_spec (ws_Inflight sb) (ws_Inflight sc)); cbn.
  { split; [|done]. intros _ ? [= <-]. eauto. }
  destruct (f64_ltb (metricFn sc) (metricFn sb)) eqn:E; cbn.
  - split; [done|]. intros H'. destruct (H' sc eq_refl) as (? & [= <-] & [?|[_ ?]]); [lia|congruence].
  - split; [|done]. intros _ ? [= <-]. exists sb. split; [done|]. right. split; [lia|done].
Qed.

Lemma better_worker_asym a b : better_worker metricFn stats a b = true → better_worker metricFn stats b a = false.
Proof.
  intros Hab. apply better_worker_false. intros sb Hb.
  unfold better_worker, shouldReplaceBestByInflightAndMetric in Hab. rewrite Hb in Hab.
  destruct (stats !! wi_ID a) as [sa|]; [|done]. exists sa. split; [done|].
  rewrite Z.gtb_ltb in Hab.
  destruct (Z.ltb_spec (ws_Inflight sa) (ws_Inflight sb)); [by left|].
  destruct (Z.ltb_spec (ws_Inflight sb) (ws_Inflight sa)); [done|].
  destruct (f64_ltb (metricFn sa) (metricFn sb)) eqn:E; [|done]. right.
  split; [lia|by apply f64_ltb_asym].
Qed.

Lemma better_worker_negtrans a b c :
  map_Forall (λ _ st, not_nan (metricFn st)) stats →
  better_worker metricFn stats a b = false → better_worker metricFn stats b c = false → better_worker metricFn stats a c = false.
Proof.
  rewrite !better_worker_false. intros Hn H1 H2 sa Ha.
  destruct (H1 sa Ha) as (sb & Hb & Hab). destruct (H2 sb Hb) as (sc & Hc & Hbc).
  exists sc. split; [done|].
  destruct Hab as [?|[E1 F1]], Hbc as [?|[E2 F2]]; [left; lia..|right].
  split; [lia|]. eapply (f64_ltb_negtrans _ (metricFn sb)); try done; by eapply Hn.
Qed.

Lemma find_best_spec l :
  map_Forall (λ _ st, not_nan (metricFn st)) stats → l ≠ [] →
  ∃ w, find_best metricFn l stats = Some w ∧ best_worker metricFn stats l w.
Proof.
  intros Hn Hl. destruct l as [|w0 rest]; [done|].
  rewrite (find_best_select _ w0 rest eq_refl). eexists. split; [done|]. split.
  - pose proof (select_best_elem (better_worker metricFn stats) w0 (w0 :: rest)) as H.
    apply elem_of_cons in H as [->|H]; [left|done].
  - intros w' st' Hw' Hst'.
    apply better_worker_false with (c := w'); [|done].
    apply (select_best_max_on (better_worker metricFn stats) (λ _, True)).
    + intros a b _ _. apply better_worker_asym.
    + intros a b c _ _ _. by apply better_worker_negtrans.
    + by apply Forall_true.
    + by right.
Qed.
End best.

Lemma find_best_elem metricFn l stats w : find_best metricFn l stats = Some w → w ∈ l.
Proof.
  destruct l as [|w0 rest]; [done|]. rewrite (find_best_select _ _ _ w0 rest eq_refl). intros Hw.
  pose proof (select_best_elem (better_worker metricFn stats) w0 (w0 :: rest)) as H.
  assert (w = select_best (better_worker metricFn stats) w0 (w0 :: rest)) as -> by congruence.
  apply elem_of_cons in H as [->|H]; [left|done].
Qed.

(** The workers of an answer. *)
Definition chosen (rw : RequestWorker) (role : string) (w : WorkerInfo) : Prop :=
  (role = Unified ∧ rw_UnifiedWorker rw = Some w) ∨ (role = Prefill ∧ rw_PrefillWorker rw = Some w) ∨
  (role = Decode ∧ rw_DecodeWorker rw = Some w).

Lemma FindRequestWorker_usable g workers stats pressure rw role w :
  FindRequestWorker g workers stats pressure = Ok rw → chosen rw role w →
  w ∈ workers ∧ usable g role w.
Proof.
  intros Hf Hc.
  assert (∀ r, r ∈ [Unified; Prefill; Decode] → w ∈ candidates g r workers → w ∈ workers ∧ usable g r w)
    as Hcand by (intros r Hr; by apply candidates_elem).
  unfold FindRequestWorker in Hf.
  repeat match type of Hf with
  | (if ?b then _ else _) = _ => destruct b
  | match ?x with _ => _ end = _ => destruct x eqn:?
  end; try done; injection Hf as <-; destruct Hc as [[-> Hc]|[[-> Hc]|[-> Hc]]]; cbn in Hc;
    try done; injection Hc as <-; apply Hcand; try (by eapply find_best_elem); rewrite !elem_of_cons; auto.
Qed.

(** C22: routing a request is exact. With metrics that are numbers, the answer is
    one best unified worker or a best prefill and a best decode worker, all of
    the model group, ready, routable, reachable, and with GPU-to-GPU transfer
    for the split roles; when both modes are possible the split mode is used
    exactly under hot pressure; and the request fails, always for lack of
    capacity, only when neither mode has workers. *)
Theorem FindRequestWorker_exact g workers stats pressure :
  stats_sane stats →
  let avail role w := w ∈ workers ∧ usable g role w in
  let can_split := (∃ p, avail Prefill p) ∧ ∃ d, avail Decode d in
  let can_unify := ∃ u, avail Unified u in
  match FindRequestWorker g workers stats pressure with
  | Ok (mkRequestWorker (Some u) None None) =>
      avail Unified u ∧ best_worker ws_ITLP95 stats (candidates g Unified workers) u ∧
      (¬ can_split ∨ pressure_hot (pressure !! g) = false)
  | Ok (mkRequestWorker None (Some p) (Some d)) =>
      avail Prefill p ∧ best_worker ws_TTFTP95 stats (candidates g Prefill workers) p ∧
      avail Decode d ∧ best_worker ws_ITLP95 stats (candidates g Decode workers) d ∧
      (¬ can_unify ∨ pressure_hot (pressure !! g) = true)
  | Err ErrNoCapacity => ¬ can_split ∧ ¬ can_unify
  | _ => False
  end.
Proof.
  intros Hsane avail can_split can_unify.
  assert (∀ role, role ∈ [Unified; Prefill; Decode] →
    candidates g role workers = [] ∧ (¬ ∃ w, avail role w) ∨
    candidates g role workers ≠ [] ∧ ∃ w, avail role w) as Hdec.
  { intros role Hrole. destruct (candidates g role workers) as [|w l] eqn:E; [left|right];
      (split; [done|]).
    - intros (w & Hw%(candidates_elem g role workers w Hrole)). rewrite E in Hw. by apply elem_of_nil in Hw.
    - exists w. apply (candidates_elem g role workers w Hrole). rewrite E. left. }
  assert (Hav : ∀ role w, role ∈ [Unified; Prefill; Decode] → w ∈ candidates g role workers → avail role w)
    by (intros role w Hrole; by apply candidates_elem).
  assert (map_Forall (λ _ st, not_nan (ws_TTFTP95 st)) stats) as Htt
    by (eapply map_Forall_impl; [exact Hsane|naive_solver]).
  assert (map_Forall (λ _ st, not_nan (ws_ITLP95 st)) stats) as Hitl
    by (eapply map_Forall_impl; [exact Hsane|naive_solver]).
  assert (Hpos : ∀ l : list WorkerInfo, l ≠ [] → (0 <? length l)%nat = true) by (by intros []).
  unfold FindRequestWorker, FindBestUnifiedWorker, FindBestPrefillWorker, FindBestDecodeWorker.
  destruct (Hdec Unified ltac:(set_solver)) as [[Eu Nu]|[Eu Hu]],
    (Hdec Prefill ltac:(set_solver)) as [[Ep Np]|[Ep Hp]],
    (Hdec Decode ltac:(set_solver)) as [[Ed Nd]|[Ed Hd]];
    rewrite ?Eu, ?Ep, ?Ed; rewrite ?(Hpos _ Eu), ?(Hpos _ Ep), ?(Hpos _ Ed); cbn [length Nat.ltb Nat.leb andb];
    try (destruct (find_best_spec ws_ITLP95 stats _ Hitl Eu) as (u & Fu & Bu); rewrite ?Fu; pose proof (proj1 Bu));
    try (destruct (find_best_spec ws_TTFTP95 stats _ Htt Ep) as (p & Fp & Bp); rewrite ?Fp; pose proof (proj1 Bp));
    try (destruct (find_best_spec ws_ITLP95 stats _ Hitl Ed) as (d & Fd & Bd); rewrite ?Fd; pose proof (proj1 Bd));
    try (destruct (pressure_hot (pressure !! g)));
    split_and!; try (by apply Hav; [set_solver|]); try done; unfold can_split, can_unify; tauto.
Qed.

(** ** A worker without statistics *)
Lemma find_best_known metricFn stats l w :
  (∃ w', w' ∈ l ∧ is_Some (stats !! wi_ID w')) → find_best metricFn l stats = Some w →
  is_Some (stats !! wi_ID w).
Proof.
  intros (w' & Hin & Hw') Hf. destruct l as [|w0 rest]; [by apply elem_of_nil in Hin|].
  rewrite (find_best_select _ _ _ w0 rest eq_refl) in Hf. injection Hf as <-. unfold select_best.
  assert (∀ l b, is_Some (stats !! wi_ID b) → is_Some (stats !! wi_ID
    (foldl (λ best c, if better_worker metricFn stats c best then c else best) b l))) as Hkeep.
  { induction l as [|x l IH]; intros b Hb; [done|]. cbn. apply IH. destruct (better_worker _ _ _ _) eqn:Ex; [|done].
    unfold better_worker in Ex. by destruct (stats !! wi_ID x). }
  assert (∀ l b, w' ∈ l → is_Some (stats !! wi_ID
    (foldl (λ best c, if better_worker metricFn stats c best then c else best) b l))) as Hl; [|exact (Hl (w0 :: rest) w0 Hin)].
  destruct Hw' as [sx Ex]. clear Hin.
  induction l as [|x l IH]; intros b; [by intros ?%elem_of_nil|]. intros [->|Hin]%elem_of_cons; [|by apply IH].
  cbn. apply Hkeep. destruct (better_worker _ _ _ _) eqn:Eb; [by rewrite Ex|].
  unfold better_worker in Eb. rewrite Ex in Eb. destruct (stats !! wi_ID b) eqn:Es; [done|]. by cbn in Eb.
Qed.

(** Statistics begin with the first request, and a worker without them loses to
    any other: as long as a worker of the role has served, a new one gets none. *)
Lemma fresh_worker_starves g workers stats pressure rw role w w' :
  FindRequestWorker g workers stats pressure = Ok rw → role ∈ [Unified; Prefill; Decode] →
  stats !! wi_ID w = None → w' ∈ workers → usable g role w' → is_Some (stats !! wi_ID w') →
  ¬ chosen rw role w.
Proof.
  intros Hf Hrole Hw Hin Hu Hw' Hc.
  assert (w' ∈ candidates g role workers) as Hcand by (by apply candidates_elem).
  assert (∀ metricFn, find_best metricFn (candidates g role workers) stats ≠ Some w) as Hno.
  { intros metricFn Hb. apply find_best_known in Hb as [st Hst]; [congruence|by exists w']. }
  unfold FindRequestWorker in Hf.
  repeat match type of Hf with
  | (if ?b then _ else _) = _ => destruct b
  | match ?x with _ => _ end = _ => destruct x eqn:?
  end; try done; injection Hf as <-; destruct Hc as [[-> Hc]|[[-> Hc]|[-> Hc]]]; cbn in Hc; try done;
    injection Hc as <-; by eapply Hno.
Qed.

(** ** Examples *)
Lemma route_stats_sane : stats_sane route_stats.
Proof.
  intros k st Hk. unfold route_stats in Hk. apply lookup_insert_Some in Hk as [[_ <-]|[_ Hk]]; [split; discriminate|].
  apply lookup_singleton_Some in Hk as [_ <-]. split; discriminate.
Qed.

Lemma FindRequestWorker_exact_witness :
  FindRequestWorker "llama" route_workers route_stats route_pressure =
    Ok (mkRequestWorker None (Some (route_worker "p0" Prefill)) (Some (route_worker "d1" Decode))) ∧
  best_worker ws_ITLP95 route_stats (candidates "llama" Decode route_workers) (route_worker "d1" Decode).
Proof.
  pose proof (FindRequestWorker_exact "llama" route_workers route_stats route_pressure
    route_stats_sane) as H. cbv zeta in H.
  assert (FindRequestWorker "llama" route_workers route_stats route_pressure =
    Ok (mkRequestWorker None (Some (route_worker "p0" Prefill)) (Some (route_worker "d1" Decode)))) as E
    by (vm_compute; reflexivity).
  split; [exact E|]. rewrite E in H. apply H.
Defined.
