(* ===== verification/Watcher.v ===== *)
(** * internal/scheduler/watcher.go: the scheduling loop

    [Watcher] ties the components together: it lists the pods, orders the
    pending ones, places gangs and single pods, reserves devices in the
    registry, annotates and binds the pods, preempts when there is no capacity,
    and releases reservations when pods end.

    The Kubernetes API is outside the repository: [KubeAPI] and [PodExecutor]
    are its calls on a state [W].  The state of the watcher is [WState]; the
    events it publishes are a list.  Metrics and log lines are left out, except
    for the [id[:12]] slices in log arguments, which can panic.  Every loop over
    the registry's node map takes its iteration order from an oracle. *)

From Stdlib Require Import ZArith Lia Ascii String.
From stdpp Require Import base option list strings gmap sorting.
From S2P Require Import Prelude GoFloat GoStrings Types K8s Config Helpers Registry Strategy Binpack.
From S2P Require Import GangMultiPod Routing Allocator GangCollector Preemption.
Open Scope string_scope.
Open Scope Z_scope.
Open Scope go_scope.

(** ** The Kubernetes client *)
Class KubeAPI (W : Type) : Type := {
  ListPods : W → W * result string (list Pod);
  PatchAnnotations : W → string → string → list (string * string) → W * option string;
  BindPod : W → string → string → string → W * option string
}.

(** ** State and configuration *)
Record WState {W : Type} : Type := mkWState {
  w_api : W;
  w_registry : Registry;
  w_pendingEvictions : gmap string Time;
  w_events : list Event
}.
Arguments WState W : clear implicits.
Arguments mkWState {W}.

Record WatcherConfig : Type := mkWatcherConfig {
  wt_schedulerName : string;
  wt_workflowCfg : WorkflowConfig;
  wt_gangTimeout : Z;
  wt_preemption : option PreemptionConfig
}.

Definition noOrders : Type := nat → list string.

(** ** Disaggregated placement *)
Record disaggFullGPUCandidate : Type := mkDisagg {
  dg_NodeName : string;
  dg_GPUID : string;
  dg_FreeMemoryMB : Z
}.

Definition collectDisaggFullGPUCandidates (nodes : list NodeInfo) (memoryMB : Z) :
    list disaggFullGPUCandidate :=
  node ← nodes; gpu ← node_GPUs node;
  let freeMemoryMB := AvailableMemoryMB gpu in
  if negb (gpu_IsHealthy gpu) || gpu_IsMPS gpu || (gpu_AllocatedPods gpu >? 0) ||
     (freeMemoryMB <? memoryMB)
  then [] else [mkDisagg (node_Name node) (gpu_ID gpu) freeMemoryMB].

Definition selectBestDisaggFullGPUCandidate (candidates : list disaggFullGPUCandidate) :
    option disaggFullGPUCandidate :=
  match candidates with
  | [] => None
  | c0 :: cs => Some (select_best (λ c best, dg_FreeMemoryMB c <? dg_FreeMemoryMB best) c0 cs)
  end.

Definition selectBestDisaggFullGPUCandidateForNode (candidates : list disaggFullGPUCandidate)
    (nodeName : string) : option disaggFullGPUCandidate :=
  selectBestDisaggFullGPUCandidate
    (List.filter (λ c, String.eqb (dg_NodeName c) nodeName) candidates).

Definition selectDisaggFullGPUCandidate (nodes : list NodeInfo) (preferredNodes : list string)
    (memoryMB : Z) : option disaggFullGPUCandidate :=
  let candidates := collectDisaggFullGPUCandidates nodes memoryMB in
  match candidates with
  | [] => None
  | _ =>
      match head (omap (selectBestDisaggFullGPUCandidateForNode candidates) preferredNodes) with
      | Some candidate => Some candidate
      | None => selectBestDisaggFullGPUCandidate candidates
      end
  end.

(** The loop of [resolveDisaggPreferredNodes]: complementary nodes, fallback
    nodes and the set [seen] they share. *)
Definition resolve_step (schedulerName : string) (intent : DisaggPodIntent) (complementaryRole : string)
    (acc : list string * list string * gset string) (runningPod : Pod) :
    list string * list string * gset string :=
  let '(complementaryNodes, fallbackNodes, seen) := acc in
  if negb (String.eqb (pod_SchedulerName runningPod) schedulerName) ||
     negb (String.eqb (pod_Phase runningPod) PodRunning) ||
     String.eqb (pod_NodeName runningPod) "" then acc
  else if negb (String.eqb (di_ModelGroup intent) (GetPodModelGroup runningPod)) then acc
  else
    let role := GetPodInferenceRole runningPod in
    let node := pod_NodeName runningPod in
    if String.eqb role complementaryRole then
      if decide (node ∈ seen) then acc
      else ((complementaryNodes ++ [node])%list, fallbackNodes, {[node]} ∪ seen)
    else if String.eqb role (di_Role intent) then
      if decide (node ∈ seen) then acc
      else (complementaryNodes, (fallbackNodes ++ [node])%list, {[node]} ∪ seen)
    else acc.

Definition resolve_nodes (schedulerName : string) (intent : DisaggPodIntent) (allPods : list Pod) :
    list string :=
  let complementaryRole := if String.eqb (di_Role intent) Prefill then Decode else Prefill in
  let '(complementaryNodes, fallbackNodes, _) :=
    foldl (resolve_step schedulerName intent complementaryRole) ([], [], ∅) allPods in
  (complementaryNodes ++ fallbackNodes)%list.

(** ** The watcher *)
Section watcher.
Context `{GoSort} (strategy : SchedulingStrategy) {W : Type} `{KubeAPI W, PodExecutor W}.
Context (wc : WatcherConfig).

Definition set_api (w : W) (st : WState W) : WState W :=
  mkWState w (w_registry st) (w_pendingEvictions st) (w_events st).
Definition set_registry (r : Registry) (st : WState W) : WState W :=
  mkWState (w_api st) r (w_pendingEvictions st) (w_events st).
Definition set_pending (p : gmap string Time) (st : WState W) : WState W :=
  mkWState (w_api st) (w_registry st) p (w_events st).
Definition set_events (es : list Event) (st : WState W) : WState W :=
  mkWState (w_api st) (w_registry st) (w_pendingEvictions st) es.

Definition Publish (e : Event) (st : WState W) : WState W := set_events (w_events st ++ [e])%list st.

(** [w.registry.ReleasePod(pod.Namespace, pod.Name)] *)
Definition release (pod : Pod) (st : WState W) : outcome (WState W) :=
  r ← ReleasePod (pod_Namespace pod) (pod_Name pod) (w_registry st);
  Done (set_registry r st).

Definition resolveDisaggPreferredNodes (intent : DisaggPodIntent) (st : WState W) :
    WState W * list string :=
  if negb (String.eqb (di_Role intent) Prefill) && negb (String.eqb (di_Role intent) Decode)
  then (st, [])
  else
    match ListPods (w_api st) with
    | (w, Err _) => (set_api w st, [])
    | (w, Ok allPods) => (set_api w st, resolve_nodes (wt_schedulerName wc) intent allPods)
    end.

(** [GetAssignedGPUS(pod)] with the two tests that follow it: [None] to skip. *)
Definition assigned_gpus (pod : Pod) : option (list string) :=
  match GetAssignedGPUS pod with
  | [] => None
  | g :: gs => if String.eqb g "" then None else Some (g :: gs)
  end.

Definition preemption_candidate (pendingEvictions : gmap string Time) (pod : Pod) :
    option PreemptionCandidate :=
  if negb (String.eqb (pod_SchedulerName pod) (wt_schedulerName wc)) then None
  else if negb (String.eqb (pod_Phase pod) PodRunning) then None
  else
    match pendingEvictions !! pod_key (pod_Namespace pod) (pod_Name pod) with
    | Some _ => None
    | None =>
        gpuIDs ← assigned_gpus pod;
        Some (mkPreemptionCandidate pod (GetPriorityFromPod pod (wt_workflowCfg wc))
                (GetWorkflowFromPod pod) (IsPreemptible pod (wt_workflowCfg wc)) gpuIDs
                (pod_NodeName pod) (GetGPUMemoryFromPod pod))
    end.

Definition buildPreemptionCandidates (st : WState W) : WState W * list PreemptionCandidate :=
  match ListPods (w_api st) with
  | (w, Err _) => (set_api w st, [])
  | (w, Ok pods) => (set_api w st, omap (preemption_candidate (w_pendingEvictions st)) pods)
  end.

(** One iteration of the loop over the victims: release and remember. *)
Definition forget_victim (now : Time) (st : WState W) (v : PreemptionCandidate) : outcome (WState W) :=
  let pod := pcd_Pod v in
  st' ← release pod st;
  Done (set_pending (<[pod_key (pod_Namespace pod) (pod_Name pod) := now]> (w_pendingEvictions st')) st').

Definition handleNoCapacityForPod (now : Time) (pod : Pod) (memoryMB : Z) (st : WState W) :
    outcome (WState W) :=
  match wt_preemption wc with
  | None => Done st
  | Some po =>
      let '(st1, candidates) := buildPreemptionCandidates st in
      match Preempt po (GetPriorityFromPod pod (wt_workflowCfg wc)) memoryMB candidates
              (w_api st1) (w_events st1) with
      | ((w, events), Err _) => Done (set_events events (set_api w st1))
      | ((w, events), Ok victims) =>
          foldM (forget_victim now) (set_events events (set_api w st1)) victims
      end
  end.

Definition rollbackPlacementReservation (pod : Pod) (st : WState W) : outcome (WState W) :=
  release pod st.

Definition scheduled_event (pod : Pod) (nodeName gpuAnnotation : string) : Event :=
  ("pod-scheduled", [("pod", pod_Name pod); ("namespace", pod_Namespace pod);
                     ("node", nodeName); ("gpus", gpuAnnotation)]).

Definition bindPodAndRecord (pod : Pod) (nodeName gpuAnnotation : string) (st : WState W) :
    outcome (WState W) :=
  match BindPod (w_api st) (pod_Namespace pod) (pod_Name pod) nodeName with
  | (w, Some _) => rollbackPlacementReservation pod (set_api w st)
  | (w, None) => Done (Publish (scheduled_event pod nodeName gpuAnnotation) (set_api w st))
  end.

(** The marks of a placement, in order. *)
Definition mark_entry (pod : Pod) (r : Registry) (e : AllocationEntry) : outcome Registry :=
  if ae_IsMIG e
  then MarkMIGAllocatedForPod (ae_NodeName e) (ae_GPUUUID e) (ae_MemoryMB e)
         (pod_Namespace pod) (pod_Name pod) r
  else MarkGPUAllocatedForPod (ae_NodeName e) (ae_GPUUUID e) (ae_MemoryMB e)
         (pod_Namespace pod) (pod_Name pod) r.

(** The end of [schedulePod]: annotate (a failure is only logged) and bind. *)
Definition annotate_and_bind (pod : Pod) (nodeName : string) (gpuIDs : list string) (isMIG : bool)
    (st : WState W) : outcome (WState W) :=
  let gpuAnnotation := join "," gpuIDs in
  let allocationType := if isMIG then "mig" else "full" in
  let '(w, _) := PatchAnnotations (w_api st) (pod_Namespace pod) (pod_Name pod)
    [("gpu-scheduler/assigned-gpus", gpuAnnotation); ("gpu-scheduler/allocation-type", allocationType)] in
  bindPodAndRecord pod nodeName gpuAnnotation (set_api w st).

(** The job a pod asks for; its identifier is random and only copied. *)
Definition job_of (jobID : string) (pod : Pod) : Job :=
  mkJob jobID (pod_Name pod) (pod_Namespace pod) (GetGPUCountFromPod pod) (GetGPUMemoryFromPod pod)
    (GetWorkflowFromPod pod) (IsSharedGPUPod pod).

(** The single-GPU branch: where the device comes from. *)
Definition choose_device (o : noOrders) (pod : Pod) (job : Job) (intent : DisaggPodIntent)
    (nodes : list NodeInfo) (st : WState W) : WState W * option SchedulingResult :=
  if di_IsDisagg intent then
    let '(st', preferredNodes) := resolveDisaggPreferredNodes intent st in
    (st', (λ c, mkSchedulingResult (job_ID job) (dg_NodeName c) [dg_GPUID c] true false)
            <$> selectDisaggFullGPUCandidate nodes preferredNodes (job_MemoryMB job))
  else
    (st, match AllocateWithRouting (w_registry st) pod job (o 1%nat) (o 2%nat) (o 3%nat) with
         | Ok r => Some r
         | Err _ => None
         end).

(** The branch for several GPUs of one node. *)
Definition place_gang (now : Time) (pod : Pod) (job : Job) (nodes : list NodeInfo) (st : WState W) :
    outcome (WState W) :=
  res ← ScheduleGang (Some job) nodes (job_GPUCount job) (GetMemoryModeFromPod pod);
  match res with
  | Err _ => handleNoCapacityForPod now pod (job_MemoryMB job) st
  | Ok result =>
      match gsr_Placements result with
      | [] => Panicked
      | p0 :: _ =>
          r ← foldM (mark_entry pod) (w_registry st)
                ((λ p, mkAllocationEntry (gp_NodeName p) (gp_GPUID p) (gp_MemoryMB p) false)
                   <$> gsr_Placements result);
          annotate_and_bind pod (gp_NodeName p0) (gp_GPUID <$> gsr_Placements result) false
            (set_registry r st)
      end
  end.

(** The branch for one device. *)
Definition place_single (now : Time) (o : noOrders) (pod : Pod) (job : Job) (nodes : list NodeInfo)
    (st : WState W) : outcome (WState W) :=
  let '(st1, result) := choose_device o pod job (GetDisaggPodIntent pod) nodes st in
  match result with
  | None => handleNoCapacityForPod now pod (job_MemoryMB job) st1
  | Some result =>
      match sr_GPUIDs result with
      | [] => Panicked
      | gpuID :: _ =>
          r ← mark_entry pod (w_registry st1)
                (mkAllocationEntry (sr_NodeName result) gpuID (job_MemoryMB job) (sr_IsMIG result));
          _ ← str_prefix 12 gpuID;
          annotate_and_bind pod (sr_NodeName result) (sr_GPUIDs result) (sr_IsMIG result)
            (set_registry r st1)
      end
  end.

(** [schedulePod], once the intent is valid; the first line logs every GPU. *)
Definition place_pod (now : Time) (o : noOrders) (jobID : string) (pod : Pod) (st : WState W) :
    outcome (WState W) :=
  let nodes := GetNodes (o 0%nat) (w_registry st) in
  let job := job_of jobID pod in
  _ ← foldM (λ _ g, _ ← str_prefix 12 (gpu_ID g); Done tt) tt (nodes ≫= node_GPUs);
  if job_GPUCount job >? 1 then place_gang now pod job nodes st
  else place_single now o pod job nodes st.

Definition schedulePod (now : Time) (o : noOrders) (jobID : string) (pod : Pod) (st : WState W) :
    outcome (WState W) :=
  let intent := GetDisaggPodIntent pod in
  if negb (di_IsValid intent) then
    Done (Publish ("pod-schedule-failed",
      [("pod", pod_Name pod); ("namespace", pod_Namespace pod); ("reason", "invalid_disagg_intent");
       ("role", di_Role intent); ("modelGroup", di_ModelGroup intent); ("detail", di_Reason intent)]) st)
  else place_pod now o jobID pod st.

(** ** Gangs *)

(** The body of the loop over the placements; [continue] after a failed bind. *)
Definition bind_placement (gangID : string) (st : WState W) (p : PodPlacement) : outcome (WState W) :=
  let pod := pp_Pod p in
  r ← foldM (mark_entry pod) (w_registry st)
        ((λ gpuID, mkAllocationEntry (pp_NodeName p) gpuID
             (pp_MemoryMB p ⊘ Z.of_nat (length (pp_GPUIDs p))) false) <$> pp_GPUIDs p);
  let '(w1, _) := PatchAnnotations (w_api st) (pod_Namespace pod) (pod_Name pod)
    [("gpu-scheduler/assigned-gpus", join "," (pp_GPUIDs p));
     ("gpu-scheduler/allocation-type", "full"); ("gpu-scheduler/gang-id", gangID)] in
  match BindPod w1 (pod_Namespace pod) (pod_Name pod) (pp_NodeName p) with
  | (w2, Some _) => release pod (set_registry r (set_api w2 st))
  | (w2, None) => Done (set_registry r (set_api w2 st))
  end.

Definition scheduleGang (o : noOrders) (jobID : string) (gang : GangState) (st : WState W) :
    outcome (WState W) :=
  let nodes := GetNodes (o 0%nat) (w_registry st) in
  let jobs := job_of jobID <$> gs_Pods gang in
  res ← ScheduleMultiPodGang strategy (gs_Pods gang) nodes jobs;
  match res with
  | Err _ => Done st
  | Ok placements =>
      st' ← foldM (bind_placement (gs_GangID gang)) st placements;
      Done (Publish ("pod-scheduled",
              [("gang_id", gs_GangID gang); ("size", itoa (gs_Size gang))]) st')
  end.

(** ** Recovery after a restart *)

(** The entries a running pod of this scheduler is given back; [None] to skip it. *)
Definition recovered_entries (pod : Pod) : option (list AllocationEntry) :=
  if String.eqb (pod_SchedulerName pod) (wt_schedulerName wc) &&
     String.eqb (pod_Phase pod) PodRunning && negb (String.eqb (pod_NodeName pod) "") then
    gpuUUIDs ← assigned_gpus pod;
    Some (if String.eqb (annotation_or_empty pod "gpu-scheduler/allocation-type") "mig"
          then (λ u, mkAllocationEntry (pod_NodeName pod) u 0 true) <$> gpuUUIDs
          else (λ u, mkAllocationEntry (pod_NodeName pod) u
                  (GetGPUMemoryFromPod pod ⊘ Z.of_nat (length gpuUUIDs)) false) <$> gpuUUIDs)
  else None.

Definition reconcile_pod (st : WState W) (pod : Pod) : outcome (WState W) :=
  match recovered_entries pod with
  | None => Done st
  | Some entries =>
      r ← foldM (mark_entry pod) (w_registry st) entries;
      Done (set_registry r st)
  end.

Definition reconcileExistingPods (st : WState W) : outcome (WState W) :=
  match ListPods (w_api st) with
  | (w, Err _) => Done (set_api w st)
  | (w, Ok pods) => foldM reconcile_pod (set_api w st) pods
  end.

(** ** The informer handlers *)
Definition forget_eviction (pod : Pod) (st : WState W) : WState W :=
  set_pending (delete (pod_key (pod_Namespace pod) (pod_Name pod)) (w_pendingEvictions st)) st.

Definition on_update (newPod : Pod) (st : WState W) : outcome (WState W) :=
  if negb (IsGPUPod newPod) then Done st
  else if String.eqb (pod_Phase newPod) PodSucceeded || String.eqb (pod_Phase newPod) PodFailed then
    st' ← release newPod st;
    Done (forget_eviction newPod (Publish ("pod-completed",
      [("pod", pod_Name newPod); ("namespace", pod_Namespace newPod); ("phase", pod_Phase newPod)]) st'))
  else Done st.

Definition on_delete (pod : Pod) (st : WState W) : outcome (WState W) :=
  if negb (IsGPUPod pod) then Done st
  else
    st' ← release pod st;
    Done (forget_eviction pod (Publish ("pod-deleted",
      [("pod", pod_Name pod); ("namespace", pod_Namespace pod)]) st')).

(** ** The queue *)
Definition is_pending (pod : Pod) : bool :=
  String.eqb (pod_SchedulerName pod) (wt_schedulerName wc) &&
  String.eqb (pod_Phase pod) PodPending && String.eqb (pod_NodeName pod) "".

Record podWithPriority : Type := mkPWP {
  pwp_pod : Pod;
  pwp_priority : Z;
  pwp_index : nat
}.

Definition pwp_less (a b : podWithPriority) : bool :=
  if pwp_priority a =? pwp_priority b then (pwp_index a <? pwp_index b)%nat
  else pwp_priority a >? pwp_priority b.

(** The pending pods in the order they are looked at. *)
Definition queue_order (pendingPods : list Pod) : list Pod :=
  pwp_pod <$> sort_slice pwp_less
    (imap (λ i pod, mkPWP pod (GetPriorityFromPod pod (wt_workflowCfg wc)) i) pendingPods).

(** The loop over the pending evictions: it stops at the first evicted pod that
    still exists, and deletes the keys it passes. *)
Fixpoint check_evictions (pods : list Pod) (keys : list string) (pendingEvictions : gmap string Time) :
    gmap string Time * bool :=
  match keys with
  | [] => (pendingEvictions, false)
  | key :: keys' =>
      if existsb (λ pod, String.eqb (pod_key (pod_Namespace pod) (pod_Name pod)) key) pods
      then (pendingEvictions, true)
      else check_evictions pods keys' (delete key pendingEvictions)
  end.

(** The oracle of one cycle: the clock, the orders of the map loops and the job
    identifiers of its scheduling attempts. *)
Record CycleOracle : Type := mkOracle {
  or_now : Time;
  or_evictions : list string;
  or_gangs : list string;
  or_orders : nat → noOrders;
  or_jobIDs : nat → string
}.

Definition processQueue (o : CycleOracle) (st : WState W) : outcome (WState W) :=
  match ListPods (w_api st) with
  | (w, Err _) => Done (set_api w st)
  | (w, Ok pods) =>
      let st1 := set_api w st in
      let pendingPods := List.filter is_pending pods in
      if (length pendingPods =? 0)%nat then Done st1
      else
        let '(pending, defer) :=
          check_evictions pods (or_evictions o) (w_pendingEvictions st1) in
        let st2 := set_pending pending st1 in
        if defer then Done st2
        else
          let '(readyGang, standalonePods, _) :=
            Collect (wt_gangTimeout wc) (or_now o) (or_gangs o) (queue_order pendingPods) in
          st3 ← foldM (λ st ig, scheduleGang (or_orders o ig.1) (or_jobIDs o ig.1) ig.2 st) st2
                  (imap pair readyGang);
          foldM (λ st ip, schedulePod (or_now o) (or_orders o (length readyGang + ip.1)%nat)
                            (or_jobIDs o (length readyGang + ip.1)%nat) ip.2 st) st3
            (imap pair standalonePods)
  end.

Definition is_ready (pod : Pod) : bool :=
  existsb (λ c, String.eqb c.1 "Ready" && String.eqb c.2 "True") (pod_Conditions pod).

Definition GetRunningPod (st : WState W) : WState W * result string (list Pod) :=
  match ListPods (w_api st) with
  | (w, Err e) => (set_api w st, Err e)
  | (w, Ok pods) =>
      (set_api w st, Ok (List.filter (λ pod,
         String.eqb (pod_SchedulerName pod) (wt_schedulerName wc) &&
         String.eqb (pod_Phase pod) PodRunning && negb (String.eqb (pod_NodeName pod) "") &&
         is_ready pod) pods))
  end.
End watcher.

(** ** Specification *)

(** [i] is looked at before [j]: higher priority, or equal and listed earlier. *)
Definition before (wc : WatcherConfig) (pods : list Pod) (i j : nat) : Prop :=
  ∀ p q, pods !! i = Some p → pods !! j = Some q →
    GetPriorityFromPod q (wt_workflowCfg wc) < GetPriorityFromPod p (wt_workflowCfg wc) ∨
    GetPriorityFromPod p (wt_workflowCfg wc) = GetPriorityFromPod q (wt_workflowCfg wc) ∧ (i < j)%nat.

(** Every GPU and MIG identifier the agents reported can be logged. *)
Definition ids_loggable (r : Registry) : Prop :=
  ∀ k node g, reg_nodes r !! k = Some node → g ∈ ng_GPUs node →
    (12 ≤ String.length (gi_UUID g))%nat ∧
    ∀ mi, mi ∈ gi_MIGInstances g → (12 ≤ String.length (mig_UUID mi))%nat.

(** The counters have room for [total] more memory and [count] more pods. *)
Definition roomy (r : Registry) (total count : Z) : Prop :=
  ∀ n g, GetReservedMemory n g r + total ≤ int_max ∧ GetPodCount n g r + count ≤ int_max.

Definition key_of (pod : Pod) : string := pod_key (pod_Namespace pod) (pod_Name pod).

(** The tracked entries after some pods are released. *)
Definition without (victims : list Pod) (al : gmap string (list AllocationEntry)) :
    gmap string (list AllocationEntry) := foldr (λ p, delete (key_of p)) al victims.

(** What a scheduling attempt may ask of one device, and of how many. *)
Definition gpus_wanted (pod : Pod) : Z := Z.max 1 (GetGPUCountFromPod pod).

Definition may_evict (wc : WatcherConfig) (pod victim : Pod) : Prop :=
  pod_SchedulerName victim = wt_schedulerName wc ∧ pod_Phase victim = PodRunning ∧
  IsPreemptible victim (wt_workflowCfg wc) = true ∧
  GetPriorityFromPod victim (wt_workflowCfg wc) < GetPriorityFromPod pod (wt_workflowCfg wc).

(** The marks on a pod that is bound. *)
Definition placement_annotations (gpuIDs : list string) (isMIG : bool) : list (string * string) :=
  [("gpu-scheduler/assigned-gpus", join "," gpuIDs);
   ("gpu-scheduler/allocation-type", if isMIG then "mig" else "full")].

(** The calls that bind a pod, at most after a listing: the marks, whether or not
    they are accepted, and the bind, which is. *)
Definition bound_by {W} `{KubeAPI W} (pod : Pod) (nodeName : string) (gpuIDs : list string) (isMIG : bool)
    (w w' : W) : Prop :=
  ∃ w0, (w0 = w ∨ w0 = (ListPods w).1) ∧
    BindPod (PatchAnnotations w0 (pod_Namespace pod) (pod_Name pod) (placement_annotations gpuIDs isMIG)).1
      (pod_Namespace pod) (pod_Name pod) nodeName = (w', None).

(** The calls of an attempt that finds no room: a listing, and for a pod it may
    evict a checkpoint, a deletion or the creation of its replacement. *)
Inductive eviction_call {W} `{KubeAPI W, PodExecutor W} (wc : WatcherConfig) (pod : Pod) (w : W) : W → Prop :=
  | call_list : eviction_call wc pod w (ListPods w).1
  | call_exec v cmd :
      may_evict wc pod v →
      eviction_call wc pod w (ExecInPod w (pod_Namespace v) (pod_Name v) "" ["sh"; "-c"; cmd]).1
  | call_delete v grace :
      may_evict wc pod v → eviction_call wc pod w (DeletePod w (pod_Namespace v) (pod_Name v) grace).1
  | call_create po v n :
      may_evict wc pod (pcd_Pod v) → eviction_call wc pod w (CreatePod w (buildResumePod po v n)).1.

(** The bind was refused: the marks were sent, whether or not they were accepted,
    and the API server answered the bind with an error. *)
Definition refused_by {W} `{KubeAPI W} (pod : Pod) (nodeName : string) (gpuIDs : list string) (isMIG : bool)
    (w w' : W) : Prop :=
  ∃ w0 err, (w0 = w ∨ w0 = (ListPods w).1) ∧
    BindPod (PatchAnnotations w0 (pod_Namespace pod) (pod_Name pod) (placement_annotations gpuIDs isMIG)).1
      (pod_Namespace pod) (pod_Name pod) nodeName = (w', Some err).

(** The pod is bound, with as many entries as it wants GPUs, on one node, and
    announced. *)
Definition placed {W} `{KubeAPI W} (pod : Pod) (st st' : WState W) : Prop :=
  ∃ nodeName es isMIG, Z.of_nat (length es) = gpus_wanted pod ∧
     Forall (λ e, ae_NodeName e = nodeName ∧ 0 ≤ ae_MemoryMB e ≤ GetGPUMemoryFromPod pod ∧ ae_IsMIG e = isMIG ∧
       (gpus_wanted pod = 1 → ae_MemoryMB e = GetGPUMemoryFromPod pod)) es ∧
     bound_by pod nodeName (ae_GPUUUID <$> es) isMIG (w_api st) (w_api st') ∧
     reg_podAllocations (w_registry st') = <[key_of pod := es]> (reg_podAllocations (w_registry st)) ∧
     w_events st' =
       (w_events st ++ [scheduled_event pod nodeName (join "," (ae_GPUUUID <$> es))])%list.

(** What a scheduling attempt leaves behind: the pod placed; or its bind refused,
    and everything as before; or no bind sent at all, no event of a placement, and
    no entries gone but those of the victims. *)
Definition transaction {W} `{KubeAPI W, PodExecutor W} (wc : WatcherConfig) (pod : Pod) (st st' : WState W) : Prop :=
  placed pod st st' ∨
  (∃ nodeName gpuIDs isMIG, refused_by pod nodeName gpuIDs isMIG (w_api st) (w_api st') ∧
     reg_podAllocations (w_registry st') = reg_podAllocations (w_registry st) ∧
     w_pendingEvictions st' = w_pendingEvictions st ∧ w_events st' = w_events st) ∨
  (∃ victims evs, Forall (may_evict wc pod) victims ∧ rtc (eviction_call wc pod) (w_api st) (w_api st') ∧
     reg_podAllocations (w_registry st') = without victims (reg_podAllocations (w_registry st)) ∧
     w_events st' = (w_events st ++ evs)%list ∧ Forall (λ e, e.1 ≠ "pod-scheduled") evs).

(** The memory a scheduling attempt may reserve. *)
Definition demand (pod : Pod) : Z := gpus_wanted pod * GetGPUMemoryFromPod pod.

(** A GPU of node [n] that a split-role pod may take, as a candidate. *)
Definition disagg_fits (nodes : list NodeInfo) (mem : Z) (n : string) (c : disaggFullGPUCandidate) : Prop :=
  ∃ node g, node ∈ nodes ∧ node_Name node = n ∧ g ∈ node_GPUs node ∧
    gpu_IsHealthy g = true ∧ gpu_IsMPS g = false ∧ gpu_AllocatedPods g ≤ 0 ∧ mem ≤ AvailableMemoryMB g ∧
    c = mkDisagg n (gpu_ID g) (AvailableMemoryMB g).

(** Every entry a restart recovers. *)
Definition recovered_all (wc : WatcherConfig) (pods : list Pod) : list AllocationEntry :=
  pods ≫= (λ p, default [] (recovered_entries wc p)).

(** The pod the API server holds once it was annotated, bound and started. *)
Definition running_as (pod : Pod) (nodeName : string) (gpuIDs : list string) (isMIG : bool) : Pod :=
  mkPod (pod_Name pod) (pod_Namespace pod) (pod_Labels pod)
    (<["gpu-scheduler/assigned-gpus" := join "," gpuIDs]>
      (<["gpu-scheduler/allocation-type" := if isMIG then "mig" else "full"]> (pod_Annotations pod)))
    (pod_CreationTimestamp pod) (pod_SchedulerName pod) nodeName (pod_Affinity pod)
    (pod_Containers pod) (pod_InitContainers pod) (pod_Volumes pod) PodRunning (pod_Conditions pod).

(** ** Specification of a cycle *)

(** The pods can be scheduled one after the other: they are distinct and
    untracked, ask for no negative amount, and the counters have room for all. *)
Definition schedulable (r : Registry) (pods : list Pod) : Prop :=
  NoDup (key_of <$> pods) ∧
  Forall (λ p, reg_podAllocations r !! key_of p = None ∧ 0 ≤ GetGPUMemoryFromPod p ∧
    GetGPUMemoryFromPod p + gpus_wanted p ≤ int_max) pods ∧
  roomy r (zsum (demand <$> pods)) (zsum (gpus_wanted <$> pods)).

(** What scheduling [pods] may change in the tracked entries: it tracks only
    those pods, and gives up only pods they may evict. *)
Definition changes (wc : WatcherConfig) (pods : list Pod) (r r' : Registry) : Prop :=
  (∀ key, is_Some (reg_podAllocations r' !! key) →
     reg_podAllocations r' !! key = reg_podAllocations r !! key ∨
     ∃ p, p ∈ pods ∧ key_of p = key) ∧
  (∀ key, is_Some (reg_podAllocations r !! key) →
     reg_podAllocations r' !! key = reg_podAllocations r !! key ∨
     ∃ p v, p ∈ pods ∧ may_evict wc p v ∧ key_of v = key).

(** What placing one pod does to the tracked entries. *)
Definition tracked_step (wc : WatcherConfig) (pod : Pod) (r r' : Registry) : Prop :=
  (∃ es, Z.of_nat (length es) = gpus_wanted pod ∧
     Forall (λ e, 0 ≤ ae_MemoryMB e ≤ GetGPUMemoryFromPod pod) es ∧
     reg_podAllocations r' = <[key_of pod := es]> (reg_podAllocations r)) ∨
  (∃ victims, Forall (may_evict wc pod) victims ∧
     reg_podAllocations r' = without victims (reg_podAllocations r)).
