(* ===== verification/Scenario.v ===== *)
(** * A small cluster for the examples of the watcher

    An API server that lists its pods and accepts or refuses binds and
    deletions, a watcher on one node with two GPUs, and what a few runs show. *)

From Stdlib Require Import ZArith Lia Ascii String.
From stdpp Require Import base option list strings gmap sorting.
From S2P Require Import Prelude GoFloat GoStrings Types K8s Config Helpers Registry Strategy Binpack.
From S2P Require Import GangMultiPod Routing Allocator GangCollector Preemption Watcher.
Open Scope string_scope.
Open Scope Z_scope.
Open Scope go_scope.

(** ** The cluster

    A cluster that lists its pods and accepts or refuses binds and deletions. *)
Record FakeCluster : Type := mkFake {
  fk_pods : list Pod;
  fk_binds : bool;
  fk_deletes : bool
}.

Definition fk_result (ok : bool) : option string := if ok then None else Some "refused".

#[export] Instance fake_api : KubeAPI FakeCluster := {|
  ListPods w := (w, Ok (fk_pods w));
  PatchAnnotations w _ _ _ := (w, None);
  BindPod w _ _ _ := (w, fk_result (fk_binds w))
|}.

#[export] Instance fake_executor : PodExecutor FakeCluster := {|
  ExecInPod w _ _ _ _ := (w, None);
  DeletePod w _ _ _ := (w, fk_result (fk_deletes w));
  CreatePod w p := (w, Ok p)
|}.

(** A cluster that accepts everything. *)
Record OpenCluster : Type := mkOpen { op_pods : list Pod }.

#[export] Instance open_api : KubeAPI OpenCluster := {|
  ListPods w := (w, Ok (op_pods w));
  PatchAnnotations w _ _ _ := (w, None);
  BindPod w _ _ _ := (w, None)
|}.

#[export] Instance open_executor : PodExecutor OpenCluster := {|
  ExecInPod w _ _ _ _ := (w, None);
  DeletePod w _ _ _ := (w, None);
  CreatePod w p := (w, Ok p)
|}.

(** A cluster that refuses the binds of some pods, by name. *)
Record PickyCluster : Type := mkPicky { py_refused : list string }.

#[export] Instance picky_api : KubeAPI PickyCluster := {|
  ListPods w := (w, Ok []);
  PatchAnnotations w _ _ _ := (w, None);
  BindPod w _ name _ := (w, fk_result (negb (existsb (String.eqb name) (py_refused w))))
|}.

Definition sample_watcher : WatcherConfig :=
  mkWatcherConfig "gpu-scheduler" (mkWorkflowConfig true true 50 []) (seconds 60)
    (Some sample_preempt_cfg).

Definition sample_state (pods : list Pod) (binds deletes : bool) (r : Registry) :
    WState FakeCluster := mkWState (mkFake pods binds deletes) r ∅ [].

Definition open_state : WState OpenCluster := mkWState (mkOpen []) sample_registry ∅ [].

Definition one_node : noOrders := λ _, ["node-a"].

Definition train_pod : Pod := sample_pod "ml" "train" [("gpu-scheduler.io/memory-mb", "20000")].

(** What a run leaves behind, [None] after a panic. *)
Definition left_by (o : outcome (WState FakeCluster)) : option (WState FakeCluster) :=
  match o with Done st => Some st | Panicked => None end.

Definition entries_left (o : outcome (WState FakeCluster)) (key : string) :
    option (list AllocationEntry) := left_by o ≫= λ st, reg_podAllocations (w_registry st) !! key.

Definition evicted_pod : Pod := sample_pod "ml" "old" [].

Definition sample_oracle : CycleOracle :=
  mkOracle 2000 ["ml/old"] [] (λ _, one_node) (λ _, "job").

Definition running_train : Pod := running_as train_pod "node-a" ["GPU-aaaaaaaaaaaa"] false.

Lemma sample_room pods binds deletes n g :
  let r := w_registry (sample_state pods binds deletes sample_registry) in
  GetReservedMemory n g r = 0 ∧ GetPodCount n g r = 0.
Proof.
  cbn. unfold GetReservedMemory, GetPodCount, cell, sample_registry, UpdateFromReport. cbn.
  by rewrite !lookup_empty.
Qed.

Lemma sample_loggable : ids_loggable sample_registry.
Proof.
  intros k node g Hk Hg. unfold sample_registry, UpdateFromReport in Hk.
  cbn [reg_nodes NewRegistry rep_NodeName sample_report] in Hk.
  apply lookup_insert_Some in Hk as [[_ <-]|[_ Hk]]; [|by rewrite lookup_empty in Hk].
  cbn in Hg. rewrite !elem_of_cons in Hg.
  destruct Hg as [->|[->|Hg]]; [| |by apply elem_of_nil in Hg]; split; try (cbn; lia);
    intros mi Hmi; cbn in Hmi; [by apply elem_of_nil in Hmi|].
  apply list_elem_of_singleton in Hmi as ->. cbn. lia.
Qed.

(** ** What the runs show *)

(** A victim whose deletion the API server refuses keeps running, but the
    scheduler has already given its memory away. *)
Lemma failed_eviction_releases :
  let urgent := sample_pod "ml" "urgent" [("gpu-scheduler.io/memory-mb", "30000");
                                          ("gpu-scheduler/priority", "90")] in
  let r := after (MarkGPUAllocatedForPod "node-a" "GPU-aaaaaaaaaaaa" 40000 "ml" "train" sample_registry) in
  let victim := with_annotation "gpu-scheduler/preemptible" "true"
    (with_annotation "gpu-scheduler.io/memory-mb" "40000" running_train) in
  let o := schedulePod BinPacker sample_watcher 2000 one_node "job-2" urgent
    (sample_state [victim; urgent] true false r) in
  entries_left (Done (sample_state [] true true r)) "ml/train" =
    Some [mkAllocationEntry "node-a" "GPU-aaaaaaaaaaaa" 40000 false] ∧
  entries_left o "ml/train" = None ∧
  (fk_pods ∘ w_api) <$> left_by o = Some [victim; urgent].
Proof. split_and!; vm_compute; reflexivity. Qed.

(** A pod on two GPUs reserves its whole request on each of them when it is
    scheduled and half of it on each after a restart. *)
Lemma restart_halves_reservation :
  let two_gpus := UpdateFromReport 1000 (mkGPUReport "node-a" true
    [Registry.sample_gpu "GPU-aaaaaaaaaaaa" false; Registry.sample_gpu "GPU-bbbbbbbbbbbb" false]) NewRegistry in
  let pod := with_annotation "gpu-scheduler/gpu-count" "2" train_pod in
  let ids := ["GPU-aaaaaaaaaaaa"; "GPU-bbbbbbbbbbbb"] in
  let reserved o := (λ st : WState FakeCluster,
    (λ id, GetReservedMemory "node-a" id (w_registry st)) <$> ids) <$> left_by o in
  reserved (schedulePod BinPacker sample_watcher 2000 one_node "job-1" pod
    (sample_state [] true true two_gpus)) = Some [20000; 20000] ∧
  reserved (reconcileExistingPods sample_watcher
    (sample_state [running_as pod "node-a" ids false] true true NewRegistry)) = Some [10000; 10000].
Proof. split; vm_compute; reflexivity. Qed.

(** A pod that asks for GPUs only by count is scheduled, but the informer does
    not take it for a GPU pod: its reservation outlives it. *)
Lemma non_gpu_pod_leaks :
  let pod := sample_pod "ml" "train" [("gpu-scheduler/gpu-count", "1")] in
  let o := schedulePod BinPacker sample_watcher 2000 one_node "job-1" pod
    (sample_state [] true true sample_registry) in
  is_Some (entries_left o "ml/train") ∧
  is_Some (entries_left (st ← o; on_delete pod st) "ml/train").
Proof. split; vm_compute; eauto. Qed.

(** A resumed pod keeps its annotations but not its labels: a pod that insisted
    on a full GPU may be put on a MIG slice after its first eviction. *)
Lemma resume_drops_pool :
  let pod := mkPod "train" "ml" {[LabelPool := "full"]} ∅ 0 "gpu-scheduler" "node-a" None [] [] []
    PodRunning [] in
  let again := buildResumePod sample_preempt_cfg (mkPreemptionCandidate pod 10 "training" true [] "" 0) 1 in
  ClassifyJob (Some pod) = mkJobClassification PoolFull 0 true ∧
  ClassifyJob (Some again) = mkJobClassification PoolAuto 0 false.
Proof. split; vm_compute; reflexivity. Qed.

(** The scheduling view shows a GPU in MIG mode as a plain GPU: a pod on two GPUs
    is given one that the search for full GPUs would never offer. *)
Lemma mig_gpu_given_whole :
  let pod := with_annotation "gpu-scheduler/gpu-count" "2" train_pod in
  let o := schedulePod BinPacker sample_watcher 2000 one_node "job-1" pod
    (sample_state [] true true sample_registry) in
  (λ es, map ae_GPUUUID es) <$> entries_left o "ml/train" = Some ["GPU-aaaaaaaaaaaa"; "GPU-bbbbbbbbbbbb"] ∧
  map gc_GPUUUID (FindAvailableFullGPU 0 ["node-a"] sample_registry) = ["GPU-aaaaaaaaaaaa"].
Proof. split; vm_compute; reflexivity. Qed.

(** One refused bind splits a gang: the others stay bound, and the gang is
    announced as scheduled with its full size. *)
Lemma refused_bind_splits_gang :
  let member name := sample_pod "ml" name [("gpu-scheduler.io/memory-mb", "10000")] in
  let gang := mkGangState "g" 2 [member "w0"; member "w1"] 0 in
  let two_gpus := UpdateFromReport 1000 (mkGPUReport "node-a" true
    [Registry.sample_gpu "GPU-aaaaaaaaaaaa" false; Registry.sample_gpu "GPU-bbbbbbbbbbbb" false]) NewRegistry in
  let o := scheduleGang BinPacker one_node "job-1" gang
    (mkWState (mkPicky ["w1"]) two_gpus ∅ []) in
  match o with
  | Done st => is_Some (reg_podAllocations (w_registry st) !! "ml/w0") ∧
      reg_podAllocations (w_registry st) !! "ml/w1" = None ∧
      w_events st = [("pod-scheduled", [("gang_id", "g"); ("size", "2")])]
  | Panicked => False
  end.
Proof. vm_compute. eauto. Qed.
