(* ===== verification/Disagg.v ===== *)
(** * Where the other half of a split model runs

    [resolveDisaggPreferredNodes] orders the nodes for a prefill or decode pod:
    those next to the complementary role first.  What the loop computes, exactly,
    and a case in which a node next to the complementary role comes last. *)

From Stdlib Require Import ZArith Lia Ascii String.
From stdpp Require Import base option list strings gmap sorting.
From S2P Require Import Prelude GoFloat GoStrings Types K8s Config Helpers Registry Strategy Binpack.
From S2P Require Import GangMultiPod Routing Allocator GangCollector Preemption Watcher Scenario.
Open Scope string_scope.
Open Scope Z_scope.
Open Scope go_scope.

(** ** Specification *)
Definition complementary (intent : DisaggPodIntent) : string :=
  if String.eqb (di_Role intent) Prefill then Decode else Prefill.

(** A running pod of the scheduler and the model group, in one of the two roles. *)
Definition peer (schedulerName : string) (intent : DisaggPodIntent) (pod : Pod) : bool :=
  String.eqb (pod_SchedulerName pod) schedulerName && String.eqb (pod_Phase pod) PodRunning &&
  negb (String.eqb (pod_NodeName pod) "") && String.eqb (di_ModelGroup intent) (GetPodModelGroup pod) &&
  (String.eqb (GetPodInferenceRole pod) (complementary intent) ||
   String.eqb (GetPodInferenceRole pod) (di_Role intent)).

(** The first such pod of a node, in listing order. *)
Definition first_peer (schedulerName : string) (intent : DisaggPodIntent) (pods : list Pod)
    (node : string) : option Pod :=
  head (List.filter (λ p, peer schedulerName intent p && String.eqb (pod_NodeName p) node) pods).

Definition first_role (schedulerName : string) (intent : DisaggPodIntent) (pods : list Pod)
    (node : string) : option string :=
  option_map GetPodInferenceRole (first_peer schedulerName intent pods node).

(** ** Lemmas *)
Lemma complementary_ne intent : complementary intent ≠ di_Role intent.
Proof.
  unfold complementary. destruct (String.eqb_spec (di_Role intent) Prefill) as [->|Hne]; [done|].
  by intros E; apply Hne.
Qed.

Section resolve.
Context (schedulerName : string) (intent : DisaggPodIntent).

Let comp := complementary intent.
Let step := resolve_step schedulerName intent comp.
Let role_of := first_role schedulerName intent.

Lemma step_other acc pod : peer schedulerName intent pod = false → step acc pod = acc.
Proof.
  unfold peer, step, resolve_step. destruct acc as [[c f] seen]. fold comp.
  destruct (String.eqb (pod_SchedulerName pod) schedulerName); [|done].
  destruct (String.eqb (pod_Phase pod) PodRunning); [|done].
  destruct (String.eqb (pod_NodeName pod) ""); [done|].
  destruct (String.eqb (di_ModelGroup intent) _); [|done]. cbn.
  by destruct (String.eqb _ comp), (String.eqb _ (di_Role intent)).
Qed.

Lemma step_peer c f seen pod :
  peer schedulerName intent pod = true →
  step (c, f, seen) pod =
    let node := pod_NodeName pod in
    if decide (node ∈ seen) then (c, f, seen)
    else if String.eqb (GetPodInferenceRole pod) comp then ((c ++ [node])%list, f, {[node]} ∪ seen)
    else (c, (f ++ [node])%list, {[node]} ∪ seen).
Proof.
  unfold peer, step, resolve_step. fold comp.
  destruct (String.eqb (pod_SchedulerName pod) schedulerName); [|done].
  destruct (String.eqb (pod_Phase pod) PodRunning); [|done].
  destruct (String.eqb (pod_NodeName pod) ""); [done|].
  destruct (String.eqb (di_ModelGroup intent) _); [|done]. cbn.
  destruct (String.eqb _ comp); [done|]. by destruct (String.eqb _ (di_Role intent)).
Qed.

Lemma peer_role pod :
  peer schedulerName intent pod = true →
  GetPodInferenceRole pod = comp ∨ GetPodInferenceRole pod = di_Role intent.
Proof.
  unfold peer. intros [_ H]%andb_true_iff.
  by apply orb_true_iff in H as [H%String.eqb_eq|H%String.eqb_eq]; [left|right].
Qed.

(** One more pod only matters for its own node, and only as the first peer. *)
Lemma role_of_snoc pods pod node :
  role_of (pods ++ [pod]) node =
    match role_of pods node with
    | Some r => Some r
    | None => if peer schedulerName intent pod && String.eqb (pod_NodeName pod) node
              then Some (GetPodInferenceRole pod) else None
    end.
Proof.
  unfold role_of, first_role, first_peer. rewrite List.filter_app.
  destruct (List.filter _ pods) as [|p l]; [|done]. cbn. by destruct (_ && _).
Qed.

(** The state of the loop after the pods [pods]. *)
Definition resolved (pods : list Pod) (acc : list string * list string * gset string) : Prop :=
  let '(c, f, seen) := acc in
  NoDup (c ++ f) ∧ (∀ n, n ∈ seen ↔ n ∈ (c ++ f)%list) ∧
  (∀ n, n ∈ c ↔ role_of pods n = Some comp) ∧ (∀ n, n ∈ f ↔ role_of pods n = Some (di_Role intent)).

Lemma resolved_seen pods c f seen n :
  resolved pods (c, f, seen) → n ∉ seen → role_of pods n = None.
Proof.
  intros (_ & Hseen & Hc & Hf) Hn. rewrite Hseen, elem_of_app in Hn.
  unfold role_of, first_role in *. destruct (first_peer _ _ pods n) as [p|] eqn:E; [|done].
  exfalso. apply Hn. assert (peer schedulerName intent p = true) as Hp.
  { unfold first_peer in E. apply head_Some_elem_of, list_filter_elem in E as [_ E]. by bool_hyps. }
  destruct (peer_role p Hp) as [Er|Er]; [left; apply Hc|right; apply Hf];
    rewrite E; cbn; by rewrite Er.
Qed.

Lemma role_of_snoc_some pods pod node r :
  peer schedulerName intent pod = true →
  role_of (pods ++ [pod]) node = Some r ↔ role_of pods node = Some r ∨
    role_of pods node = None ∧ node = pod_NodeName pod ∧ r = GetPodInferenceRole pod.
Proof.
  intros Hp. rewrite role_of_snoc, Hp. cbn [andb].
  destruct (role_of pods node), (String.eqb_spec (pod_NodeName pod) node); naive_solver.
Qed.

Lemma resolved_snoc pods pod acc : resolved pods acc → resolved (pods ++ [pod]) (step acc pod).
Proof.
  destruct acc as [[c f] seen]. intros Hinv. pose proof Hinv as (Hnd & Hseen & Hc & Hf).
  destruct (peer schedulerName intent pod) eqn:Hp.
  2: { rewrite step_other by done. split_and!; [done|done|..]; intros n; rewrite role_of_snoc, Hp;
      [rewrite Hc|rewrite Hf]; by destruct (role_of pods n). }
  rewrite step_peer by done. cbv zeta. pose proof (complementary_ne intent) as Hne. fold comp in Hne.
  case_decide as Hin.
  - assert (role_of pods (pod_NodeName pod) ≠ None) as Hsome.
    { apply Hseen, elem_of_app in Hin as [Hin%Hc|Hin%Hf]; congruence. }
    split_and!; [done|done|..]; intros n; rewrite role_of_snoc_some by done; [rewrite Hc|rewrite Hf];
      (split; [by left|]; intros [?|(Hn & -> & _)]; [done|by destruct Hsome]).
  - pose proof (resolved_seen pods c f seen _ Hinv Hin) as Hnone. rewrite Hseen in Hin.
    destruct (String.eqb_spec (GetPodInferenceRole pod) comp) as [E|E]; split_and!.
    + rewrite <-app_assoc. cbn. rewrite <-Permutation_middle. by apply NoDup_cons_2.
    + intros n. rewrite elem_of_union, elem_of_singleton, Hseen, !elem_of_app, list_elem_of_singleton. tauto.
    + intros n. rewrite elem_of_app, list_elem_of_singleton, role_of_snoc_some, Hc by done.
      split; [intros [H0| ->]; auto|intros [H0|(_ & -> & _)]; auto].
    + intros n. rewrite role_of_snoc_some, Hf by done. split; [auto|]. intros [H0|(_ & _ & ?)]; [done|congruence].
    + rewrite app_assoc, (Permutation_app_comm _ [_]). by apply NoDup_cons_2.
    + intros n. rewrite elem_of_union, elem_of_singleton, Hseen, !elem_of_app, list_elem_of_singleton. tauto.
    + intros n. rewrite role_of_snoc_some, Hc by done. split; [auto|]. intros [H0|(_ & _ & ?)]; [done|congruence].
    + assert (GetPodInferenceRole pod = di_Role intent) as Er by (by destruct (peer_role pod Hp)).
      intros n. rewrite elem_of_app, list_elem_of_singleton, role_of_snoc_some, Er, Hf by done.
      split; [intros [H0| ->]; auto|intros [H0|(_ & -> & _)]; auto].
Qed.

Lemma resolved_all pods : resolved pods (foldl step ([], [], ∅) pods).
Proof.
  induction pods as [|pod pods IH] using rev_ind.
  - split_and!; [constructor|set_solver|..]; intros n; (split; [intros Hn; by apply elem_of_nil in Hn|done] || set_solver).
  - rewrite foldl_app. by apply resolved_snoc.
Qed.
End resolve.

(** The preferred nodes are exact. They are, once each, the nodes with a
    running pod of the scheduler, the model group and one of the two roles; those
    whose first such pod has the complementary role come before those whose
    first such pod has the role of the pod to place. *)
Theorem resolve_nodes_exact schedulerName intent pods :
  ∃ near far, resolve_nodes schedulerName intent pods = (near ++ far)%list ∧ NoDup (near ++ far) ∧
    (∀ n, n ∈ near ↔ first_role schedulerName intent pods n = Some (complementary intent)) ∧
    (∀ n, n ∈ far ↔ first_role schedulerName intent pods n = Some (di_Role intent)).
Proof.
  pose proof (resolved_all schedulerName intent pods) as H. unfold resolve_nodes.
  fold (complementary intent). destruct (foldl _ _ pods) as [[c f] seen].
  destruct H as (H1 & _ & H2 & H3). by exists c, f.
Qed.

(** The first peer decides alone: a node that hosts a decode pod comes after all
    others when a prefill pod on it is listed earlier. *)
Lemma listing_order_demotes :
  let split name role node := running_as (sample_pod "ml" name
    [("gpu-scheduler/inference-role", role); ("gpu-scheduler/model-group", "m")]) node [] false in
  let pods := [split "p0" Prefill "node-a"; split "d0" Decode "node-a"; split "p1" Prefill "node-b"] in
  let intent := mkDisaggPodIntent Prefill "m" true true "" in
  resolve_nodes "gpu-scheduler" intent pods = ["node-a"; "node-b"] ∧
  first_role "gpu-scheduler" intent pods "node-a" = Some Prefill ∧
  resolve_nodes "gpu-scheduler" intent (reverse pods) = ["node-a"; "node-b"] ∧
  first_role "gpu-scheduler" intent (reverse pods) "node-a" = Some Decode ∧
  resolve_nodes "gpu-scheduler" intent
    [split "p1" Prefill "node-b"; split "p0" Prefill "node-a"; split "d0" Decode "node-a"] =
    ["node-b"; "node-a"].
Proof. split_and!; vm_compute; reflexivity. Qed.
