(* ===== verification/Placement.v ===== *)
(** * Scheduling one pod: what [schedulePod] promises

    Reserving, annotating, binding and rolling back, for single devices and for
    several GPUs of one node, and the choice of a device for split roles. *)

From Stdlib Require Import ZArith Lia Ascii String.
From stdpp Require Import base option list strings gmap sorting.
From S2P Require Import Prelude GoFloat GoStrings Types K8s Config Helpers Registry Strategy Binpack.
From S2P Require Import GangMultiPod Routing Allocator GangCollector Preemption Watcher Scenario.
Open Scope string_scope.
Open Scope Z_scope.
Open Scope go_scope.

(** ** Lemmas on marks *)
Lemma mark_entry_spec pod r e M k :
  registry_wf r → roomy r M k → 0 ≤ ae_MemoryMB e ≤ M → 1 ≤ k →
  (12 ≤ String.length (ae_GPUUUID e))%nat →
  ∃ r', mark_entry pod r e = Done r' ∧ keeps r r' ∧ roomy r' (M - ae_MemoryMB e) (k - 1) ∧
    reg_podAllocations r' =
      <[key_of pod := (default [] (reg_podAllocations r !! key_of pod) ++ [e])%list]> (reg_podAllocations r).
Proof.
  intros Hwf Hroom Hm Hk Hlen. unfold mark_entry. destruct e as [n g m mig]; cbn in *.
  set (M' := M - m). destruct mig.
  - destruct (str_prefix_some 12 g Hlen) as [s Hs].
    assert (∃ r', MarkMIGAllocatedForPod n g m (pod_Namespace pod) (pod_Name pod) r = Done r') as [r' Hr'].
    { unfold MarkMIGAllocatedForPod. rewrite Hs. cbn. eauto. }
    exists r'. split; [done|]. split; [split; [exact (mark_mig_wf n g m _ _ r r' Hwf (proj1 Hm) Hr')|by eapply mark_mig_ids]|].
    unfold MarkMIGAllocatedForPod in Hr'. rewrite Hs in Hr'. injection Hr' as <-. split; [|done].
    intros n' g'. destruct (Hroom n' g') as [H1 H2]. unfold M'. split; [|].
    + change (GetReservedMemory n' g' r + (M - m) ≤ int_max). lia.
    + change (GetPodCount n' g' r + (k - 1) ≤ int_max). lia.
  - destruct (mark_gpu_total n g m (pod_Namespace pod) (pod_Name pod) r Hwf Hlen) as [r' Hr'].
    assert (op_ok r (OpMarkGPU n g m (pod_Namespace pod) (pod_Name pod))) as Hop.
    { destruct (Hroom n g). cbn. lia. }
    exists r'. split; [done|]. split; [split; [by eapply mark_gpu_wf|by eapply mark_gpu_ids]|].
    destruct Hwf as (Hdom & Hok & Hsum).
    apply mark_gpu_cells in Hr' as (Hres & Hcnt & _ & Hal & _); [|done]. split; [|done].
    intros n' g'. rewrite Hres, Hcnt. destruct (Hroom n' g') as [H1 H2], (Hroom n g) as [H3 H4].
    destruct (Hsum n g) as (E1 & E2 & _). unfold M'.
    pose proof (mem_on_nonneg n g _ Hok). pose proof (count_on_nonneg n g (entries_of (reg_podAllocations r))).
    case_decide; [|lia]. split; int_solve.
Qed.

Lemma mark_entries_spec pod es r M k :
  registry_wf r → roomy r M k → zsum (ae_MemoryMB <$> es) ≤ M → Z.of_nat (length es) ≤ k →
  Forall entry_ok es → es ≠ [] →
  ∃ r', foldM (mark_entry pod) r es = Done r' ∧ keeps r r' ∧
    roomy r' (M - zsum (ae_MemoryMB <$> es)) (k - Z.of_nat (length es)) ∧
    reg_podAllocations r' =
      <[key_of pod := (default [] (reg_podAllocations r !! key_of pod) ++ es)%list]> (reg_podAllocations r).
Proof.
  revert r M k. induction es as [|e es IH]; intros r M k Hwf Hroom Hsum Hlen Hok Hne; [done|].
  apply Forall_cons in Hok as [[Hm Hl] Hok]. rewrite fmap_cons, zsum_cons in Hsum. cbn [length] in Hlen.
  assert (0 ≤ zsum (ae_MemoryMB <$> es)).
  { apply zsum_nonneg, Forall_fmap. eapply Forall_impl; [exact Hok|]. intros ? []. done. }
  destruct (mark_entry_spec pod r e M k Hwf Hroom ltac:(lia) ltac:(lia) Hl) as (r1 & E1 & Hk1 & Hroom1 & Hal1).
  cbn [foldM]. rewrite E1. cbn [mbind outcome_bind]. destruct es as [|e2 es].
  { exists r1. split; [done|]. split; [done|]. split; [|done]. cbn. by rewrite Z.add_0_r. }
  destruct (IH r1 (M - ae_MemoryMB e) (k - 1) (proj1 Hk1) Hroom1 ltac:(lia) ltac:(cbn [length] in *; lia) Hok ltac:(done))
    as (r2 & -> & Hk2 & Hroom2 & Hal2).
  exists r2. split; [done|]. split; [by eapply keeps_trans|]. split.
  { intros n g. destruct (Hroom2 n g). rewrite fmap_cons, zsum_cons. cbn [length] in *. lia. }
  rewrite Hal2, Hal1, lookup_insert_eq. cbn.
  rewrite insert_insert_eq. by rewrite <-(assoc app).
Qed.

Lemma without_untracked vs (al : gmap string (list AllocationEntry)) k :
  al !! k = None → without vs al !! k = None.
Proof.
  intros H. induction vs as [|v vs IH]; [done|]. cbn. rewrite lookup_delete_None. by right.
Qed.

Section watcher_lemmas.
Context `{GoSort} (strategy : SchedulingStrategy) {W : Type} `{KubeAPI W, PodExecutor W}.
Context (wc : WatcherConfig).

Implicit Types st : WState W.

Lemma release_spec pod st :
  registry_wf (w_registry st) →
  ∃ r', release pod st = Done (set_registry r' st) ∧ keeps (w_registry st) r' ∧
    reg_podAllocations r' = delete (key_of pod) (reg_podAllocations (w_registry st)).
Proof.
  intros Hwf. destruct (release_pod_wf (pod_Namespace pod) (pod_Name pod) _ Hwf) as (r' & E & ? & ?).
  exists r'. unfold release. rewrite E. split; [done|]. split; [|done]. split; [done|].
  by eapply ReleasePod_ids.
Qed.

Lemma forget_victims_spec now vs st :
  registry_wf (w_registry st) →
  ∃ st', foldM (forget_victim now) st vs = Done st' ∧ keeps (w_registry st) (w_registry st') ∧
    w_events st' = w_events st ∧ w_api st' = w_api st ∧
    ∃ ps, ps ≡ₚ (pcd_Pod <$> vs) ∧
      reg_podAllocations (w_registry st') = without ps (reg_podAllocations (w_registry st)).
Proof.
  revert st. induction vs as [|v vs IH]; intros st Hwf; cbn [foldM].
  { exists st. split_and!; try done. by exists []. }
  unfold forget_victim at 2. destruct (release_spec (pcd_Pod v) st Hwf) as (r' & -> & Hk & Hal).
  cbn [mbind outcome_bind]. set (st1 := set_pending _ _).
  destruct (IH st1 (proj1 Hk)) as (st' & -> & Hk2 & Hev & Hapi & ps & Hps & Hal2).
  exists st'. split; [done|]. split; [by eapply (keeps_trans _ _ _ Hk)|]. split; [done|]. split; [done|]. exists (ps ++ [pcd_Pod v])%list. split.
  - by rewrite Hps, Permutation_app_comm.
  - rewrite Hal2. unfold without. rewrite foldr_app. cbn. by rewrite Hal.
Qed.

(** What an eviction calls and publishes. *)
Definition unscheduled (e : Event) : Prop := e.1 ≠ "pod-scheduled".

Lemma publish_unscheduled po (e : Event) evs :
  unscheduled e → ∃ new, publish po e evs = (evs ++ new)%list ∧ Forall unscheduled new.
Proof.
  intros He. unfold publish. destruct (po_Publisher po); [by exists [e]; split; [|constructor]|].
  exists []. by rewrite app_nil_r.
Qed.

Lemma tryAutoResume_calls po pod v w evs :
  may_evict wc pod (pcd_Pod v) →
  rtc (eviction_call wc pod) w (tryAutoResume po v w evs).1 ∧
  ∃ new, (tryAutoResume po v w evs).2 = (evs ++ new)%list ∧ Forall unscheduled new.
Proof.
  intros Hv. unfold tryAutoResume.
  assert (rtc (eviction_call wc pod) w w ∧ ∃ new, evs = (evs ++ new)%list ∧ Forall unscheduled new) as Hnop.
  { split; [done|]. exists []. by rewrite app_nil_r. }
  destruct (negb _); [exact Hnop|]. destruct (_ >? _); [exact Hnop|].
  pose proof (call_create wc pod w po v (GetPreemptCountFromPod (pcd_Pod v) ⊞ 1) Hv) as Hc.
  destruct (CreatePod w _) as [w' [q|e]]; cbn [fst snd] in *; (split; [by apply rtc_once|]).
  - by apply publish_unscheduled.
  - exists []. by rewrite app_nil_r.
Qed.

Lemma evict_quiet po pod v w evs :
  may_evict wc pod (pcd_Pod v) →
  rtc (eviction_call wc pod) w (evict po v w evs).1 ∧
  ∃ new, (evict po v w evs).2 = (evs ++ new)%list ∧ Forall unscheduled new.
Proof.
  intros Hv. unfold evict. set (ck := GetCheckpointCmdFromPod (pcd_Pod v)).
  set (w1 := if negb (String.eqb ck "") then _ else w).
  assert (rtc (eviction_call wc pod) w w1) as Hq1.
  { unfold w1. destruct (negb _); [|done]. apply rtc_once. by apply call_exec. }
  pose proof (call_delete wc pod w1 (pcd_Pod v) (po_GracePeriod po) Hv) as Hq2.
  destruct (DeletePod w1 _ _ _) as [w2 [e|]]; cbn [fst snd] in *.
  { split; [by eapply rtc_r|]. exists []. by rewrite app_nil_r. }
  match goal with |- context [publish po ?e evs] => destruct (publish_unscheduled po e evs) as (n1 & -> & Hn1) end; [done|].
  destruct (tryAutoResume_calls po pod v w2 (evs ++ n1)%list Hv) as [Hq3 (n2 & -> & Hn2)]. split.
  - etrans; [|exact Hq3]. by eapply rtc_r.
  - exists (n1 ++ n2)%list. rewrite app_assoc. split; [done|]. by apply Forall_app.
Qed.

Lemma evict_all_quiet po pod vs w evs :
  Forall (λ v, may_evict wc pod (pcd_Pod v)) vs →
  rtc (eviction_call wc pod) w (evict_all po vs w evs).1 ∧
  ∃ new, (evict_all po vs w evs).2 = (evs ++ new)%list ∧ Forall unscheduled new.
Proof.
  intros Hvs. revert w evs. induction Hvs as [|v vs Hv _ IH]; intros w evs.
  { split; [done|]. exists []. cbn. by rewrite app_nil_r. }
  unfold evict_all in *. cbn [foldl fst snd]. destruct (evict_quiet po pod v w evs Hv) as [Hq1 (n1 & E1 & Hn1)].
  destruct (evict po v w evs) as [w1 ev1]. cbn [fst snd] in *. subst ev1.
  destruct (IH w1 (evs ++ n1)%list) as [Hq2 (n2 & -> & Hn2)]. split; [by etrans|].
  exists (n1 ++ n2)%list. rewrite app_assoc. split; [done|]. by apply Forall_app.
Qed.

Lemma preemption_candidate_spec pending pod c :
  preemption_candidate wc pending pod = Some c →
  pcd_Pod c = pod ∧ pod_SchedulerName pod = wt_schedulerName wc ∧ pod_Phase pod = PodRunning ∧
  pcd_Preemptible c = IsPreemptible pod (wt_workflowCfg wc) ∧
  pcd_Priority c = GetPriorityFromPod pod (wt_workflowCfg wc).
Proof.
  unfold preemption_candidate.
  destruct (String.eqb_spec (pod_SchedulerName pod) (wt_schedulerName wc)); cbn [negb]; [|done].
  destruct (String.eqb_spec (pod_Phase pod) PodRunning); cbn [negb]; [|done].
  destruct (pending !! _); [done|]. destruct (assigned_gpus pod); [|done]. by intros [= <-].
Qed.

Lemma candidates_evictable prio mem pod cs vs :
  prio = GetPriorityFromPod pod (wt_workflowCfg wc) →
  Forall (λ c, ∃ pending p, preemption_candidate wc pending p = Some c) cs →
  SelectVictims prio mem cs = Ok vs → Forall (λ v, may_evict wc pod (pcd_Pod v)) vs.
Proof.
  intros -> Hcs Es. apply Forall_forall. intros v Hv. destruct (SelectVictims_elem _ _ _ _ _ Es Hv) as [Hin Hev].
  rewrite Forall_forall in Hcs. destruct (Hcs v Hin) as (pending & p & Hp).
  apply preemption_candidate_spec in Hp as (E0 & E1 & E2 & E3 & E4).
  rewrite E0. unfold evictable in Hev. rewrite E3, E4 in Hev. bool_hyps. done.
Qed.

Lemma handleNoCapacity_spec now pod mem st :
  registry_wf (w_registry st) →
  ∃ st' victims evs, handleNoCapacityForPod wc now pod mem st = Done st' ∧
    keeps (w_registry st) (w_registry st') ∧ Forall (may_evict wc pod) victims ∧
    rtc (eviction_call wc pod) (w_api st) (w_api st') ∧
    reg_podAllocations (w_registry st') = without victims (reg_podAllocations (w_registry st)) ∧
    w_events st' = (w_events st ++ evs)%list ∧ Forall unscheduled evs.
Proof.
  intros Hwf. unfold handleNoCapacityForPod.
  destruct (wt_preemption wc) as [po|]; [|exists st, [], []; rewrite app_nil_r; done].
  unfold buildPreemptionCandidates. pose proof (call_list wc pod (w_api st)) as Hl.
  set (cands := match ListPods (w_api st) with (w, Err _) => (set_api w st, []) | (w, Ok pods) =>
    (set_api w st, omap (preemption_candidate wc (w_pendingEvictions st)) pods) end).
  assert (∃ cs, cands = (set_api (ListPods (w_api st)).1 st, cs) ∧ Forall (λ c, ∃ pending pod,
    preemption_candidate wc pending pod = Some c) cs) as (cs & -> & Hcs).
  { unfold cands. destruct (ListPods (w_api st)) as [w [pods|e]]; [|by exists []].
    eexists. split; [done|]. apply Forall_forall. intros c (p & _ & ?)%list_elem_of_omap. eauto. }
  set (w := (ListPods (w_api st)).1) in *. unfold Preempt. destruct (SelectVictims _ _ cs) as [vs|e] eqn:Es.
  - pose proof (candidates_evictable _ _ pod cs vs eq_refl Hcs Es) as Hvs.
    destruct (evict_all_quiet po pod vs (w_api (set_api w st)) (w_events (set_api w st)) Hvs) as [Hc (new & Hnew & Hun)].
    destruct (evict_all po vs _ _) as [w2 ev2]. cbn [fst snd] in Hc, Hnew.
    destruct (forget_victims_spec now vs (set_events ev2 (set_api w2 (set_api w st))) Hwf)
      as (st' & -> & Hwf' & Hev & Hapi & ps & Hps & Hal).
    exists st', ps, new. split_and!; try done; [|by rewrite Hapi; eapply rtc_l|by rewrite Hev].
    rewrite Hps. by apply Forall_fmap.
  - eexists _, [], []. split; [done|]. cbn. rewrite app_nil_r. split_and!; try done. by apply rtc_once.
Qed.

(** Reserving, annotating and binding: the pod is tracked exactly when the bind
    worked; otherwise the registry is as before. *)
Lemma reserve_and_bind_spec pod nodeName es isMIG ids st M k :
  registry_wf (w_registry st) → roomy (w_registry st) M k →
  zsum (ae_MemoryMB <$> es) ≤ M → Z.of_nat (length es) ≤ k → Forall entry_ok es → es ≠ [] →
  reg_podAllocations (w_registry st) !! key_of pod = None →
  ∃ r st', foldM (mark_entry pod) (w_registry st) es = Done r ∧
    annotate_and_bind pod nodeName ids isMIG (set_registry r st) = Done st' ∧
    keeps (w_registry st) (w_registry st') ∧
    (reg_podAllocations (w_registry st') = <[key_of pod := es]> (reg_podAllocations (w_registry st)) ∧
     BindPod (PatchAnnotations (w_api st) (pod_Namespace pod) (pod_Name pod) (placement_annotations ids isMIG)).1
       (pod_Namespace pod) (pod_Name pod) nodeName = (w_api st', None) ∧
     w_events st' = (w_events st ++ [scheduled_event pod nodeName (join "," ids)])%list ∨
     (∃ err, BindPod (PatchAnnotations (w_api st) (pod_Namespace pod) (pod_Name pod) (placement_annotations ids isMIG)).1
       (pod_Namespace pod) (pod_Name pod) nodeName = (w_api st', Some err)) ∧
     reg_podAllocations (w_registry st') = reg_podAllocations (w_registry st) ∧
     w_pendingEvictions st' = w_pendingEvictions st ∧ w_events st' = w_events st).
Proof.
  intros Hwf Hroom Hsum Hlen Hok Hne Hnone.
  destruct (mark_entries_spec pod es _ M k Hwf Hroom Hsum Hlen Hok Hne) as (r & E & Hk & _ & Hal).
  rewrite Hnone in Hal. cbn in Hal. exists r.
  unfold annotate_and_bind, bindPodAndRecord, rollbackPlacementReservation, placement_annotations.
  cbn [w_api set_registry]. destruct (PatchAnnotations _ _ _ _) as [w1 e1]. cbn.
  destruct (BindPod w1 _ _ _) as [w2 [e2|]] eqn:Eb.
  - destruct (release_spec pod (set_api w2 (set_api w1 (set_registry r st))) (proj1 Hk))
      as (r2 & -> & Hk2 & Hal2).
    eexists. split; [done|]. split; [done|]. split; [by eapply keeps_trans|]. right.
    split; [by exists e2|]. split; [|done]. cbn. rewrite Hal2. cbn. by rewrite Hal, delete_insert_id.
  - eexists. split_and!; [done|done|done|]. by left.
Qed.
End watcher_lemmas.

(** ** Scheduling one pod *)
Section schedule_pod.
Context `{GoSort} (strategy : SchedulingStrategy) `{!StrategyLaws strategy}.
Context {W : Type} `{KubeAPI W, PodExecutor W} (wc : WatcherConfig).

Implicit Types st : WState W.

Lemma GetNodes_gpu order r node g :
  range_order (reg_nodes r) order → ids_loggable r → node ∈ GetNodes order r → g ∈ node_GPUs node →
  (12 ≤ String.length (gpu_ID g))%nat.
Proof.
  intros Ho Hids Hn Hg. apply (GetNodes_elem order r node Ho) in Hn as (ng & Hk & Heq).
  rewrite Heq in Hg. apply list_elem_of_fmap in Hg as (gi & -> & Hgi).
  by destruct (Hids _ _ _ Hk Hgi).
Qed.

Lemma selectDisagg_elem nodes preferred mem c :
  selectDisaggFullGPUCandidate nodes preferred mem = Some c →
  c ∈ collectDisaggFullGPUCandidates nodes mem.
Proof.
  assert (∀ l c, selectBestDisaggFullGPUCandidate l = Some c → c ∈ l) as Hbest.
  { intros [|c0 l] c'; [done|]. intros [= <-]. apply select_best_elem. }
  unfold selectDisaggFullGPUCandidate.
  destruct (collectDisaggFullGPUCandidates nodes mem) as [|c0 l] eqn:E; [done|]. rewrite <-E.
  destruct (head _) as [c'|] eqn:Eh.
  - intros [= ->]. apply head_Some_elem_of in Eh.
    apply list_elem_of_omap in Eh as (n & _ & Hn%Hbest).
    by apply list_filter_elem in Hn as [Hn _].
  - apply Hbest.
Qed.

Lemma collectDisagg_elem nodes mem c :
  c ∈ collectDisaggFullGPUCandidates nodes mem ↔ ∃ node g, node ∈ nodes ∧ g ∈ node_GPUs node ∧
    gpu_IsHealthy g = true ∧ gpu_IsMPS g = false ∧ gpu_AllocatedPods g ≤ 0 ∧ mem ≤ AvailableMemoryMB g ∧
    c = mkDisagg (node_Name node) (gpu_ID g) (AvailableMemoryMB g).
Proof.
  unfold collectDisaggFullGPUCandidates. rewrite list_elem_of_bind.
  setoid_rewrite list_elem_of_bind. split.
  - intros (node & (g & Hc & Hg) & Hn). exists node, g.
    case_match; [by apply elem_of_nil in Hc|].
    apply list_elem_of_singleton in Hc. bool_hyps. split_and!; done || lia.
  - intros (node & g & Hn & Hg & E1 & E2 & E3 & E4 & ->). exists node. split; [|done]. exists g.
    split; [|done]. rewrite E1, E2, Z.gtb_ltb, (proj2 (Z.ltb_ge _ _) E3), (proj2 (Z.ltb_ge _ _) E4). cbn.
    by apply list_elem_of_singleton.
Qed.

(** The device chosen for a single-GPU pod exists and can be logged. *)
Lemma choose_device_spec o pod job intent st st1 res :
  (∀ i, range_order (reg_nodes (w_registry st)) (o i)) → ids_loggable (w_registry st) →
  choose_device wc o pod job intent (GetNodes (o 0%nat) (w_registry st)) st = (st1, res) →
  (∃ w, st1 = set_api w st ∧ (w = w_api st ∨ w = (ListPods (w_api st)).1)) ∧
  ∀ r, res = Some r → ∃ gpuID, sr_GPUIDs r = [gpuID] ∧ (12 ≤ String.length gpuID)%nat.
Proof.
  intros Ho Hids. unfold choose_device. destruct (di_IsDisagg intent).
  - destruct (resolveDisaggPreferredNodes wc intent st) as [st' preferred] eqn:E. intros [= <- <-]. split.
    + unfold resolveDisaggPreferredNodes in E. destruct (_ && _).
      * injection E as <- <-. exists (w_api st). split; [by destruct st|by left].
      * destruct (ListPods (w_api st)) as [w [pods|e]]; injection E as <- <-; exists w; split; try done; by right.
    + intros r Hr. destruct (selectDisaggFullGPUCandidate _ _ _) as [c|] eqn:Ec; [|done].
      injection Hr as <-. exists (dg_GPUID c). split; [done|].
      apply selectDisagg_elem, collectDisagg_elem in Ec as (node & g & Hn & Hg & _ & _ & _ & _ & ->).
      by eapply GetNodes_gpu.
  - intros [= <- <-]. split; [exists (w_api st); split; [by destruct st|by left]|]. intros r Hr.
    destruct (AllocateWithRouting _ _ _ _ _ _) as [r'|] eqn:E; [|done]. injection Hr as ->.
    apply AllocateWithRouting_device in E as (pool & mem & shared & Hbest); [|done..].
    destruct pool; [| |done].
    + destruct Hbest as (c & Hc & -> & _). exists (mc_MIGUUID c). split; [done|].
      destruct Hc as (n & node & g & mi & Hn & Hg & Hmi & _ & _ & _ & _ & ->).
      by apply (proj2 (Hids _ _ _ Hn Hg)).
    + destruct Hbest as (c & [Hc _] & -> & _). exists (gc_GPUUUID c). split; [done|].
      destruct Hc as (n & node & g & Hn & Hg & _ & _ & _ & ->).
      by destruct (Hids _ _ _ Hn Hg).
Qed.

Lemma gang_share_bounds job n mode :
  0 ≤ job_MemoryMB job → 1 ≤ n → job_MemoryMB job + n ≤ int_max →
  0 ≤ gang_share job n mode ≤ job_MemoryMB job.
Proof.
  intros Hm Hn Hmax. unfold gang_share, share_of. repeat case_match; [|lia..].
  assert (job_MemoryMB job ⊞ n ⊟ 1 = job_MemoryMB job + n - 1) as -> by int_solve.
  rewrite Z.quot_div_nonneg by lia.
  assert (0 ≤ (job_MemoryMB job + n - 1) / n ≤ job_MemoryMB job).
  { split; [apply Z.div_pos; lia|].
    destruct (decide (job_MemoryMB job = 0)) as [->|]; [rewrite Z.div_small; lia|].
    apply Z.div_le_upper_bound; [lia|]. nia. }
  int_solve.
Qed.

Lemma log_nodes order r :
  range_order (reg_nodes r) order → ids_loggable r →
  foldM (λ _ g, _ ← str_prefix 12 (gpu_ID g); Done tt) tt (GetNodes order r ≫= node_GPUs) = Done tt.
Proof.
  intros Ho Hids.
  assert (∀ g, g ∈ (GetNodes order r ≫= node_GPUs) → (12 ≤ String.length (gpu_ID g))%nat) as Hall.
  { intros g (node & Hg & Hn)%list_elem_of_bind. by eapply GetNodes_gpu. }
  induction (GetNodes order r ≫= node_GPUs) as [|g l IH]; [done|]. cbn [foldM].
  destruct (str_prefix_some 12 (gpu_ID g) (Hall g ltac:(left))) as [p ->]. cbn.
  apply IH. intros g' Hg'. apply Hall. by right.
Qed.

Lemma set_api_id st : set_api (w_api st) st = st.
Proof. by destruct st. Qed.

Lemma no_capacity_transaction now pod mem w st :
  registry_wf (w_registry st) → w = w_api st ∨ w = (ListPods (w_api st)).1 →
  ∃ st', handleNoCapacityForPod wc now pod mem (set_api w st) = Done st' ∧
    keeps (w_registry st) (w_registry st') ∧ transaction wc pod st st'.
Proof.
  intros Hwf Hw. destruct (handleNoCapacity_spec wc now pod mem (set_api w st) Hwf)
    as (st' & vs & evs & E & Hwf' & Hvs & Hc & Hal & Hev & Hun).
  exists st'. split; [done|]. split; [done|]. right. right. exists vs, evs. split_and!; try done.
  destruct Hw as [-> | ->]; [done|]. eapply rtc_l; [apply call_list|done].
Qed.

(** Once the device is chosen: reserve the entries, annotate, bind. *)
Lemma reserve_transaction pod nodeName es isMIG ids w st M k :
  registry_wf (w_registry st) → roomy (w_registry st) M k →
  zsum (ae_MemoryMB <$> es) ≤ M → Z.of_nat (length es) ≤ k → Forall entry_ok es → es ≠ [] →
  reg_podAllocations (w_registry st) !! key_of pod = None →
  Z.of_nat (length es) = gpus_wanted pod →
  Forall (λ e, ae_NodeName e = nodeName ∧ 0 ≤ ae_MemoryMB e ≤ GetGPUMemoryFromPod pod ∧ ae_IsMIG e = isMIG ∧
    (gpus_wanted pod = 1 → ae_MemoryMB e = GetGPUMemoryFromPod pod)) es →
  ids = ae_GPUUUID <$> es → w = w_api st ∨ w = (ListPods (w_api st)).1 →
  ∃ r st', foldM (mark_entry pod) (w_registry st) es = Done r ∧
    annotate_and_bind pod nodeName ids isMIG (set_registry r (set_api w st)) = Done st' ∧
    keeps (w_registry st) (w_registry st') ∧ transaction wc pod st st'.
Proof.
  intros Hwf Hroom Hsum Hlen Hok Hne Hnone Hcount Hnode -> Hw.
  destruct (reserve_and_bind_spec pod nodeName es isMIG (ae_GPUUUID <$> es) (set_api w st) M k
    Hwf Hroom Hsum Hlen Hok Hne Hnone) as (r & st' & Er & Eb & Hwf' & Hout).
  exists r, st'. split; [done|]. split; [done|]. split; [done|].
  destruct Hout as [(Hal & Hbind & Hev)|[[err Hbind] (Hal & Hp & Hev)]]; [left|right; left].
  - exists nodeName, es, isMIG. split_and!; try done. by exists w.
  - exists nodeName, (ae_GPUUUID <$> es), isMIG. split_and!; try done. by exists w, err.
Qed.

Section branches.
Context (now : Time) (o : noOrders) (jobID : string) (pod : Pod) (st : WState W).
Context (Hwf : registry_wf (w_registry st)) (Hids : ids_loggable (w_registry st)).
Context (Ho : ∀ i, range_order (reg_nodes (w_registry st)) (o i)).
Context (Hnone : reg_podAllocations (w_registry st) !! key_of pod = None).
Context (Hmem : 0 ≤ GetGPUMemoryFromPod pod).

Let nodes := GetNodes (o 0%nat) (w_registry st).
Let mem := GetGPUMemoryFromPod pod.
Let c := GetGPUCountFromPod pod.

Lemma place_gang_transaction :
  1 < c → mem + c ≤ int_max → roomy (w_registry st) (c * mem) c →
  ∃ st', place_gang strategy wc now pod (job_of jobID pod) nodes st = Done st' ∧
    keeps (w_registry st) (w_registry st') ∧ transaction wc pod st st'.
Proof.
  intros Hc Hmax Hroom. unfold place_gang. change (job_GPUCount (job_of jobID pod)) with c.
  destruct (gang_total (job_of jobID pod) nodes c (GetMemoryModeFromPod pod)) as [[result|e] Eg];
    rewrite Eg; cbn [mbind outcome_bind].
  2: { pose proof (no_capacity_transaction now pod mem (w_api st) st Hwf ltac:(by left)) as Hx.
    by rewrite set_api_id in Hx. }
  apply gang_sound in Eg as (_ & node & gpus & Hn & Hsub & Hlen & _ & ->). cbn [gsr_Placements].
  set (share := gang_share (job_of jobID pod) c (GetMemoryModeFromPod pod)).
  assert (0 ≤ share ≤ mem) as Hshare by (apply gang_share_bounds; [done|lia|done]).
  rewrite <-!list_fmap_compose.
  set (es := (_ <$> gpus) : list AllocationEntry).
  assert (es = (λ g, mkAllocationEntry (node_Name node) (gpu_ID g) share false) <$> gpus) as Ees by done.
  destruct (reserve_transaction pod (node_Name node) es false (gpu_ID <$> gpus) (w_api st) st
    (c * mem) c Hwf Hroom) as (r & st' & Er & Eb & Hout); try done.
  - rewrite Ees, <-list_fmap_compose, (zsum_const _ share) by (by apply Forall_true). nia.
  - rewrite Ees, length_fmap. lia.
  - rewrite Ees. apply Forall_fmap, Forall_forall. intros g Hg. split; [cbn; lia|]. cbn.
    eapply GetNodes_gpu; [apply (Ho 0%nat)|done|done|]. by eapply elem_of_submseteq.
  - rewrite Ees. destruct gpus; [cbn in Hlen; lia|done].
  - rewrite Ees, length_fmap. unfold gpus_wanted. fold c. lia.
  - rewrite Ees. apply Forall_fmap, Forall_true. intros g. cbn. split_and!; try done; [lia..|].
    unfold gpus_wanted. fold c. lia.
  - rewrite Ees. by rewrite <-list_fmap_compose.
  - by left.
  - exists st'. rewrite Er. cbn [mbind outcome_bind]. rewrite set_api_id in Eb.
    destruct gpus as [|g0 gpus]; [cbn in Hlen; lia|]. done.
Qed.

Lemma place_single_transaction M k :
  c ≤ 1 → mem ≤ M → 1 ≤ k → roomy (w_registry st) M k →
  ∃ st', place_single wc now o pod (job_of jobID pod) nodes st = Done st' ∧
    keeps (w_registry st) (w_registry st') ∧ transaction wc pod st st'.
Proof.
  intros Hc HM Hk Hroom. unfold place_single.
  destruct (choose_device wc o pod (job_of jobID pod) (GetDisaggPodIntent pod) nodes st)
    as [st1 res] eqn:Ecd.
  apply choose_device_spec in Ecd as [(w & -> & Hw) Hdev]; [|done..].
  destruct res as [result|]; [|by apply no_capacity_transaction].
  destruct (Hdev result eq_refl) as (gpuID & Egpu & Hlen). rewrite Egpu.
  set (e := mkAllocationEntry (sr_NodeName result) gpuID (job_MemoryMB (job_of jobID pod)) (sr_IsMIG result)).
  destruct (reserve_transaction pod (sr_NodeName result) [e] (sr_IsMIG result) [gpuID] w st M k Hwf Hroom)
    as (r & st' & Er & Eb & Hout); try done.
  - change (mem + 0 ≤ M). lia.
  - by apply Forall_singleton.
  - unfold gpus_wanted. fold c. cbn. lia.
  - apply Forall_singleton. cbn [ae_NodeName ae_MemoryMB ae_IsMIG e]. split; [done|].
    change (job_MemoryMB (job_of jobID pod)) with (GetGPUMemoryFromPod pod). split_and!; [lia..|done|done].
  - exists st'. cbn [foldM] in Er. apply outcome_bind_done in Er as (r' & Er & [= <-]).
    cbn [w_registry set_api]. rewrite Er. cbn [mbind outcome_bind].
    destruct (str_prefix_some 12 gpuID Hlen) as [p ->]. done.
Qed.
End branches.

Lemma schedulePod_step now o jobID pod st :
  registry_wf (w_registry st) → ids_loggable (w_registry st) →
  (∀ i, range_order (reg_nodes (w_registry st)) (o i)) →
  reg_podAllocations (w_registry st) !! key_of pod = None →
  0 ≤ GetGPUMemoryFromPod pod → GetGPUMemoryFromPod pod + gpus_wanted pod ≤ int_max →
  roomy (w_registry st) (demand pod) (gpus_wanted pod) →
  ∃ st', schedulePod strategy wc now o jobID pod st = Done st' ∧
    keeps (w_registry st) (w_registry st') ∧ transaction wc pod st st'.
Proof.
  intros Hwf Hids Ho Hnone Hmem Hmax Hroom. unfold schedulePod.
  destruct (di_IsValid (GetDisaggPodIntent pod)); cbn [negb].
  2: { eexists. split; [done|]. split; [done|]. right. right. exists []. eexists. split_and!; try done.
    by repeat constructor. }
  unfold place_pod. rewrite log_nodes by done. cbn [mbind outcome_bind].
  change (job_GPUCount (job_of jobID pod)) with (GetGPUCountFromPod pod). rewrite Z.gtb_ltb.
  unfold demand, gpus_wanted in *.
  destruct (Z.ltb_spec 1 (GetGPUCountFromPod pod)) as [Hgang|Hsingle].
  - rewrite Z.max_r in Hroom, Hmax by lia. by apply place_gang_transaction.
  - rewrite Z.max_l in Hroom, Hmax by lia. eapply place_single_transaction; [done..| | | |exact Hroom]; lia.
Qed.

(** Whatever became of the pod, other entries are gone only for its victims. *)
Lemma transaction_entries pod st st' :
  transaction wc pod st st' → placed pod st st' ∨ ∃ victims, Forall (may_evict wc pod) victims ∧
    reg_podAllocations (w_registry st') = without victims (reg_podAllocations (w_registry st)).
Proof.
  intros [?|[(n & ids & mig & _ & Hal & _)|(vs & evs & Hvs & _ & Hal & _)]]; [by left|right; by exists []|right; by exists vs].
Qed.

End schedule_pod.

(** ** Disaggregated placement *)

Lemma disagg_fits_elem nodes mem n c :
  disagg_fits nodes mem n c ↔ c ∈ collectDisaggFullGPUCandidates nodes mem ∧ dg_NodeName c = n.
Proof.
  rewrite collectDisagg_elem. unfold disagg_fits. split.
  - intros (node & g & ? & <- & ? & ? & ? & ? & ? & ->). split; [|done]. exists node, g. done.
  - intros [(node & g & ? & ? & ? & ? & ? & ? & ->) <-]. exists node, g. done.
Qed.

Lemma selectBestDisagg_spec l :
  match selectBestDisaggFullGPUCandidate l with
  | Some c => c ∈ l ∧ ∀ c', c' ∈ l → dg_FreeMemoryMB c ≤ dg_FreeMemoryMB c'
  | None => l = []
  end.
Proof.
  destruct l as [|c0 l]; [done|]. cbn. split; [apply select_best_elem|]. intros c' Hc'.
  apply Z.ltb_ge, (select_best_max (λ c best, dg_FreeMemoryMB c <? dg_FreeMemoryMB best)); [|done].
  apply weak_less_key.
Qed.

Lemma selectBestDisaggForNode_spec nodes mem n :
  match selectBestDisaggFullGPUCandidateForNode (collectDisaggFullGPUCandidates nodes mem) n with
  | Some c => disagg_fits nodes mem n c ∧
      ∀ c', disagg_fits nodes mem n c' → dg_FreeMemoryMB c ≤ dg_FreeMemoryMB c'
  | None => ∀ c, ¬ disagg_fits nodes mem n c
  end.
Proof.
  unfold selectBestDisaggFullGPUCandidateForNode. set (ln := List.filter _ _).
  assert (∀ c, c ∈ ln ↔ disagg_fits nodes mem n c) as Hln.
  { intros c. unfold ln. by rewrite list_filter_elem, disagg_fits_elem, String.eqb_eq. }
  pose proof (selectBestDisagg_spec ln) as Hbest. destruct (selectBestDisaggFullGPUCandidate ln) as [c|].
  - destruct Hbest as [H1 H2]. split; [by apply Hln|]. intros c' Hc'. by apply H2, Hln.
  - intros c Hc%Hln. rewrite Hbest in Hc. by apply elem_of_nil in Hc.
Qed.

(** The loop over the preferred nodes stops at the first that has a candidate. *)
Lemma preferred_node_spec nodes mem preferred :
  match head (omap (selectBestDisaggFullGPUCandidateForNode
                      (collectDisaggFullGPUCandidates nodes mem)) preferred) with
  | Some c => ∃ p1 p2, preferred = (p1 ++ dg_NodeName c :: p2)%list ∧
      (∀ n c', n ∈ p1 → ¬ disagg_fits nodes mem n c') ∧ disagg_fits nodes mem (dg_NodeName c) c ∧
      ∀ c', disagg_fits nodes mem (dg_NodeName c) c' → dg_FreeMemoryMB c ≤ dg_FreeMemoryMB c'
  | None => ∀ n c', n ∈ preferred → ¬ disagg_fits nodes mem n c'
  end.
Proof.
  induction preferred as [|n ps IH]; cbn; [intros n c' Hn; by apply elem_of_nil in Hn|].
  pose proof (selectBestDisaggForNode_spec nodes mem n) as Hn.
  destruct (selectBestDisaggFullGPUCandidateForNode _ n) as [c|]; cbn.
  - destruct Hn as [Hfit Hmin]. pose proof (proj1 (disagg_fits_elem _ _ _ _) Hfit) as [_ <-].
    exists [], ps. split_and!; try done. intros n' c' Hn'. by apply elem_of_nil in Hn'.
  - destruct (head _) as [c|].
    + destruct IH as (p1 & p2 & E & Hp1 & Hc). exists (n :: p1), p2. split_and!; try apply Hc.
      * cbn. by f_equal.
      * intros n2 c' [->|Hn2]%elem_of_cons; [apply Hn|by apply Hp1].
    + intros n2 c' [->|Hn2]%elem_of_cons; [apply Hn|by apply IH].
Qed.

(** The placement of a split-role pod is exact. It gets an exclusive, healthy,
    non-MPS GPU with enough memory: of the first preferred node that has one, or
    of any node when none does; the least free memory among those of the choice;
    and it gets none only when no such GPU exists. *)
Theorem selectDisagg_exact nodes preferred mem :
  match selectDisaggFullGPUCandidate nodes preferred mem with
  | Some c => disagg_fits nodes mem (dg_NodeName c) c ∧
      ((∃ p1 p2, preferred = (p1 ++ dg_NodeName c :: p2)%list ∧
          (∀ n c', n ∈ p1 → ¬ disagg_fits nodes mem n c') ∧
          ∀ c', disagg_fits nodes mem (dg_NodeName c) c' → dg_FreeMemoryMB c ≤ dg_FreeMemoryMB c') ∨
       ((∀ n c', n ∈ preferred → ¬ disagg_fits nodes mem n c') ∧
        ∀ n c', disagg_fits nodes mem n c' → dg_FreeMemoryMB c ≤ dg_FreeMemoryMB c'))
  | None => ∀ n c, ¬ disagg_fits nodes mem n c
  end.
Proof.
  unfold selectDisaggFullGPUCandidate. pose proof (preferred_node_spec nodes mem preferred) as Hpref.
  pose proof (selectBestDisagg_spec (collectDisaggFullGPUCandidates nodes mem)) as Hbest.
  destruct (collectDisaggFullGPUCandidates nodes mem) as [|c0 l0] eqn:El.
  { intros n c [Hc _]%disagg_fits_elem. rewrite El in Hc. by apply elem_of_nil in Hc. }
  destruct (head _) as [c|].
  - destruct Hpref as (p1 & p2 & E & Hp1 & Hfit & Hmin). split; [done|]. left. by exists p1, p2.
  - destruct (selectBestDisaggFullGPUCandidate _) as [c|]; [|done].
    destruct Hbest as [Hin Hmin]. split; [apply disagg_fits_elem; by rewrite El|]. right.
    split; [done|]. intros n c' [Hc' _]%disagg_fits_elem. rewrite El in Hc'. by apply Hmin.
Qed.


(** The same call, evaluated: bound when the API server agrees, rolled back when
    it refuses. *)
Example schedulePod_runs :
  entries_left (schedulePod BinPacker sample_watcher 2000 one_node "job-1" train_pod
    (sample_state [] true true sample_registry)) "ml/train" =
    Some [mkAllocationEntry "node-a" "GPU-aaaaaaaaaaaa" 20000 false] ∧
  entries_left (schedulePod BinPacker sample_watcher 2000 one_node "job-1" train_pod
    (sample_state [] false true sample_registry)) "ml/train" = None.
Proof. split; vm_compute; reflexivity. Qed.
