(* ===== verification/Progress.v ===== *)
(** * A pod with room is bound

    [Placement.schedulePod_transactional] says that an attempt binds the pod or
    leaves no trace; here is when it binds it: a device the pod may use exists
    and the API server accepts the bind. *)

From Stdlib Require Import ZArith Lia Ascii String.
From stdpp Require Import base option list strings gmap sorting.
From S2P Require Import Prelude GoFloat GoStrings Types K8s Config Helpers Registry Strategy Binpack.
From S2P Require Import GangMultiPod Routing Allocator GangCollector Preemption Watcher Scenario Placement.
Open Scope string_scope.
Open Scope Z_scope.
Open Scope go_scope.

(** ** Specification *)

(** A strict pod stays in the pool of its label. *)
Definition may_use (pod : Pod) (pool : PoolPreference) : Prop :=
  jc_StrictMode (ClassifyJob (Some pod)) = true → jc_Pool (ClassifyJob (Some pod)) = pool.

(** The registry has a device that the pod may be given. *)
Definition has_room (pod : Pod) (nodes : list NodeInfo) (r : Registry) : Prop :=
  let job := job_of "" pod in
  let mode := GetMemoryModeFromPod pod in
  let shared := String.eqb (annotation_or_empty pod "gpu-scheduler/shared") "true" in
  if 1 <? GetGPUCountFromPod pod then
    mode ∈ [MemoryTotal; MemoryPerGPU; MemoryNone] ∧ ∃ node, node ∈ nodes ∧
      GetGPUCountFromPod pod ≤ Z.of_nat (length (List.filter
        (eligible (IsSharedGPUPod pod) (gang_share job (GetGPUCountFromPod pod) mode)) (node_GPUs node)))
  else if di_IsDisagg (GetDisaggPodIntent pod) then
    ∃ n c, disagg_fits nodes (GetGPUMemoryFromPod pod) n c
  else
    (∃ c, may_use pod PoolMIG ∧ mig_device r (routed_memory pod job) c) ∨
    (∃ c, may_use pod PoolFull ∧ full_device r (routed_memory pod job) shared c).

(** The API server accepts every bind. *)
Definition binds_accepted (W : Type) `{KubeAPI W} : Prop :=
  ∀ w ns name node, (BindPod w ns name node).2 = None.

(** The registry knows of a placement of the pod. *)
Definition tracked (pod : Pod) (r : Registry) : Prop :=
  is_Some (reg_podAllocations r !! key_of pod).

(** ** Lemmas *)
Lemma mark_entry_tracked pod r e r' : mark_entry pod r e = Done r' → tracked pod r'.
Proof.
  unfold mark_entry, tracked. destruct (ae_IsMIG e); intros H.
  - unfold MarkMIGAllocatedForPod in H. apply outcome_bind_done in H as (_ & _ & [= <-]).
    cbn. by rewrite lookup_insert_eq.
  - apply mark_gpu_alloc in H as [_ ->]. by rewrite lookup_insert_eq.
Qed.

Lemma mark_entries_tracked pod es r r' :
  es ≠ [] → foldM (mark_entry pod) r es = Done r' → tracked pod r'.
Proof.
  revert r. induction es as [|e es IH]; intros r Hne H; [done|].
  cbn [foldM] in H. apply outcome_bind_done in H as (r1 & H1 & H).
  destruct es as [|e2 es]; [injection H as <-; by eapply mark_entry_tracked|].
  by eapply IH.
Qed.

Section progress.
Context `{GoSort} (strategy : SchedulingStrategy) `{!StrategyLaws strategy}.
Context {W : Type} `{KubeAPI W, PodExecutor W} (wc : WatcherConfig).
Context (now : Time) (o : noOrders) (jobID : string) (pod : Pod).

Implicit Types st : WState W.

Lemma bind_keeps_tracked node ids mig st st' :
  binds_accepted W → annotate_and_bind pod node ids mig st = Done st' →
  tracked pod (w_registry st) → tracked pod (w_registry st').
Proof.
  intros Hb. unfold annotate_and_bind, bindPodAndRecord. destruct (PatchAnnotations _ _ _ _) as [w1 e1].
  cbn. specialize (Hb w1 (pod_Namespace pod) (pod_Name pod) node).
  destruct (BindPod w1 _ _ _) as [w2 e2]. cbn in Hb. subst e2. by intros [= <-].
Qed.

Lemma gang_share_job id n mode : gang_share (job_of id pod) n mode = gang_share (job_of "" pod) n mode.
Proof. done. Qed.

Lemma place_gang_bound nodes st st' :
  binds_accepted W → (1 <? GetGPUCountFromPod pod) = true → has_room pod nodes (w_registry st) →
  place_gang strategy wc now pod (job_of jobID pod) nodes st = Done st' →
  tracked pod (w_registry st').
Proof.
  intros Hb Hc. unfold has_room. rewrite Hc. apply Z.ltb_lt in Hc. intros (Hmode & node & Hn & Hlen).
  destruct (gang_complete (job_of jobID pod) nodes (GetGPUCountFromPod pod) (GetMemoryModeFromPod pod)
    node ltac:(lia) Hmode Hn Hlen) as [res Hres].
  unfold place_gang. change (job_GPUCount (job_of jobID pod)) with (GetGPUCountFromPod pod).
  rewrite Hres. cbn [mbind outcome_bind]. destruct (gsr_Placements res) as [|p0 ps] eqn:E; [done|].
  rewrite <-E. intros (r & Hr & Hbind)%outcome_bind_done. eapply bind_keeps_tracked; [done|exact Hbind|].
  cbn. eapply mark_entries_tracked; [|exact Hr]. by rewrite E.
Qed.

Lemma routing_finds r :
  range_order (reg_nodes r) (o 1%nat) → range_order (reg_nodes r) (o 2%nat) →
  range_order (reg_nodes r) (o 3%nat) →
  (∃ c, may_use pod PoolMIG ∧ mig_device r (routed_memory pod (job_of "" pod)) c) ∨
  (∃ c, may_use pod PoolFull ∧ full_device r (routed_memory pod (job_of "" pod))
          (String.eqb (annotation_or_empty pod "gpu-scheduler/shared") "true") c) →
  ∃ res, AllocateWithRouting r pod (job_of jobID pod) (o 1%nat) (o 2%nat) (o 3%nat) = Ok res.
Proof.
  intros Ho1 Ho2 Ho3 Hroom. unfold AllocateWithRouting.
  change (routed_memory pod (job_of jobID pod)) with (routed_memory pod (job_of "" pod)).
  set (mem := routed_memory pod _) in *. set (shared := String.eqb _ _) in *.
  set (cl := ClassifyJob (Some pod)) in *.
  set (pool := if decide _ then _ else _).
  assert (pool ≠ PoolAuto ∧ (jc_Pool cl ≠ PoolAuto → pool = jc_Pool cl)) as [Hpool Hpref].
  { unfold pool. case_decide; [|done]. split; [by apply autoSelectPool_spec|done]. }
  pose proof (tryPool_spec r pool mem (job_of jobID pod) shared (o 2%nat) Hpool Ho2) as H2.
  destruct (tryPool r pool _ _ _ _) as [res|e]; [by exists res|].
  assert (∀ q, q ≠ PoolAuto → may_use pod q → ¬ pool_empty r q mem shared →
    jc_StrictMode cl = false ∧ q = getOtherPool pool) as Hq.
  { intros q Hqa Hmay Hne. unfold may_use in Hmay. fold cl in Hmay.
    destruct (decide (q = pool)) as [->|Hnq]; [done|]. split.
    - destruct (jc_StrictMode cl) eqn:Es; [|done]. specialize (Hmay eq_refl).
      exfalso. apply Hnq. symmetry. rewrite <-Hmay. apply Hpref. by rewrite Hmay.
    - unfold getOtherPool. by destruct q, pool. }
  assert (∃ q, q ≠ PoolAuto ∧ may_use pod q ∧ ¬ pool_empty r q mem shared) as (q & Hqa & Hmay & Hne).
  { destruct Hroom as [(c & Hm & Hc)|(c & Hm & Hc)].
    - exists PoolMIG. split_and!; try done. intros He. by apply (He c).
    - exists PoolFull. split_and!; try done. intros He. by apply (He c). }
  destruct (Hq q Hqa Hmay Hne) as [-> ->].
  pose proof (tryPool_spec r (getOtherPool pool) mem (job_of jobID pod) shared (o 3%nat) Hqa Ho3) as H3.
  destruct (tryPool r _ _ _ _ _) as [res|e']; [by exists res|done].
Qed.

Lemma device_chosen st :
  (∀ i, range_order (reg_nodes (w_registry st)) (o i)) → (1 <? GetGPUCountFromPod pod) = false →
  has_room pod (GetNodes (o 0%nat) (w_registry st)) (w_registry st) →
  ∃ w res, choose_device wc o pod (job_of jobID pod) (GetDisaggPodIntent pod)
    (GetNodes (o 0%nat) (w_registry st)) st = (set_api w st, Some res).
Proof.
  intros Ho Hc. unfold has_room, choose_device. rewrite Hc.
  destruct (di_IsDisagg _).
  - intros (n & c & Hfit). destruct (resolveDisaggPreferredNodes wc _ st) as [st1 pref] eqn:E.
    assert (∃ w, st1 = set_api w st) as [w ->].
    { unfold resolveDisaggPreferredNodes in E. destruct (_ && _).
      - injection E as <- <-. exists (w_api st). by rewrite set_api_id.
      - destruct (ListPods (w_api st)) as [w [pods|e]]; injection E as <- <-; eauto. }
    exists w. change (job_MemoryMB (job_of jobID pod)) with (GetGPUMemoryFromPod pod).
    apply disagg_fits_elem in Hfit as [Hfit _]. unfold selectDisaggFullGPUCandidate.
    destruct (collectDisaggFullGPUCandidates _ _) as [|c0 l] eqn:El; [by apply elem_of_nil in Hfit|].
    destruct (head _); cbn; eauto.
  - intros Hroom. destruct (routing_finds (w_registry st) (Ho 1%nat) (Ho 2%nat) (Ho 3%nat) Hroom) as [res ->].
    exists (w_api st), res. by rewrite set_api_id.
Qed.

Lemma place_single_bound st st' :
  binds_accepted W → (∀ i, range_order (reg_nodes (w_registry st)) (o i)) →
  (1 <? GetGPUCountFromPod pod) = false →
  has_room pod (GetNodes (o 0%nat) (w_registry st)) (w_registry st) →
  place_single wc now o pod (job_of jobID pod) (GetNodes (o 0%nat) (w_registry st)) st = Done st' →
  tracked pod (w_registry st').
Proof.
  intros Hb Ho Hc Hroom. unfold place_single.
  destruct (device_chosen st Ho Hc Hroom) as (w & res & ->).
  destruct (sr_GPUIDs res) as [|g gs]; [done|].
  intros (r & Hr & H')%outcome_bind_done. apply outcome_bind_done in H' as (_ & _ & Hbind).
  eapply bind_keeps_tracked; [done|exact Hbind|]. cbn. by eapply mark_entry_tracked.
Qed.

(** C5: scheduling makes progress. From a well-formed registry with room in its
    counters, if the intent of the pod is valid, some device it may use is free
    (enough GPUs of one node for several GPUs, an exclusive GPU for a split role,
    otherwise a device of an allowed pool) and the API server accepts binds, then
    the attempt binds the pod ([placed]): the bind to the node was sent, after the
    annotations that name the devices, and accepted, the pod is tracked with as
    many entries as it wants GPUs, all on that node, and announced; and these were
    all its calls but a listing, so that no pod is evicted. *)
Theorem schedulePod_progress st :
  registry_wf (w_registry st) → ids_loggable (w_registry st) →
  (∀ i, range_order (reg_nodes (w_registry st)) (o i)) →
  reg_podAllocations (w_registry st) !! key_of pod = None →
  0 ≤ GetGPUMemoryFromPod pod → GetGPUMemoryFromPod pod + gpus_wanted pod ≤ int_max →
  roomy (w_registry st) (demand pod) (gpus_wanted pod) →
  di_IsValid (GetDisaggPodIntent pod) = true → binds_accepted W →
  has_room pod (GetNodes (o 0%nat) (w_registry st)) (w_registry st) →
  ∃ st', schedulePod strategy wc now o jobID pod st = Done st' ∧ placed pod st st'.
Proof.
  intros Hwf Hids Ho Hnone Hmem Hmax Hroomy Hvalid Hb Hroom.
  destruct (schedulePod_step strategy wc now o jobID pod st) as (st' & E & _ & Ht); [done..|].
  exists st'. split; [done|]. destruct (transaction_entries wc pod st st' Ht) as [?|(vs & _ & Hal)]; [done|].
  exfalso. enough (tracked pod (w_registry st')) as [es Hes].
  { rewrite Hal, without_untracked in Hes; done. }
  unfold schedulePod in E. rewrite Hvalid in E. cbn [negb] in E. unfold place_pod in E.
  apply outcome_bind_done in E as (_ & _ & E).
  change (job_GPUCount (job_of jobID pod)) with (GetGPUCountFromPod pod) in E. rewrite Z.gtb_ltb in E.
  destruct (1 <? GetGPUCountFromPod pod) eqn:Ec.
  - by eapply place_gang_bound.
  - by eapply place_single_bound.
Qed.
End progress.

(** ** Witness *)
Lemma schedulePod_progress_witness :
  ∃ st', schedulePod BinPacker sample_watcher 2000 one_node "job-1" train_pod open_state = Done st' ∧
    placed train_pod open_state st'.
Proof.
  destruct (schedulePod_progress BinPacker sample_watcher 2000 one_node "job-1" train_pod open_state)
    as (st' & E & Hb).
  - apply reachable_wf, sample_registry_reachable.
  - apply sample_loggable.
  - intros i. vm_compute. reflexivity.
  - apply lookup_empty.
  - vm_compute. discriminate.
  - vm_compute. discriminate.
  - intros n g. destruct (sample_room [] true true n g) as [E1 E2].
    change (w_registry open_state) with (w_registry (sample_state [] true true sample_registry)).
    rewrite E1, E2. vm_compute. by split.
  - vm_compute. reflexivity.
  - intros w ns name node. reflexivity.
  - right. exists (mkGPUCandidate "node-a" "GPU-aaaaaaaaaaaa" "NVIDIA A100" 40960 40960 0 false).
    split; [intros E; vm_compute in E; discriminate|]. split; [|by vm_compute].
    exists "node-a", (mkNodeGPUs "node-a" true (rep_GPUs sample_report) 1000),
      (Registry.sample_gpu "GPU-aaaaaaaaaaaa" false).
    split; [vm_compute; reflexivity|]. split; [left|]. split; [done|]. split; [done|].
    split; [by vm_compute|done].
  - by exists st'.
Defined.
