(* ===== verification/Cycle.v ===== *)
(** * The scheduling cycle: order of the queue and pending evictions *)

From Stdlib Require Import ZArith Lia Ascii String.
From stdpp Require Import base option list strings gmap sorting.
From S2P Require Import Prelude GoFloat GoStrings Types K8s Config Helpers Registry Strategy Binpack.
From S2P Require Import GangMultiPod Routing Allocator GangCollector Preemption Watcher Scenario.
Open Scope string_scope.
Open Scope Z_scope.
Open Scope go_scope.

(** ** The queue *)
Section queue.
Context `{GoSort} (strategy : SchedulingStrategy) {W : Type} `{KubeAPI W, PodExecutor W}.
Context (wc : WatcherConfig).

Implicit Types st : WState W.

#[export] Instance pwp_less_weak : WeakLess pwp_less.
Proof.
  assert (∀ a b, pwp_less a b =
    if - pwp_priority a =? - pwp_priority b then Z.of_nat (pwp_index a) <? Z.of_nat (pwp_index b)
    else - pwp_priority a <? - pwp_priority b) as E.
  { intros a b. unfold pwp_less. rewrite Z.gtb_ltb.
    destruct (Nat.ltb_spec (pwp_index a) (pwp_index b)), (Z.ltb_spec (Z.of_nat (pwp_index a)) (Z.of_nat (pwp_index b))),
      (Z.ltb_spec (pwp_priority b) (pwp_priority a)), (Z.ltb_spec (- pwp_priority a) (- pwp_priority b)),
      (Z.eqb_spec (pwp_priority a) (pwp_priority b)), (Z.eqb_spec (- pwp_priority a) (- pwp_priority b));
      done || lia. }
  destruct (weak_less_lex (λ c, - pwp_priority c) _ (weak_less_key (λ c, Z.of_nat (pwp_index c)))) as [Ha Hn].
  split; intros *; rewrite !E; [apply Ha|apply Hn].
Qed.

Lemma StronglySorted_fmap_impl {A B} (f : A → B) (R : A → A → Prop) (S : B → B → Prop) l :
  (∀ x y, x ∈ l → y ∈ l → R x y → S (f x) (f y)) → StronglySorted R l → StronglySorted S (f <$> l).
Proof.
  intros HRS Hl. induction Hl as [|x l Hl IH Hx]; cbn; constructor.
  - apply IH. intros y z ??. apply HRS; by right.
  - apply Forall_fmap, Forall_forall. intros y Hy. rewrite Forall_forall in Hx.
    apply HRS; [left|by right|by apply Hx].
Qed.

(** C14: the queue is a stable sort by priority, although [sort.Slice] is not
    stable: every pending pod is looked at exactly once, those of higher
    priority first and those of equal priority in the order they were listed. *)
Theorem queue_order_stable pods :
  ∃ order, order ≡ₚ seq 0 (length pods) ∧
    Forall2 (λ i p, pods !! i = Some p) order (queue_order wc pods) ∧
    StronglySorted (before wc pods) order.
Proof.
  set (l := imap (λ i pod, mkPWP pod (GetPriorityFromPod pod (wt_workflowCfg wc)) i) pods).
  assert (∀ x, x ∈ l → pods !! pwp_index x = Some (pwp_pod x) ∧
    pwp_priority x = GetPriorityFromPod (pwp_pod x) (wt_workflowCfg wc)) as Hl.
  { intros x Hx. apply elem_of_lookup_imap in Hx as (i & p & -> & Hp). done. }
  assert (NoDup (pwp_index <$> l)) as Hnd.
  { unfold l. rewrite fmap_imap. apply NoDup_alt. intros i j k Hi Hj.
    rewrite list_lookup_imap in Hi, Hj. destruct (pods !! i), (pods !! j); naive_solver. }
  exists (pwp_index <$> sort_slice pwp_less l). split_and!.
  - rewrite (fmap_Permutation pwp_index _ _ (sort_slice_perm pwp_less l)). unfold l. rewrite fmap_imap.
    apply Permutation_refl', list_eq. intros i. rewrite list_lookup_imap.
    destruct (pods !! i) eqn:E; cbn.
    + symmetry. apply lookup_seq. split; [done|]. by eapply lookup_lt_Some.
    + symmetry. apply lookup_seq_ge. by apply lookup_ge_None.
  - unfold queue_order. fold l. apply Forall2_fmap, Forall_Forall2_diag, Forall_forall.
    intros x Hx. rewrite sort_slice_elem in Hx. by apply Hl.
  - pose proof (sort_slice_sorted pwp_less l _) as Hs. unfold sorted_by in Hs.
    assert (NoDup (pwp_index <$> sort_slice pwp_less l)) as Hnd2.
    { by rewrite (fmap_Permutation pwp_index _ _ (sort_slice_perm pwp_less l)). }
    assert (∀ x, x ∈ sort_slice pwp_less l → x ∈ l) as Hin by (intros x; by rewrite sort_slice_elem).
    revert Hs Hnd2 Hin. generalize (sort_slice pwp_less l). intros l'. induction 1 as [|x l' Hs IH Hx];
      cbn; intros Hnd2 Hin; constructor.
    + apply NoDup_cons in Hnd2 as [_ Hnd2]. apply IH; [done|]. intros y Hy. apply Hin. by right.
    + apply Forall_fmap, Forall_forall. intros y Hy p q Hp Hq. cbn in Hq.
      rewrite Forall_forall in Hx. specialize (Hx y Hy).
      destruct (Hl x (Hin x ltac:(left))) as [Ex Px], (Hl y (Hin y ltac:(by right))) as [Ey Py].
      assert (pwp_pod x = p ∧ pwp_pod y = q) as [<- <-] by (split; congruence).
      rewrite <-Px, <-Py. unfold pwp_less in Hx. rewrite Z.gtb_ltb in Hx.
      apply NoDup_cons in Hnd2 as [Hnin _].
      assert (pwp_index x ≠ pwp_index y) as Hne.
      { intros E. apply Hnin. rewrite E. by apply list_elem_of_fmap_2. }
      destruct (Z.eqb_spec (pwp_priority y) (pwp_priority x)); bool_hyps; [right|left]; lia.
Qed.

Lemma check_evictions_spec pods keys pending :
  (∃ key, key ∈ keys ∧ ∃ pod, pod ∈ pods ∧ key_of pod = key) →
  ∃ pending', check_evictions pods keys pending = (pending', true) ∧ pending' ⊆ pending ∧
    ∀ pod, pod ∈ pods → pending' !! key_of pod = pending !! key_of pod.
Proof.
  revert pending. induction keys as [|key keys IH]; intros pending (k & Hk & pod & Hpod & Ek).
  { by apply elem_of_nil in Hk. }
  cbn. destruct (existsb _ pods) eqn:E; [exists pending; done|].
  assert (∀ p, p ∈ pods → key_of p ≠ key) as Hno.
  { intros p Hp Hkey. assert (existsb (λ pod, String.eqb (pod_key (pod_Namespace pod) (pod_Name pod)) key) pods = true)
      as Ht; [|congruence].
    apply existsb_exists. exists p. split; [by apply list_elem_of_In|]. by apply String.eqb_eq. }
  apply elem_of_cons in Hk as [->|Hk]; [by destruct (Hno pod Hpod)|].
  destruct (IH (delete key pending)) as (pending' & -> & Hsub & Heq); [eauto|].
  exists pending'. split; [done|]. split; [etrans; [exact Hsub|apply delete_subseteq]|].
  intros p Hp. rewrite Heq by done. rewrite lookup_delete_ne; [done|]. intros Ep. by destruct (Hno p Hp).
Qed.

(** No scheduling over a pending eviction. While any evicted pod still exists
    in the cluster, a cycle schedules nothing: it makes no call but the listing,
    publishes nothing and leaves the registry alone, in whatever order it visits
    the evictions, and it keeps waiting for every evicted pod that still exists. *)
Theorem processQueue_defers o st w pods key pod :
  ListPods (w_api st) = (w, Ok pods) → range_order (w_pendingEvictions st) (or_evictions o) →
  is_Some (w_pendingEvictions st !! key) → pod ∈ pods → key_of pod = key →
  ∃ pending', processQueue strategy wc o st = Done (mkWState w (w_registry st) pending' (w_events st)) ∧
    pending' ⊆ w_pendingEvictions st ∧
    ∀ p, p ∈ pods → pending' !! key_of p = w_pendingEvictions st !! key_of p.
Proof.
  intros Hlist Ho Hkey Hpod Ek. unfold processQueue. rewrite Hlist.
  destruct (_ =? 0)%nat; [exists (w_pendingEvictions st); done|].
  destruct (check_evictions_spec pods (or_evictions o) (w_pendingEvictions st)) as (p' & E & Hsub & Heq).
  { exists key. split; [|eauto]. by apply (range_order_elem _ _ _ Ho). }
  cbn [w_pendingEvictions set_api]. rewrite E. exists p'. done.
Qed.
End queue.

Lemma processQueue_defers_witness :
  let st := mkWState (mkFake [train_pod; evicted_pod] true true) sample_registry {["ml/old" := 1500]} [] in
  ∃ pending', processQueue BinPacker sample_watcher sample_oracle st =
    Done (mkWState (w_api st) sample_registry pending' []) ∧ pending' !! "ml/old" = Some 1500.
Proof.
  intros st.
  destruct (processQueue_defers BinPacker sample_watcher sample_oracle st (w_api st)
    [train_pod; evicted_pod] "ml/old" evicted_pod) as (p' & E & _ & Hp).
  - done.
  - vm_compute. reflexivity.
  - by exists 1500.
  - right. left.
  - done.
  - exists p'. split; [exact E|]. exact (Hp evicted_pod ltac:(right; left)).
Defined.
