(* ===== verification/Recovery.v ===== *)
(** * Recovery: the registry after a restart of the scheduler *)

From Stdlib Require Import ZArith Lia Ascii String.
From stdpp Require Import base option list strings gmap sorting.
From S2P Require Import Prelude GoFloat GoStrings Types K8s Config Helpers Registry Strategy Binpack.
From S2P Require Import GangMultiPod Routing Allocator GangCollector Preemption Watcher Scenario Placement.
Open Scope string_scope.
Open Scope Z_scope.
Open Scope go_scope.

(** ** Specification

    A pod of the scheduler [wc] that runs on a node, and the devices its
    annotation lists. *)
Definition runs_here (wc : WatcherConfig) (pod : Pod) : Prop :=
  pod_SchedulerName pod = wt_schedulerName wc ∧ pod_Phase pod = "Running" ∧ pod_NodeName pod ≠ "".

Definition lists_devices (pod : Pod) (ids : list string) : Prop :=
  ∃ value, annotation pod "gpu-scheduler/assigned-gpus" = Some value ∧
    ids = split_on "," value ∧ head ids ≠ Some "".

(** A restart owes the pod the entries [es]: one per device it lists, on its node;
    MIG instances without memory, GPUs with an equal share of its request. *)
Definition owed (wc : WatcherConfig) (pod : Pod) (es : list AllocationEntry) : Prop :=
  runs_here wc pod ∧ ∃ ids, lists_devices pod ids ∧
    (annotation pod "gpu-scheduler/allocation-type" = Some "mig" →
       es = (λ id, mkAllocationEntry (pod_NodeName pod) id 0 true) <$> ids) ∧
    (annotation pod "gpu-scheduler/allocation-type" ≠ Some "mig" →
       es = (λ id, mkAllocationEntry (pod_NodeName pod) id
               (GetGPUMemoryFromPod pod ⊘ Z.of_nat (length ids)) false) <$> ids).

Lemma assigned_gpus_listed pod ids : assigned_gpus pod = Some ids ↔ lists_devices pod ids.
Proof.
  unfold assigned_gpus, lists_devices, GetAssignedGPUS.
  destruct (annotation pod "gpu-scheduler/assigned-gpus") as [v|]; [|split; [done|by intros (? & ? & _)]].
  pose proof (split_on_nonempty "," v) as Hne. destruct (split_on "," v) as [|g gs] eqn:E; [done|].
  destruct (String.eqb_spec g "") as [->|Hg]; split.
  - done.
  - by intros (? & [= <-] & -> & Hh); rewrite E in Hh.
  - intros [= <-]. exists v. split; [done|]. split; [done|]. cbn. congruence.
  - intros (? & [= <-] & -> & _). by rewrite E.
Qed.

Lemma recovered_owed wc pod es : recovered_entries wc pod = Some es ↔ owed wc pod es.
Proof.
  unfold recovered_entries, owed, runs_here, annotation_or_empty, PodRunning.
  destruct (String.eqb_spec (pod_SchedulerName pod) (wt_schedulerName wc)) as [E1|E1]; [|naive_solver].
  destruct (String.eqb_spec (pod_Phase pod) "Running") as [E2|E2]; [|naive_solver].
  destruct (String.eqb_spec (pod_NodeName pod) "") as [E3|E3]; [naive_solver|]. cbn [andb negb].
  setoid_rewrite <-assigned_gpus_listed.
  destruct (assigned_gpus pod) as [ids|]; cbn [mbind option_bind]; [|naive_solver].
  destruct (annotation pod "gpu-scheduler/allocation-type") as [ty|]; cbn [default from_option id];
    [destruct (String.eqb_spec ty "mig") as [->|]|]; split.
  all: try (intros [= <-]; split; [done|exists ids; split; [done|split; congruence]]).
  all: intros (_ & ids' & [= <-] & Hm & Hf); f_equal; symmetry; first [by apply Hm|apply Hf; congruence].
Qed.

(** ** Recovery after a restart *)
Section recovery.
Context {W : Type} `{KubeAPI W} (wc : WatcherConfig).

Implicit Types st : WState W.

Lemma recovered_nonempty pod es : recovered_entries wc pod = Some es → es ≠ [].
Proof.
  unfold recovered_entries. destruct (_ && _); [|done].
  unfold assigned_gpus. destruct (GetAssignedGPUS pod) as [|g gs]; [done|].
  destruct (String.eqb g ""); [done|]. cbn. destruct (String.eqb _ "mig"); by intros [= <-].
Qed.

Lemma reconcile_pods_spec pods st M k :
  registry_wf (w_registry st) → roomy (w_registry st) M k → NoDup (key_of <$> pods) →
  (∀ pod, pod ∈ pods → reg_podAllocations (w_registry st) !! key_of pod = None) →
  Forall entry_ok (recovered_all wc pods) → zsum (ae_MemoryMB <$> recovered_all wc pods) ≤ M →
  Z.of_nat (length (recovered_all wc pods)) ≤ k →
  ∃ r, foldM (reconcile_pod wc) st pods = Done (set_registry r st) ∧ registry_wf r ∧
    ∀ key es, reg_podAllocations r !! key = Some es ↔
      reg_podAllocations (w_registry st) !! key = Some es ∨
      ∃ pod, pod ∈ pods ∧ key_of pod = key ∧ recovered_entries wc pod = Some es.
Proof.
  revert st M k. induction pods as [|p pods IH]; intros st M k Hwf Hroom Hnd Hfree Hok Hsum Hlen.
  { exists (w_registry st). cbn. destruct st. split_and!; try done. intros key es. split; [by left|].
    intros [?|(? & Hin & _)]; [done|by apply elem_of_nil in Hin]. }
  apply NoDup_cons in Hnd as [Hnin Hnd].
  assert (recovered_all wc (p :: pods) = (default [] (recovered_entries wc p) ++ recovered_all wc pods)%list)
    as Eall by done.
  rewrite Eall in Hok, Hsum, Hlen. clear Eall.
  rewrite fmap_app, zsum_app in Hsum. rewrite length_app in Hlen. apply Forall_app in Hok as [Hok1 Hok2].
  assert (0 ≤ zsum (ae_MemoryMB <$> recovered_all wc pods)) as Hpos.
  { apply zsum_nonneg, Forall_fmap. eapply Forall_impl; [exact Hok2|]. intros ? []. done. }
  cbn [foldM]. unfold reconcile_pod at 2.
  destruct (recovered_entries wc p) as [es|] eqn:E; cbn [from_option id] in Hok1, Hsum, Hlen.
  - destruct (mark_entries_spec p es _ M k Hwf Hroom ltac:(lia) ltac:(lia) Hok1
      (recovered_nonempty p es E)) as (r1 & -> & [Hwf1 _] & Hroom1 & Hal1).
    rewrite (Hfree p ltac:(left)) in Hal1. cbn [mbind outcome_bind from_option id app] in *.
    destruct (IH (set_registry r1 st) _ _ Hwf1 Hroom1 Hnd) as (r & -> & Hwf2 & Hal); try done.
    + intros q Hq. cbn [w_registry set_registry]. rewrite Hal1, lookup_insert_ne; [by apply Hfree; right|].
      intros Ek. apply Hnin. rewrite Ek. by apply list_elem_of_fmap_2.
    + lia.
    + lia.
    + exists r. split; [done|]. split; [done|]. intros key es'. rewrite Hal. cbn [w_registry set_registry].
      rewrite Hal1. setoid_rewrite elem_of_cons. destruct (decide (key_of p = key)) as [<-|Hk].
      * rewrite lookup_insert_eq, (Hfree p ltac:(left)). split.
        -- intros [[= <-]|(q & Hq & Ek & Hr)]; [right; eauto|right; eauto].
        -- intros [?|(q & [->|Hq] & Ek & Hr)]; [done|left; congruence|right; eauto].
      * rewrite lookup_insert_ne by done. split.
        -- intros [?|(q & ? & ? & ?)]; [by left|right; eauto].
        -- intros [?|(q & [->|?] & ? & ?)]; [by left|done|right; eauto].
  - rewrite fmap_nil in Hsum. change (zsum []) with 0 in Hsum. cbn [length] in Hlen.
    cbn [mbind outcome_bind].
    destruct (IH st M k Hwf Hroom Hnd) as (r & -> & Hwf2 & Hal); try done.
    + intros q Hq. apply Hfree. by right.
    + exists r. split; [done|]. split; [done|]. intros key es'. rewrite Hal.
      setoid_rewrite elem_of_cons. split.
      * intros [?|(q & ? & ? & ?)]; [by left|right; eauto].
      * intros [?|(q & [->|?] & ? & ?)]; [by left|congruence|right; eauto].
Qed.

(** The pods found at the start can be recovered: distinct, with identifiers that
    can be logged, and within the counters. *)
Definition recoverable (pods : list Pod) : Prop :=
  NoDup (key_of <$> pods) ∧ Forall entry_ok (recovered_all wc pods) ∧
  zsum (ae_MemoryMB <$> recovered_all wc pods) ≤ int_max ∧
  Z.of_nat (length (recovered_all wc pods)) ≤ int_max.

Lemma reconcile_spec st w pods :
  ListPods (w_api st) = (w, Ok pods) → w_registry st = NewRegistry → recoverable pods →
  ∃ r, reconcileExistingPods wc st = Done (mkWState w r (w_pendingEvictions st) (w_events st)) ∧
    registry_wf r ∧
    ∀ key es, reg_podAllocations r !! key = Some es ↔
      ∃ pod, pod ∈ pods ∧ key_of pod = key ∧ recovered_entries wc pod = Some es.
Proof.
  intros Hlist Hnew (Hnd & Hok & Hsum & Hlen). unfold reconcileExistingPods. rewrite Hlist.
  destruct (reconcile_pods_spec pods (set_api w st) int_max int_max) as (r & -> & Hwf & Hal); try done.
  - cbn. rewrite Hnew. auto with registry.
  - cbn. rewrite Hnew. intros n g. unfold GetReservedMemory, GetPodCount, cell. cbn.
    rewrite !lookup_empty. cbn. lia.
  - intros p _. cbn. rewrite Hnew. apply lookup_empty.
  - exists r. split; [done|]. split; [done|]. intros key es. rewrite Hal. cbn. rewrite Hnew. cbn.
    rewrite lookup_empty. naive_solver.
Qed.

(** C13: recovery rebuilds the registry from the cluster. A restarted scheduler,
    whose registry tracks nothing yet, tracks after [reconcileExistingPods] exactly
    the pods of the listing that are its own, run, have a node and list devices in
    their annotation ([owed]): with one entry per device, on that node, MIG
    instances without memory and GPUs with an equal share of the request. The
    counters of every device account for those entries, and the call never panics,
    as long as the pods are distinct, the identifiers can be logged and the totals
    fit ([recoverable]). *)
Theorem reconcile_exact st w pods :
  ListPods (w_api st) = (w, Ok pods) → w_registry st = NewRegistry → recoverable pods →
  ∃ r, reconcileExistingPods wc st = Done (mkWState w r (w_pendingEvictions st) (w_events st)) ∧
    registry_wf r ∧
    ∀ key es, reg_podAllocations r !! key = Some es ↔
      ∃ pod, pod ∈ pods ∧ key_of pod = key ∧ owed wc pod es.
Proof.
  intros Hl Hnew Hrec. destruct (reconcile_spec st w pods Hl Hnew Hrec) as (r & E & Hwf & Hal).
  exists r. split; [done|]. split; [done|]. intros key es. rewrite Hal.
  by setoid_rewrite recovered_owed.
Qed.

(** The annotations a placement writes are enough to recover it. A pod bound with
    the devices [gpuIDs] is given back an entry on each of them and on the same
    node, of the same kind. MIG entries come back without their memory, and
    several GPUs share the memory of the request. *)
Theorem restart_recovers_placement pod nodeName gpuIDs isMIG :
  pod_SchedulerName pod = wt_schedulerName wc → nodeName ≠ "" → gpuIDs ≠ [] →
  Forall (λ g, g ≠ "" ∧ str_mem ","%char g = false) gpuIDs →
  recovered_entries wc (running_as pod nodeName gpuIDs isMIG) =
    Some ((λ g, mkAllocationEntry nodeName g
      (if isMIG then 0 else GetGPUMemoryFromPod pod ⊘ Z.of_nat (length gpuIDs)) isMIG) <$> gpuIDs).
Proof.
  intros Hs Hn Hne Hids. unfold recovered_entries. cbn [pod_SchedulerName pod_Phase pod_NodeName running_as].
  rewrite Hs, String.eqb_refl, (proj2 (String.eqb_neq nodeName "") Hn). cbn [negb andb PodRunning].
  change (String.eqb PodRunning PodRunning) with true. cbn [andb].
  assert (GetAssignedGPUS (running_as pod nodeName gpuIDs isMIG) = gpuIDs) as Eg.
  { unfold GetAssignedGPUS, annotation. cbn [pod_Annotations running_as]. rewrite lookup_insert_eq.
    apply (split_join ","%char); [done|]. eapply Forall_impl; [exact Hids|]. by intros ? []. }
  assert (annotation_or_empty (running_as pod nodeName gpuIDs isMIG) "gpu-scheduler/allocation-type" =
    if isMIG then "mig" else "full") as Et.
  { unfold annotation_or_empty, annotation. cbn [pod_Annotations running_as].
    by rewrite lookup_insert_ne, lookup_insert_eq by done. }
  assert (GetGPUMemoryFromPod (running_as pod nodeName gpuIDs isMIG) = GetGPUMemoryFromPod pod) as Em.
  { unfold GetGPUMemoryFromPod, annotation. cbn [pod_Annotations pod_Containers running_as].
    by rewrite !lookup_insert_ne by done. }
  unfold assigned_gpus. rewrite Eg, Et, Em. destruct gpuIDs as [|g gs]; [done|].
  apply Forall_cons in Hids as [[Hg _] _]. rewrite (proj2 (String.eqb_neq g "") Hg). cbn [mbind option_bind].
  by destruct isMIG.
Qed.
End recovery.

(** ** Before and after a restart *)

(** What the calls do to a stored pod. *)
Definition annotate (kvs : list (string * string)) (p : Pod) : Pod :=
  set_Annotations (foldr (λ kv m, <[kv.1 := kv.2]> m) (pod_Annotations p) kvs) p.

Definition set_NodeName (nodeName : string) (p : Pod) : Pod :=
  mkPod (pod_Name p) (pod_Namespace p) (pod_Labels p) (pod_Annotations p) (pod_CreationTimestamp p)
    (pod_SchedulerName p) nodeName (pod_Affinity p) (pod_Containers p) (pod_InitContainers p)
    (pod_Volumes p) (pod_Phase p) (pod_Conditions p).

(** The kubelet has started it. *)
Definition started (p : Pod) : Pod :=
  mkPod (pod_Name p) (pod_Namespace p) (pod_Labels p) (pod_Annotations p) (pod_CreationTimestamp p)
    (pod_SchedulerName p) (pod_NodeName p) (pod_Affinity p) (pod_Containers p) (pod_InitContainers p)
    (pod_Volumes p) PodRunning (pod_Conditions p).

(** An API server that stores pods: listing changes none, a patch that is accepted
    merges its annotations, a bind sets the node. *)
Class KubeStore (W : Type) `{KubeAPI W} : Type := {
  kube_pods : W → gmap (string * string) Pod;
  kube_list w : kube_pods (ListPods w).1 = kube_pods w;
  kube_patch w ns name kvs :
    (PatchAnnotations w ns name kvs).2 = None →
    kube_pods (PatchAnnotations w ns name kvs).1 = alter (annotate kvs) (ns, name) (kube_pods w);
  kube_bind w ns name node w' :
    BindPod w ns name node = (w', None) → kube_pods w' = alter (set_NodeName node) (ns, name) (kube_pods w)
}.

(** The device of an entry, and entries whose names fit in an annotation. *)
Definition device (e : AllocationEntry) : string * string * bool :=
  (ae_NodeName e, ae_GPUUUID e, ae_IsMIG e).

Definition plain_entry (e : AllocationEntry) : Prop :=
  ae_NodeName e ≠ "" ∧ ae_GPUUUID e ≠ "" ∧ str_mem ","%char (ae_GPUUUID e) = false.

Lemma started_running_as pod nodeName gpuIDs isMIG :
  started (set_NodeName nodeName (annotate (placement_annotations gpuIDs isMIG) pod)) =
    running_as pod nodeName gpuIDs isMIG.
Proof. by destruct pod. Qed.

Section restart.
Context `{GoSort} (strategy : SchedulingStrategy) `{!StrategyLaws strategy}.
Context {W : Type} `{KubeAPI W, PodExecutor W, !KubeStore W} (wc : WatcherConfig).
Implicit Types st : WState W.

(** The API server refused the annotations that name the devices of the entries
    [es], sent in the world [w] of the attempt or after its listing. *)
Definition marks_refused (pod : Pod) (es : list AllocationEntry) (w : W) : Prop :=
  ∃ w0 isMIG, (w0 = w ∨ w0 = (ListPods w).1) ∧ Forall (λ e, ae_IsMIG e = isMIG) es ∧
    (PatchAnnotations w0 (pod_Namespace pod) (pod_Name pod)
       (placement_annotations (ae_GPUUUID <$> es) isMIG)).2 ≠ None.

(** The calls leave the pod marked and bound in the store, unless the marks were
    refused. *)
Lemma bound_stored pod nodeName es isMIG w w' :
  kube_pods w !! (pod_Namespace pod, pod_Name pod) = Some pod → Forall (λ e, ae_IsMIG e = isMIG) es →
  bound_by pod nodeName (ae_GPUUUID <$> es) isMIG w w' → marks_refused pod es w ∨
  kube_pods w' !! (pod_Namespace pod, pod_Name pod) =
    Some (set_NodeName nodeName (annotate (placement_annotations (ae_GPUUUID <$> es) isMIG) pod)).
Proof.
  intros Hk Hmig (w0 & Hw0 & Hb).
  destruct (PatchAnnotations w0 (pod_Namespace pod) (pod_Name pod)
    (placement_annotations (ae_GPUUUID <$> es) isMIG)).2 as [err|] eqn:Ep.
  { left. exists w0, isMIG. split_and!; [done..|by rewrite Ep]. }
  right.
  rewrite (kube_bind _ _ _ _ _ Hb), lookup_alter_eq, kube_patch, lookup_alter_eq by done.
  assert (kube_pods w0 = kube_pods w) as -> by (destruct Hw0 as [-> | ->]; [done|apply kube_list]).
  by rewrite Hk.
Qed.

(** C29: a placement survives a restart, unless the API server refused its marks.
    When the scheduler has bound a pod of its own, on devices whose identifiers are
    not empty and have no comma ([plain_entry]), and the annotations it sent were
    accepted, the API server holds the pod with its devices; and once it runs, a
    scheduler that starts afresh on a listing with that pod which can be recovered
    ([recoverable]) tracks it again on exactly the same devices of the same node, with the same entry when it was given one full
    GPU. Refused annotations are only logged and the pod is bound all the same: it
    is then forgotten ([unmarked_pod_forgotten]). *)
Theorem placement_survives_restart now o jobID pod st :
  registry_wf (w_registry st) → ids_loggable (w_registry st) →
  (∀ i, range_order (reg_nodes (w_registry st)) (o i)) →
  reg_podAllocations (w_registry st) !! key_of pod = None →
  0 ≤ GetGPUMemoryFromPod pod → GetGPUMemoryFromPod pod + gpus_wanted pod ≤ int_max →
  roomy (w_registry st) (demand pod) (gpus_wanted pod) →
  kube_pods (w_api st) !! (pod_Namespace pod, pod_Name pod) = Some pod →
  pod_SchedulerName pod = wt_schedulerName wc →
  ∃ st', schedulePod strategy wc now o jobID pod st = Done st' ∧
    ∀ es, reg_podAllocations (w_registry st') !! key_of pod = Some es → Forall plain_entry es →
    marks_refused pod es (w_api st) ∨
    ∃ p', kube_pods (w_api st') !! (pod_Namespace pod, pod_Name pod) = Some p' ∧
      ∀ fresh w pods, ListPods (w_api fresh) = (w, Ok pods) → w_registry fresh = NewRegistry →
        recoverable wc pods → started p' ∈ pods →
        ∃ r es', reconcileExistingPods wc fresh = Done (mkWState w r (w_pendingEvictions fresh) (w_events fresh)) ∧
          registry_wf r ∧ reg_podAllocations r !! key_of pod = Some es' ∧ device <$> es' = device <$> es ∧
          (gpus_wanted pod = 1 → Forall (λ e, ae_IsMIG e = false) es → es' = es).
Proof.
  intros Hwf Hids Ho Hnone Hmem Hmax Hroom Hk Hname.
  destruct (schedulePod_step strategy wc now o jobID pod st) as (st' & E & _ & Ht); [done..|].
  exists st'. split; [done|]. intros es Hes Hplain.
  apply transaction_entries in Ht as [(nodeName & es0 & isMIG & Hlen & Hall & Hb & Hal & _)|(vs & _ & Hal)].
  2: { rewrite Hal, without_untracked in Hes; done. }
  rewrite Hal, lookup_insert_eq in Hes. injection Hes as ->.
  assert (Forall (λ e, ae_IsMIG e = isMIG) es) as Hmig
    by (eapply Forall_impl; [exact Hall|by intros e (_ & _ & ? & _)]).
  destruct (bound_stored _ _ _ _ _ _ Hk Hmig Hb) as [?|Hstored]; [by left|right].
  eexists. split; [exact Hstored|].
  intros fresh w pods Hl Hnew Hrec. rewrite started_running_as. intros Hin.
  destruct (reconcile_spec wc fresh w pods Hl Hnew Hrec) as (r & Er & Hr & Hex).
  assert (es ≠ []) as Hne by (intros ->; unfold gpus_wanted in Hlen; cbn in Hlen; lia).
  exists r. eexists. split; [done|]. split; [done|]. split.
  { apply Hex. eexists. split; [exact Hin|]. split; [done|].
    apply restart_recovers_placement; [done| |by destruct es|].
    - destruct es as [|e es]; [done|]. apply Forall_cons in Hall as [(<- & _) _].
      apply Forall_cons in Hplain as [(? & _) _]. done.
    - apply Forall_fmap. eapply Forall_impl; [exact Hplain|]. by intros e (_ & ? & ?). }
  rewrite <-!list_fmap_compose. split.
  - apply list_fmap_ext. intros i e Hi.
    destruct (proj1 (Forall_lookup _ _) Hall i e Hi) as (<- & _ & <- & _). done.
  - intros Hone Hfull. rewrite Hone in Hlen. destruct es as [|e [|]]; [done| |cbn in Hlen; lia].
    apply Forall_singleton in Hall as (<- & _ & <- & Hm). rewrite Forall_singleton in Hfull.
    cbn in Hfull |- *. rewrite Hfull. f_equal. destruct e as [n g m mig]. cbn in *. subst mig. f_equal.
    rewrite (Hm Hone). change (Z.of_nat 1) with 1. rewrite Z.quot_1_r. apply wrap64_id. int_solve.
Qed.
End restart.

Lemma restart_recovers_placement_witness :
  recovered_entries sample_watcher running_train =
    Some [mkAllocationEntry "node-a" "GPU-aaaaaaaaaaaa" 20000 false].
Proof.
  refine (eq_trans (restart_recovers_placement sample_watcher train_pod "node-a"
    ["GPU-aaaaaaaaaaaa"] false _ _ _ _) _); try done.
  by repeat constructor.
Defined.

Lemma train_recoverable : recoverable sample_watcher [running_train].
Proof.
  split; [by apply (bool_decide_unpack _)|]. split.
  - change (recovered_all sample_watcher [running_train]) with
      [mkAllocationEntry "node-a" "GPU-aaaaaaaaaaaa" 20000 false].
    apply Forall_singleton. split; [by vm_compute|vm_compute; lia].
  - split; vm_compute; discriminate.
Qed.

Lemma reconcile_exact_witness :
  ∃ r, reconcileExistingPods sample_watcher (sample_state [running_train] true true NewRegistry) =
      Done (sample_state [running_train] true true r) ∧
    reg_podAllocations r !! "ml/train" = Some [mkAllocationEntry "node-a" "GPU-aaaaaaaaaaaa" 20000 false].
Proof.
  destruct (reconcile_exact sample_watcher (sample_state [running_train] true true NewRegistry)
    (mkFake [running_train] true true) [running_train]) as (r & E & _ & Hal).
  - done.
  - done.
  - apply train_recoverable.
  - exists r. split; [exact E|]. apply Hal. exists running_train. split; [left|]. split; [done|].
    split; [by vm_compute|]. exists ["GPU-aaaaaaaaaaaa"]. split; [by eexists|].
    split; [intros Hm; vm_compute in Hm; discriminate|by vm_compute].
Defined.

(** ** A store to run it on *)
Record StoreCluster : Type := mkStore { sk_pods : gmap (string * string) Pod }.

#[export] Instance store_api : KubeAPI StoreCluster := {|
  ListPods w := (w, Ok (map_to_list (sk_pods w)).*2);
  PatchAnnotations w ns name kvs := (mkStore (alter (annotate kvs) (ns, name) (sk_pods w)), None);
  BindPod w ns name node := (mkStore (alter (set_NodeName node) (ns, name) (sk_pods w)), None)
|}.

#[export] Instance store_executor : PodExecutor StoreCluster := {|
  ExecInPod w _ _ _ _ := (w, None);
  DeletePod w ns name _ := (mkStore (delete (ns, name) (sk_pods w)), None);
  CreatePod w p := (mkStore (<[(pod_Namespace p, pod_Name p) := p]> (sk_pods w)), Ok p)
|}.

#[export] Instance store_kube : KubeStore StoreCluster.
Proof. refine {| kube_pods := sk_pods |}; [done|done|]. by intros w ns name node w' [= <-]. Defined.

Definition train_store : WState StoreCluster := mkWState (mkStore {[("ml", "train") := train_pod]}) sample_registry ∅ [].

Definition train_entry : AllocationEntry := mkAllocationEntry "node-a" "GPU-aaaaaaaaaaaa" 20000 false.

Lemma train_scheduled st' :
  schedulePod BinPacker sample_watcher 2000 one_node "job-1" train_pod train_store = Done st' →
  reg_podAllocations (w_registry st') !! "ml/train" = Some [train_entry] ∧
  started <$> sk_pods (w_api st') !! ("ml", "train") = Some running_train.
Proof.
  assert (match schedulePod BinPacker sample_watcher 2000 one_node "job-1" train_pod train_store with
    | Done st' => reg_podAllocations (w_registry st') !! "ml/train" = Some [train_entry] ∧
        started <$> sk_pods (w_api st') !! ("ml", "train") = Some running_train
    | Panicked => True end) as H by (vm_compute; by split).
  intros E. by rewrite E in H.
Qed.

Lemma train_plain : Forall plain_entry [train_entry].
Proof. by repeat constructor. Qed.

Definition restarted : WState StoreCluster := mkWState (mkStore {[("ml", "train") := running_train]}) NewRegistry ∅ [].

Lemma restarted_listed : ListPods (w_api restarted) = (w_api restarted, Ok [running_train]).
Proof. cbn. by rewrite map_to_list_singleton. Qed.

Lemma train_room : roomy (w_registry train_store) (demand train_pod) (gpus_wanted train_pod).
Proof.
  intros n g. destruct (sample_room [] true true n g) as [E1 E2]. cbn [w_registry train_store sample_state] in *.
  rewrite E1, E2. vm_compute. by split.
Qed.

Lemma placement_survives_restart_witness :
  ∃ r, reconcileExistingPods sample_watcher restarted = Done (mkWState (w_api restarted) r ∅ []) ∧
    reg_podAllocations r !! "ml/train" = Some [train_entry].
Proof.
  destruct (placement_survives_restart BinPacker sample_watcher 2000 one_node "job-1" train_pod train_store)
    as (st' & E & Hall);
    [apply reachable_wf, sample_registry_reachable|apply sample_loggable|intros i; vm_compute; reflexivity
    |apply lookup_empty|vm_compute; discriminate|vm_compute; discriminate|apply train_room
    |apply lookup_insert_eq|reflexivity|].
  destruct (train_scheduled st' E) as [Hes Hp].
  destruct (Hall _ Hes train_plain) as [(w0 & mig & _ & _ & Hno)|(p' & Hp' & Hre)]; [by destruct Hno|].
  change (sk_pods (w_api st') !! ("ml", "train") = Some p') in Hp'. rewrite Hp' in Hp.
  apply (inj Some) in Hp.
  destruct (Hre restarted (w_api restarted) [running_train] restarted_listed eq_refl train_recoverable)
    as (r & es & Er & _ & Hes' & _ & Hone); [rewrite Hp; left|].
  exists r. split; [exact Er|]. rewrite Hone in Hes'; [exact Hes'|reflexivity|by repeat constructor].
Defined.

(** ** Findings *)

(** A pod that is bound but not yet running is neither recovered nor pending: a
    scheduler that restarts then counts its devices as free for good. *)
Lemma starting_pod_forgotten :
  let starting := set_NodeName "node-a" (annotate (placement_annotations ["GPU-aaaaaaaaaaaa"] false) train_pod) in
  started starting = running_train ∧ recovered_entries sample_watcher starting = None ∧
  is_pending sample_watcher starting = false.
Proof. vm_compute. done. Qed.

(** A cluster that refuses patches. *)
Record UnmarkedCluster : Type := mkUnmarked { um_pods : gmap (string * string) Pod }.

#[export] Instance unmarked_api : KubeAPI UnmarkedCluster := {|
  ListPods w := (w, Ok (map_to_list (um_pods w)).*2);
  PatchAnnotations w _ _ _ := (w, Some "forbidden");
  BindPod w ns name node := (mkUnmarked (alter (set_NodeName node) (ns, name) (um_pods w)), None)
|}.

#[export] Instance unmarked_executor : PodExecutor UnmarkedCluster := {|
  ExecInPod w _ _ _ _ := (w, None);
  DeletePod w _ _ _ := (w, None);
  CreatePod w p := (w, Ok p)
|}.

(** A refused patch is only logged and the pod is bound all the same; without its
    annotation a restart does not recover it. *)
Lemma unmarked_pod_forgotten :
  match schedulePod BinPacker sample_watcher 2000 one_node "job-1" train_pod
      (mkWState (mkUnmarked {[("ml", "train") := train_pod]}) sample_registry ∅ []) with
  | Done st' => reg_podAllocations (w_registry st') !! "ml/train" = Some [train_entry] ∧
      (recovered_entries sample_watcher ∘ started) <$> um_pods (w_api st') !! ("ml", "train") = Some None
  | Panicked => False
  end.
Proof. vm_compute. done. Qed.
