(* ===== verification/Safety.v ===== *)
(** * Safety of a whole scheduling cycle

    The registry stays well formed through all the gangs and pods a cycle looks
    at: the room the counters have is used up pod by pod, releases only give
    some back, and no step changes the identifiers the agents reported. *)

From Stdlib Require Import ZArith Lia Ascii String.
From stdpp Require Import base option list strings gmap sorting.
From S2P Require Import Prelude GoFloat GoStrings Types K8s Config Helpers Registry Strategy Binpack.
From S2P Require Import GangMultiPod Routing Allocator GangCollector Preemption Watcher Scenario.
From S2P Require Import Placement Cycle.
Open Scope string_scope.
Open Scope Z_scope.
Open Scope go_scope.

(** Between two pods of a cycle that started in [r0] and has [rest] to place. *)
Definition cycle_inv (wc : WatcherConfig) (pods : list Pod) (r0 : Registry) (rest : list Pod)
    (r : Registry) : Prop :=
  keeps r0 r ∧ schedulable r rest ∧ changes wc pods r0 r ∧ rest ⊆+ pods.

(** A gang of two and a single pod, for the example. *)
Definition worker (name : string) : Pod :=
  sample_pod "ml" name [("gpu-scheduler/gang-id", "g1"); ("gpu-scheduler/gang-size", "2");
                        ("gpu-scheduler/shared", "true"); ("gpu-scheduler.io/memory-mb", "9000")].

Definition three_pods : list Pod := [worker "w0"; train_pod; worker "w1"].

Definition gang_oracle : CycleOracle := mkOracle 2000 [] ["g1"] (λ _, one_node) (λ _, "job").

(** ** Room *)
Lemma mem_on_le n g es : Forall (λ e, 0 ≤ ae_MemoryMB e) es → mem_on n g es ≤ zsum (ae_MemoryMB <$> es).
Proof.
  induction 1 as [|e es He _ IH]; [done|]. rewrite mem_on_cons, fmap_cons, zsum_cons. case_match; lia.
Qed.

Lemma count_on_le n g es : count_on n g es ≤ Z.of_nat (length es).
Proof. induction es as [|e es IH]; [done|]. rewrite count_on_cons. cbn [length]. case_match; lia. Qed.

Lemma entries_of_delete_sub k al : entries_of (delete k al) ⊆+ entries_of al.
Proof.
  destruct (al !! k) as [es|] eqn:E.
  - rewrite (entries_of_delete _ _ _ E). by apply submseteq_inserts_l.
  - by rewrite entries_of_delete_none.
Qed.

Lemma entries_of_without vs al : entries_of (without vs al) ⊆+ entries_of al.
Proof.
  induction vs as [|v vs IH]; [done|]. cbn. etrans; [apply entries_of_delete_sub|exact IH].
Qed.

Lemma roomy_weaken r M k M' k' : roomy r M k → M' ≤ M → k' ≤ k → roomy r M' k'.
Proof. intros Hr HM Hk n g. destruct (Hr n g). lia. Qed.

Lemma roomy_insert r r' key es M k :
  registry_wf r → registry_wf r' → reg_podAllocations r' = <[key := es]> (reg_podAllocations r) →
  Forall (λ e, 0 ≤ ae_MemoryMB e) es →
  roomy r (zsum (ae_MemoryMB <$> es) + M) (Z.of_nat (length es) + k) → roomy r' M k.
Proof.
  intros (_ & Hok & Hs) (_ & _ & Hs') Hal Hes Hroom n g.
  destruct (Hs n g) as (E1 & E2 & _), (Hs' n g) as (E3 & E4 & _), (Hroom n g) as [R1 R2].
  rewrite E1 in R1. rewrite E2 in R2. rewrite E3, E4, Hal.
  rewrite (mem_on_perm n g _ _ (entries_of_insert _ key es)), (count_on_perm n g _ _ (entries_of_insert _ key es)).
  rewrite mem_on_app, count_on_app.
  pose proof (mem_on_le n g es Hes). pose proof (count_on_le n g es).
  destruct (submseteq_Permutation _ _ (proj1 (conj (entries_of_delete_sub key (reg_podAllocations r)) I))) as [l Hl].
  rewrite (mem_on_perm n g _ _ Hl), mem_on_app in R1. rewrite (count_on_perm n g _ _ Hl), count_on_app in R2.
  rewrite Hl in Hok. apply Forall_app in Hok as [_ Hok].
  pose proof (mem_on_nonneg n g _ Hok). pose proof (count_on_nonneg n g l). lia.
Qed.

Lemma roomy_without r r' vs M k :
  registry_wf r → registry_wf r' → reg_podAllocations r' = without vs (reg_podAllocations r) →
  roomy r M k → roomy r' M k.
Proof.
  intros (_ & Hok & Hs) (_ & _ & Hs') Hal Hroom n g.
  destruct (Hs n g) as (E1 & E2 & _), (Hs' n g) as (E3 & E4 & _), (Hroom n g) as [R1 R2].
  rewrite E1 in R1. rewrite E2 in R2. rewrite E3, E4, Hal.
  destruct (submseteq_Permutation _ _ (entries_of_without vs (reg_podAllocations r))) as [l Hl].
  rewrite (mem_on_perm n g _ _ Hl), mem_on_app in R1. rewrite (count_on_perm n g _ _ Hl), count_on_app in R2.
  rewrite Hl in Hok. apply Forall_app in Hok as [_ Hok].
  pose proof (mem_on_nonneg n g _ Hok). pose proof (count_on_nonneg n g l). lia.
Qed.

Lemma ids_loggable_keeps r r' : keeps r r' → ids_loggable r → ids_loggable r'.
Proof.
  intros [_ E] Hids k node g Hk Hg. destruct (ids_map_lookup _ _ _ _ E Hk) as (node0 & Hk0 & En).
  assert ((gi_UUID g, mig_UUID <$> gi_MIGInstances g) ∈ node_ids node0) as Hin.
  { rewrite En. by apply (list_elem_of_fmap_2 (λ g, (gi_UUID g, mig_UUID <$> gi_MIGInstances g))). }
  apply list_elem_of_fmap in Hin as (g0 & [= Eu Em] & Hg0). destruct (Hids _ _ _ Hk0 Hg0) as [H1 H2].
  split; [by rewrite Eu|]. intros mi Hmi.
  assert (mig_UUID mi ∈ mig_UUID <$> gi_MIGInstances g0) as (mi0 & -> & Hmi0)%list_elem_of_fmap.
  { rewrite <-Em. by apply list_elem_of_fmap_2. }
  by apply H2.
Qed.

(** ** Steps on the tracked pods *)
Lemma without_lookup vs al key :
  without vs al !! key = al !! key ∨ without vs al !! key = None ∧ ∃ v, v ∈ vs ∧ key_of v = key.
Proof.
  induction vs as [|v vs IH]; [by left|]. cbn. destruct (decide (key_of v = key)) as [<-|Hne].
  - right. rewrite lookup_delete_eq. split; [done|]. exists v. split; [left|done].
  - rewrite lookup_delete_ne by done. destruct IH as [IH|[IH (v' & ? & ?)]]; [by left|right].
    split; [done|]. exists v'. split; [by right|done].
Qed.

Lemma demand_nonneg p : 0 ≤ GetGPUMemoryFromPod p → 0 ≤ demand p.
Proof. unfold demand, gpus_wanted. nia. Qed.

Lemma gpus_wanted_pos p : 1 ≤ gpus_wanted p.
Proof. unfold gpus_wanted. lia. Qed.

Lemma schedulable_sub r l l' : l' ⊆+ l → schedulable r l → schedulable r l'.
Proof.
  intros Hsub (Hnd & Hf & Hroom). split; [|split].
  - eapply NoDup_sub; [|exact Hnd]. by apply fmap_submseteq.
  - by eapply Forall_submseteq.
  - eapply roomy_weaken; [exact Hroom| |]; apply zsum_submseteq; try (by apply fmap_submseteq); apply Forall_fmap.
    + eapply Forall_impl; [exact Hf|]. intros p (_ & Hm & _). by apply demand_nonneg.
    + apply Forall_true. intros p. pose proof (gpus_wanted_pos p). cbn. lia.
Qed.

Lemma schedulable_head r p rest :
  schedulable r (p :: rest) →
  reg_podAllocations r !! key_of p = None ∧ 0 ≤ GetGPUMemoryFromPod p ∧
  GetGPUMemoryFromPod p + gpus_wanted p ≤ int_max ∧ roomy r (demand p) (gpus_wanted p).
Proof.
  intros Hs. assert (schedulable r [p]) as (_ & Hf & Hroom).
  { eapply schedulable_sub; [|exact Hs]. by apply submseteq_skip, submseteq_nil_l. }
  apply Forall_singleton in Hf as (? & ? & ?). cbn in Hroom. rewrite !Z.add_0_r in Hroom. done.
Qed.

Section step.
Context (wc : WatcherConfig) (pods : list Pod) (r0 : Registry).

Lemma cycle_inv_sub rest rest' r : rest' ⊆+ rest → cycle_inv wc pods r0 rest r → cycle_inv wc pods r0 rest' r.
Proof.
  intros Hsub (Hk & Hs & Hc & Hp). split_and!; try done; [by eapply schedulable_sub|by etrans].
Qed.

Lemma changes_step p r r' :
  p ∈ pods → reg_podAllocations r !! key_of p = None →
  changes wc pods r0 r → tracked_step wc p r r' → changes wc pods r0 r'.
Proof.
  intros Hp Hnone [H1 H2] Hstep.
  assert (∀ key, reg_podAllocations r' !! key = reg_podAllocations r !! key ∨
    (key_of p = key ∧ is_Some (reg_podAllocations r' !! key)) ∨
    (reg_podAllocations r' !! key = None ∧ ∃ v, may_evict wc p v ∧ key_of v = key)) as Hcases.
  { intros key. destruct Hstep as [(es & _ & _ & ->)|(vs & Hvs & ->)].
    - destruct (decide (key_of p = key)) as [<-|Hne]; [right; left|left; by rewrite lookup_insert_ne].
      by rewrite lookup_insert_eq.
    - destruct (without_lookup vs (reg_podAllocations r) key) as [?|[? (v & Hv & ?)]]; [by left|].
      right. right. split; [done|]. exists v. rewrite Forall_forall in Hvs. auto. }
  split; intros key Hkey.
  - destruct (Hcases key) as [E|[[E _]|[E _]]]; [rewrite E in *; by apply H1|right; eauto|].
    rewrite E in Hkey. by destruct Hkey.
  - destruct (H2 key Hkey) as [E|?]; [|by right].
    destruct (Hcases key) as [E'|[[<- _]|[_ (v & ? & ?)]]]; [left; congruence| |right; eauto 6].
    rewrite <-E, Hnone in Hkey. by destruct Hkey.
Qed.

Lemma cycle_inv_step p rest r r' :
  cycle_inv wc pods r0 (p :: rest) r → keeps r r' → tracked_step wc p r r' → cycle_inv wc pods r0 rest r'.
Proof.
  intros (Hk & (Hnd & Hf & Hroom) & Hc & Hsub) Hk' Hstep.
  apply NoDup_cons in Hnd as [Hnin Hnd]. apply Forall_cons in Hf as [(Hnone & Hmem & Hmax) Hf].
  rewrite !fmap_cons, !zsum_cons in Hroom.
  assert (p ∈ pods) as Hp by (eapply elem_of_submseteq; [left|exact Hsub]).
  split; [by eapply keeps_trans|]. split; [|split; [by eapply changes_step|]].
  2: { etrans; [|exact Hsub]. by apply submseteq_cons. }
  split; [done|]. split.
  - apply Forall_forall. rewrite Forall_forall in Hf. intros q Hq. destruct (Hf q Hq) as (Hn & ? & ?).
    split; [|done]. destruct Hstep as [(es & _ & _ & ->)|(vs & _ & ->)].
    + rewrite lookup_insert_ne; [done|]. intros E. apply Hnin. rewrite E. by apply list_elem_of_fmap_2.
    + by destruct (without_lookup vs (reg_podAllocations r) (key_of q)) as [->|[-> _]].
  - destruct Hstep as [(es & Hlen & Hes & Hal)|(vs & _ & Hal)].
    + eapply (roomy_insert r r' (key_of p) es); [apply Hk|apply Hk'|done| |].
      { eapply Forall_impl; [exact Hes|]. intros e He. cbn in He. lia. }
      eapply roomy_weaken; [exact Hroom| |lia].
      assert (zsum (ae_MemoryMB <$> es) ≤ demand p); [|lia]. unfold demand. rewrite <-Hlen.
      clear -Hes. induction Hes as [|e es He _ IH]; [done|].
      rewrite fmap_cons, zsum_cons. cbn [length]. cbn in He. lia.
    + eapply roomy_without; [apply Hk|apply Hk'|exact Hal|]. pose proof (demand_nonneg p Hmem).
      pose proof (gpus_wanted_pos p). eapply roomy_weaken; [exact Hroom|lia..].
Qed.
End step.

Lemma Forall2_diag {A} (R : A → A → Prop) l : Forall2 R l l → Forall (λ x, R x x) l.
Proof. induction l as [|x l IH]; [done|]. intros [? ?]%Forall2_cons_1. auto. Qed.

Lemma imap_pair_snd {A} (l : list A) : (imap pair l).*2 = l.
Proof. rewrite fmap_imap. apply list_eq. intros i. rewrite list_lookup_imap. by destruct (l !! i). Qed.

Lemma queue_order_perm `{GoSort} wc pods : queue_order wc pods ≡ₚ pods.
Proof.
  unfold queue_order. rewrite (fmap_Permutation pwp_pod _ _ (sort_slice_perm pwp_less _)), fmap_imap.
  apply Permutation_refl', list_eq. intros i. rewrite list_lookup_imap. by destruct (pods !! i).
Qed.

(** ** The steps of a cycle *)
Section cycle.
Context `{GoSort} (strategy : SchedulingStrategy) `{!StrategyLaws strategy}.
Context {W : Type} `{KubeAPI W, PodExecutor W} (wc : WatcherConfig).

Implicit Types st : WState W.

Lemma transaction_tracked pod st st' :
  transaction wc pod st st' → tracked_step wc pod (w_registry st) (w_registry st').
Proof.
  intros [(n & es & mig & Hlen & Hes & _ & Hal & _)|Hv]%transaction_entries; [left|by right]. exists es. split; [done|].
  split; [|done]. eapply Forall_impl; [exact Hes|]. by intros e (_ & ? & _).
Qed.

Section with_start.
Context (pods : list Pod) (r0 : Registry).
Context (Hids : ids_loggable r0).

Lemma schedulePod_inv now o jobID pod rest st :
  (∀ i, range_order (reg_nodes r0) (o i)) → cycle_inv wc pods r0 (pod :: rest) (w_registry st) →
  ∃ st', schedulePod strategy wc now o jobID pod st = Done st' ∧
    cycle_inv wc pods r0 rest (w_registry st').
Proof.
  intros Ho Hinv. pose proof Hinv as (Hk & Hs & _).
  destruct (schedulable_head _ _ _ Hs) as (Hnone & Hmem & Hmax & Hroom).
  destruct (schedulePod_step strategy wc now o jobID pod st) as (st' & E & Hk' & Ht); try done.
  - apply Hk.
  - by eapply ids_loggable_keeps.
  - intros i. eapply range_order_ids; [apply Hk|apply Ho].
  - exists st'. split; [done|]. eapply cycle_inv_step; [exact Hinv|done|]. by apply transaction_tracked.
Qed.
Lemma bind_placement_inv gangID p rest st :
  pp_MemoryMB p = GetGPUMemoryFromPod (pp_Pod p) →
  Z.of_nat (length (pp_GPUIDs p)) = gpus_wanted (pp_Pod p) →
  Forall (λ id, (12 ≤ String.length id)%nat) (pp_GPUIDs p) →
  cycle_inv wc pods r0 (pp_Pod p :: rest) (w_registry st) →
  ∃ st', bind_placement gangID st p = Done st' ∧ cycle_inv wc pods r0 rest (w_registry st').
Proof.
  intros Em Hlen Hlog Hinv. pose proof Hinv as (Hk & Hs & _).
  destruct (schedulable_head _ _ _ Hs) as (Hnone & Hmem & Hmax & Hroom). unfold bind_placement.
  set (pod := pp_Pod p) in *. set (mem := GetGPUMemoryFromPod pod) in *.
  set (len := Z.of_nat (length (pp_GPUIDs p))) in *. pose proof (gpus_wanted_pos pod) as Hpos.
  assert (0 ≤ mem ⊘ len ≤ mem ∧ len * (mem ⊘ len) ≤ mem) as [Hshare Htot].
  { rewrite Z.quot_div_nonneg by lia. assert (0 ≤ mem / len ≤ mem).
    { split; [apply Z.div_pos; lia|]. apply Z.div_le_upper_bound; [lia|]. nia. }
    pose proof (Z.mul_div_le mem len ltac:(lia)).
    assert (wrap64 (mem / len) = mem / len) as -> by int_solve. lia. }
  rewrite Em. set (es := _ <$> pp_GPUIDs p).
  assert (Forall (λ e, 0 ≤ ae_MemoryMB e ≤ mem) es) as Hes.
  { apply Forall_fmap, Forall_true. intros id. cbn. lia. }
  destruct (mark_entries_spec pod es _ (demand pod) (gpus_wanted pod) (proj1 Hk) Hroom)
    as (r & -> & Hk' & _ & Hal).
  - assert (zsum (ae_MemoryMB <$> es) = len * (mem ⊘ len)) as ->.
    { unfold es, len. rewrite <-list_fmap_compose. by rewrite (zsum_const _ (mem ⊘ len)) by (by apply Forall_true). }
    unfold demand. fold mem. nia.
  - unfold es. rewrite length_fmap. fold len. lia.
  - apply Forall_fmap. eapply Forall_impl; [exact Hlog|]. intros id Hid. split; [cbn; lia|done].
  - unfold es. destruct (pp_GPUIDs p); [cbn in len; lia|done].
  - rewrite Hnone in Hal. cbn [mbind outcome_bind from_option id app] in *.
    destruct (PatchAnnotations _ _ _ _) as [w1 e1]. destruct (BindPod w1 _ _ _) as [w2 [e2|]].
    + destruct (release_spec pod (set_registry r (set_api w2 st)) (proj1 Hk')) as (r2 & -> & Hk2 & Hal2).
      eexists. split; [done|]. eapply cycle_inv_step; [exact Hinv|by eapply keeps_trans|].
      right. exists []. split; [done|]. cbn. rewrite Hal2. cbn. by rewrite Hal, delete_insert_id.
    + eexists. split; [done|]. eapply cycle_inv_step; [exact Hinv|done|].
      left. exists es. split; [unfold es; by rewrite length_fmap|]. done.
Qed.

Lemma bind_placements_inv gangID ps rest st :
  Forall (λ p, pp_MemoryMB p = GetGPUMemoryFromPod (pp_Pod p) ∧
    Z.of_nat (length (pp_GPUIDs p)) = gpus_wanted (pp_Pod p) ∧
    Forall (λ id, (12 ≤ String.length id)%nat) (pp_GPUIDs p)) ps →
  cycle_inv wc pods r0 ((pp_Pod <$> ps) ++ rest) (w_registry st) →
  ∃ st', foldM (bind_placement gangID) st ps = Done st' ∧ cycle_inv wc pods r0 rest (w_registry st').
Proof.
  intros Hps. revert st. induction Hps as [|p ps (Em & Hlen & Hlog) _ IH]; intros st Hinv; cbn [foldM].
  { by exists st. }
  destruct (bind_placement_inv gangID p _ st Em Hlen Hlog Hinv) as (st1 & -> & Hi).
  cbn [mbind outcome_bind]. by apply IH.
Qed.

Lemma scheduleGang_inv o jobID gang rest st :
  (∀ i, range_order (reg_nodes r0) (o i)) →
  cycle_inv wc pods r0 (gs_Pods gang ++ rest) (w_registry st) →
  ∃ st', scheduleGang strategy o jobID gang st = Done st' ∧ cycle_inv wc pods r0 rest (w_registry st').
Proof.
  intros Ho Hinv. pose proof Hinv as (Hk & _). unfold scheduleGang, ScheduleMultiPodGang.
  rewrite length_fmap, Nat.eqb_refl. cbn [negb].
  destruct (place_all_total strategy (gs_Pods gang) (job_of jobID <$> gs_Pods gang)
    (deepCopyNodes (GetNodes (o 0%nat) (w_registry st))) []) as [[ps|e] E]; [by rewrite length_fmap| |];
    rewrite E; cbn [mbind outcome_bind].
  2: { exists st. split; [done|]. eapply cycle_inv_sub; [|exact Hinv]. by apply submseteq_inserts_l. }
  rewrite deepCopyNodes_id in E.
  apply (place_all_sound strategy (GetNodes (o 0%nat) (w_registry st))) in E as (new & -> & Hpods & Hnew);
    [|by rewrite length_fmap|done].
  cbn [app]. rewrite <-Hpods in Hinv.
  destruct (bind_placements_inv (gs_GangID gang) new rest st) as (st' & -> & H'); [|done|].
  - rewrite <-Hpods in Hnew. apply Forall2_fmap_l, Forall2_fmap_l, Forall2_diag in Hnew.
    eapply Forall_impl; [exact Hnew|]. intros p (Em & Hlen & node & Hn & _ & Hsub). split; [done|].
    split; [by rewrite Hlen|]. apply Forall_forall. intros id Hid.
    eapply elem_of_submseteq in Hid; [|exact Hsub]. apply list_elem_of_fmap in Hid as (g & -> & Hg).
    eapply GetNodes_gpu; [|by eapply ids_loggable_keeps|done..].
    eapply range_order_ids; [apply Hk|apply Ho].
  - eexists. split; [done|]. done.
Qed.

Lemma gangs_inv (o : nat → noOrders) (jobID : nat → string) (igs : list (nat * GangState)) rest st :
  (∀ i j, range_order (reg_nodes r0) (o i j)) →
  cycle_inv wc pods r0 ((igs.*2 ≫= gs_Pods) ++ rest) (w_registry st) →
  ∃ st', foldM (λ st ig, scheduleGang strategy (o ig.1) (jobID ig.1) ig.2 st) st igs = Done st' ∧
    cycle_inv wc pods r0 rest (w_registry st').
Proof.
  intros Ho. revert st. induction igs as [|[i g] igs IH]; intros st Hinv; cbn [foldM]; [by exists st|].
  cbn [fmap list_fmap mbind list_bind fst snd] in Hinv. rewrite <-(assoc app) in Hinv.
  destruct (scheduleGang_inv (o i) (jobID i) g _ st (Ho i) Hinv) as (st1 & E & Hi). cbn [fst snd].
  rewrite E. cbn [mbind outcome_bind]. by apply IH.
Qed.

Lemma pods_inv now (o : nat → noOrders) (jobID : nat → string) (k : nat) (ips : list (nat * Pod)) st :
  (∀ i j, range_order (reg_nodes r0) (o i j)) →
  cycle_inv wc pods r0 ips.*2 (w_registry st) →
  ∃ st', foldM (λ st ip, schedulePod strategy wc now (o (k + ip.1)%nat) (jobID (k + ip.1)%nat) ip.2 st)
      st ips = Done st' ∧ cycle_inv wc pods r0 [] (w_registry st').
Proof.
  intros Ho. revert st. induction ips as [|[i p] ips IH]; intros st Hinv; cbn [foldM]; [by exists st|].
  destruct (schedulePod_inv now (o (k + i)%nat) (jobID (k + i)%nat) p _ st (Ho _) Hinv) as (st1 & E & Hi).
  cbn [fst snd]. rewrite E. cbn [mbind outcome_bind]. by apply IH.
Qed.
End with_start.

(** The registry a cycle leaves. *)
Lemma processQueue_keeps o st w listed :
  let pending := List.filter (is_pending wc) listed in
  ListPods (w_api st) = (w, Ok listed) →
  registry_wf (w_registry st) → ids_loggable (w_registry st) →
  schedulable (w_registry st) pending →
  (∀ i j, range_order (reg_nodes (w_registry st)) (or_orders o i j)) →
  range_order (collect_pods (queue_order wc pending)).1 (or_gangs o) →
  ∃ st', processQueue strategy wc o st = Done st' ∧ keeps (w_registry st) (w_registry st') ∧
    changes wc pending (w_registry st) (w_registry st').
Proof.
  intros pending Hlist Hwf Hids Hs Ho Hgangs. unfold processQueue. rewrite Hlist. fold pending.
  assert (∀ st1, w_registry st1 = w_registry st → ∃ st', Done st1 = Done st' ∧
    keeps (w_registry st) (w_registry st') ∧ changes wc pending (w_registry st) (w_registry st')) as Hnop.
  { intros st1 E. exists st1. rewrite E. split; [done|]. split; [done|]. by split; intros ??; left. }
  destruct (_ =? 0)%nat; [by apply Hnop|].
  destruct (check_evictions _ _ _) as [ev defer]. destruct defer; [by apply Hnop|].
  pose proof (collect_nothing_twice (wt_gangTimeout wc) (or_now o) (or_gangs o) _ Hgangs) as Hsub.
  destruct (Collect _ _ _ _) as [[ready standalone] timedOut]. cbn [fst snd] in Hsub.
  rewrite queue_order_perm in Hsub.
  assert (cycle_inv wc pending (w_registry st) 
    (((imap pair ready).*2 ≫= gs_Pods) ++ (imap pair standalone).*2)%list (w_registry st)) as Hinv.
  { rewrite !imap_pair_snd. split; [done|]. split; [by eapply schedulable_sub|].
    split; [by split; intros ??; left|done]. }
  destruct (gangs_inv pending (w_registry st) Hids (or_orders o) (or_jobIDs o) (imap pair ready) _
    (set_pending ev (set_api w st)) Ho Hinv) as (st1 & -> & Hi). cbn [mbind outcome_bind].
  destruct (pods_inv pending (w_registry st) Hids (or_now o) (or_orders o) (or_jobIDs o) (length ready)
    (imap pair standalone) st1 Ho Hi) as (st2 & -> & Hk & _ & Hc & _).
  by exists st2.
Qed.

End cycle.


(** The same cycle, evaluated: the gang goes first and shares the full GPU; the
    pod, which wants a GPU of its own, waits. *)
Example processQueue_runs :
  let o := processQueue BinPacker sample_watcher gang_oracle
    (sample_state three_pods true true sample_registry) in
  map (λ k, option_map (map (λ e, (ae_GPUUUID e, ae_MemoryMB e))) (entries_left o k))
    ["ml/w0"; "ml/w1"; "ml/train"] =
  [Some [("GPU-aaaaaaaaaaaa", 9000)]; Some [("GPU-aaaaaaaaaaaa", 9000)]; None].
Proof. vm_compute. reflexivity. Qed.
