(* ===== verification/Http.v ===== *)
(** * net/http as the handlers use it

    A handler gets a request and writes to a [ResponseWriter]; what it wrote is a
    [Response]: the headers added, the first status, and the pieces of the body in
    order, a piece being raw bytes or a JSON value passed to the encoder.  The
    client side is the class [HTTPClient]: the peers are outside the repository.
    A body to read is the sequence of what [Read] returns. *)

From Stdlib Require Import ZArith Lia Ascii String.
From stdpp Require Import base option list strings gmap.
From S2P Require Import Prelude GoFloat GoStrings.
Open Scope string_scope.
Open Scope Z_scope.

(** ** JSON values, as decoded into [interface{}] *)
Inductive json : Type :=
  | JNull
  | JBool (b : bool)
  | JInt (z : Z)
  | JFloat (f : float64)
  | JStr (s : string)
  | JArr (l : list json)
  | JObj (fields : list (string * json)).

(** ** The response writer *)
Inductive piece : Type :=
  | PRaw (s : string)
  | PJson (j : json).

Record Response : Type := mkResponse {
  rs_header : list (string * string);
  rs_status : option Z;
  rs_body : list piece
}.

Definition no_response : Response := mkResponse [] None [].

Definition StatusOK : Z := 200.
Definition StatusNoContent : Z := 204.
Definition StatusBadRequest : Z := 400.
Definition StatusMethodNotAllowed : Z := 405.
Definition StatusInternalServerError : Z := 500.
Definition StatusNotImplemented : Z := 501.
Definition StatusBadGateway : Z := 502.
Definition StatusServiceUnavailable : Z := 503.

(** [w.Header().Add] and [.Set]: once the status is written they have no effect. *)
Definition add_header (k v : string) (r : Response) : Response :=
  match rs_status r with
  | Some _ => r
  | None => mkResponse (rs_header r ++ [(k, v)])%list None (rs_body r)
  end.

Definition set_header (k v : string) (r : Response) : Response :=
  match rs_status r with
  | Some _ => r
  | None =>
      mkResponse (List.filter (λ kv, negb (String.eqb kv.1 k)) (rs_header r) ++ [(k, v)])%list None (rs_body r)
  end.

(** Only the first [WriteHeader] counts; the first write of a body implies 200. *)
Definition write_header (status : Z) (r : Response) : Response :=
  mkResponse (rs_header r) (Some (default status (rs_status r))) (rs_body r).

Definition write (p : piece) (r : Response) : Response :=
  mkResponse (rs_header r) (Some (default StatusOK (rs_status r))) (rs_body r ++ [p])%list.

(** [http.Error] *)
Definition http_error (message : string) (status : Z) (r : Response) : Response :=
  write (PRaw (message ++ String (ascii_of_N 10) ""))
    (write_header status (set_header "Content-Type" "text/plain; charset=utf-8" r)).

(** The helper [writeJSON] of the packages. *)
Definition write_json (status : Z) (v : json) (r : Response) : Response :=
  write (PJson v) (write_header status (set_header "Content-Type" "application/json" r)).

Definition jfields (fields : list (string * string)) : json :=
  JObj ((λ kv, (kv.1, JStr kv.2)) <$> fields).

(** ** Reading a body

    [None] is [io.EOF].  A reader that has nothing left returns [(0, io.EOF)]. *)
Inductive read_end : Type := Continues | EOF | ReadError (e : string).

Definition body_reads : Type := list (string * read_end).

(** ** The client *)
Record HttpResponse : Type := mkHttpResponse {
  hr_StatusCode : Z;
  hr_Header : list (string * string);
  hr_Body : body_reads;
  hr_Json : result string (list (string * json));
  hr_elapsedMs : Z
}.

(** [NewRequest] is the check of the URL; [Do] sends a request. *)
Class HTTPClient (R N : Type) : Type := {
  NewRequest : N → string → option string;
  Do : N → R → N * result string HttpResponse
}.

(** ** Copying a body to a writer that may fail

    [accepts] is how many more bytes the peer takes before [Write] fails. *)
Record Sink : Type := mkSink {
  sk_response : Response;
  sk_accepts : option nat;
  sk_flushes : nat
}.

Definition sink_write (s : string) (k : Sink) : Sink * option string :=
  match sk_accepts k with
  | None => (mkSink (write (PRaw s) (sk_response k)) None (sk_flushes k), None)
  | Some n =>
      if (String.length s <=? n)%nat
      then (mkSink (write (PRaw s) (sk_response k)) (Some (n - String.length s)%nat) (sk_flushes k), None)
      else (mkSink (write (PRaw (String.substring 0 n s)) (sk_response k)) (Some 0%nat) (sk_flushes k),
            Some "broken pipe")
  end.

Definition flush (k : Sink) : Sink := mkSink (sk_response k) (sk_accepts k) (S (sk_flushes k)).

(** The loop both copies run: read, write what was read, stop at an error. *)
Fixpoint copy_loop (flushing : bool) (reads : body_reads) (k : Sink) : Sink * option string :=
  match reads with
  | [] => (k, None)
  | (data, err) :: rest =>
      let continue k :=
        match err with
        | Continues => copy_loop flushing rest k
        | EOF => (k, None)
        | ReadError e => (k, Some e)
        end in
      if String.eqb data "" then continue k
      else
        match sink_write data k with
        | (k', Some e) => (k', Some e)
        | (k', None) => continue (if flushing then flush k' else k')
        end
  end.

(** [io.Copy] *)
Definition io_copy : body_reads → Sink → Sink * option string := copy_loop false.

(** ** Specification *)

(** The raw bytes of a body. *)
Definition raw_bytes (ps : list piece) : string :=
  foldr (λ p acc, match p with PRaw s => s ++ acc | PJson _ => acc end) "" ps.

(** The bytes a reader delivers and the error it ends with, if any. *)
Fixpoint delivered (reads : body_reads) : string * option string :=
  match reads with
  | [] => ("", None)
  | (data, Continues) :: rest => let '(s, e) := delivered rest in (data ++ s, e)
  | (data, EOF) :: _ => (data, None)
  | (data, ReadError e) :: _ => (data, Some e)
  end.

(** ** Lemmas *)
Lemma raw_bytes_app ps qs : raw_bytes (ps ++ qs) = raw_bytes ps ++ raw_bytes qs.
Proof.
  unfold raw_bytes. induction ps as [|[s|j] ps IH]; cbn; [done| |done]. by rewrite IH, str_app_assoc.
Qed.

(** A copy writes bytes only. *)
Definition is_raw (p : piece) : Prop := match p with PRaw _ => True | PJson _ => False end.

Lemma copy_loop_raw flushing reads k :
  Forall is_raw (rs_body (sk_response k)) →
  Forall is_raw (rs_body (sk_response (copy_loop flushing reads k).1)).
Proof.
  revert k. induction reads as [|[data err] rest IH]; intros k Hk; [done|]. cbn [copy_loop].
  destruct (String.eqb data ""); [destruct err; cbn; auto|].
  assert (∀ k' e, sink_write data k = (k', e) → Forall is_raw (rs_body (sk_response k'))) as Hw.
  { intros k' e. unfold sink_write. repeat case_match; intros [= <- <-]; cbn;
      (apply Forall_app; split; [done|by constructor]). }
  destruct (sink_write data k) as [k' [e|]]; specialize (Hw _ _ eq_refl); [done|].
  destruct err, flushing; cbn; auto.
Qed.

(** Copying to a writer that takes everything delivers the reader's bytes and its error. *)
Lemma copy_loop_delivers flushing reads k :
  sk_accepts k = None → rs_status (sk_response k) <> None →
  let '(k', e) := copy_loop flushing reads k in
  raw_bytes (rs_body (sk_response k')) =
    raw_bytes (rs_body (sk_response k)) ++ (delivered reads).1 ∧
  e = (delivered reads).2 ∧ sk_accepts k' = None ∧
  rs_status (sk_response k') = rs_status (sk_response k) ∧
  rs_header (sk_response k') = rs_header (sk_response k).
Proof.
  revert k. induction reads as [|[data err] rest IH]; intros k Ha Hs.
  { cbn. by rewrite str_app_nil_r. }
  assert (∀ k1, sk_accepts k1 = None → rs_status (sk_response k1) = rs_status (sk_response k) →
    rs_header (sk_response k1) = rs_header (sk_response k) →
    raw_bytes (rs_body (sk_response k1)) = raw_bytes (rs_body (sk_response k)) ++ data →
    let '(k', e) := match err with
      | Continues => copy_loop flushing rest k1 | EOF => (k1, None) | ReadError e => (k1, Some e) end in
    raw_bytes (rs_body (sk_response k')) =
      raw_bytes (rs_body (sk_response k)) ++ (delivered ((data, err) :: rest)).1 ∧
    e = (delivered ((data, err) :: rest)).2 ∧ sk_accepts k' = None ∧
    rs_status (sk_response k') = rs_status (sk_response k) ∧
    rs_header (sk_response k') = rs_header (sk_response k)) as Hcont.
  { intros k1 H1 H2 H3 H4. destruct err as [| |e]; [|done..].
    specialize (IH k1 H1 ltac:(congruence)). destruct (copy_loop flushing rest k1) as [k' e].
    destruct IH as (E1 & E2 & E3 & E4 & E5). cbn [delivered].
    destruct (delivered rest) as [s e']. cbn in *. rewrite E1, H4, <-str_app_assoc. split_and!; congruence. }
  cbn [copy_loop]. destruct (String.eqb_spec data "") as [->|Hd].
  { apply Hcont; try done. by rewrite str_app_nil_r. }
  unfold sink_write. rewrite Ha.
  assert (rs_status (write (PRaw data) (sk_response k)) = rs_status (sk_response k)) as Hst.
  { cbn. by destruct (rs_status (sk_response k)). }
  destruct flushing; apply Hcont; try done; cbn; rewrite raw_bytes_app; cbn; by rewrite str_app_nil_r.
Qed.
