(* ===== verification/Pressure.v ===== *)
(** * internal/proxy/proxy.go: the pressure loop of the proxy

    Every five seconds the proxy sums the statistics of the routable workers of
    each model group, decides whether prefill or decode is hot, and moves a
    per-group tracker between the three pressure states with hysteresis: a state
    is entered after a sustained run of ticks and left no sooner than a cooldown
    after the last transition.  [pressure_tick] is the body of one tick under the
    lock; the loop over the map of aggregates takes its order as an argument. *)

From Stdlib Require Import ZArith Lia String.
From stdpp Require Import base option list strings gmap sorting.
From S2P Require Import Prelude GoFloat GoStrings Types Config.
Open Scope string_scope.
Open Scope Z_scope.
Open Scope go_scope.

Record pressureAggregate : Type := mkAggregate {
  pa_prefillInflight : Z;
  pa_decodeInflight : Z;
  pa_prefillTTFTSum : float64;
  pa_prefillTTFTN : Z;
  pa_decodeITLSum : float64;
  pa_decodeITLN : Z;
  pa_prefillWorkers : Z;
  pa_decodeWorkers : Z
}.

Definition zeroAggregate : pressureAggregate := mkAggregate 0 0 f64_zero 0 f64_zero 0 0 0.

Record pressureThresholds : Type := mkThresholds {
  pt_ttftHotMs : float64;
  pt_itlHotMs : float64
}.

Record pressureTracker : Type := mkTracker {
  pt_current : string;
  pt_prefillHotTicks : Z;
  pt_decodeHotTicks : Z;
  pt_calmTicks : Z;
  pt_lastTransition : Time
}.

Definition newTracker : pressureTracker := mkTracker Normal 0 0 0 0.

(** ** The parameters of the loop *)
Definition tickSeconds : Z := 5.

Definition sustainTicksRequired (c : RebalancingConfig) : Z :=
  if rc_SustainWindowSeconds c >? 0 then
    let n := (rc_SustainWindowSeconds c ⊞ tickSeconds ⊟ 1) ⊘ tickSeconds in
    if n <? 1 then 1 else n
  else 6.

Definition cooldownDuration (c : RebalancingConfig) : Z :=
  if rc_CooldownSeconds c >? 0 then seconds (rc_CooldownSeconds c) else seconds 30.

(** The first group of the name decides, even when its thresholds are unset. *)
Definition pressureThresholdsFor (c : RebalancingConfig) (modelGroup : string) :
    option pressureThresholds :=
  match List.find (λ g, String.eqb (trim_space (mg_Name g)) (trim_space modelGroup))
          (rc_ModelGroups c) with
  | None => None
  | Some g =>
      if (mg_TTFTHotMs g <=? 0) || (mg_ITLHotMs g <=? 0) then None
      else Some (mkThresholds (f64_of_int (mg_TTFTHotMs g)) (f64_of_int (mg_ITLHotMs g)))
  end.

Definition pressureScore (metric threshold inflightDelta : float64) : float64 :=
  let score := if f64_ltb f64_zero threshold && f64_ltb f64_zero metric
               then f64_div metric threshold else f64_zero in
  if f64_ltb score inflightDelta then inflightDelta else score.

(** ** Aggregation *)

(** [switch worker.Role] on the aggregate of the worker's group. *)
Definition add_stat (role : string) (inflight : Z) (ttft itl : float64) (a : pressureAggregate) :
    pressureAggregate :=
  if String.eqb role Prefill then
    let hot := f64_ltb f64_zero ttft in
    mkAggregate (pa_prefillInflight a ⊞ inflight) (pa_decodeInflight a)
      (if hot then f64_add (pa_prefillTTFTSum a) ttft else pa_prefillTTFTSum a)
      (if hot then pa_prefillTTFTN a ⊞ 1 else pa_prefillTTFTN a)
      (pa_decodeITLSum a) (pa_decodeITLN a) (pa_prefillWorkers a ⊞ 1) (pa_decodeWorkers a)
  else if String.eqb role Decode then
    let hot := f64_ltb f64_zero itl in
    mkAggregate (pa_prefillInflight a) (pa_decodeInflight a ⊞ inflight)
      (pa_prefillTTFTSum a) (pa_prefillTTFTN a)
      (if hot then f64_add (pa_decodeITLSum a) itl else pa_decodeITLSum a)
      (if hot then pa_decodeITLN a ⊞ 1 else pa_decodeITLN a)
      (pa_prefillWorkers a) (pa_decodeWorkers a ⊞ 1)
  else a.

(** The group a worker counts for; [None] is [continue]. *)
Definition counted_group (worker : option WorkerInfo) : option (string * WorkerInfo) :=
  match worker with
  | None => None
  | Some w =>
      if negb (wi_Routable w) || negb (String.eqb (wi_State w) Ready) then None
      else
        let group := trim_space (wi_ModelGroup w) in
        if String.eqb group "" then None else Some (group, w)
  end.

Definition aggregate_worker (workerStats : gmap string WorkerStat)
    (aggregates : gmap string pressureAggregate) (worker : option WorkerInfo) :
    gmap string pressureAggregate :=
  match counted_group worker with
  | None => aggregates
  | Some (group, w) =>
      let agg := default zeroAggregate (aggregates !! group) in
      let '(inflight, ttft, itl) :=
        match workerStats !! wi_ID w with
        | Some stat => (ws_Inflight stat, ws_TTFTP95 stat, ws_ITLP95 stat)
        | None => (0, f64_zero, f64_zero)
        end in
      <[group := add_stat (wi_Role w) inflight ttft itl agg]> aggregates
  end.

Definition aggregate (workerStats : gmap string WorkerStat) (workers : list (option WorkerInfo)) :
    gmap string pressureAggregate :=
  foldl (aggregate_worker workerStats) ∅ workers.

(** ** Which side is hot *)
Definition average (sum : float64) (n : Z) : float64 :=
  if n >? 0 then f64_div sum (f64_of_int n) else f64_zero.

Definition prefillTTFT (agg : pressureAggregate) : float64 :=
  average (pa_prefillTTFTSum agg) (pa_prefillTTFTN agg).

Definition decodeITL (agg : pressureAggregate) : float64 :=
  average (pa_decodeITLSum agg) (pa_decodeITLN agg).

Definition inflight_delta (agg : pressureAggregate) : float64 * float64 :=
  let prefillAvgInflight :=
    average (f64_of_int (pa_prefillInflight agg)) (pa_prefillWorkers agg) in
  let decodeAvgInflight := average (f64_of_int (pa_decodeInflight agg)) (pa_decodeWorkers agg) in
  (f64_sub prefillAvgInflight decodeAvgInflight, f64_sub decodeAvgInflight prefillAvgInflight).

Definition inflightDeltaThreshold : float64 := f64_of_int 1.

(** [prefillHot] and [decodeHot] when the switch on them is reached. *)
Definition hot_sides (thresholds : option pressureThresholds) (agg : pressureAggregate) : bool * bool :=
  let canCompare := (pa_prefillWorkers agg >? 0) && (pa_decodeWorkers agg >? 0) in
  let '(prefillInflightDelta, decodeInflightDelta) := inflight_delta agg in
  let prefillHot := canCompare && f64_leb inflightDeltaThreshold prefillInflightDelta in
  let decodeHot := canCompare && f64_leb inflightDeltaThreshold decodeInflightDelta in
  match thresholds with
  | None => (prefillHot, decodeHot)
  | Some t =>
      let ttft := prefillTTFT agg in
      let itl := decodeITL agg in
      let prefillHot := prefillHot || (f64_ltb f64_zero ttft && f64_leb (pt_ttftHotMs t) ttft) in
      let decodeHot := decodeHot || (f64_ltb f64_zero itl && f64_leb (pt_itlHotMs t) itl) in
      if prefillHot && decodeHot then
        if f64_leb (pressureScore ttft (pt_ttftHotMs t) prefillInflightDelta)
             (pressureScore itl (pt_itlHotMs t) decodeInflightDelta)
        then (false, decodeHot) else (prefillHot, false)
      else (prefillHot, decodeHot)
  end.

(** ** The tracker *)
Definition count_tick (prefillHot decodeHot : bool) (t : pressureTracker) : pressureTracker :=
  if prefillHot then
    mkTracker (pt_current t) (pt_prefillHotTicks t ⊞ 1) 0 0 (pt_lastTransition t)
  else if decodeHot then
    mkTracker (pt_current t) 0 (pt_decodeHotTicks t ⊞ 1) 0 (pt_lastTransition t)
  else mkTracker (pt_current t) 0 0 (pt_calmTicks t ⊞ 1) (pt_lastTransition t).

Definition target_state (sustain : Z) (t : pressureTracker) : string :=
  if pt_prefillHotTicks t >=? sustain then PrefillHot
  else if pt_decodeHotTicks t >=? sustain then DecodeHot
  else if pt_calmTicks t >=? sustain ⊘ 2 then Normal
  else pt_current t.

Definition transition (sustain cooldown : Z) (now : Time) (t : pressureTracker) : pressureTracker :=
  let targetState := target_state sustain t in
  if negb (String.eqb targetState (pt_current t)) &&
     (IsZero (pt_lastTransition t) || (time_sub now (pt_lastTransition t) >=? cooldown))
  then mkTracker targetState (pt_prefillHotTicks t) (pt_decodeHotTicks t) (pt_calmTicks t) now
  else t.

Definition tracker_step (sustain cooldown : Z) (now : Time) (hot : bool * bool) (t : pressureTracker) :
    pressureTracker := transition sustain cooldown now (count_tick hot.1 hot.2 t).

(** ** One tick *)

(** The queue wait of a report is never written by the proxy. *)
Definition group_report (group : string) (agg : pressureAggregate) (t : pressureTracker)
    (old : option PressureReport) : PressureReport :=
  mkPressureReport group (pa_prefillInflight agg ⊞ pa_decodeInflight agg)
    (match old with Some r => pr_QueueWaitP95 r | None => f64_zero end)
    (prefillTTFT agg) (decodeITL agg) (pt_current t).

(** The body of the loop over the aggregates. *)
Definition update_group (c : RebalancingConfig) (now : Time)
    (st : gmap string pressureTracker * gmap string PressureReport)
    (entry : string * pressureAggregate) :
    gmap string pressureTracker * gmap string PressureReport :=
  let '(trackers, reports) := st in
  let '(group, agg) := entry in
  let tracker := tracker_step (sustainTicksRequired c) (cooldownDuration c) now
    (hot_sides (pressureThresholdsFor c group) agg) (default newTracker (trackers !! group)) in
  (<[group := tracker]> trackers,
   <[group := group_report group agg tracker (reports !! group)]> reports).

Definition pressure_tick (c : RebalancingConfig) (now : Time) (order : list string)
    (workers : list (option WorkerInfo)) (workerStats : gmap string WorkerStat)
    (st : gmap string pressureTracker * gmap string PressureReport) :
    gmap string pressureTracker * gmap string PressureReport :=
  foldl (update_group c now) st (range (aggregate workerStats workers) order).

(** ** Specification *)

(** What one tick sees. *)
Record tick_input : Type := mkTick {
  ti_now : Time;
  ti_order : list string;
  ti_workers : list (option WorkerInfo);
  ti_stats : gmap string WorkerStat
}.

Definition tick_ok (i : tick_input) : Prop :=
  range_order (aggregate (ti_stats i) (ti_workers i)) (ti_order i).

Definition run_ticks (c : RebalancingConfig) (inputs : list tick_input) :
    gmap string pressureTracker * gmap string PressureReport :=
  foldl (λ st i, pressure_tick c (ti_now i) (ti_order i) (ti_workers i) (ti_stats i) st) (∅, ∅) inputs.

Definition tracker_of (c : RebalancingConfig) (inputs : list tick_input) (g : string) : pressureTracker :=
  default newTracker ((run_ticks c inputs).1 !! g).

(** The side a tick counts for. *)
Definition side (hot : bool * bool) : string :=
  if hot.1 then PrefillHot else if hot.2 then DecodeHot else Normal.

(** The side of group [g] at a tick, [None] when the group has no routable worker. *)
Definition observed (c : RebalancingConfig) (g : string) (i : tick_input) : option string :=
  (λ agg, side (hot_sides (pressureThresholdsFor c g) agg)) <$>
    aggregate (ti_stats i) (ti_workers i) !! g.

Definition history (c : RebalancingConfig) (g : string) (inputs : list tick_input) : list string :=
  omap (observed c g) inputs.

(** The history ends with at least [n] observations of [s]. *)
Definition streak (s : string) (n : Z) (h : list string) : Prop :=
  ∃ h1 h2, h = (h1 ++ h2)%list ∧ n ≤ Z.of_nat (length h2) ∧ Forall (λ o, o = s) h2.

(** The ticks a side must hold: the sustain window in ticks of five seconds,
    rounded up, six when there is none; half of them for the calm state. *)
Definition window_ticks (c : RebalancingConfig) : Z :=
  if decide (0 < rc_SustainWindowSeconds c) then (rc_SustainWindowSeconds c + 4) `div` 5 else 6.

Definition ticks_needed (c : RebalancingConfig) (s : string) : Z :=
  if String.eqb s "normal" then window_ticks c `div` 2 else window_ticks c.

(** The time between two changes: the configured cooldown, else thirty seconds. *)
Definition cooldown_wanted (c : RebalancingConfig) : Z :=
  if decide (0 < rc_CooldownSeconds c) then seconds (rc_CooldownSeconds c) else seconds 30.

(** The tick [i] after the ticks [l] changes the state of the group. *)
Definition changed (c : RebalancingConfig) (g : string) (l : list tick_input) (i : tick_input) : Prop :=
  pt_current (tracker_of c (l ++ [i]) g) ≠ pt_current (tracker_of c l g).

(** When a tick counts for a side: its role carries on average one request more
    than the other, both being present, or its latency reaches its threshold. *)
Definition prefill_load (agg : pressureAggregate) : float64 :=
  average (f64_of_int (pa_prefillInflight agg)) (pa_prefillWorkers agg).

Definition decode_load (agg : pressureAggregate) : float64 :=
  average (f64_of_int (pa_decodeInflight agg)) (pa_decodeWorkers agg).

Definition prefill_side (th : option pressureThresholds) (agg : pressureAggregate) : Prop :=
  (0 < pa_prefillWorkers agg ∧ 0 < pa_decodeWorkers agg ∧
   f64_leb (f64_of_int 1) (f64_sub (prefill_load agg) (decode_load agg)) = true) ∨
  ∃ t, th = Some t ∧ f64_ltb f64_zero (prefillTTFT agg) = true ∧ f64_leb (pt_ttftHotMs t) (prefillTTFT agg) = true.

Definition decode_side (th : option pressureThresholds) (agg : pressureAggregate) : Prop :=
  (0 < pa_prefillWorkers agg ∧ 0 < pa_decodeWorkers agg ∧
   f64_leb (f64_of_int 1) (f64_sub (decode_load agg) (prefill_load agg)) = true) ∨
  ∃ t, th = Some t ∧ f64_ltb f64_zero (decodeITL agg) = true ∧ f64_leb (pt_itlHotMs t) (decodeITL agg) = true.

(** When both are hot, the prefill side is counted if its score is the higher. *)
Definition prefill_first (th : option pressureThresholds) (agg : pressureAggregate) : Prop :=
  ∀ t, th = Some t →
    f64_leb (pressureScore (prefillTTFT agg) (pt_ttftHotMs t) (f64_sub (prefill_load agg) (decode_load agg)))
      (pressureScore (decodeITL agg) (pt_itlHotMs t) (f64_sub (decode_load agg) (prefill_load agg))) = false.

Definition side_ok (c : RebalancingConfig) (g : string) (i : tick_input) : Prop :=
  match aggregate (ti_stats i) (ti_workers i) !! g with
  | None => observed c g i = None
  | Some agg =>
      let th := pressureThresholdsFor c g in
      (observed c g i = Some "prefill_hot" ↔ prefill_side th agg ∧ (decode_side th agg → prefill_first th agg)) ∧
      (observed c g i = Some "decode_hot" ↔ decode_side th agg ∧ (prefill_side th agg → ¬ prefill_first th agg)) ∧
      (observed c g i = Some "normal" ↔ ¬ prefill_side th agg ∧ ¬ decode_side th agg)
  end.

(** Clocks do not run backwards and are never the zero time. *)
Definition clock_ok (inputs : list tick_input) : Prop :=
  StronglySorted (λ a b, ti_now a ≤ ti_now b) inputs ∧ Forall (λ i, 0 < ti_now i) inputs.

(** ** A model group for the examples *)
Definition sample_rebalancing : RebalancingConfig :=
  mkRebalancingConfig true true 5 15 30 300 true false [mkModelGroups "llama" 500 50 4 4 ""].

Definition hot_stats : gmap string WorkerStat :=
  {["p0" := mkWorkerStat "p0" 9 f64_zero f64_zero f64_zero;
    "d0" := mkWorkerStat "d0" 1 f64_zero f64_zero f64_zero]}.

Definition pressure_workers : list (option WorkerInfo) :=
  [Some (mkWorkerInfo "p0" Prefill Ready true true "http://p0" "llama");
   None; Some (mkWorkerInfo "d0" Decode Ready true true "http://d0" "llama")].

Definition hot_tick (now : Time) : tick_input := mkTick now ["llama"] pressure_workers hot_stats.

(** ** Lemmas: a tick treats every group on its own *)
Section tick.
Context (c : RebalancingConfig) (now : Time).

Lemma update_groups_lookup g l st :
  NoDup l.*1 →
  let st' := foldl (update_group c now) st l in
  match list_to_map (M:=gmap string pressureAggregate) l !! g with
  | Some agg =>
      let t := tracker_step (sustainTicksRequired c) (cooldownDuration c) now
        (hot_sides (pressureThresholdsFor c g) agg) (default newTracker (st.1 !! g)) in
      st'.1 !! g = Some t ∧ st'.2 !! g = Some (group_report g agg t (st.2 !! g))
  | None => st'.1 !! g = st.1 !! g ∧ st'.2 !! g = st.2 !! g
  end.
Proof.
  revert st. induction l as [|[k agg] l IH]; intros [ts rs] Hnd; [done|].
  apply NoDup_cons in Hnd as [Hk Hnd]. cbn [foldl update_group].
  specialize (IH (update_group c now (ts, rs) (k, agg)) Hnd). cbn [update_group] in IH.
  cbv zeta in *. cbn [list_to_map foldr fst snd] in *. destruct (decide (k = g)) as [->|Hne].
  - rewrite lookup_insert_eq. cbn in Hk. rewrite (not_elem_of_list_to_map_1 l g Hk) in IH. cbn [fst snd] in IH.
    by rewrite !lookup_insert_eq in IH.
  - rewrite lookup_insert_ne by done. cbn [fst snd] in IH. by rewrite !lookup_insert_ne in IH.
Qed.

Lemma range_to_map {A} (m : gmap string A) order :
  range_order m order → list_to_map (range m order) = m ∧ NoDup (range m order).*1.
Proof.
  intros Ho. pose proof (range_perm m order Ho) as Hp.
  assert (NoDup (range m order).*1) as Hnd.
  { pose proof (fmap_Permutation fst _ _ Hp) as Hf. rewrite Hf. apply NoDup_fst_map_to_list. }
  split; [|done]. rewrite (list_to_map_proper _ (map_to_list m)) by done. apply list_to_map_to_list.
Qed.

Lemma pressure_tick_lookup order workers stats st g :
  range_order (aggregate stats workers) order →
  let st' := pressure_tick c now order workers stats st in
  match aggregate stats workers !! g with
  | Some agg =>
      let t := tracker_step (sustainTicksRequired c) (cooldownDuration c) now
        (hot_sides (pressureThresholdsFor c g) agg) (default newTracker (st.1 !! g)) in
      st'.1 !! g = Some t ∧ st'.2 !! g = Some (group_report g agg t (st.2 !! g))
  | None => st'.1 !! g = st.1 !! g ∧ st'.2 !! g = st.2 !! g
  end.
Proof.
  intros Ho. unfold pressure_tick. destruct (range_to_map _ _ Ho) as [E Hnd].
  pose proof (update_groups_lookup g _ st Hnd) as H. by rewrite E in H.
Qed.
End tick.

(** ** Lemmas: the counters are streaks *)
Lemma streak_zero s h n : n ≤ 0 → streak s n h.
Proof. intros Hn. exists h, []. rewrite app_nil_r. split_and!; [done|cbn; lia|constructor]. Qed.

Lemma streak_snoc s n h : in_int n → streak s n h → streak s (n ⊞ 1) (h ++ [s]).
Proof.
  intros Hn (h1 & h2 & -> & Hlen & Hall). exists h1, (h2 ++ [s])%list.
  split_and!; [by rewrite app_assoc| |by apply Forall_app; split; [|constructor]].
  rewrite length_app. cbn. destruct (decide (n = int_max)) as [->|].
  - cut (int_max ⊞ 1 < 0); [lia|done].
  - int_solve.
Qed.

Lemma streak_le s n m h : m ≤ n → streak s n h → streak s m h.
Proof. intros ? (h1 & h2 & ? & ? & ?). exists h1, h2. split_and!; try done. lia. Qed.

(** What the tracker knows after a history. *)
Definition tracks (t : pressureTracker) (h : list string) : Prop :=
  (in_int (pt_prefillHotTicks t) ∧ streak PrefillHot (pt_prefillHotTicks t) h) ∧
  (in_int (pt_decodeHotTicks t) ∧ streak DecodeHot (pt_decodeHotTicks t) h) ∧
  (in_int (pt_calmTicks t) ∧ streak Normal (pt_calmTicks t) h) ∧
  pt_current t ∈ [Normal; PrefillHot; DecodeHot].

Lemma tracks_new : tracks newTracker [].
Proof. split_and!; try (apply streak_zero; cbn; lia); try done; by repeat constructor. Qed.

Lemma in_int_0 : in_int 0.
Proof. done. Qed.

Lemma count_tick_tracks hot t h : tracks t h → tracks (count_tick hot.1 hot.2 t) (h ++ [side hot]).
Proof.
  intros ((I1 & S1) & (I2 & S2) & (I3 & S3) & Hc). unfold count_tick, side.
  destruct hot as [[] []]; cbn; split_and!; try done;
    first [apply wrap64_range | apply streak_zero; cbn; lia | by apply streak_snoc].
Qed.

Lemma count_tick_same p d t :
  pt_current (count_tick p d t) = pt_current t ∧
  pt_lastTransition (count_tick p d t) = pt_lastTransition t.
Proof. by destruct p, d. Qed.

Lemma window_ticks_eq c :
  rc_SustainWindowSeconds c ≤ int_max - 5 → sustainTicksRequired c = window_ticks c ∧ 1 ≤ window_ticks c ∧
  sustainTicksRequired c ⊘ 2 = window_ticks c `div` 2.
Proof.
  intros Hs. unfold sustainTicksRequired, window_ticks, tickSeconds. rewrite Z.gtb_ltb.
  destruct (Z.ltb_spec 0 (rc_SustainWindowSeconds c)) as [Hp|Hp];
    [rewrite decide_True by done|by rewrite decide_False by lia].
  replace (rc_SustainWindowSeconds c ⊞ 5 ⊟ 1) with (rc_SustainWindowSeconds c + 4) by int_solve.
  rewrite Z.quot_div_nonneg by lia.
  assert (1 ≤ (rc_SustainWindowSeconds c + 4) / 5 ≤ rc_SustainWindowSeconds c) as Hb.
  { split; [apply Z.div_le_lower_bound; lia|]. apply Z.div_le_upper_bound; lia. }
  assert (wrap64 ((rc_SustainWindowSeconds c + 4) / 5) = (rc_SustainWindowSeconds c + 4) / 5) as -> by int_solve.
  rewrite (proj2 (Z.ltb_ge _ 1)) by lia. split_and!; [done|lia|].
  rewrite Z.quot_div_nonneg by lia. apply wrap64_id.
  assert (0 ≤ (rc_SustainWindowSeconds c + 4) / 5 / 2 ≤ (rc_SustainWindowSeconds c + 4) / 5).
  { split; [apply Z.div_pos; lia|]. apply Z.div_le_upper_bound; lia. }
  int_solve.
Qed.

Lemma cooldown_wanted_eq c : cooldownDuration c = cooldown_wanted c.
Proof.
  unfold cooldownDuration, cooldown_wanted. rewrite Z.gtb_ltb.
  destruct (Z.ltb_spec 0 (rc_CooldownSeconds c)); [by rewrite decide_True|by rewrite decide_False by lia].
Qed.

Lemma target_state_spec c t h :
  rc_SustainWindowSeconds c ≤ int_max - 5 →
  tracks t h → let s := target_state (sustainTicksRequired c) t in
  s ∈ [Normal; PrefillHot; DecodeHot] ∧ (s ≠ pt_current t → streak s (ticks_needed c s) h).
Proof.
  intros Hwin ((_ & S1) & (_ & S2) & (_ & S3) & Hc). unfold target_state. rewrite !Z.geb_leb.
  destruct (window_ticks_eq c Hwin) as (Ew & _ & Eh). rewrite Eh, Ew.
  destruct (Z.leb_spec (window_ticks c) (pt_prefillHotTicks t)).
  { split; [set_solver|]. intros _. by eapply streak_le. }
  destruct (Z.leb_spec (window_ticks c) (pt_decodeHotTicks t)).
  { split; [set_solver|]. intros _. by eapply streak_le. }
  destruct (Z.leb_spec (window_ticks c `div` 2) (pt_calmTicks t)).
  { split; [set_solver|]. intros _. by eapply streak_le. }
  by split.
Qed.

(** A transition keeps the counters; when it changes the state it had to. *)
Lemma transition_spec c now t h :
  rc_SustainWindowSeconds c ≤ int_max - 5 → tracks t h → let t' := transition (sustainTicksRequired c) (cooldownDuration c) now t in
  tracks t' h ∧ (pt_current t' ≠ pt_current t →
    (IsZero (pt_lastTransition t) = true ∨ cooldownDuration c ≤ time_sub now (pt_lastTransition t)) ∧
    pt_lastTransition t' = now ∧ streak (pt_current t') (ticks_needed c (pt_current t')) h) ∧
  (pt_current t' = pt_current t → pt_lastTransition t' = pt_lastTransition t).
Proof.
  intros Hwin Ht. destruct (target_state_spec c t h Hwin Ht) as [Hs Hst]. unfold transition.
  destruct (negb _ && _) eqn:E; [|done]. cbn. split_and!.
  - destruct Ht as ([] & [] & [] & _). by split_and!.
  - intros Hne. apply andb_true_iff in E as [_ E]. split_and!; [|done|by apply Hst].
    apply orb_true_iff in E as [|E]; [by left|right]. by bool_hyps.
  - intros Heq. apply andb_true_iff in E as [E _]. apply negb_true_iff, String.eqb_neq in E. done.
Qed.

(** ** Lemmas: runs *)
Section runs.
Context (c : RebalancingConfig) (g : string) (Hwin : rc_SustainWindowSeconds c ≤ int_max - 5).

Lemma history_snoc inputs i :
  history c g (inputs ++ [i]) =
    (history c g inputs ++ match observed c g i with Some s => [s] | None => [] end)%list.
Proof. unfold history. rewrite omap_app. cbn. by destruct (observed c g i). Qed.

Lemma tracker_of_snoc inputs i :
  tick_ok i →
  tracker_of c (inputs ++ [i]) g =
    match aggregate (ti_stats i) (ti_workers i) !! g with
    | Some agg => tracker_step (sustainTicksRequired c) (cooldownDuration c) (ti_now i)
        (hot_sides (pressureThresholdsFor c g) agg) (tracker_of c inputs g)
    | None => tracker_of c inputs g
    end.
Proof.
  intros Hi. unfold tracker_of, run_ticks. rewrite foldl_app. cbn [foldl]. fold (run_ticks c inputs).
  pose proof (pressure_tick_lookup c (ti_now i) _ _ _ (run_ticks c inputs) g Hi) as H. cbv zeta in H.
  destruct (aggregate _ _ !! g); destruct H as [-> _]; done.
Qed.

Lemma tracker_of_tracks inputs :
  Forall tick_ok inputs → tracks (tracker_of c inputs g) (history c g inputs).
Proof.
  induction inputs as [|i inputs IH] using rev_ind; intros Hok; [apply tracks_new|].
  apply Forall_app in Hok as [Hok [Hi _]%Forall_cons].
  rewrite tracker_of_snoc, history_snoc by done. unfold observed.
  destruct (aggregate _ _ !! g) as [agg|]; cbn [option_fmap fmap option_map]; [|rewrite app_nil_r; by apply IH].
  apply transition_spec, count_tick_tracks; [done|]. by apply IH.
Qed.

(** A tick that changes the state had the time and the ticks for it; any other
    keeps the time of the last change. *)
Lemma tracker_of_change inputs i :
  Forall tick_ok (inputs ++ [i]) →
  let t0 := tracker_of c inputs g in
  let t1 := tracker_of c (inputs ++ [i]) g in
  (changed c g inputs i →
    streak (pt_current t1) (ticks_needed c (pt_current t1)) (history c g (inputs ++ [i])) ∧
    (pt_lastTransition t0 = 0 ∨ cooldownDuration c ≤ time_sub (ti_now i) (pt_lastTransition t0)) ∧
    pt_lastTransition t1 = ti_now i) ∧
  (¬ changed c g inputs i → pt_lastTransition t1 = pt_lastTransition t0).
Proof.
  intros Hok t0 t1. unfold changed. fold t0 t1.
  apply Forall_app in Hok as [Hok [Hi _]%Forall_cons].
  subst t1. rewrite tracker_of_snoc, history_snoc by done. unfold observed.
  destruct (aggregate _ _ !! g) as [agg|]; cbn [option_fmap fmap]; [|by split].
  pose proof (count_tick_tracks (hot_sides (pressureThresholdsFor c g) agg) _ _
    (tracker_of_tracks _ Hok)) as Ht.
  apply (transition_spec c (ti_now i)) in Ht as (_ & Ht & Hkeep); [|done]. cbv zeta in Ht, Hkeep.
  destruct (count_tick_same (hot_sides (pressureThresholdsFor c g) agg).1
    (hot_sides (pressureThresholdsFor c g) agg).2 (tracker_of c inputs g)) as [E1 E2].
  rewrite E1, E2 in Ht, Hkeep. unfold tracker_step. split.
  - intros Hne. destruct (Ht Hne) as ([Hz|?] & ? & ?); split_and!; try done; [left|by right].
    by apply Z.eqb_eq in Hz.
  - intros Heq. apply Hkeep. by apply dec_stable.
Qed.

(** No change is later than the time the tracker keeps. *)
Lemma last_change inputs l1 k l2 :
  Forall tick_ok inputs → clock_ok inputs → inputs = (l1 ++ k :: l2)%list → changed c g l1 k →
  pt_lastTransition (tracker_of c inputs g) ≠ 0 ∧ ti_now k ≤ pt_lastTransition (tracker_of c inputs g).
Proof.
  intros Hok [Hs Hp] -> Hch. induction l2 as [|i l2 IH] using rev_ind.
  - apply Forall_app in Hp as [_ [Hk _]%Forall_cons].
    destruct (proj1 (tracker_of_change l1 k Hok) Hch) as (_ & _ & ->). lia.
  - rewrite app_comm_cons, app_assoc in *.
    apply StronglySorted_app in Hs as (Hle & Hs & _). apply Forall_app in Hp as [Hp Hpi].
    pose proof Hok as [Hok1 _]%Forall_app. destruct IH as [Hn Hk]; [done..|].
    destruct (tracker_of_change _ i Hok) as [Hyes Hno].
    destruct (decide (pt_current (tracker_of c ((l1 ++ k :: l2) ++ [i]) g) =
      pt_current (tracker_of c (l1 ++ k :: l2) g))) as [E|E].
    + rewrite Hno; [done|]. intros Hc. by apply Hc.
    + destruct (Hyes E) as (_ & _ & ->). apply Forall_cons in Hpi as [? _]. split; [lia|].
      apply Hle; [apply elem_of_app; right; left|by apply list_elem_of_singleton].
Qed.

Definition latency_hot (th : option pressureThresholds) (latency : float64)
    (limit : pressureThresholds → float64) : bool :=
  match th with Some t => f64_ltb f64_zero latency && f64_leb (limit t) latency | None => false end.

Definition prefill_bool (th : option pressureThresholds) (agg : pressureAggregate) : bool :=
  ((pa_prefillWorkers agg >? 0) && (pa_decodeWorkers agg >? 0) &&
     f64_leb (f64_of_int 1) (f64_sub (prefill_load agg) (decode_load agg))) ||
  latency_hot th (prefillTTFT agg) pt_ttftHotMs.

Definition decode_bool (th : option pressureThresholds) (agg : pressureAggregate) : bool :=
  ((pa_prefillWorkers agg >? 0) && (pa_decodeWorkers agg >? 0) &&
     f64_leb (f64_of_int 1) (f64_sub (decode_load agg) (prefill_load agg))) ||
  latency_hot th (decodeITL agg) pt_itlHotMs.

Lemma latency_hot_spec th latency limit :
  latency_hot th latency limit = true ↔
  ∃ t, th = Some t ∧ f64_ltb f64_zero latency = true ∧ f64_leb (limit t) latency = true.
Proof.
  unfold latency_hot. destruct th as [t|]; [|naive_solver]. rewrite andb_true_iff. naive_solver.
Qed.

Lemma prefill_bool_spec th agg : prefill_bool th agg = true ↔ prefill_side th agg.
Proof.
  unfold prefill_bool, prefill_side. rewrite orb_true_iff, latency_hot_spec, !andb_true_iff, !Z.gtb_lt. tauto.
Qed.

Lemma decode_bool_spec th agg : decode_bool th agg = true ↔ decode_side th agg.
Proof.
  unfold decode_bool, decode_side. rewrite orb_true_iff, latency_hot_spec, !andb_true_iff, !Z.gtb_lt. tauto.
Qed.

Lemma hot_sides_eq th agg :
  hot_sides th agg =
  match th with
  | Some t =>
      if prefill_bool th agg && decode_bool th agg then
        if f64_leb (pressureScore (prefillTTFT agg) (pt_ttftHotMs t) (f64_sub (prefill_load agg) (decode_load agg)))
             (pressureScore (decodeITL agg) (pt_itlHotMs t) (f64_sub (decode_load agg) (prefill_load agg)))
        then (false, decode_bool th agg) else (prefill_bool th agg, false)
      else (prefill_bool th agg, decode_bool th agg)
  | None => (prefill_bool th agg, decode_bool th agg)
  end.
Proof.
  unfold hot_sides, inflight_delta, prefill_bool, decode_bool, latency_hot. fold (prefill_load agg) (decode_load agg).
  destruct th as [t|]; [done|]. by rewrite !orb_false_r.
Qed.

Lemma hot_sides_ok i : side_ok c g i.
Proof.
  unfold side_ok, observed. destruct (aggregate _ _ !! g) as [agg|]; [|done].
  cbn [fmap option_fmap option_map]. unfold side. rewrite hot_sides_eq.
  rewrite <-prefill_bool_spec, <-decode_bool_spec.
  assert (prefill_first (pressureThresholdsFor c g) agg ↔ match pressureThresholdsFor c g with
    | Some t => f64_leb (pressureScore (prefillTTFT agg) (pt_ttftHotMs t) (f64_sub (prefill_load agg) (decode_load agg)))
        (pressureScore (decodeITL agg) (pt_itlHotMs t) (f64_sub (decode_load agg) (prefill_load agg))) = false
    | None => True end) as ->
    by (unfold prefill_first; destruct (pressureThresholdsFor c g); naive_solver).
  destruct (pressureThresholdsFor c g) as [t|]; [destruct (f64_leb (pressureScore _ _ _) _)|];
    destruct (prefill_bool _ agg), (decode_bool _ agg); cbn; split_and!; split; intuition discriminate.
Qed.

Lemma report_of_tracker inputs :
  Forall tick_ok inputs →
  option_map pr_PressureState ((run_ticks c inputs).2 !! g) =
  option_map pt_current ((run_ticks c inputs).1 !! g).
Proof.
  induction inputs as [|i inputs IH] using rev_ind; intros Hok; [done|].
  apply Forall_app in Hok as [Hok [Hi _]%Forall_cons].
  unfold run_ticks. rewrite foldl_app. cbn [foldl]. fold (run_ticks c inputs).
  pose proof (pressure_tick_lookup c (ti_now i) _ _ _ (run_ticks c inputs) g Hi) as H. cbv zeta in H.
  destruct (aggregate _ _ !! g); destruct H as [-> ->]; [done|by apply IH].
Qed.
End runs.

(** A tick does not depend on the order in which Go visits the groups: any
    two orders of the map give the same trackers and the same reports. *)
Theorem pressure_tick_order c now o1 o2 workers stats st :
  range_order (aggregate stats workers) o1 → range_order (aggregate stats workers) o2 →
  pressure_tick c now o1 workers stats st = pressure_tick c now o2 workers stats st.
Proof.
  intros H1 H2. apply injective_projections; apply map_eq; intros g;
    pose proof (pressure_tick_lookup c now o1 workers stats st g H1) as E1;
    pose proof (pressure_tick_lookup c now o2 workers stats st g H2) as E2;
    cbv zeta in E1, E2; destruct (aggregate stats workers !! g);
    destruct E1, E2; congruence.
Qed.

(** C26: the pressure state has hysteresis. Whatever the ticks saw, the state of
    a group is one of the three; the report published for it carries that state;
    and when a tick changes it, the group's history ends with as many ticks of
    the new side as the sustain window asks for (half of them to return to
    normal), and every earlier change of the group lies at least the cooldown
    before. A tick counts for a side as the averages and thresholds say
    ([side_ok]), and the clock does not run backwards. *)
Theorem pressure_hysteresis c inputs i g :
  rc_SustainWindowSeconds c ≤ int_max - 5 → Forall tick_ok (inputs ++ [i]) → clock_ok (inputs ++ [i]) →
  let t1 := tracker_of c (inputs ++ [i]) g in
  pt_current t1 ∈ ["normal"; "prefill_hot"; "decode_hot"] ∧
  option_map pr_PressureState ((run_ticks c (inputs ++ [i])).2 !! g) =
    option_map pt_current ((run_ticks c (inputs ++ [i])).1 !! g) ∧
  Forall (side_ok c g) (inputs ++ [i]) ∧
  (changed c g inputs i →
    streak (pt_current t1) (ticks_needed c (pt_current t1)) (history c g (inputs ++ [i])) ∧
    ∀ l1 k l2, inputs = (l1 ++ k :: l2)%list → changed c g l1 k →
      cooldown_wanted c ≤ time_sub (ti_now i) (ti_now k)).
Proof.
  intros Hwin Hok Hclock t1. split_and!; [apply (tracker_of_tracks c g Hwin _ Hok)|by apply report_of_tracker| |].
  { apply Forall_forall. intros j _. apply hot_sides_ok. }
  intros Hch. destruct (proj1 (tracker_of_change c g Hwin inputs i Hok) Hch) as (Hst & Hcool & _).
  split; [done|]. intros l1 k l2 E Hk. pose proof Hok as [Hok1 _]%Forall_app.
  assert (clock_ok inputs) as Hc1.
  { destruct Hclock as [Hs Hp]. split; [by eapply StronglySorted_app_1_l|by apply Forall_app in Hp as [? _]]. }
  destruct (last_change c g Hwin inputs l1 k l2 Hok1 Hc1 E Hk) as [Hn Hle].
  rewrite <-cooldown_wanted_eq. destruct Hcool as [?|Hcool]; [done|]. unfold time_sub in *. lia.
Qed.

(** ** Witnesses *)
Lemma pressure_tick_order_witness :
  pressure_tick sample_rebalancing 100 ["llama"] pressure_workers hot_stats (∅, ∅) =
  pressure_tick sample_rebalancing 100 ["llama"] pressure_workers hot_stats (∅, ∅).
Proof.
  apply (pressure_tick_order sample_rebalancing 100 ["llama"] ["llama"] pressure_workers hot_stats (∅, ∅));
    vm_compute; reflexivity.
Defined.

(** The group turns hot at 15 s and, calm again, back to normal once the cooldown
    is over. *)
Definition calm_tick (now : Time) : tick_input := mkTick now ["llama"] pressure_workers ∅.

Definition hot_then_calm : list tick_input :=
  [hot_tick (seconds 5); hot_tick (seconds 10); hot_tick (seconds 15); calm_tick (seconds 20); calm_tick (seconds 40)].

Lemma pressure_hysteresis_witness :
  pt_current (tracker_of sample_rebalancing (hot_then_calm ++ [calm_tick (seconds 45)]) "llama") = Normal ∧
  seconds 30 ≤ time_sub (seconds 45) (seconds 15).
Proof.
  split; [vm_compute; reflexivity|].
  destruct (pressure_hysteresis sample_rebalancing hot_then_calm (calm_tick (seconds 45)) "llama")
    as (_ & _ & _ & H).
  - vm_compute. discriminate.
  - unfold hot_then_calm. cbn [app]. rewrite !Forall_cons, Forall_nil. split_and!; try done; vm_compute; reflexivity.
  - split; [repeat constructor; vm_compute; discriminate|repeat constructor].
  - refine (proj2 (H _) [hot_tick (seconds 5); hot_tick (seconds 10)] (hot_tick (seconds 15))
      [calm_tick (seconds 20); calm_tick (seconds 40)] eq_refl _); vm_compute; discriminate.
Defined.

(** A group whose workers are gone keeps its last report, hot for ever. *)
Lemma vanished_group_stays_hot :
  let gone now := mkTick now [] [] hot_stats in
  let inputs := [hot_tick 1; hot_tick 2; hot_tick 3; gone 4; gone 5; gone 6; gone 7; gone 8] in
  option_map pr_PressureState ((run_ticks sample_rebalancing inputs).2 !! "llama") = Some PrefillHot.
Proof. vm_compute. reflexivity. Qed.
