(* ===== verification/Proxy.v ===== *)
(** * internal/proxy/server.go: the proxy's request handlers

    A chat request is validated, routed to a unified worker or to a prefill and
    a decode worker, and forwarded; the proxy counts the requests in flight on
    each worker, which is what the router balances on.  A handler runs without
    the lock except for short critical sections: [action] is one of them, a
    forward yields the actions it performs in order, and [proxy_step] interleaves
    the actions of all the requests with the other loops of the proxy. *)

From Stdlib Require Import ZArith Lia Ascii String.
From stdpp Require Import base option list strings gmap sorting.
From S2P Require Import Prelude GoFloat GoStrings Types Config Router Pressure Http.
Open Scope string_scope.
Open Scope Z_scope.
Open Scope go_scope.

(** ** Requests *)
Record ChatMessage : Type := mkChatMessage {
  cm_Role : string;
  cm_Content : string
}.

Record ChatCompletionRequest : Type := mkChatCompletionRequest {
  ccr_Model : string;
  ccr_Messages : list ChatMessage;
  ccr_Stream : bool
}.

Inductive RequestError : Type :=
  | EModelRequired
  | EMessagesRequired
  | EContentRequired
  | EInvalidRole (role : string).

Definition request_error_string (e : RequestError) : string :=
  match e with
  | EModelRequired => "model field is required"
  | EMessagesRequired => "messages content is required"
  | EContentRequired => "message content is required"
  | EInvalidRole role => "invalid message role: " ++ role
  end.

Definition valid_role (role : string) : bool :=
  existsb (String.eqb role) ["system"; "user"; "assistant"].

Fixpoint validate_messages (messages : list ChatMessage) : option RequestError :=
  match messages with
  | [] => None
  | msg :: rest =>
      if String.eqb (cm_Content msg) "" then Some EContentRequired
      else if negb (valid_role (cm_Role msg)) then Some (EInvalidRole (cm_Role msg))
      else validate_messages rest
  end.

Definition Chat_Validate (ccr : ChatCompletionRequest) : option RequestError :=
  if String.eqb (ccr_Model ccr) "" then Some EModelRequired
  else if (length (ccr_Messages ccr) <? 1)%nat then Some EMessagesRequired
  else validate_messages (ccr_Messages ccr).

(** ** URLs *)

(** [strings.TrimRight(s, string(c))] *)
Fixpoint trim_right_char (c : ascii) (s : string) : string :=
  match s with
  | EmptyString => EmptyString
  | String a s' =>
      let t := trim_right_char c s' in
      if String.eqb t "" && Ascii.eqb a c then "" else String a t
  end.

Definition buildChatCompletionsURL (endpoint : string) : string :=
  let e := trim_space endpoint in
  if String.eqb e "" then ""
  else
    let e := if negb (has_prefix e "http://") && negb (has_prefix e "https://")
             then "http://" ++ e else e in
    if has_suffix e "/v1/chat/completions" then e
    else trim_right_char "/" e ++ "/v1/chat/completions".

(** ** Worker statistics *)
Definition set_Inflight (n : Z) (s : WorkerStat) : WorkerStat :=
  mkWorkerStat (ws_ID s) n (ws_QueueWaitP95 s) (ws_TTFTP95 s) (ws_ITLP95 s).

Definition beginWorkerRequest (workerId : string) (stats : gmap string WorkerStat) :
    gmap string WorkerStat :=
  match stats !! workerId with
  | Some s => <[workerId := set_Inflight (ws_Inflight s ⊞ 1) s]> stats
  | None => <[workerId := mkWorkerStat workerId 1 f64_zero f64_zero f64_zero]> stats
  end.

Definition endWorkerRequest (workerId : string) (stats : gmap string WorkerStat) :
    gmap string WorkerStat :=
  match stats !! workerId with
  | Some s =>
      if ws_Inflight s <=? 0 then stats
      else <[workerId := set_Inflight (ws_Inflight s ⊟ 1) s]> stats
  | None => stats
  end.

(** The constants 0.2 and 1 - 0.2 as the compiler rounds them; the sum of the
    products is not fused, as on amd64. *)
Definition ewmaAlpha : float64 := f64_div (f64_of_int 1) (f64_of_int 5).
Definition ewmaRest : float64 := f64_div (f64_of_int 4) (f64_of_int 5).

Definition ewma (old durationMs : float64) : float64 :=
  if f64_eqb old f64_zero then durationMs
  else f64_add (f64_mul ewmaAlpha durationMs) (f64_mul ewmaRest old).

Definition recordWorkerPhase (workerID phase : string) (durationMs : float64)
    (stats : gmap string WorkerStat) : gmap string WorkerStat :=
  let ws := default (mkWorkerStat workerID 0 f64_zero f64_zero f64_zero) (stats !! workerID) in
  let ws' :=
    if String.eqb phase "prefill" then
      mkWorkerStat (ws_ID ws) (ws_Inflight ws) (ws_QueueWaitP95 ws)
        (ewma (ws_TTFTP95 ws) durationMs) (ws_ITLP95 ws)
    else if String.eqb phase "decode" then
      mkWorkerStat (ws_ID ws) (ws_Inflight ws) (ws_QueueWaitP95 ws) (ws_TTFTP95 ws)
        (ewma (ws_ITLP95 ws) durationMs)
    else ws in
  <[workerID := ws']> stats.

(** One critical section of a forward. *)
Inductive action : Type :=
  | Begin (ids : list string)
  | Record_ (id phase : string) (durationMs : float64)
  | End_ (ids : list string).

Definition run_action (a : action) (stats : gmap string WorkerStat) : gmap string WorkerStat :=
  match a with
  | Begin ids => foldl (λ s id, beginWorkerRequest id s) stats ids
  | Record_ id phase d => recordWorkerPhase id phase d stats
  | End_ ids => foldl (λ s id, endWorkerRequest id s) stats ids
  end.

(** ** Forwarding *)

(** The body of an upstream request: the typed request, or a JSON object. *)
Inductive upstream_body : Type :=
  | BodyChat (req : ChatCompletionRequest)
  | BodyObject (m : gmap string json).

Record UpstreamRequest : Type := mkUpstreamRequest {
  ur_URL : string;
  ur_Accept : string;
  ur_Authorization : option string;
  ur_Timeout : bool;
  ur_Body : upstream_body
}.

Inductive ProxyError : Type :=
  | EEmptyEndpoint (role : string)
  | ECreateRequest (e : string)
  | EUpstream (e : string)
  | EPrefillRequest (e : string)
  | EPrefillStatus (code : Z) (body : string)
  | EPrefillDecode (e : string)
  | ENoKVParams
  | ECopyBody (e : string).

Definition proxy_error_string (e : ProxyError) : string :=
  match e with
  | EEmptyEndpoint role => role ++ " worker endpoint is empty"
  | ECreateRequest e => "failed to create upstream request: " ++ e
  | EUpstream e => "upstream request failed: " ++ e
  | EPrefillRequest e => e
  | EPrefillStatus code body => "prefill returned " ++ itoa code ++ ": " ++ body
  | EPrefillDecode e => "decode prefill response: " ++ e
  | ENoKVParams => "prefill response missing kv_transfer_params"
  | ECopyBody e => "failed to copy upstream response: " ++ e
  end.

Definition auth_header (auth : string) : option string := if String.eqb auth "" then None else Some auth.

Definition chat_message_json (m : ChatMessage) : json :=
  jfields [("role", cm_Role m); ("content", cm_Content m)].

Definition messages_json (ms : list ChatMessage) : json := JArr (chat_message_json <$> ms).

Definition isStreamRequested (rawBody : gmap string json) : bool :=
  match rawBody !! "stream" with Some (JBool b) => b | _ => false end.

(** The response writer of net/http is a [Flusher]. *)
Definition copyUpstreamBody (reads : body_reads) (stream : bool) (w : Sink) : Sink * option string :=
  if negb stream then io_copy reads w else copy_loop true reads w.

(** Copying the headers and the status of the upstream response. *)
Definition relay_head (r : HttpResponse) (w : Sink) : Sink :=
  let resp := foldl (λ acc kv, add_header kv.1 kv.2 acc) (sk_response w) (hr_Header r) in
  mkSink (write_header (hr_StatusCode r) resp) (sk_accepts w) (sk_flushes w).

(** What a forward did: the client, its critical sections, the response, the error. *)
Record forwarded (N : Type) : Type := mkForwarded {
  fw_net : N;
  fw_actions : list action;
  fw_sink : Sink;
  fw_error : option ProxyError
}.
Arguments mkForwarded {N}.
Arguments fw_net {N}.
Arguments fw_actions {N}.
Arguments fw_sink {N}.
Arguments fw_error {N}.

Section forward.
Context {N : Type} `{HTTPClient UpstreamRequest N}.

Definition unified_request (auth : string) (worker : WorkerInfo) (req : ChatCompletionRequest) :
    UpstreamRequest :=
  mkUpstreamRequest (buildChatCompletionsURL (wi_Endpoint worker)) "application/json"
    (auth_header auth) true (BodyChat req).

Definition forwardUnifiedChatCompletions (auth : string) (w : Sink) (req : ChatCompletionRequest)
    (worker : WorkerInfo) (n : N) : forwarded N :=
  if String.eqb (trim_space (wi_Endpoint worker)) "" then
    mkForwarded n [] w (Some (EEmptyEndpoint "unified"))
  else
    let id := wi_ID worker in
    let upstreamReq := unified_request auth worker req in
    match NewRequest n (ur_URL upstreamReq) with
    | Some e => mkForwarded n [Begin [id]; End_ [id]] w (Some (ECreateRequest e))
    | None =>
        match Do n upstreamReq with
        | (n1, Err e) => mkForwarded n1 [Begin [id]; End_ [id]] w (Some (EUpstream e))
        | (n1, Ok r) =>
            match io_copy (hr_Body r) (relay_head r w) with
            | (w', Some e) => mkForwarded n1 [Begin [id]; End_ [id]] w' (Some (ECopyBody e))
            | (w', None) =>
                mkForwarded n1
                  [Begin [id]; Record_ id "decode" (f64_of_int (hr_elapsedMs r)); End_ [id]] w' None
            end
        end
    end.

Definition prefill_request (auth url model : string) (messages : list ChatMessage) : UpstreamRequest :=
  mkUpstreamRequest url "application/json" (auth_header auth) true
    (BodyObject (list_to_map
      [("model", JStr model); ("max_tokens", JInt 1);
       ("kv_transfer_params", JObj [("do_remote_decode", JBool true)]);
       ("messages", messages_json messages)])).

(** The decoded answer and what to record, or the error. *)
Definition doPrefillRequest (auth url workerID model : string) (messages : list ChatMessage) (n : N) :
    N * result ProxyError (gmap string json * action) :=
  let upstreamReq := prefill_request auth url model messages in
  match NewRequest n url with
  | Some e => (n, Err (EPrefillRequest e))
  | None =>
      match Do n upstreamReq with
      | (n1, Err e) => (n1, Err (EPrefillRequest e))
      | (n1, Ok r) =>
          if negb (hr_StatusCode r =? StatusOK)
          then (n1, Err (EPrefillStatus (hr_StatusCode r) (delivered (hr_Body r)).1))
          else
            match hr_Json r with
            | Err e => (n1, Err (EPrefillDecode e))
            | Ok fields =>
                (n1, Ok (list_to_map (reverse fields),
                         Record_ workerID "prefill" (f64_of_int (hr_elapsedMs r))))
            end
      end
  end.

Definition decode_request (auth url model : string) (messages : list ChatMessage)
    (kvParams : list (string * json)) (rawBody : gmap string json) : UpstreamRequest :=
  let isStream := isStreamRequested rawBody in
  mkUpstreamRequest url (if isStream then "text/event-stream" else "application/json")
    (auth_header auth) (negb isStream)
    (BodyObject (<["kv_transfer_params" := JObj kvParams]>
      (<["messages" := messages_json messages]> (<["model" := JStr model]> rawBody)))).

Definition doDecodeRequest (auth : string) (w : Sink) (url workerID model : string)
    (messages : list ChatMessage) (kvParams : list (string * json)) (rawBody : gmap string json) (n : N) :
    N * Sink * result ProxyError action :=
  let upstreamReq := decode_request auth url model messages kvParams rawBody in
  match NewRequest n url with
  | Some e => (n, w, Err (ECreateRequest e))
  | None =>
      match Do n upstreamReq with
      | (n1, Err e) => (n1, w, Err (EUpstream e))
      | (n1, Ok r) =>
          match copyUpstreamBody (hr_Body r) (isStreamRequested rawBody) (relay_head r w) with
          | (w', Some e) => (n1, w', Err (ECopyBody e))
          | (w', None) => (n1, w', Ok (Record_ workerID "decode" (f64_of_int (hr_elapsedMs r))))
          end
      end
  end.

Definition forwardDisaggChatCompletion (auth : string) (w : Sink) (req : ChatCompletionRequest)
    (rawBody : gmap string json) (prefillWorker decodeWorker : WorkerInfo) (n : N) : forwarded N :=
  if String.eqb (trim_space (wi_Endpoint prefillWorker)) "" then
    mkForwarded n [] w (Some (EEmptyEndpoint "prefill"))
  else if String.eqb (trim_space (wi_Endpoint decodeWorker)) "" then
    mkForwarded n [] w (Some (EEmptyEndpoint "decode"))
  else
    let ids := [wi_ID prefillWorker; wi_ID decodeWorker] in
    match doPrefillRequest auth (buildChatCompletionsURL (wi_Endpoint prefillWorker))
            (wi_ID prefillWorker) (ccr_Model req) (ccr_Messages req) n with
    | (n1, Err e) => mkForwarded n1 [Begin ids; End_ ids] w (Some e)
    | (n1, Ok (prefillResp, rec1)) =>
        match prefillResp !! "kv_transfer_params" with
        | Some (JObj kvParams) =>
            match doDecodeRequest auth w (buildChatCompletionsURL (wi_Endpoint decodeWorker))
                    (wi_ID decodeWorker) (ccr_Model req) (ccr_Messages req) kvParams rawBody n1 with
            | (n2, w', Err e) => mkForwarded n2 [Begin ids; rec1; End_ ids] w' (Some e)
            | (n2, w', Ok rec2) => mkForwarded n2 [Begin ids; rec1; rec2; End_ ids] w' None
            end
        | _ => mkForwarded n1 [Begin ids; rec1; End_ ids] w (Some ENoKVParams)
        end
    end.
End forward.

(** ** A network for the examples: every request gets the same answer *)
Record FakeNet : Type := mkFakeNet { fn_answer : result string HttpResponse }.

#[export] Instance fake_client : HTTPClient UpstreamRequest FakeNet := {|
  NewRequest _ _ := None;
  Do n _ := (n, fn_answer n)
|}.

Definition sample_answer (reads : body_reads) : HttpResponse :=
  mkHttpResponse 200 [("Content-Type", "application/json")] reads
    (Ok [("kv_transfer_params", JObj [])]) 40.

Definition sample_chat : ChatCompletionRequest :=
  mkChatCompletionRequest "llama" [mkChatMessage "user" "hello"] false.

Definition sample_sink : Sink := mkSink no_response None 0.

(** ** Findings *)

(** A field the proxy does not know reaches a decode worker but not a unified
    one: the unified forward sends the typed request. *)
Lemma unified_drops_fields :
  let raw := {["model" := JStr "llama"; "max_tokens" := JInt 7]} : gmap string json in
  (∀ auth w, ur_Body (unified_request auth w sample_chat) = BodyChat sample_chat) ∧
  match ur_Body (decode_request "" "http://d" "llama" (ccr_Messages sample_chat) [] raw) with
  | BodyObject m => m !! "max_tokens" = Some (JInt 7)
  | BodyChat _ => False
  end.
Proof. split; [done|]. vm_compute. reflexivity. Qed.
