(* ===== verification/ProxyServer.v ===== *)
(** * The proxy as a whole: handlers, shared state, interleaving

    [handleChatCompletions] and the read-only handlers of
    internal/proxy/server.go over the state of [Proxy] (internal/proxy/proxy.go),
    and the transition system in which any number of requests, the worker
    synchronisation and the pressure loop run concurrently: every critical
    section under the mutex is one step. *)

From Stdlib Require Import ZArith Lia Ascii String.
From stdpp Require Import base option list strings gmap sorting.
From S2P Require Import Prelude GoFloat GoStrings Types Config Router Pressure Http Proxy.
Open Scope string_scope.
Open Scope Z_scope.
Open Scope go_scope.

Record ProxyState : Type := mkProxyState {
  px_inferenceWorkers : list (option WorkerInfo);
  px_workerStats : gmap string WorkerStat;
  px_pressureReport : gmap string PressureReport;
  px_trackers : gmap string pressureTracker;
  px_requestSeq : Z
}.

Definition NewProxy : ProxyState := mkProxyState [] ∅ ∅ ∅ 0.

Definition set_stats (m : gmap string WorkerStat) (st : ProxyState) : ProxyState :=
  mkProxyState (px_inferenceWorkers st) m (px_pressureReport st) (px_trackers st) (px_requestSeq st).

Definition set_workers (ws : list (option WorkerInfo)) (st : ProxyState) : ProxyState :=
  mkProxyState ws (px_workerStats st) (px_pressureReport st) (px_trackers st) (px_requestSeq st).

(** [atomic.AddUint64(&p.requestSeq, 1)] *)
Definition next_seq (st : ProxyState) : ProxyState :=
  mkProxyState (px_inferenceWorkers st) (px_workerStats st) (px_pressureReport st) (px_trackers st)
    ((px_requestSeq st + 1) mod 18446744073709551616).

(** The router dereferences every worker, so a nil one panics. *)
Definition find_request_worker (modelGroup : string) (st : ProxyState) :
    outcome (result RouteError RequestWorker) :=
  match mapM id (px_inferenceWorkers st) with
  | Some workers =>
      Done (FindRequestWorker modelGroup workers (px_workerStats st) (px_pressureReport st))
  | None => Panicked
  end.

Definition route_error_string (e : RouteError) : string :=
  match e with
  | ErrNoCapacity => "no capacity"
  | ErrUnableToMatchDisagg => "unable to match disagg workers"
  end.

Definition no_capacity_reason (e : RouteError) : string :=
  match e with ErrNoCapacity => "no_capacity" | ErrUnableToMatchDisagg => "no_disagg_pair" end.

Section handlers.
Context {N : Type} `{HTTPClient UpstreamRequest N}.
Context (parse_request : string → result string ChatCompletionRequest).
Context (parse_object : string → result string (gmap string json)).

Definition refuse (n : N) (message : string) (status : Z) (w : Sink) : forwarded N :=
  mkForwarded n [] (mkSink (http_error message status (sk_response w)) (sk_accepts w) (sk_flushes w)) None.

Definition answer_json (status : Z) (fields : list (string * string)) (w : Sink) : Sink :=
  mkSink (write_json status (jfields fields) (sk_response w)) (sk_accepts w) (sk_flushes w).

(** After a forward: a failure is answered with 502, whatever was already sent. *)
Definition finish_forward (seq : Z) (f : forwarded N) : forwarded N :=
  match fw_error f with
  | None => f
  | Some e =>
      mkForwarded (fw_net f) (fw_actions f)
        (answer_json StatusBadGateway
           [("error", "upstream_error"); ("message", proxy_error_string e); ("request_id", itoa seq)]
           (fw_sink f)) (Some e)
  end.

(** The three checks of the body, then [Validate]. *)
Definition read_chat (body : result string string) :
    result string (ChatCompletionRequest * gmap string json) :=
  match body with
  | Err e => Err e
  | Ok bytes =>
      if String.eqb bytes "" then Err "request body is required"
      else
        match parse_request bytes with
        | Err e => Err e
        | Ok req =>
            match parse_object bytes with
            | Err e => Err e
            | Ok rawBody =>
                match Chat_Validate req with
                | Some e => Err (request_error_string e)
                | None => Ok (req, rawBody)
                end
            end
        end
  end.

Definition forward_routed (auth : string) (seq : Z) (w : Sink) (req : ChatCompletionRequest)
    (rawBody : gmap string json) (rw : RequestWorker) (n : N) : forwarded N :=
  match rw_UnifiedWorker rw, rw_DecodeWorker rw, rw_PrefillWorker rw with
  | Some u, _, _ => finish_forward seq (forwardUnifiedChatCompletions auth w req u n)
  | None, Some d, Some p => finish_forward seq (forwardDisaggChatCompletion auth w req rawBody p d n)
  | None, _, _ =>
      mkForwarded n [] (answer_json StatusNotImplemented
        [("error", "not_implemented");
         ("message", "disaggregated chat forwarding is not implemented yet")] w) None
  end.

Definition handleChatCompletions (method auth : string) (body : result string string) (w : Sink)
    (st : ProxyState) (n : N) : outcome (ProxyState * forwarded N) :=
  if negb (String.eqb method "POST") then
    Done (st, refuse n "Method not allowed" StatusMethodNotAllowed w)
  else
    let st := next_seq st in
    match read_chat body with
    | Err e => Done (st, refuse n e StatusBadRequest w)
    | Ok (req, rawBody) =>
        routed ← find_request_worker (ccr_Model req) st;
        match routed with
        | Err e =>
            Done (st, mkForwarded n [] (answer_json StatusServiceUnavailable
              [("error", "no_capacity"); ("reason", no_capacity_reason e);
               ("message", route_error_string e); ("requestedModel", ccr_Model req);
               ("request_id", itoa (px_requestSeq st))] w) None)
        | Ok rw => Done (st, forward_routed auth (px_requestSeq st) w req rawBody rw n)
        end
    end.
End handlers.

(** ** The read-only handlers *)
Definition str_less (a b : string) : bool := String.ltb a b.

Definition sort_strings `{GoSort} (l : list string) : list string := sort_slice str_less l.

(** The reports [handlePressure] encodes: of one group, or of all, by name. *)
Definition pressure_reports `{GoSort} (modelGroup : string) (order : list string) (st : ProxyState) :
    list PressureReport :=
  if negb (String.eqb modelGroup "") then option_list (px_pressureReport st !! modelGroup)
  else omap (λ g, px_pressureReport st !! g) (sort_strings (range (px_pressureReport st) order).*1).

(** The statistics [handleWorkerStats] encodes, by worker. *)
Definition worker_stats `{GoSort} (order : list string) (st : ProxyState) : list WorkerStat :=
  omap (λ id, px_workerStats st !! id) (sort_strings (range (px_workerStats st) order).*1).

(** ** Interleaving *)

(** A request being handled: the workers it has begun on, and what is left. *)
Record Thread : Type := mkThread {
  th_open : list string;
  th_rest : list action
}.

(** [End_] closes what the same forward opened. *)
Definition advance (a : action) (rest : list action) (th : Thread) : Thread :=
  mkThread (match a with
            | Begin ids => th_open th ++ ids
            | Record_ _ _ _ => th_open th
            | End_ ids => list_difference (th_open th) ids
            end)%list rest.

Section system.
Context {N : Type} `{HTTPClient UpstreamRequest N}.
Context (parse_request : string → result string ChatCompletionRequest).
Context (parse_object : string → result string (gmap string json)).
Context (c : RebalancingConfig).

Inductive proxy_step : ProxyState * list Thread → ProxyState * list Thread → Prop :=
  | step_request st ths method auth body w n st' f :
      handleChatCompletions parse_request parse_object method auth body w st n = Done (st', f) →
      proxy_step (st, ths) (st', ths ++ [mkThread [] (fw_actions f)])%list
  | step_action st ths i th a rest :
      ths !! i = Some th → th_rest th = a :: rest →
      proxy_step (st, ths)
        (set_stats (run_action a (px_workerStats st)) st, <[i := advance a rest th]> ths)
  | step_sync st ths ws : proxy_step (st, ths) (set_workers ws st, ths)
  | step_tick st ths now order ts rs :
      range_order (aggregate (px_workerStats st) (px_inferenceWorkers st)) order →
      pressure_tick c now order (px_inferenceWorkers st) (px_workerStats st)
        (px_trackers st, px_pressureReport st) = (ts, rs) →
      proxy_step (st, ths)
        (mkProxyState (px_inferenceWorkers st) (px_workerStats st) rs ts (px_requestSeq st), ths).

Inductive proxy_reachable : ProxyState * list Thread → Prop :=
  | proxy_init : proxy_reachable (NewProxy, [])
  | proxy_next s s' : proxy_reachable s → proxy_step s s' → proxy_reachable s'.
End system.

(** ** Specification *)
Definition inflight (stats : gmap string WorkerStat) (id : string) : Z :=
  match stats !! id with Some s => ws_Inflight s | None => 0 end.

Definition occurrences (id : string) (l : list string) : Z :=
  Z.of_nat (length (List.filter (String.eqb id) l)).

(** The forwards to worker [id] that have begun and not ended. *)
Definition outstanding (ths : list Thread) (id : string) : Z :=
  zsum ((λ th, occurrences id (th_open th)) <$> ths).

Definition is_record (a : action) : Prop := match a with Record_ _ _ _ => True | _ => False end.

(** The actions of one forward: nothing, or begin, record, end on the same workers. *)
Definition balanced (acts : list action) : Prop :=
  acts = [] ∨ ∃ ids mid, (length ids ≤ 2)%nat ∧ acts = (Begin ids :: mid ++ [End_ ids])%list ∧
    Forall is_record mid.

Definition thread_ok (th : Thread) : Prop :=
  th_open th = [] ∧ balanced (th_rest th) ∨
  ∃ mid, (length (th_open th) ≤ 2)%nat ∧ th_rest th = (mid ++ [End_ (th_open th)])%list ∧
    Forall is_record mid.

(** ** Lemmas: the critical sections *)
Lemma inflight_insert stats k s id :
  inflight (<[k := s]> stats) id = if decide (k = id) then ws_Inflight s else inflight stats id.
Proof.
  unfold inflight. case_decide as E; [by rewrite E, lookup_insert_eq|by rewrite lookup_insert_ne].
Qed.

Lemma inflight_some stats id s : stats !! id = Some s → inflight stats id = ws_Inflight s.
Proof. unfold inflight. by intros ->. Qed.

Lemma inflight_begin k stats id :
  inflight (beginWorkerRequest k stats) id =
    if decide (k = id) then inflight stats id ⊞ 1 else inflight stats id.
Proof.
  unfold beginWorkerRequest. destruct (stats !! k) as [s|] eqn:E; rewrite inflight_insert;
    case_decide as Ek; try done; subst k; unfold inflight; by rewrite E.
Qed.

Lemma inflight_end k stats id :
  inflight (endWorkerRequest k stats) id =
    if decide (k = id ∧ 0 < inflight stats id) then inflight stats id ⊟ 1 else inflight stats id.
Proof.
  unfold endWorkerRequest. destruct (stats !! k) as [s|] eqn:E.
  - pose proof (inflight_some _ _ _ E) as Ei. destruct (Z.leb_spec (ws_Inflight s) 0) as [Hle|Hgt].
    + rewrite decide_False; [done|]. intros [<- Hpos]. lia.
    + rewrite inflight_insert. case_decide as Ek.
      * subst k. rewrite decide_True by (split; [done|lia]). by rewrite Ei.
      * by rewrite decide_False by tauto.
  - rewrite decide_False; [done|]. intros [-> Hpos]. unfold inflight in Hpos. rewrite E in Hpos. lia.
Qed.

Lemma inflight_record k phase d stats id : inflight (recordWorkerPhase k phase d stats) id = inflight stats id.
Proof.
  unfold recordWorkerPhase. rewrite inflight_insert. case_decide as E; [|done]. subst k. unfold inflight.
  by destruct (stats !! id), (String.eqb phase "prefill"), (String.eqb phase "decode").
Qed.

Lemma occurrences_cons id k l :
  occurrences id (k :: l) = (if decide (k = id) then 1 else 0) + occurrences id l.
Proof.
  unfold occurrences. cbn. destruct (String.eqb_spec id k) as [->|Hne].
  - rewrite decide_True by done. cbn [length]. lia.
  - rewrite decide_False by congruence. lia.
Qed.

Lemma occurrences_nonneg id l : 0 ≤ occurrences id l.
Proof. unfold occurrences. lia. Qed.

Lemma occurrences_le id l : occurrences id l ≤ Z.of_nat (length l).
Proof.
  induction l as [|k l IH]; [done|]. rewrite occurrences_cons. cbn [length]. case_decide; lia.
Qed.

(** Beginning and ending on a list of workers, without wrapping. *)
Lemma inflight_begins ids stats id :
  0 ≤ inflight stats id → inflight stats id + occurrences id ids ≤ int_max →
  inflight (run_action (Begin ids) stats) id = inflight stats id + occurrences id ids.
Proof.
  cbn. revert stats. induction ids as [|k ids IH]; intros stats Hpos Hmax; cbn; [unfold occurrences; cbn; lia|].
  rewrite occurrences_cons in Hmax |- *. pose proof (occurrences_nonneg id ids).
  pose proof (inflight_begin k stats id) as Eb. case_decide.
  - assert (inflight stats id ⊞ 1 = inflight stats id + 1) as Ew by int_solve.
    rewrite IH; rewrite Eb, Ew; lia.
  - rewrite IH; rewrite Eb; lia.
Qed.

Lemma inflight_ends ids stats id :
  occurrences id ids ≤ inflight stats id → inflight stats id ≤ int_max →
  inflight (run_action (End_ ids) stats) id = inflight stats id - occurrences id ids.
Proof.
  cbn. revert stats. induction ids as [|k ids IH]; intros stats Hpos Hmax; cbn; [unfold occurrences; cbn; lia|].
  rewrite occurrences_cons in Hpos |- *. pose proof (occurrences_nonneg id ids).
  pose proof (inflight_end k stats id) as Eb. destruct (decide (k = id)) as [->|Hne].
  - rewrite decide_True in Eb by (split; [done|lia]).
    assert (inflight stats id ⊟ 1 = inflight stats id - 1) as Ew by int_solve.
    rewrite IH; rewrite Eb, Ew; lia.
  - rewrite decide_False in Eb by tauto. rewrite IH; rewrite Eb; lia.
Qed.

(** ** Lemmas: every forward is balanced *)
Section balance.
Context {N : Type} `{HTTPClient UpstreamRequest N}.

Lemma balanced_intro ids mid :
  (length ids ≤ 2)%nat → Forall is_record mid → balanced (Begin ids :: mid ++ [End_ ids]).
Proof. intros ??. right. by exists ids, mid. Qed.

Lemma unified_balanced auth w req worker (n : N) :
  balanced (fw_actions (forwardUnifiedChatCompletions auth w req worker n)).
Proof.
  unfold forwardUnifiedChatCompletions. destruct (String.eqb _ _); [by left|].
  set (ids := [wi_ID worker]).
  assert (∀ mid, Forall is_record mid → balanced (Begin ids :: mid ++ [End_ ids])) as Hb.
  { intros mid. apply balanced_intro. cbn. lia. }
  destruct (NewRequest n _); [by apply (Hb [])|].
  destruct (Do n _) as [n1 [r|e]]; [|by apply (Hb [])].
  destruct (io_copy _ _) as [w' [e|]]; [by apply (Hb [])|].
  apply (Hb [_]). by repeat constructor.
Qed.

Lemma prefill_record auth url id model messages (n n1 : N) m a :
  doPrefillRequest auth url id model messages n = (n1, Ok (m, a)) → is_record a.
Proof.
  unfold doPrefillRequest. destruct (NewRequest n url); [done|]. destruct (Do n _) as [n2 [r|e]]; [|done].
  destruct (negb _); [done|]. destruct (hr_Json r); [|done]. by intros [= _ _ <-].
Qed.

Lemma decode_record auth w url id model messages kv raw (n n1 : N) w' a :
  doDecodeRequest auth w url id model messages kv raw n = (n1, w', Ok a) → is_record a.
Proof.
  unfold doDecodeRequest. destruct (NewRequest n url); [done|]. destruct (Do n _) as [n2 [r|e]]; [|done].
  destruct (copyUpstreamBody _ _ _) as [w2 [e|]]; [done|]. by intros [= _ _ <-].
Qed.

Lemma disagg_balanced auth w req raw p d (n : N) :
  balanced (fw_actions (forwardDisaggChatCompletion auth w req raw p d n)).
Proof.
  unfold forwardDisaggChatCompletion. destruct (String.eqb _ _); [by left|].
  destruct (String.eqb _ _); [by left|].
  set (ids := [wi_ID p; wi_ID d]).
  assert (∀ mid, Forall is_record mid → balanced (Begin ids :: mid ++ [End_ ids])) as Hb.
  { intros mid. apply balanced_intro. cbn. lia. }
  destruct (doPrefillRequest _ _ _ _ _ n) as [n1 [[m rec1]|e]] eqn:Ep; [|by apply (Hb [])].
  apply prefill_record in Ep.
  destruct (m !! "kv_transfer_params") as [[| | | | | |kv]|];
    try (apply (Hb [rec1]); by repeat constructor).
  destruct (doDecodeRequest _ _ _ _ _ _ _ _ n1) as [[n2 w'] [rec2|e]] eqn:Ed.
  - apply decode_record in Ed. apply (Hb [rec1; rec2]). by repeat constructor.
  - apply (Hb [rec1]). by repeat constructor.
Qed.

Lemma handle_balanced pr po method auth body w st (n : N) st' f :
  handleChatCompletions pr po method auth body w st n = Done (st', f) →
  balanced (fw_actions f) ∧ px_workerStats st' = px_workerStats st.
Proof.
  unfold handleChatCompletions. destruct (negb _); [intros [= <- <-]; split; [by left|done]|].
  destruct (read_chat _ _ _) as [[req raw]|e]; [|intros [= <- <-]; split; [by left|done]].
  intros (routed & _ & Hf)%outcome_bind_done.
  destruct routed as [rw|e]; injection Hf as <- <-; (split; [|done]); [|by left].
  unfold forward_routed, finish_forward. destruct (rw_UnifiedWorker rw) as [u|].
  - pose proof (unified_balanced auth w req u n) as Hb. by destruct (fw_error _).
  - destruct (rw_DecodeWorker rw) as [d|]; [|by left]. destruct (rw_PrefillWorker rw) as [p|]; [|by left].
    pose proof (disagg_balanced auth w req raw p d n) as Hb. by destruct (fw_error _).
Qed.
End balance.

(** ** Lemmas: the accounting invariant *)
Lemma outstanding_app ths1 ths2 id : outstanding (ths1 ++ ths2) id = outstanding ths1 id + outstanding ths2 id.
Proof. unfold outstanding. by rewrite fmap_app, zsum_app. Qed.

Lemma outstanding_insert ths i th th' id :
  ths !! i = Some th →
  outstanding (<[i := th']> ths) id = outstanding ths id - occurrences id (th_open th) + occurrences id (th_open th').
Proof.
  intros Hi. pose proof (take_drop_middle ths i th Hi) as E.
  assert (i < length ths)%nat as Hlt by (by eapply lookup_lt_Some).
  rewrite (insert_take_drop ths i th') by done.
  assert (outstanding ths id = outstanding (take i ths ++ th :: drop (S i) ths) id) as -> by (by rewrite E).
  rewrite !outstanding_app. unfold outstanding. rewrite !fmap_cons, !zsum_cons. lia.
Qed.

Lemma outstanding_nonneg ths id : 0 ≤ outstanding ths id.
Proof. apply zsum_nonneg, Forall_fmap, Forall_true. intros th. apply occurrences_nonneg. Qed.

Lemma outstanding_elem ths i th id :
  ths !! i = Some th → occurrences id (th_open th) ≤ outstanding ths id.
Proof.
  intros Hi. apply zsum_elem_le.
  - apply Forall_fmap, Forall_true. intros. apply occurrences_nonneg.
  - apply list_elem_of_fmap. exists th. split; [done|]. by eapply list_elem_of_lookup_2.
Qed.

Lemma outstanding_le ths id : Forall thread_ok ths → outstanding ths id ≤ 2 * Z.of_nat (length ths).
Proof.
  unfold outstanding. induction 1 as [|th ths Hth _ IH]; [done|].
  rewrite fmap_cons, zsum_cons. cbn [length]. pose proof (occurrences_le id (th_open th)).
  assert (length (th_open th) ≤ 2)%nat by (destruct Hth as [[-> _]|(? & ? & _)]; [cbn; lia|done]). lia.
Qed.

(** What an enabled action is, and the thread after it. *)
Lemma thread_ok_advance th a rest :
  thread_ok th → th_rest th = a :: rest → thread_ok (advance a rest th) ∧
  ((∃ ids, a = Begin ids ∧ th_open th = [] ∧ th_open (advance a rest th) = ids) ∨
   (is_record a ∧ th_open (advance a rest th) = th_open th) ∨
   (a = End_ (th_open th) ∧ th_open (advance a rest th) = [])).
Proof.
  unfold thread_ok. intros [[Ho [Hr|(ids & mid & Hl & Hr & Hm)]]|([|m mid] & Hl & Hr & Hm)] E;
    rewrite E in Hr; simplify_eq/=.
  - split; [|left; exists ids; by rewrite Ho]. right. exists mid. cbn. by rewrite Ho.
  - assert (list_difference (th_open th) (th_open th) = []) as Hnil.
    { apply elem_of_nil_inv. intros x. rewrite list_elem_of_difference. tauto. }
    split; [left; split; [done|by left]|]. by right; right.
  - apply Forall_cons in Hm as [Hm1 Hm]. destruct m; try done.
    split; [|right; left; done]. right. by exists mid.
Qed.

Lemma run_action_record a stats id : is_record a → inflight (run_action a stats) id = inflight stats id.
Proof. destruct a; try done. intros _. apply inflight_record. Qed.

Section invariant.
Context {N : Type} `{HTTPClient UpstreamRequest N}.
Context (pr : string → result string ChatCompletionRequest) (po : string → result string (gmap string json)).
Context (c : RebalancingConfig).

(** The counters are exact as long as the requests can be counted at all. *)
Definition proxy_inv (s : ProxyState * list Thread) : Prop :=
  Forall thread_ok s.2 ∧
  (2 * Z.of_nat (length s.2) ≤ int_max → ∀ id, inflight (px_workerStats s.1) id = outstanding s.2 id).

Lemma action_inv st ths i th a rest :
  proxy_inv (st, ths) → ths !! i = Some th → th_rest th = a :: rest →
  proxy_inv (set_stats (run_action a (px_workerStats st)) st, <[i := advance a rest th]> ths).
Proof.
  intros [Hok Hinv] Hi Hr. cbn [fst snd] in Hok, Hinv. pose proof (Forall_lookup_1 _ _ _ _ Hok Hi) as Hth.
  destruct (thread_ok_advance th a rest Hth Hr) as [Hth' Hcases].
  split; cbn [fst snd px_workerStats set_stats]; [by apply Forall_insert|]. rewrite length_insert. intros Hmax id. specialize (Hinv Hmax id).
  rewrite (outstanding_insert ths i th) by done.
  pose proof (outstanding_le ths id Hok). pose proof (outstanding_elem ths i th id Hi).
  pose proof (occurrences_nonneg id (th_open th)) as Hnn.
  pose proof (outstanding_nonneg ths id).
  assert (Forall thread_ok (<[i:=advance a rest th]> ths)) as Hok' by (by apply Forall_insert).
  pose proof (outstanding_le _ id Hok') as Hle. rewrite length_insert, (outstanding_insert ths i th) in Hle by done.
  destruct Hcases as [(ids & -> & Ho & Ho')|[[Hrec Ho']|[-> Ho']]]; rewrite Ho' in *.
  - rewrite Ho in *. change (occurrences id []) with 0 in *. rewrite inflight_begins; lia.
  - rewrite run_action_record by done. lia.
  - change (occurrences id []) with 0. rewrite inflight_ends; lia.
Qed.

Lemma proxy_step_inv s s' : proxy_step pr po c s s' → proxy_inv s → proxy_inv s'.
Proof.
  destruct 1 as [st ths method auth body w n st' f Hf|st ths i th a rest Hi Hr|st ths ws|
    st ths now order ts rs _ _].
  - intros [Hok Hinv]. apply handle_balanced in Hf as [Hb E]. split; cbn [fst snd] in *.
    + apply Forall_app. split; [done|]. constructor; [|done]. by left.
    + rewrite length_app. cbn [length]. intros Hmax id. rewrite E, Hinv, outstanding_app by lia.
      change (outstanding [mkThread [] (fw_actions f)] id) with 0. lia.
  - intros. by eapply action_inv.
  - done.
  - done.
Qed.

Lemma proxy_reachable_inv s : proxy_reachable pr po c s → proxy_inv s.
Proof.
  induction 1 as [|s s' _ IH Hs]; [|by eapply proxy_step_inv]. split; [constructor|]. done.
Qed.

(** C23: the in-flight counters are exact. However the requests, the worker
    synchronisation and the pressure loop interleave, and however the workers
    answer, the number of requests in flight the proxy holds for a worker is the
    number of forwards that have begun on it and not ended; in particular it is
    never negative, and it is 0 for every worker once all requests are done. *)
Theorem inflight_exact st ths :
  proxy_reachable pr po c (st, ths) → 2 * Z.of_nat (length ths) ≤ int_max →
  (∀ id, inflight (px_workerStats st) id = outstanding ths id ∧ 0 ≤ inflight (px_workerStats st) id) ∧
  (Forall (λ th, th_rest th = []) ths → ∀ id, inflight (px_workerStats st) id = 0).
Proof.
  intros [Hok Hinv]%proxy_reachable_inv Hmax. cbn [fst snd] in *. specialize (Hinv Hmax). split.
  - intros id. rewrite Hinv. split; [done|apply outstanding_nonneg].
  - intros Hdone id. rewrite Hinv. clear Hinv Hmax. unfold outstanding.
    induction ths as [|th ths IH]; [done|]. apply Forall_cons in Hdone as [Hd Hdone].
    apply Forall_cons in Hok as [Hth Hok]. rewrite fmap_cons, zsum_cons, IH by done.
    assert (th_open th = []) as ->; [|done].
    destruct Hth as [[Ho _]|(mid & _ & Hr & _)]; [done|]. rewrite Hd in Hr. by destruct mid.
Qed.
End invariant.

(** ** Lemmas: what the client sees *)
Definition fresh (w : Sink) : Prop := sk_accepts w = None ∧ sk_response w = no_response.

(** The response [r] of a worker, relayed: its status, its bytes, its end. *)
Definition relayed (r : HttpResponse) (e : option string) (w : Sink) : Prop :=
  rs_status (sk_response w) = Some (hr_StatusCode r) ∧
  rs_header (sk_response w) = hr_Header r ∧ Forall is_raw (rs_body (sk_response w)) ∧
  raw_bytes (rs_body (sk_response w)) = (delivered (hr_Body r)).1 ∧
  (delivered (hr_Body r)).2 = e ∧ sk_accepts w = None.

Lemma relay_headers kvs resp :
  rs_status resp = None →
  foldl (λ acc kv, add_header kv.1 kv.2 acc) resp kvs =
  mkResponse (rs_header resp ++ kvs)%list None (rs_body resp).
Proof.
  revert resp. induction kvs as [|[k v] kvs IH]; intros [h s b] Hs; cbn in *; subst s; [by rewrite app_nil_r|].
  rewrite IH by done. cbn. by rewrite <-app_assoc.
Qed.

Lemma copy_relayed r stream w w' e :
  fresh w → copyUpstreamBody (hr_Body r) stream (relay_head r w) = (w', e) → relayed r e w'.
Proof.
  intros [Ha Hr] E.
  assert (∃ b, copy_loop b (hr_Body r) (relay_head r w) = (w', e)) as [b Hc].
  { unfold copyUpstreamBody in E. destruct (negb stream); eauto. }
  assert (relay_head r w =
    mkSink (mkResponse (hr_Header r) (Some (hr_StatusCode r)) []) None (sk_flushes w)) as Eh.
  { unfold relay_head. rewrite Hr, relay_headers, Ha by done. done. }
  rewrite Eh in Hc.
  pose proof (copy_loop_delivers b (hr_Body r) (mkSink (mkResponse (hr_Header r) (Some (hr_StatusCode r)) [])
    None (sk_flushes w)) eq_refl ltac:(done)) as H. rewrite Hc in H. cbn in H.
  pose proof (copy_loop_raw b (hr_Body r) (mkSink (mkResponse (hr_Header r) (Some (hr_StatusCode r)) [])
    None (sk_flushes w)) ltac:(by constructor)) as Hraw. rewrite Hc in Hraw.
  destruct H as (H1 & H2 & H3 & H4 & H5). by split_and!.
Qed.

(** The route is a unified worker or a pair. *)
Lemma route_ok g ws stats reports rw :
  FindRequestWorker g ws stats reports = Ok rw →
  (∃ u, rw = mkRequestWorker (Some u) None None) ∨ ∃ p d, rw = mkRequestWorker None (Some p) (Some d).
Proof.
  unfold FindRequestWorker. cbv zeta. intros E. repeat case_match; simplify_eq; eauto.
Qed.

(** *** What a worker is asked, and whether it answered

    The requests as they are to be sent: to the chat endpoint of the worker, the
    client's authorisation passed on. *)
Definition authorization (auth : string) : option string := if decide (auth = "") then None else Some auth.

Definition message_value (m : ChatMessage) : json :=
  JObj [("role", JStr (cm_Role m)); ("content", JStr (cm_Content m))].

Definition chat_to (auth : string) (u : WorkerInfo) (req : ChatCompletionRequest) : UpstreamRequest :=
  mkUpstreamRequest (buildChatCompletionsURL (wi_Endpoint u)) "application/json" (authorization auth) true (BodyChat req).

Definition prefill_to (auth : string) (p : WorkerInfo) (req : ChatCompletionRequest) : UpstreamRequest :=
  mkUpstreamRequest (buildChatCompletionsURL (wi_Endpoint p)) "application/json" (authorization auth) true
    (BodyObject (list_to_map
      [("model", JStr (ccr_Model req)); ("max_tokens", JInt 1);
       ("kv_transfer_params", JObj [("do_remote_decode", JBool true)]);
       ("messages", JArr (message_value <$> ccr_Messages req))])).

(** The client's own body with model and messages, and what the prefill answered. *)
Definition decode_to (auth : string) (d : WorkerInfo) (req : ChatCompletionRequest) (raw : gmap string json)
    (kv : list (string * json)) : UpstreamRequest :=
  let stream := match raw !! "stream" with Some (JBool true) => true | _ => false end in
  mkUpstreamRequest (buildChatCompletionsURL (wi_Endpoint d))
    (if stream then "text/event-stream" else "application/json") (authorization auth) (negb stream)
    (BodyObject (<["kv_transfer_params" := JObj kv]>
      (<["messages" := JArr (message_value <$> ccr_Messages req)]> (<["model" := JStr (ccr_Model req)]> raw)))).

(** The body parses and is a chat request the proxy accepts. *)
Definition chat_body (parse_request : string → result string ChatCompletionRequest)
    (parse_object : string → result string (gmap string json)) (body : result string string)
    (req : ChatCompletionRequest) (raw : gmap string json) : Prop :=
  ∃ bytes, body = Ok bytes ∧ bytes ≠ "" ∧ parse_request bytes = Ok req ∧ parse_object bytes = Ok raw ∧
    ccr_Model req ≠ "" ∧ ccr_Messages req ≠ [] ∧
    Forall (λ m, cm_Content m ≠ "" ∧ cm_Role m ∈ ["system"; "user"; "assistant"]) (ccr_Messages req).

Section answers.
Context {N : Type} `{HTTPClient UpstreamRequest N}.

(** The worker asked from the network [n] answered [r], and the network after. *)
Definition unified_answers (auth : string) (req : ChatCompletionRequest) (u : WorkerInfo) (n n1 : N)
    (r : HttpResponse) : Prop :=
  trim_space (wi_Endpoint u) ≠ "" ∧ NewRequest n (ur_URL (chat_to auth u req)) = None ∧
  Do n (chat_to auth u req) = (n1, Ok r).

(** The prefill worker answered 200 with transfer parameters, and the decode worker,
    asked with them, answered [r]. *)
Definition pair_answers (auth : string) (req : ChatCompletionRequest) (raw : gmap string json)
    (p d : WorkerInfo) (n n2 : N) (r : HttpResponse) : Prop :=
  trim_space (wi_Endpoint p) ≠ "" ∧ trim_space (wi_Endpoint d) ≠ "" ∧
  NewRequest n (ur_URL (prefill_to auth p req)) = None ∧
  ∃ n1 r1 fields kv, Do n (prefill_to auth p req) = (n1, Ok r1) ∧ hr_StatusCode r1 = 200 ∧
    hr_Json r1 = Ok fields ∧
    (list_to_map (reverse fields) : gmap string json) !! "kv_transfer_params" = Some (JObj kv) ∧
    NewRequest n1 (ur_URL (decode_to auth d req raw kv)) = None ∧
    Do n1 (decode_to auth d req raw kv) = (n2, Ok r).

Definition worker_answers (auth : string) (req : ChatCompletionRequest) (raw : gmap string json)
    (rw : RequestWorker) (n n' : N) (r : HttpResponse) : Prop :=
  (∃ u, rw = mkRequestWorker (Some u) None None ∧ unified_answers auth req u n n' r) ∨
  (∃ p d, rw = mkRequestWorker None (Some p) (Some d) ∧ pair_answers auth req raw p d n n' r).

(** *** What the client gets *)

(** A refusal: nobody was asked and nothing counted. *)
Definition refused (status : Z) (n : N) (f : forwarded N) : Prop :=
  fw_net f = n ∧ fw_actions f = [] ∧ rs_status (sk_response (fw_sink f)) = Some status.

(** The worker's answer [r]: its status, its headers, its bytes; and a JSON error
    after them when reading them failed. *)
Definition relays (r : HttpResponse) (f : forwarded N) : Prop :=
  let resp := sk_response (fw_sink f) in
  rs_status resp = Some (hr_StatusCode r) ∧ rs_header resp = hr_Header r ∧
  ∃ raw, Forall is_raw raw ∧ raw_bytes raw = (delivered (hr_Body r)).1 ∧
    match (delivered (hr_Body r)).2 with
    | None => rs_body resp = raw
    | Some _ => ∃ j, rs_body resp = (raw ++ [PJson j])%list
    end.

Definition bad_gateway (f : forwarded N) : Prop :=
  rs_status (sk_response (fw_sink f)) = Some 502 ∧
  ∃ message id, rs_body (sk_response (fw_sink f)) =
    [PJson (JObj [("error", JStr "upstream_error"); ("message", JStr message); ("request_id", JStr id)])].

(** How a forward ends, before the handler's own answer. *)
Definition forward_ends (answers : N → HttpResponse → Prop) (w : Sink) (f : forwarded N) : Prop :=
  (∃ n1 r, answers n1 r ∧ fw_net f = n1 ∧ relayed r (delivered (hr_Body r)).2 (fw_sink f) ∧
     fw_error f = ECopyBody <$> (delivered (hr_Body r)).2) ∨
  (∀ n1 r, ¬ answers n1 r) ∧ ∃ e, fw_error f = Some e ∧ (∀ m, e ≠ ECopyBody m) ∧ fw_sink f = w.

Lemma auth_header_eq auth : auth_header auth = authorization auth.
Proof. unfold auth_header, authorization. destruct (String.eqb_spec auth ""); by case_decide. Qed.

Lemma unified_ends auth w req worker (n : N) :
  fresh w → forward_ends (unified_answers auth req worker n) w (forwardUnifiedChatCompletions auth w req worker n).
Proof.
  intros Hw. unfold forwardUnifiedChatCompletions, unified_request, unified_answers, forward_ends.
  rewrite auth_header_eq. fold (chat_to auth worker req).
  destruct (String.eqb_spec (trim_space (wi_Endpoint worker)) "") as [|Hneworker]; [right; split; [by intros ?? []|by eexists]|].
  destruct (NewRequest n _); [right; split; [by intros ?? (_ & ? & _)|by eexists]|].
  destruct (Do n (chat_to auth worker req)) as [n1 [r|e]] eqn:Ed; [|right; split; [by intros ?? (_ & _ & ?)|by eexists]].
  left. exists n1, r. split; [done|]. destruct (io_copy _ _) as [w' e] eqn:Ec.
  apply (copy_relayed r false) in Ec; [|done]. pose proof Ec as (_ & _ & _ & _ & -> & _). by destruct e.
Qed.

Lemma decode_ends auth w req d raw kv (n n2 : N) w' res :
  fresh w →
  doDecodeRequest auth w (buildChatCompletionsURL (wi_Endpoint d)) (wi_ID d) (ccr_Model req) (ccr_Messages req) kv raw n
    = (n2, w', res) →
  (∃ r, NewRequest n (ur_URL (decode_to auth d req raw kv)) = None ∧
     Do n (decode_to auth d req raw kv) = (n2, Ok r) ∧ relayed r (delivered (hr_Body r)).2 w' ∧
     match res with Ok _ => (delivered (hr_Body r)).2 = None | Err e => Some e = ECopyBody <$> (delivered (hr_Body r)).2 end) ∨
  (∀ n3 r, ¬ (NewRequest n (ur_URL (decode_to auth d req raw kv)) = None ∧
     Do n (decode_to auth d req raw kv) = (n3, Ok r))) ∧ ∃ e, res = Err e ∧ (∀ m, e ≠ ECopyBody m) ∧ w' = w.
Proof.
  intros Hw. unfold doDecodeRequest. assert (decode_request auth (buildChatCompletionsURL (wi_Endpoint d))
    (ccr_Model req) (ccr_Messages req) kv raw = decode_to auth d req raw kv) as ->.
  { unfold decode_request, decode_to. rewrite auth_header_eq.
    assert (isStreamRequested raw = match raw !! "stream" with Some (JBool true) => true | _ => false end) as ->; [|done].
    unfold isStreamRequested. by destruct (raw !! "stream") as [[|[]| | | | |]|]. }
  cbn [ur_URL decode_to]. set (dreq := decode_to auth d req raw kv).
  destruct (NewRequest n _); [intros [= <- <- <-]; right; split; [by intros ?? []|by eexists]|].
  destruct (Do n dreq) as [n1 [r|e]] eqn:Ed; [|intros [= <- <- <-]; right; split; [by intros ?? []|by eexists]].
  destruct (copyUpstreamBody _ _ _) as [w2 e] eqn:Ec. apply copy_relayed in Ec; [|done].
  pose proof Ec as (_ & _ & _ & _ & He & _).
  destruct e; intros [= <- <- <-]; left; exists r; rewrite He in *; by split_and!.
Qed.

Lemma pair_ends auth w req raw p d (n : N) :
  fresh w → forward_ends (pair_answers auth req raw p d n) w (forwardDisaggChatCompletion auth w req raw p d n).
Proof.
  intros Hw. unfold forwardDisaggChatCompletion, pair_answers.
  destruct (String.eqb_spec (trim_space (wi_Endpoint p)) "") as [|Hnep]; [right; split; [by intros ?? []|by eexists]|].
  destruct (String.eqb_spec (trim_space (wi_Endpoint d)) "") as [|Hned]; [right; split; [by intros ?? (_ & ? & _)|by eexists]|].
  unfold doPrefillRequest, prefill_request. rewrite auth_header_eq. fold (prefill_to auth p req).
  change (ur_URL (prefill_to auth p req)) with (buildChatCompletionsURL (wi_Endpoint p)).
  destruct (NewRequest n _); [right; split; [by intros ?? (_ & _ & ? & _)|by eexists]|].
  change (mkUpstreamRequest _ _ _ _ _) with (prefill_to auth p req).
  destruct (Do n (prefill_to auth p req)) as [n1 [r1|e1]] eqn:E1;
    [|right; split; [by intros ?? (_ & _ & _ & ? & ? & ? & ? & ? & _)|by eexists]].
  destruct (Z.eqb_spec (hr_StatusCode r1) StatusOK) as [Es|Es]; cbn [negb].
  2: { right; split; [|by eexists]. intros n2 r (_ & _ & _ & ? & r0 & ? & ? & [= <- <-] & ? & _). done. }
  destruct (hr_Json r1) as [fields|e] eqn:Ej.
  2: { right; split; [|by eexists]. intros n2 r (_ & _ & _ & ? & r0 & ? & ? & [= <- <-] & _ & ? & _). congruence. }
  destruct ((list_to_map (reverse fields) : gmap string json) !! "kv_transfer_params") as [j|] eqn:Ekv.
  2: { right; split; [|by eexists]. intros n2 r (_ & _ & _ & ? & r0 & f0 & ? & [= <- <-] & _ & Hf & Hkv & _).
       assert (f0 = fields) as -> by congruence. congruence. }
  assert ((∃ kv, j = JObj kv) ∨ ∀ kv, j ≠ JObj kv) as [[kv ->]|Hj] by (destruct j; eauto).
  2: { assert (∀ A (x y : A), match j with JObj kv => x | _ => y end = y) as Hm by (intros; destruct j; try done; by destruct (Hj fields0)).
       right; split; [|destruct j; try (by eexists); by destruct (Hj fields0)].
       intros n2 r (_ & _ & _ & ? & r0 & f0 & kv & [= <- <-] & _ & Hf & Hkv & _).
       assert (f0 = fields) as -> by congruence. rewrite Ekv in Hkv. injection Hkv as ->. by destruct (Hj kv). }
  destruct (doDecodeRequest _ _ _ _ _ _ _ _ n1) as [[n2 w'] res] eqn:Ed.
  apply decode_ends in Ed; [|done]. destruct Ed as [(r & Hnr & Hdo & Hrel & Hres)|(Hno & e & -> & He & ->)].
  - left. exists n2, r. split; [split_and!; try done; by exists n1, r1, fields, kv|].
    destruct res as [a|e]; cbn; (split_and!; [done..|]); [by rewrite Hres|exact Hres].
  - right. split; [|by eexists]. intros n3 r (_ & _ & _ & ? & r0 & f0 & kv0 & [= <- <-] & _ & Hf & Hkv & Hnr & Hdo).
    assert (f0 = fields) as -> by congruence. assert (kv0 = kv) as -> by congruence. by eapply Hno.
Qed.

Lemma finish_ends answers seq w f :
  fresh w → forward_ends answers w f →
  (∃ n1 r, answers n1 r ∧ fw_net (finish_forward seq f) = n1 ∧ relays r (finish_forward seq f)) ∨
  (∀ n1 r, ¬ answers n1 r) ∧ bad_gateway (finish_forward seq f).
Proof.
  intros [Ha Hr] [(n1 & r & Hans & Hnet & (H1 & H2 & H3 & H4 & _ & _) & He)|(Hno & e & He & Hne & Hw)];
    [left; exists n1, r; split; [done|]|right; split; [done|]].
  - unfold finish_forward. rewrite He. unfold relays. destruct (delivered (hr_Body r)).2 as [m|] eqn:Em; cbn.
    + split; [done|]. destruct (sk_response (fw_sink f)) as [h st b]. cbn in H1, H2, H3, H4. subst h st. cbn.
      do 2 (split; [done|]). exists b. split_and!; try done. by eexists.
    + split; [done|]. do 2 (split; [done|]). by exists (rs_body (sk_response (fw_sink f))).
  - unfold finish_forward, bad_gateway. rewrite He, Hw. cbn. rewrite Hr. cbn. split; [done|]. by eexists _, _.
Qed.

Lemma read_chat_spec pr po body :
  match read_chat pr po body with
  | Ok (req, raw) => chat_body pr po body req raw
  | Err _ => ∀ req raw, ¬ chat_body pr po body req raw
  end.
Proof.
  unfold read_chat, chat_body. destruct body as [bytes|e]; [|by intros ?? (? & ? & _)].
  destruct (String.eqb_spec bytes "") as [Hb|Hb]; [by intros ?? (? & [= <-] & ? & _)|].
  destruct (pr bytes) as [req|e] eqn:Er; [|intros ?? (? & [= <-] & _ & ? & _); congruence].
  destruct (po bytes) as [raw|e] eqn:Eo; [|intros ?? (? & [= <-] & _ & _ & ? & _); congruence].
  assert (∀ ms, validate_messages ms = None ↔
    Forall (λ m, cm_Content m ≠ "" ∧ cm_Role m ∈ ["system"; "user"; "assistant"]) ms) as Hv.
  { clear. induction ms as [|m ms IH]; cbn [validate_messages]; [done|]. rewrite Forall_cons.
    assert (valid_role (cm_Role m) = true ↔ cm_Role m ∈ ["system"; "user"; "assistant"]) as Hrole.
    { unfold valid_role. rewrite existsb_exists. setoid_rewrite <-list_elem_of_In.
      split; [by intros (x & ? & <-%String.eqb_eq)|]. intros Hin. exists (cm_Role m). by rewrite String.eqb_refl. }
    destruct (String.eqb_spec (cm_Content m) ""); [split; [done|by intros [[] _]]|].
    rewrite <-Hrole. destruct (valid_role (cm_Role m)); cbn [negb]; [rewrite IH; tauto|].
    split; [done|by intros [[] _]]. }
  unfold Chat_Validate. destruct (String.eqb_spec (ccr_Model req) "").
  { intros ?? (? & [= <-] & _ & ? & _ & ? & _). congruence. }
  destruct (ccr_Messages req) as [|m ms] eqn:Em; cbn [length Nat.ltb Nat.leb].
  { intros ?? (? & [= <-] & _ & ? & _ & _ & ? & _). congruence. }
  destruct (validate_messages (m :: ms)) as [e|] eqn:Ev.
  - intros req' raw' (b & [= <-] & _ & Hreq & _ & _ & _ & Hall). assert (req' = req) as -> by congruence.
    rewrite Em, <-Hv in Hall. congruence.
  - apply Hv in Ev. exists bytes. by rewrite Em.
Qed.

(** C24: the client gets exactly one answer, that of the worker it was routed to.
    A request that is not a POST is refused with 405, one whose body is not a
    valid chat request with 400, one the router finds no worker for with 503;
    nobody is asked then and no counter touched. Otherwise the routed worker is
    asked (of a pair, first the prefill and, with what it answered, the decode
    worker); if it answers, the client gets its status, its headers and exactly
    its bytes, a JSON error being appended when they break off; if not, 502 and a
    JSON error and nothing else. So the 501 branch is never reached. The handler
    returns: a nil worker panics it ([nil_worker_panics]). *)
Theorem handleChat_answers pr po method auth body w st (n : N) st' f :
  fresh w → handleChatCompletions pr po method auth body w st n = Done (st', f) →
  (method ≠ "POST" → refused 405 n f) ∧
  (method = "POST" → (∀ req raw, ¬ chat_body pr po body req raw) → refused 400 n f) ∧
  (∀ req raw, method = "POST" → chat_body pr po body req raw →
     ∃ workers, px_inferenceWorkers st = Some <$> workers ∧
     match FindRequestWorker (ccr_Model req) workers (px_workerStats st) (px_pressureReport st) with
     | Err _ => refused 503 n f
     | Ok rw =>
         (∃ n1 r, worker_answers auth req raw rw n n1 r ∧ fw_net f = n1 ∧ relays r f) ∨
         (∀ n1 r, ¬ worker_answers auth req raw rw n n1 r) ∧ bad_gateway f
     end).
Proof.
  intros Hw. pose proof Hw as [Ha Hr]. unfold handleChatCompletions.
  destruct (String.eqb_spec method "POST") as [->|Hm]; cbn [negb].
  2: { intros [= <- <-]. split; [|done]. intros _. unfold refused. cbn. by rewrite Hr. }
  pose proof (read_chat_spec pr po body) as Hbody.
  destruct (read_chat _ _ _) as [[req raw]|e].
  2: { intros [= <- <-]. split; [done|]. split; [|intros req raw _ Hb; by destruct (Hbody req raw)].
       intros _ _. unfold refused. cbn. by rewrite Hr. }
  intros (routed & Hrt & Hf)%outcome_bind_done. split; [done|]. split; [intros _ Hno; by destruct (Hno req raw)|].
  intros req' raw' _ (b & Hb & _ & Hreq & Hraw & _).
  destruct Hbody as (b0 & Hb0 & _ & Hreq0 & Hraw0 & _). rewrite Hb in Hb0. injection Hb0 as <-.
  assert (req' = req) as -> by congruence. assert (raw' = raw) as -> by congruence. clear Hreq0 Hraw0.
  unfold find_request_worker in Hrt. destruct (mapM id _) as [workers|] eqn:Ews; [|done].
  injection Hrt as Hrt. exists workers. split.
  { apply mapM_Some in Ews. clear -Ews. cbn [px_inferenceWorkers next_seq] in Ews.
    induction Ews as [|x y l k Hx _ IH]; [done|]. cbn in *. by f_equal. }
  cbn [px_workerStats px_pressureReport next_seq] in Hrt. rewrite Hrt. destruct routed as [rw|e].
  2: { injection Hf as <- <-. unfold refused. cbn. by rewrite Hr. }
  injection Hf as <- <-. unfold forward_routed, worker_answers.
  apply route_ok in Hrt as [[u ->]|(p & d & ->)]; cbn.
  - destruct (finish_ends _ (px_requestSeq (next_seq st)) w _ Hw (unified_ends auth w req u n Hw))
      as [(n1 & r & Hu & Hn)|[Hno Hbad]]; [left; exists n1, r; split; [left; by exists u|done]|right; split; [|done]].
    intros n1 r [(u' & [= <-] & Hu)|(p & d & [=] & _)]. by eapply Hno.
  - destruct (finish_ends _ (px_requestSeq (next_seq st)) w _ Hw (pair_ends auth w req raw p d n Hw))
      as [(n1 & r & Hu & Hn)|[Hno Hbad]]; [left; exists n1, r; split; [right; by exists p, d|done]|right; split; [|done]].
    intros n1 r [(u' & [=] & _)|(p' & d' & [= <- <-] & Hu)]. by eapply Hno.
Qed.
End answers.

(** ** Witnesses *)
Definition sample_parse (s : string) : result string ChatCompletionRequest := Ok sample_chat.
Definition sample_object (s : string) : result string (gmap string json) := Ok {["model" := JStr "llama"]}.

Definition serving : ProxyState :=
  set_workers [Some (route_worker "u0" Unified)] NewProxy.

Definition ok_net : FakeNet := mkFakeNet (Ok (sample_answer [("hi", Continues); (" there", EOF)])).

Definition sample_forward : forwarded FakeNet :=
  finish_forward 1 (forwardUnifiedChatCompletions "" sample_sink sample_chat
    (route_worker "u0" Unified) ok_net).

(** A pair of workers: the decode worker's answer arrives in two reads. *)
Definition serving_pair : ProxyState :=
  set_workers [Some (route_worker "p0" Prefill); Some (route_worker "d0" Decode)] NewProxy.

Lemma handleChat_answers_witness :
  ∃ st f, handleChatCompletions sample_parse sample_object "POST" "" (Ok "{}") sample_sink serving_pair ok_net =
      Done (st, f) ∧
    rs_status (sk_response (fw_sink f)) = Some 200 ∧ raw_bytes (rs_body (sk_response (fw_sink f))) = "hi there".
Proof.
  eexists _, _. split; [vm_compute; reflexivity|].
  match goal with |- rs_status (sk_response (fw_sink ?f)) = _ ∧ _ =>
    destruct (handleChat_answers sample_parse sample_object "POST" "" (Ok "{}") sample_sink serving_pair ok_net
      (set_workers (px_inferenceWorkers serving_pair) (next_seq NewProxy)) f) as (_ & _ & Hans) end.
  - done.
  - vm_compute. reflexivity.
  - destruct (Hans sample_chat {["model" := JStr "llama"]} eq_refl) as (ws & Hws & Hrw).
    { exists "{}". split_and!; try done. constructor; [|constructor]. split; [done|]. right. left. }
    assert (ws = [route_worker "p0" Prefill; route_worker "d0" Decode]) as ->.
    { destruct ws as [|a [|b [|c ws]]]; try discriminate Hws. by injection Hws as <- <-. }
    match type of Hrw with match ?x with Ok _ => _ | Err _ => _ end =>
      assert (x = Ok (mkRequestWorker None (Some (route_worker "p0" Prefill)) (Some (route_worker "d0" Decode)))) as Ex
        by (vm_compute; reflexivity) end.
    rewrite Ex in Hrw. destruct Hrw as [(n1 & r & Hr & _ & Hst & _ & raw & _ & Hraw & Hbody)|[Hno _]].
    + destruct Hr as [(u & Eu & _)|(p & d & Epd & _ & _ & _ & n2 & r1 & fs & kv & Hdo1 & _ & _ & _ & _ & Hdo)];
        [discriminate Eu|].
      assert (r = sample_answer [("hi", Continues); (" there", EOF)]) as ->.
      { injection Hdo1 as <- _. cbn in Hdo. by injection Hdo as _ <-. }
      split; [exact Hst|]. cbn [delivered hr_Body sample_answer snd] in Hbody. rewrite Hbody. exact Hraw.
    + exfalso. apply (Hno ok_net (sample_answer [("hi", Continues); (" there", EOF)])). right.
      eexists _, _. split; [reflexivity|]. split_and!; try done.
      exists ok_net, (sample_answer [("hi", Continues); (" there", EOF)]), [("kv_transfer_params", JObj [])], [].
      split_and!; try done; vm_compute; reflexivity.
Defined.

Lemma inflight_exact_witness :
  inflight (px_workerStats (set_stats (run_action (Begin ["u0"]) ∅) (next_seq serving))) "u0" = 1 ∧
  0 ≤ inflight (px_workerStats (set_stats (run_action (Begin ["u0"]) ∅) (next_seq serving))) "u0".
Proof.
  split; [vm_compute; reflexivity|].
  eapply (inflight_exact (N:=FakeNet) sample_parse sample_object sample_rebalancing _
    [mkThread ["u0"] [Record_ "u0" "decode" (f64_of_int 40); End_ ["u0"]]]); [|vm_compute; discriminate].
  pose (th := mkThread [] [Begin ["u0"]; Record_ "u0" "decode" (f64_of_int 40); End_ ["u0"]]).
  apply (proxy_next _ _ _ (next_seq serving, [th])).
  2: { refine (step_action _ _ _ (next_seq serving) [th] 0 th (Begin ["u0"])
    [Record_ "u0" "decode" (f64_of_int 40); End_ ["u0"]] _ _); reflexivity. }
  apply (proxy_next _ _ _ (serving, [])).
  - apply (proxy_next _ _ _ (NewProxy, [])); [apply proxy_init|apply step_sync].
  - assert ([th] = ([] ++ [mkThread [] (fw_actions sample_forward)])%list) as -> by (vm_compute; reflexivity).
    apply (step_request _ _ _ serving [] "POST" "" (Ok "{}") sample_sink ok_net). vm_compute. reflexivity.
Defined.

(** ** Findings *)

(** When the answer of a worker breaks off, the proxy appends a JSON error to
    what it already relayed, under the worker's status. *)
Lemma broken_answer_gets_json :
  match handleChatCompletions sample_parse sample_object "POST" "" (Ok "{}") sample_sink serving
          (mkFakeNet (Ok (sample_answer [("hi", ReadError "reset")]))) with
  | Done (_, f) => rs_status (sk_response (fw_sink f)) = Some 200 ∧
      rs_body (sk_response (fw_sink f)) =
        [PRaw "hi"; PJson (jfields [("error", "upstream_error");
           ("message", "failed to copy upstream response: reset"); ("request_id", "1")])]
  | Panicked => False
  end.
Proof. vm_compute. done. Qed.

(** A null in the scheduler's list of workers panics the next request. *)
Lemma nil_worker_panics :
  handleChatCompletions sample_parse sample_object "POST" "" (Ok "{}") sample_sink
    (set_workers [None] NewProxy) ok_net = Panicked.
Proof. vm_compute. reflexivity. Qed.
