(* ===== verification/EventBus.v ===== *)
(** * internal/dashboard/eventbus.go: the event bus

    Subscribers hold buffered channels; [Publish] never blocks and drops the
    event for a subscriber whose buffer is full.  Channels live in a heap, since
    a client keeps its channel after the bus forgets it; sending on a closed
    channel and closing one twice panic. *)

From Stdlib Require Import ZArith Lia.
From stdpp Require Import base option list gmap.
From S2P Require Import Prelude.
Open Scope nat_scope.

Section bus.
Context {E : Type}.

Record Channel : Type := mkChannel {
  ch_buffer : list E;
  ch_closed : bool
}.

Record EventBus : Type := mkEventBus {
  eb_heap : gmap nat Channel;
  eb_subscribers : gset nat
}.

Definition NewEventBus : EventBus := mkEventBus ∅ ∅.

(** [make(chan SSEEvent, 64)] *)
Definition capacity : nat := 64.

Definition Subscribe (b : EventBus) : EventBus * nat :=
  let ch := fresh (dom (eb_heap b)) in
  (mkEventBus (<[ch := mkChannel [] false]> (eb_heap b)) ({[ch]} ∪ eb_subscribers b), ch).

(** [close(ch)] *)
Definition close_chan (ch : nat) (heap : gmap nat Channel) : outcome (gmap nat Channel) :=
  match heap !! ch with
  | Some c => if ch_closed c then Panicked else Done (<[ch := mkChannel (ch_buffer c) true]> heap)
  | None => Panicked
  end.

Definition Unsubscribe (ch : nat) (b : EventBus) : outcome EventBus :=
  if decide (ch ∈ eb_subscribers b) then
    heap ← close_chan ch (eb_heap b);
    Done (mkEventBus heap (eb_subscribers b ∖ {[ch]}))
  else Done b.

(** [select { case ch <- event: default: }] *)
Definition try_send (event : E) (heap : gmap nat Channel) (ch : nat) : outcome (gmap nat Channel) :=
  match heap !! ch with
  | Some c =>
      if ch_closed c then Panicked
      else if length (ch_buffer c) <? capacity
      then Done (<[ch := mkChannel (ch_buffer c ++ [event]) false]> heap)
      else Done heap
  | None => Panicked
  end.

(** The loop over the set of subscribers, in any order. *)
Definition Publish (order : list nat) (event : E) (b : EventBus) : outcome EventBus :=
  heap ← foldM (try_send event) (eb_heap b) order;
  Done (mkEventBus heap (eb_subscribers b)).

(** [event, ok := <-ch] when the buffer is not empty. *)
Definition receive (ch : nat) (b : EventBus) : option (E * EventBus) :=
  c ← eb_heap b !! ch;
  match ch_buffer c with
  | [] => None
  | e :: rest => Some (e, mkEventBus (<[ch := mkChannel rest (ch_closed c)]> (eb_heap b)) (eb_subscribers b))
  end.

(** ** Specification

    Per channel, the events published while it was subscribed and those its
    client received. *)
Record history : Type := mkHistory {
  hi_published : list E;
  hi_received : list E
}.

Definition offer (event : E) (h : history) : history := mkHistory (hi_published h ++ [event]) (hi_received h).
Definition take_in (event : E) (h : history) : history := mkHistory (hi_published h) (hi_received h ++ [event]).

Inductive bus_step : EventBus * gmap nat history → EventBus * gmap nat history → Prop :=
  | bus_subscribe b hs b' ch :
      Subscribe b = (b', ch) → bus_step (b, hs) (b', <[ch := mkHistory [] []]> hs)
  | bus_unsubscribe b hs b' ch : Unsubscribe ch b = Done b' → bus_step (b, hs) (b', hs)
  | bus_publish b hs b' order e :
      order ≡ₚ elements (eb_subscribers b) → Publish order e b = Done b' →
      bus_step (b, hs) (b', map_imap (λ ch h,
        Some (if decide (ch ∈ eb_subscribers b) then offer e h else h)) hs)
  | bus_receive b hs b' ch e :
      receive ch b = Some (e, b') → bus_step (b, hs) (b', alter (take_in e) ch hs).

Inductive bus_reachable : EventBus * gmap nat history → Prop :=
  | bus_init : bus_reachable (NewEventBus, ∅)
  | bus_next s s' : bus_reachable s → bus_step s s' → bus_reachable s'.

(** What one channel may have lost: nothing while at most [capacity] events
    were published to it, and never the order. *)
Definition channel_ok (c : Channel) (h : history) : Prop :=
  sublist (hi_received h ++ ch_buffer c) (hi_published h) ∧ length (ch_buffer c) ≤ capacity ∧
  (length (hi_published h) ≤ capacity → hi_received h ++ ch_buffer c = hi_published h).

Definition bus_inv (s : EventBus * gmap nat history) : Prop :=
  (∀ ch, ch ∈ eb_subscribers s.1 → ∃ c, eb_heap s.1 !! ch = Some c ∧ ch_closed c = false) ∧
  (∀ ch c, eb_heap s.1 !! ch = Some c → ∃ h, s.2 !! ch = Some h ∧ channel_ok c h).

(** ** Lemmas *)
Definition sent (event : E) (c : Channel) : Channel :=
  if length (ch_buffer c) <? capacity then mkChannel (ch_buffer c ++ [event]) (ch_closed c) else c.

Lemma try_send_spec event heap ch c :
  heap !! ch = Some c → ch_closed c = false → try_send event heap ch = Done (<[ch := sent event c]> heap).
Proof.
  intros Hc Ho. unfold try_send, sent. rewrite Hc, Ho. destruct (_ <? _); [done|]. by rewrite insert_id.
Qed.

(** Publishing sends to each subscriber once, whatever the order. *)
Lemma publish_heap event order heap :
  NoDup order → (∀ ch, ch ∈ order → ∃ c, heap !! ch = Some c ∧ ch_closed c = false) →
  ∃ heap', foldM (try_send event) heap order = Done heap' ∧
    ∀ ch, heap' !! ch = (if decide (ch ∈ order) then sent event <$> heap !! ch else heap !! ch).
Proof.
  revert heap. induction order as [|k order IH]; intros heap Hnd Hopen; cbn [foldM].
  { exists heap. split; [done|]. intros ch. by rewrite decide_False by apply not_elem_of_nil. }
  apply NoDup_cons in Hnd as [Hk Hnd]. destruct (Hopen k ltac:(left)) as (c & Hc & Ho).
  rewrite (try_send_spec event heap k c Hc Ho). cbn [mbind outcome_bind].
  destruct (IH (<[k := sent event c]> heap) Hnd) as (heap' & -> & Hl).
  { intros ch Hch. rewrite lookup_insert_ne by (intros ->; done). apply Hopen. by right. }
  exists heap'. split; [done|]. intros ch. rewrite Hl. destruct (decide (ch = k)) as [->|Hne].
  - rewrite decide_False by done. rewrite decide_True by left. by rewrite lookup_insert_eq, Hc.
  - rewrite lookup_insert_ne by done. destruct (decide (ch ∈ order)) as [Hin|Hin].
    + by rewrite decide_True by (by right).
    + rewrite decide_False; [done|]. by intros [->|?]%elem_of_cons.
Qed.

Lemma channel_ok_sent event c h : channel_ok c h → channel_ok (sent event c) (offer event h).
Proof.
  intros (Hs & Hl & He). unfold sent, offer, channel_ok. destruct (Nat.ltb_spec (length (ch_buffer c)) capacity); cbn.
  - rewrite app_assoc. split_and!.
    + by apply sublist_app.
    + rewrite length_app. cbn. lia.
    + rewrite length_app. cbn. intros. rewrite He by lia. done.
  - split_and!; [by apply sublist_inserts_r|done|]. rewrite length_app. cbn. intros.
    specialize (He ltac:(lia)). apply (f_equal length) in He. rewrite length_app in He. lia.
Qed.

Lemma close_keeps_ok c h b : channel_ok c h → channel_ok (mkChannel (ch_buffer c) b) h.
Proof. done. Qed.

Lemma Unsubscribe_spec ch b hs :
  bus_inv (b, hs) → ∃ b', Unsubscribe ch b = Done b' ∧ bus_inv (b', hs).
Proof.
  intros [Hsub Hheap]. cbn in *. unfold Unsubscribe. case_decide as Hin; [|by exists b].
  destruct (Hsub ch Hin) as (c & Hc & Ho). unfold close_chan. rewrite Hc, Ho. cbn.
  eexists. split; [done|]. split; cbn.
  - intros k [Hk Hne]%elem_of_difference. rewrite lookup_insert_ne by set_solver. by apply Hsub.
  - intros k c' Hk. apply lookup_insert_Some in Hk as [[<- <-]|[_ Hk]]; [|by apply Hheap].
    destruct (Hheap ch c Hc) as (h & Hh & Hok). exists h. by split.
Qed.

Lemma Publish_spec order e b hs :
  bus_inv (b, hs) → order ≡ₚ elements (eb_subscribers b) →
  ∃ b', Publish order e b = Done b' ∧ eb_subscribers b' = eb_subscribers b ∧
    bus_inv (b', map_imap (λ ch h, Some (if decide (ch ∈ eb_subscribers b) then offer e h else h)) hs).
Proof.
  intros [Hsub Hheap] Ho. cbn in *. unfold Publish.
  assert (∀ ch, ch ∈ order ↔ ch ∈ eb_subscribers b) as Helem.
  { intros ch. rewrite Ho. apply elem_of_elements. }
  destruct (publish_heap e order (eb_heap b)) as (heap' & -> & Hl).
  { rewrite Ho. apply NoDup_elements. }
  { intros ch Hch%Helem. by apply Hsub. }
  cbn. eexists. split; [done|]. split; [done|]. split; cbn.
  - intros ch Hch. destruct (Hsub ch Hch) as (c & Hc & Hopen). rewrite Hl, Hc, decide_True by (by apply Helem).
    exists (sent e c). split; [done|]. unfold sent. by destruct (_ <? _).
  - intros ch c' Hc'. rewrite Hl in Hc'. rewrite map_lookup_imap. destruct (decide (ch ∈ order)) as [Hin|Hin].
    + destruct (eb_heap b !! ch) as [c|] eqn:Ec; [|done]. injection Hc' as <-.
      destruct (Hheap ch c Ec) as (h & -> & Hok). cbn. rewrite decide_True by (by apply Helem).
      eexists. split; [done|]. by apply channel_ok_sent.
    + destruct (Hheap ch c' Hc') as (h & -> & Hok). cbn. rewrite decide_False by (by rewrite <-Helem). eauto.
Qed.

Lemma bus_step_inv s s' : bus_step s s' → bus_inv s → bus_inv s'.
Proof.
  destruct 1 as [b hs b' ch Hs|b hs b' ch Hu|b hs b' order e Ho Hp|b hs b' ch e Hr]; intros Hinv.
  - destruct Hinv as [Hsub Hheap]. cbn in *. unfold Subscribe in Hs. injection Hs as <- <-.
    set (ch := fresh (dom (eb_heap b))). assert (eb_heap b !! ch = None) as Hfresh.
    { apply not_elem_of_dom. apply is_fresh. }
    split; cbn.
    + intros k [->%elem_of_singleton|Hk]%elem_of_union; [rewrite lookup_insert_eq; eauto|].
      destruct (Hsub k Hk) as (c & Hc & ?). exists c. rewrite lookup_insert_ne by congruence. by split.
    + intros k c Hk. apply lookup_insert_Some in Hk as [[<- <-]|[Hne Hk]].
      * exists (mkHistory [] []). rewrite lookup_insert_eq. split; [done|]. split_and!; [done|cbn; lia|done].
      * rewrite lookup_insert_ne by done. by apply Hheap.
  - destruct (Unsubscribe_spec ch b hs Hinv) as (b2 & E2 & ?). congruence.
  - destruct (Publish_spec order e b hs Hinv Ho) as (b2 & E2 & _ & ?). congruence.
  - destruct Hinv as [Hsub Hheap]. cbn in *. unfold receive in Hr.
    destruct (eb_heap b !! ch) as [c|] eqn:Ec; cbn in Hr; [|done].
    destruct (ch_buffer c) as [|e0 rest] eqn:Eb; [done|]. injection Hr as -> <-. split; cbn.
    + intros k Hk. destruct (Hsub k Hk) as (ck & Hck & Ho). destruct (decide (k = ch)) as [->|Hne].
      * rewrite lookup_insert_eq. eexists. split; [done|]. cbn. congruence.
      * rewrite lookup_insert_ne by done. eauto.
    + intros k ck Hk. apply lookup_insert_Some in Hk as [[<- <-]|[Hne Hk]].
      * destruct (Hheap ch c Ec) as (h & Hh & (Hs & Hl & He)). exists (take_in e h).
        rewrite lookup_alter_eq, Hh. split; [done|]. rewrite Eb in *. unfold channel_ok, take_in. cbn in *.
        rewrite <-app_assoc. cbn. split_and!; [done|lia|done].
      * rewrite lookup_alter_ne by done. by apply Hheap.
Qed.

Lemma bus_reachable_inv s : bus_reachable s → bus_inv s.
Proof.
  induction 1 as [|s s' _ IH Hs]; [|by eapply bus_step_inv]. split; cbn.
  - intros ch Hch. by apply elem_of_empty in Hch.
  - intros ch c Hc. by rewrite lookup_empty in Hc.
Qed.

(** The event bus is safe and lossy only when a client lags. In every
    reachable state publishing, in any order of the subscribers, and
    unsubscribing, even twice, do not panic; what a client received and what its
    channel still holds are events published while it was subscribed, in order;
    nothing is lost as long as at most 64 were published, and no channel ever
    holds more than 64. *)
Theorem bus_safe b hs :
  bus_reachable (b, hs) →
  (∀ order e, order ≡ₚ elements (eb_subscribers b) → ∃ b', Publish order e b = Done b') ∧
  (∀ ch, ∃ b', Unsubscribe ch b = Done b' ∧ ∃ b'', Unsubscribe ch b' = Done b'') ∧
  ∀ ch c, eb_heap b !! ch = Some c → ∃ h, hs !! ch = Some h ∧ channel_ok c h.
Proof.
  intros Hinv%bus_reachable_inv. split_and!.
  - intros order e Ho. destruct (Publish_spec order e b hs Hinv Ho) as (b' & ? & _). eauto.
  - intros ch. destruct (Unsubscribe_spec ch b hs Hinv) as (b' & ? & Hinv').
    destruct (Unsubscribe_spec ch b' hs Hinv') as (b'' & ? & _). eauto.
  - apply Hinv.
Qed.
End bus.

Arguments EventBus E : clear implicits.

(** ** Witness *)
Definition sample_bus (buffer : list nat) : EventBus nat :=
  mkEventBus {[0 := mkChannel buffer false]} {[0]}.

Definition sample_history (published : list nat) : gmap nat (history (E:=nat)) :=
  {[0 := mkHistory published []]}.

Lemma bus_safe_witness :
  ∃ c, eb_heap (sample_bus [7; 8]) !! 0 = Some c ∧ ch_buffer c = [7; 8] ∧
    ∃ h, sample_history [7; 8] !! 0 = Some h ∧ channel_ok c h.
Proof.
  exists (mkChannel [7; 8] false). split; [reflexivity|]. split; [reflexivity|].
  refine (proj2 (proj2 (bus_safe (sample_bus [7; 8]) (sample_history [7; 8]) _)) 0 _ _); [|reflexivity].
  apply (bus_next (sample_bus [7], sample_history [7])).
  2: { apply (bus_publish (sample_bus [7]) (sample_history [7]) _ [0] 8); [vm_compute|]; reflexivity. }
  apply (bus_next (sample_bus [], sample_history [])).
  2: { apply (bus_publish (sample_bus []) (sample_history []) _ [0] 7); [vm_compute|]; reflexivity. }
  apply (bus_next (NewEventBus, ∅)); [apply bus_init|].
  apply (bus_subscribe NewEventBus ∅ (sample_bus []) 0). vm_compute. reflexivity.
Defined.
