(* ===== verification/LogBuffer.v ===== *)
(** * internal/dashboard/logbuffer.go: the ring of recent log lines

    [Write] is the [io.Writer] the log package writes to: it parses each line
    into an entry, stores it in a ring and publishes it on the event bus.
    [GetRecent] reads the ring in chronological order. *)

From Stdlib Require Import ZArith Lia Ascii String.
From stdpp Require Import base option list strings gmap.
From S2P Require Import Prelude GoStrings EventBus.
Open Scope string_scope.
Open Scope Z_scope.
Open Scope go_scope.

Record LogEntry : Type := mkLogEntry {
  le_Timestamp : string;
  le_Category : string;
  le_Message : string;
  le_Raw : string
}.

Record LogBuffer : Type := mkLogBuffer {
  lb_entries : list LogEntry;
  lb_size : Z;
  lb_pos : Z;
  lb_count : Z
}.

Definition zeroEntry : LogEntry := mkLogEntry "" "" "" "".

(** [make([]LogEntry, size)] panics on a negative size. *)
Definition NewLogBuffer (size : Z) : outcome LogBuffer :=
  if size <? 0 then Panicked
  else Done (mkLogBuffer (repeat zeroEntry (Z.to_nat size)) size 0 0).

(** [s[i:j]] for indices within the string. *)
Definition str_slice (i j : nat) (s : string) : string := String.substring i (j - i) s.

Definition parseLine (line : string) : LogEntry :=
  match str_index line "[", str_index line "]" with
  | Some openBracket, Some closeBracket =>
      if (openBracket <? closeBracket)%nat then
        mkLogEntry (trim_space (str_slice 0 openBracket line))
          (str_slice (S openBracket) closeBracket line)
          (trim_space (str_slice (S closeBracket) (String.length line) line)) line
      else mkLogEntry "" "GENERAL" line line
  | _, _ => mkLogEntry "" "GENERAL" line line
  end.

(** [lb.entries[lb.pos%lb.size] = entry]: division by zero and an index out of
    range panic. *)
Definition store (lb : LogBuffer) (entry : LogEntry) : outcome LogBuffer :=
  if lb_size lb =? 0 then Panicked
  else
    let i := Z.rem (lb_pos lb) (lb_size lb) in
    if (0 <=? i) && (i <? Z.of_nat (length (lb_entries lb))) then
      Done (mkLogBuffer (<[Z.to_nat i := entry]> (lb_entries lb)) (lb_size lb)
              (lb_pos lb ⊞ 1) (lb_count lb ⊞ 1))
    else Panicked.

(** One line: stored under the lock, then published. *)
Definition write_line (st : LogBuffer * EventBus LogEntry) (line : list nat * string) :
    outcome (LogBuffer * EventBus LogEntry) :=
  if String.eqb line.2 "" then Done st
  else
    let entry := parseLine line.2 in
    lb ← store st.1 entry;
    bus ← Publish line.1 entry st.2;
    Done (lb, bus).

(** [orders i] is the order of the subscribers when line [i] is published. *)
Definition Write (orders : nat → list nat) (p : string) (st : LogBuffer * EventBus LogEntry) :
    outcome (LogBuffer * EventBus LogEntry) :=
  foldM write_line st (imap (λ i line, (orders i, line)) (split_on (ascii_of_N 10) p)).

(** The loop of [GetRecent] from its index [i], with what it collected. *)
Fixpoint recent_loop (lb : LogBuffer) (index limit : Z) (category : string) (n : nat) (i : Z)
    (returnLogs : list LogEntry) : outcome (list LogEntry) :=
  match n with
  | O => Done returnLogs
  | S n' =>
      match lb_entries lb !! Z.to_nat (Z.rem (index ⊞ i) (lb_size lb)) with
      | None => Panicked
      | Some entry =>
          if negb (String.eqb category "") && negb (String.eqb (le_Category entry) category)
          then recent_loop lb index limit category n' (i + 1) returnLogs
          else
            let returnLogs := (returnLogs ++ [entry])%list in
            if Z.of_nat (length returnLogs) >=? limit then Done returnLogs
            else recent_loop lb index limit category n' (i + 1) returnLogs
      end
  end.

Definition GetRecent (limit : Z) (category : string) (lb : LogBuffer) : outcome (list LogEntry) :=
  let total := Z.min (lb_count lb) (lb_size lb) in
  let index := if lb_count lb <=? lb_size lb then 0 else Z.rem (lb_pos lb) (lb_size lb) in
  recent_loop lb index limit category (Z.to_nat total) 0 [].

(** ** Specification *)

(** The last [n] elements. *)
Definition lastn {A} (n : nat) (l : list A) : list A := drop (length l - n) l.

(** The lines a write stores. *)
Definition stored_lines (p : string) : list LogEntry :=
  parseLine <$> List.filter (λ line, negb (String.eqb line "")) (split_on (ascii_of_N 10) p).

(** The ring [lb] holds the last entries of the history [h]. *)
Definition ring (lb : LogBuffer) (h : list LogEntry) : Prop :=
  0 < lb_size lb ∧ Z.of_nat (length (lb_entries lb)) = lb_size lb ∧
  lb_pos lb = Z.of_nat (length h) ∧ lb_count lb = Z.of_nat (length h) ∧
  Z.of_nat (length h) + lb_size lb ≤ int_max ∧
  ∀ i, (i < length h)%nat → (length h ≤ i + length (lb_entries lb))%nat →
    lb_entries lb !! (i mod length (lb_entries lb))%nat = h !! i.

Definition in_category (category : string) (e : LogEntry) : bool :=
  String.eqb category "" || String.eqb (le_Category e) category.

(** ** Lemmas: the ring *)
Lemma NewLogBuffer_ring size :
  0 < size → size ≤ int_max → ∃ lb, NewLogBuffer size = Done lb ∧ ring lb [].
Proof.
  intros Hs Hmax. unfold NewLogBuffer. rewrite (proj2 (Z.ltb_ge size 0)) by lia. eexists. split; [done|].
  unfold ring. cbn. rewrite repeat_length. split_and!; try lia.
Qed.

Lemma mod_apart i j n : (i < j)%nat → (j < i + n)%nat → (i mod n ≠ j mod n)%nat.
Proof.
  intros Hij Hn E. assert (n ≠ 0)%nat by lia.
  pose proof (Nat.div_mod_eq i n). pose proof (Nat.div_mod_eq j n).
  assert (i / n ≤ j / n)%nat by (apply Nat.Div0.div_le_mono; lia).
  destruct (decide (i / n = j / n)%nat) as [Ed|]; [rewrite Ed in *; lia|].
  assert (n * (i / n) + n ≤ n * (j / n))%nat by nia. lia.
Qed.

Lemma rem_of_nat i n : (0 < n)%nat → Z.rem (Z.of_nat i) (Z.of_nat n) = Z.of_nat (i mod n).
Proof. intros Hn. rewrite Z.rem_mod_nonneg by lia. by rewrite Nat2Z.inj_mod. Qed.

Lemma store_ring lb h e :
  ring lb h → Z.of_nat (length h) + 1 + lb_size lb ≤ int_max →
  ∃ lb', store lb e = Done lb' ∧ ring lb' (h ++ [e]) ∧ lb_size lb' = lb_size lb.
Proof.
  intros (Hs & Hlen & Hpos & Hcnt & _ & Hl) Hmax. unfold store.
  rewrite (proj2 (Z.eqb_neq _ 0)) by lia. rewrite Hpos, <-Hlen.
  set (n := length (lb_entries lb)) in *. assert (0 < n)%nat as Hn by lia.
  rewrite rem_of_nat by done. pose proof (Nat.mod_upper_bound (length h) n ltac:(lia)) as Hm.
  rewrite (proj2 (Z.leb_le 0 _)), (proj2 (Z.ltb_lt _ (Z.of_nat n))) by lia. cbn [andb].
  rewrite Nat2Z.id. eexists. split; [done|]. split; [|done].
  unfold ring. cbn [lb_size lb_entries lb_pos lb_count]. rewrite length_insert, length_app. cbn [length].
  split_and!; try lia; [int_solve|rewrite Hcnt; int_solve|]. fold n. intros i Hi1 Hi2.
  destruct (decide (i = length h)) as [->|Hne].
  - rewrite list_lookup_insert_eq by (fold n; lia). by rewrite lookup_app_r, Nat.sub_diag by lia.
  - rewrite list_lookup_insert_ne by (apply not_eq_sym, mod_apart; lia).
    rewrite lookup_app_l by lia. apply Hl; lia.
Qed.

(** ** Lemmas: reading *)
Lemma recent_loop_spec lb index limit category rest i acc :
  let k := Z.to_nat (Z.max 1 limit) in
  (∀ j x, rest !! j = Some x →
     lb_entries lb !! Z.to_nat (Z.rem (index ⊞ (i + Z.of_nat j)) (lb_size lb)) = Some x) →
  (length acc < k)%nat →
  recent_loop lb index limit category (length rest) i acc =
    Done (take k (acc ++ List.filter (in_category category) rest)).
Proof.
  intros k. revert i acc. induction rest as [|x rest IH]; intros i acc Hr Hacc; cbn [length recent_loop].
  { cbn. rewrite app_nil_r, take_ge by lia. done. }
  pose proof (Hr 0%nat x eq_refl) as H0. cbn in H0. rewrite Z.add_0_r in H0. rewrite H0.
  assert (∀ acc', (length acc' < k)%nat → recent_loop lb index limit category (length rest) (i + 1) acc' =
    Done (take k (acc' ++ List.filter (in_category category) rest))) as IH'.
  { intros acc' Ha. apply IH; [|done]. intros j y Hj.
    replace (i + 1 + Z.of_nat j) with (i + Z.of_nat (S j)) by lia. by apply (Hr (S j)). }
  assert (in_category category x =
    negb (negb (String.eqb category "") && negb (String.eqb (le_Category x) category))) as Ecat.
  { unfold in_category. by destruct (String.eqb category ""), (String.eqb (le_Category x) category). }
  cbn [List.filter]. rewrite Ecat. destruct (negb (String.eqb category "") && _); cbn [negb]; [by apply IH'|].
  assert (length (acc ++ [x]) = S (length acc)) as Hlen by (rewrite length_app; cbn; lia).
  rewrite Z.geb_leb. destruct (Z.leb_spec limit (Z.of_nat (length (acc ++ [x])))).
  - assert (k = length (acc ++ [x])) as Hk by (unfold k in *; lia).
    f_equal. pose proof (take_app_length (acc ++ [x]) (List.filter (in_category category) rest)) as Ht.
    rewrite <-Hk, <-app_assoc in Ht. by rewrite <-Ht.
  - rewrite IH' by (unfold k in *; lia). by rewrite <-app_assoc.
Qed.

Lemma lastn_lookup {A} n (l : list A) j x : lastn n l !! j = Some x → l !! (length l - n + j)%nat = Some x.
Proof. unfold lastn. by rewrite lookup_drop. Qed.

Lemma ring_recent lb h limit category :
  ring lb h →
  GetRecent limit category lb =
    Done (take (Z.to_nat (Z.max 1 limit))
      (List.filter (in_category category) (lastn (Z.to_nat (lb_size lb)) h))).
Proof.
  intros (Hs & Hlen & Hpos & Hcnt & Hmax & Hl). unfold GetRecent.
  set (n := length (lb_entries lb)) in *. assert (0 < n)%nat as Hn by lia.
  assert (Z.to_nat (lb_size lb) = n) as -> by lia.
  set (rest := lastn n h). assert (length rest = (length h `min` n)%nat) as Hrest.
  { unfold rest, lastn. rewrite length_drop. lia. }
  assert (Z.to_nat (Z.min (lb_count lb) (lb_size lb)) = length rest) as -> by lia.
  apply (recent_loop_spec lb _ limit category rest 0 []); [|cbn; lia].
  intros j x Hj. pose proof (lookup_lt_Some _ _ _ Hj) as Hjl.
  apply lastn_lookup in Hj. rewrite Hcnt, Hpos, <-Hlen.
  rewrite <-(Hl (length h - n + j)%nat) in Hj by lia. fold n in Hj. rewrite <-Hj. f_equal.
  destruct (Z.leb_spec (Z.of_nat (length h)) (Z.of_nat n)).
  - replace (length h - n + j)%nat with j by lia.
    assert (0 ⊞ (0 + Z.of_nat j) = Z.of_nat j) as -> by int_solve. by rewrite rem_of_nat, Nat2Z.id.
  - rewrite rem_of_nat by done. pose proof (Nat.mod_upper_bound (length h) n ltac:(lia)).
    assert (Z.of_nat (length h mod n) ⊞ (0 + Z.of_nat j) = Z.of_nat (length h mod n + j)) as -> by int_solve.
    rewrite rem_of_nat, Nat2Z.id by done. rewrite Nat.Div0.add_mod_idemp_l.
    replace (length h + j)%nat with ((length h - n + j) + 1 * n)%nat by lia. by rewrite Nat.Div0.mod_add.
Qed.

(** ** Lemmas: writing *)
Lemma write_line_spec lb bus hs h order line :
  ring lb h → Z.of_nat (length h) + 1 + lb_size lb ≤ int_max →
  bus_inv (bus, hs) → order ≡ₚ elements (eb_subscribers bus) →
  ∃ lb' bus' hs', write_line (lb, bus) (order, line) = Done (lb', bus') ∧
    ring lb' (h ++ (if negb (String.eqb line "") then [parseLine line] else [])) ∧
    lb_size lb' = lb_size lb ∧ bus_inv (bus', hs') ∧ eb_subscribers bus' = eb_subscribers bus.
Proof.
  intros Hr Hmax Hb Ho. unfold write_line. cbn [fst snd]. destruct (String.eqb line ""); cbn [negb].
  { exists lb, bus, hs. by rewrite app_nil_r. }
  destruct (store_ring lb h (parseLine line) Hr Hmax) as (lb' & -> & Hr' & Hs').
  destruct (Publish_spec order (parseLine line) bus hs Hb Ho) as (bus' & Ep & Esub & Hb').
  cbn [mbind outcome_bind]. rewrite Ep. cbn [mbind outcome_bind]. eauto 9.
Qed.

Lemma write_lines_spec orders lines k lb bus hs h :
  ring lb h → Z.of_nat (length h) + Z.of_nat (length lines) + lb_size lb ≤ int_max →
  bus_inv (bus, hs) → (∀ i, orders i ≡ₚ elements (eb_subscribers bus)) →
  ∃ lb' bus', foldM write_line (lb, bus) (imap (λ i line, (orders (k + i)%nat, line)) lines) = Done (lb', bus') ∧
    ring lb' (h ++ (parseLine <$> List.filter (λ line, negb (String.eqb line "")) lines)) ∧
    lb_size lb' = lb_size lb.
Proof.
  revert k lb bus hs h. induction lines as [|line lines IH]; intros k lb bus hs h Hr Hmax Hb Ho.
  { exists lb, bus. by rewrite app_nil_r. }
  cbn [imap foldM length] in *. rewrite Nat.add_0_r.
  destruct (write_line_spec lb bus hs h (orders k) line Hr ltac:(lia) Hb (Ho k))
    as (lb1 & bus1 & hs1 & -> & Hr1 & Hs1 & Hb1 & Es1).
  cbn [mbind outcome_bind].
  destruct (IH (S k) lb1 bus1 hs1 _ Hr1) as (lb2 & bus2 & E2 & Hr2 & Hs2); [|done|by rewrite Es1|].
  { rewrite Hs1, length_app. destruct (negb _); cbn [length]; lia. }
  exists lb2, bus2. rewrite <-E2. split_and!; [|clear E2|congruence].
  - f_equal. apply imap_ext. intros i x _. cbn. do 2 f_equal. lia.
  - rewrite <-app_assoc in Hr2. cbn [List.filter]. by destruct (negb _).
Qed.

(** The log buffer refines a list. After a write the ring stands for the
    lines written before followed by the non-empty lines of the write; and
    reading it gives, among the last [size] lines, those of the category, the
    OLDEST [limit] of them first (at least one), in the order they were written.
    Writing never panics and never disturbs the event bus. *)
Theorem logbuffer_refines lb bus hs h orders p :
  ring lb h → bus_inv (bus, hs) → (∀ i, orders i ≡ₚ elements (eb_subscribers bus)) →
  Z.of_nat (length h) + Z.of_nat (length (split_on (ascii_of_N 10) p)) + lb_size lb ≤ int_max →
  ∃ lb' bus', Write orders p (lb, bus) = Done (lb', bus') ∧ ring lb' (h ++ stored_lines p) ∧
    ∀ limit category, GetRecent limit category lb' =
      Done (take (Z.to_nat (Z.max 1 limit))
        (List.filter (in_category category) (lastn (Z.to_nat (lb_size lb)) (h ++ stored_lines p)))).
Proof.
  intros Hr Hb Ho Hmax.
  destruct (write_lines_spec orders (split_on (ascii_of_N 10) p) 0 lb bus hs h) as (lb' & bus' & E & Hr' & Hs');
    [done..|].
  exists lb', bus'. split; [done|]. split; [done|]. intros limit category.
  rewrite <-Hs'. by apply ring_recent.
Qed.

(** ** Witness *)
Lemma logbuffer_refines_witness :
  ∃ lb bus, Write (λ _, []) (String "a" (String (ascii_of_N 10) "[X] b")) (mkLogBuffer [zeroEntry; zeroEntry] 2 0 0, NewEventBus) = Done (lb, bus) ∧
    GetRecent 1 "X" lb = Done [mkLogEntry "" "X" "b" "[X] b"].
Proof.
  destruct (logbuffer_refines (mkLogBuffer [zeroEntry; zeroEntry] 2 0 0) NewEventBus ∅ [] (λ _, [])
    (String "a" (String (ascii_of_N 10) "[X] b"))) as (lb & bus & E & _ & H).
  - unfold ring. split_and!; try done. intros i Hi. cbn in Hi. lia.
  - apply bus_reachable_inv, bus_init.
  - intros i. reflexivity.
  - vm_compute. discriminate.
  - exists lb, bus. split; [done|]. rewrite H. vm_compute. reflexivity.
Defined.

(** ** Findings *)

(** Asking for the most recent line gives the oldest one the ring holds. *)
Lemma recent_is_oldest :
  match NewLogBuffer 3 with
  | Done lb =>
      match Write (λ _, []) (join (String (ascii_of_N 10) "") ["one"; "two"; "three"]) (lb, NewEventBus) with
      | Done (lb', _) => (λ es, map le_Message es) <$> GetRecent 1 "" lb' = Done ["one"]
      | Panicked => False
      end
  | Panicked => False
  end.
Proof. vm_compute. reflexivity. Qed.
