(* ===== verification/Extender.v ===== *)
(** * internal/scheduler/extender.go: the scheduler extender

    In extender mode the stock scheduler asks the extender over HTTP which
    nodes fit a pod ([FilterHandler]), how well ([PrioritizeHandler]), and to
    bind it ([BindHandler]).  A request is the decoded argument, [None] when the
    body does not decode; an answer is the value handed to [WriteJSON].  The
    job's identifier is the drawn UUID, an argument, and the Kubernetes client a
    type with the classes [PodStore] and [PodBinder]. *)

From Stdlib Require Import ZArith Lia String.
From stdpp Require Import base option list strings gmap.
From S2P Require Import Prelude GoFloat GoStrings Types K8s Helpers Registry Manager Strategy Binpack Allocator Http.
Open Scope string_scope.
Open Scope Z_scope.
Open Scope go_scope.

(** ** Requests and answers *)
Record ExtenderArgs : Type := mkExtenderArgs {
  ea_Pod : option Pod;
  ea_Nodes : option (list KNode)
}.

Record ExtenderBindingArgs : Type := mkExtenderBindingArgs {
  eb_PodName : string;
  eb_PodNamespace : string;
  eb_Node : string
}.

(** The text of an error answer: a constant or [err.Error()]. *)
Inductive ErrorText : Type :=
  | Text (s : string)
  | AllocText (e : AllocError).

Inductive ExtenderAnswer : Type :=
  | AError (status : Z) (e : ErrorText)
  | AFilter (passed : list KNode) (failed : gmap string string)
  | AScores (scores : list (string * Z))
  | ABound
  | AHealthy.

Section extender.
Context `{GoSort} {D W : Type} `{PodStore W} `{PodBinder W}.

Record Extender : Type := mkExtender {
  ext_allocator : Allocator D;
  ext_kubeClient : option W
}.

(** ** The checks both node handlers start with *)
Definition with_args (req : option ExtenderArgs)
    (k : Pod → list KNode → outcome ExtenderAnswer) : outcome ExtenderAnswer :=
  match req with
  | None => Done (AError StatusBadRequest (Text "Invalid request data"))
  | Some args =>
      match ea_Pod args, ea_Nodes args with
      | None, _ => Done (AError StatusBadRequest (Text "Pod is required"))
      | _, None => Done (AError StatusBadRequest (Text "Nodes list is required"))
      | Some pod, Some items => k pod items
      end
  end.

Definition find_node (name : string) (nodes : list NodeInfo) : option NodeInfo :=
  List.find (λ n, String.eqb (node_Name n) name) nodes.

Definition fits_gpu (memoryMB : Z) (gpu : GPU) : bool :=
  gpu_IsHealthy gpu && (AvailableMemoryMB gpu >=? memoryMB).

(** ** Filter *)
Definition filter_node (memoryMB : Z) (nodes : list NodeInfo)
    (acc : list KNode * gmap string string) (node : KNode) : list KNode * gmap string string :=
  let (passedNodes, failedNodes) := acc in
  match find_node (kn_Name node) nodes with
  | None => (passedNodes, <[kn_Name node := "node not managed by GPU Scheduler"]> failedNodes)
  | Some nodeInfo =>
      if existsb (fits_gpu memoryMB) (node_GPUs nodeInfo)
      then ((passedNodes ++ [node])%list, failedNodes)
      else (passedNodes, <[kn_Name node := "insufficient GPU memory"]> failedNodes)
  end.

Definition FilterHandler (req : option ExtenderArgs) (order : list string) (e : Extender) :
    outcome ExtenderAnswer :=
  with_args req (λ pod items,
    let memoryMB := GetGPUMemoryFromPod pod in
    let nodes := Allocator_GetNodes order (ext_allocator e) in
    let '(passedNodes, failedNodes) := foldl (filter_node memoryMB nodes) ([], ∅) items in
    Done (AFilter passedNodes failedNodes)).

(** ** Prioritize *)

(** [(bestWaste, bestTotal)], [-1] standing for no GPU. *)
Definition least_waste (memoryMB : Z) (acc : Z * Z) (gpu : GPU) : Z * Z :=
  let (bestWaste, bestTotal) := acc in
  if fits_gpu memoryMB gpu then
    let waste := AvailableMemoryMB gpu ⊟ memoryMB in
    if (bestWaste =? -1) || (waste <? bestWaste) then (waste, gpu_TotalMemoryMB gpu) else acc
  else acc.

(** The division panics when [bestTotal] is zero. *)
Definition score_gpus (memoryMB : Z) (gpus : list GPU) : outcome Z :=
  let (bestWaste, bestTotal) := foldl (least_waste memoryMB) (-1, 0) gpus in
  if bestWaste =? -1 then Done 0
  else if bestTotal =? 0 then Panicked
  else Done (100 ⊟ ((bestWaste ⊠ 100) ⊘ bestTotal)).

Definition score_node (memoryMB : Z) (nodes : list NodeInfo) (node : KNode) : outcome Z :=
  match find_node (kn_Name node) nodes with
  | None => Done 0
  | Some nodeInfo => score_gpus memoryMB (node_GPUs nodeInfo)
  end.

Definition PrioritizeHandler (req : option ExtenderArgs) (order : list string) (e : Extender) :
    outcome ExtenderAnswer :=
  with_args req (λ pod items,
    let memoryMB := GetGPUMemoryFromPod pod in
    let nodes := Allocator_GetNodes order (ext_allocator e) in
    scores ← foldM (λ acc node,
      score ← score_node memoryMB nodes node;
      Done (acc ++ [(kn_Name node, score)])%list) [] items;
    Done (AScores scores)).

(** ** Bind *)
Definition bind_job (jobID : string) (args : ExtenderBindingArgs) (pod : Pod) : Job :=
  mkJob jobID (eb_PodName args) (eb_PodNamespace args) 1 (GetGPUMemoryFromPod pod)
    (GetWorkflowFromPod pod) false.

Definition BindHandler (req : option ExtenderBindingArgs) (jobID : string) (o1 o2 : list string)
    (e : Extender) : outcome (Extender * ExtenderAnswer) :=
  match req with
  | None => Done (e, AError StatusBadRequest (Text "Invalid request data"))
  | Some args =>
      match ext_kubeClient e with
      | None => Done (e, ABound)
      | Some w =>
          match GetPod w (eb_PodNamespace args) (eb_PodName args) with
          | (w1, Err msg) =>
              Done (mkExtender (ext_allocator e) (Some w1), AError StatusBadRequest (Text msg))
          | (w1, Ok pod) =>
              let job := bind_job jobID args pod in
              match Allocator_Allocate (Some job) o1 o2 (ext_allocator e) with
              | Panicked => Panicked
              | Done (Err err) =>
                  Done (mkExtender (ext_allocator e) (Some w1), AError StatusBadRequest (AllocText err))
              | Done (Ok (a, _)) =>
                  match Bind w1 (eb_PodNamespace args) (eb_PodName args) (eb_Node args) with
                  | (w2, None) => Done (mkExtender a (Some w2), ABound)
                  | (w2, Some msg) =>
                      let a' := match Allocator_Release job a with Ok a' => a' | Err _ => a end in
                      Done (mkExtender a' (Some w2), AError StatusBadRequest (Text msg))
                  end
              end
          end
      end
  end.

Definition HealthHandler : ExtenderAnswer := AHealthy.
End extender.
Arguments Extender D W : clear implicits.
Arguments mkExtender {D W}.

(** ** Specification *)

(** The node of that name has a healthy GPU with the memory. *)
Definition hosts {D} (m : Manager D) (memoryMB : Z) (name : string) : Prop :=
  ∃ info g, mgr_nodes m !! name = Some info ∧ g ∈ node_GPUs info ∧ fits_gpu memoryMB g = true.

(** The manager keys its nodes by name. *)
Definition keyed {D} (m : Manager D) : Prop :=
  ∀ k n, mgr_nodes m !! k = Some n → node_Name n = k.

(** [g] fits and leaves the least memory of the GPUs that fit. *)
Definition best_fit (memoryMB : Z) (gpus : list GPU) (g : GPU) : Prop :=
  g ∈ gpus ∧ fits_gpu memoryMB g = true ∧
  ∀ g', g' ∈ gpus → fits_gpu memoryMB g' = true → AvailableMemoryMB g ≤ AvailableMemoryMB g'.

(** Memory figures a hundred times which fit in an [int]. *)
Definition sane_gpu (g : GPU) : Prop :=
  0 ≤ gpu_UsedMemoryMB g ≤ gpu_TotalMemoryMB g ∧ 0 < gpu_TotalMemoryMB g ∧
  gpu_TotalMemoryMB g * 100 ≤ int_max.

(** A cluster for the examples: one pod of that name, and the bindings made;
    [fc_refuses] makes [Bind] fail. *)
Record ExtCluster : Type := mkExtCluster {
  ec_pod : Pod;
  ec_refuses : bool;
  ec_bound : list (string * string)
}.

#[export] Instance ext_store : PodStore ExtCluster := {|
  GetPod w ns name :=
    (w, if String.eqb name (pod_Name (ec_pod w)) then Ok (ec_pod w) else Err "pod not found");
  UpdatePod w p := (mkExtCluster p (ec_refuses w) (ec_bound w), None)
|}.

#[export] Instance ext_binder : PodBinder ExtCluster := {|
  Bind w ns name node :=
    if ec_refuses w then (w, Some "conflict")
    else (mkExtCluster (ec_pod w) false (ec_bound w ++ [(name, node)])%list, None)
|}.

Definition ext_pod (mem : string) : Pod :=
  sample_pod "default" "train-0" [("gpu-scheduler/memory-mb", mem)].

Definition sample_extender (mem : string) (refuses : bool) : Extender MockDiscoverer ExtCluster :=
  mkExtender (mkAllocator sample_manager NewRegistry) (Some (mkExtCluster (ext_pod mem) refuses [])).

Definition knode (name : string) : KNode := mkKNode name ∅ ∅ [].

(** ** Lemmas *)
Section extender_lemmas.
Context `{GoSort} {D W : Type} `{PodStore W} `{PodBinder W}.
Implicit Types (e : Extender D W) (m : Manager D).

(** The search by name is the lookup by key. *)
Lemma find_node_lookup m order name :
  range_order (mgr_nodes m) order → keyed m →
  find_node name (Manager_GetNodes order m) = mgr_nodes m !! name.
Proof.
  intros Ho Hk. unfold find_node. destruct (mgr_nodes m !! name) as [info|] eqn:E.
  - destruct (List.find _ _) as [n|] eqn:F.
    + apply list_find_first in F as (l1 & l2 & Hl & Hn & _). bool_hyps.
      assert (n ∈ Manager_GetNodes order m) as [k Hkn]%(Manager_GetNodes_elem _ _ _ Ho).
      { rewrite Hl. apply elem_of_app. right. left. }
      rewrite (Hk _ _ Hkn) in Hn. subst. congruence.
    + rewrite list_find_none, Forall_forall in F.
      assert (info ∈ Manager_GetNodes order m) as Hin%F.
      { apply (Manager_GetNodes_elem _ _ _ Ho). eauto. }
      rewrite (Hk _ _ E), String.eqb_refl in Hin. done.
  - apply list_find_none, Forall_forall. intros n [k Hkn]%(Manager_GetNodes_elem _ _ _ Ho).
    rewrite (Hk _ _ Hkn). apply String.eqb_neq. intros ->. congruence.
Qed.

Lemma hosts_existsb m mem name info :
  mgr_nodes m !! name = Some info →
  existsb (fits_gpu mem) (node_GPUs info) = true ↔ hosts m mem name.
Proof.
  intros Hi. rewrite existsb_exists. split.
  - intros (g & Hin & Hg). exists info, g. by rewrite list_elem_of_In.
  - intros (info' & g & Hi' & Hin & Hg). assert (info' = info) as -> by congruence.
    exists g. by rewrite <-list_elem_of_In.
Qed.

(** What the loop of the filter has established after some nodes. *)
Definition filtered m mem (items : list KNode) (acc : list KNode * gmap string string) : Prop :=
  acc.1 `sublist_of` items ∧
  (∀ node, node ∈ acc.1 ↔ node ∈ items ∧ hosts m mem (kn_Name node)) ∧
  ∀ name reason, acc.2 !! name = Some reason ↔
    name ∈ (kn_Name <$> items) ∧ ¬ hosts m mem name ∧
    reason = match mgr_nodes m !! name with
             | None => "node not managed by GPU Scheduler"
             | Some _ => "insufficient GPU memory"
             end.

Lemma filtered_pass m mem items node passed failed :
  filtered m mem items (passed, failed) → hosts m mem (kn_Name node) →
  filtered m mem (items ++ [node]) ((passed ++ [node])%list, failed).
Proof.
  intros (Hs & Hp & Hf) Hh. split_and!; cbn in *.
  - by apply sublist_app.
  - intros n. rewrite !elem_of_app, Hp, list_elem_of_singleton. naive_solver.
  - intros name reason. rewrite Hf, fmap_app, elem_of_app.
    change (kn_Name <$> [node]) with [kn_Name node]. rewrite list_elem_of_singleton. naive_solver.
Qed.

Lemma filtered_fail m mem items node passed failed :
  filtered m mem items (passed, failed) → ¬ hosts m mem (kn_Name node) →
  filtered m mem (items ++ [node]) (passed, <[kn_Name node := match mgr_nodes m !! kn_Name node with
             | None => "node not managed by GPU Scheduler"
             | Some _ => "insufficient GPU memory"
             end]> failed).
Proof.
  intros (Hs & Hp & Hf) Hh. split_and!; cbn in *.
  - rewrite <-(app_nil_r passed). apply sublist_app; [done|]. apply sublist_nil_l.
  - intros n. rewrite elem_of_app, Hp, list_elem_of_singleton. naive_solver.
  - intros name reason. rewrite fmap_app, elem_of_app.
    change (kn_Name <$> [node]) with [kn_Name node].
    rewrite list_elem_of_singleton, lookup_insert_Some, Hf.
    destruct (decide (kn_Name node = name)) as [<-|]; naive_solver.
Qed.

Lemma filter_node_step m order mem items node acc :
  range_order (mgr_nodes m) order → keyed m → filtered m mem items acc →
  filtered m mem (items ++ [node]) (filter_node mem (Manager_GetNodes order m) acc node).
Proof.
  intros Ho Hk Hacc. destruct acc as [passed failed]. unfold filter_node.
  rewrite (find_node_lookup m order _ Ho Hk).
  destruct (mgr_nodes m !! kn_Name node) as [info|] eqn:E.
  - pose proof (hosts_existsb m mem _ _ E) as Hx. destruct (existsb _ _).
    + by apply filtered_pass; [|apply Hx].
    + pose proof (filtered_fail m mem items node passed failed Hacc) as Hfail. rewrite E in Hfail.
      apply Hfail. rewrite <-Hx. done.
  - pose proof (filtered_fail m mem items node passed failed Hacc) as Hfail. rewrite E in Hfail.
    apply Hfail. intros (info & g & Hi & _). congruence.
Qed.

(** The filter is exact.  It never panics; the nodes it lets through are, in
    the order of the request, those on which the manager has a healthy GPU with
    the pod's memory available, and every other node of the request is reported
    as failed, as unmanaged or short of memory, whatever the iteration order. *)
Theorem FilterHandler_exact e pod items order :
  range_order (mgr_nodes (all_manager (ext_allocator e))) order →
  keyed (all_manager (ext_allocator e)) →
  let m := all_manager (ext_allocator e) in
  let mem := GetGPUMemoryFromPod pod in
  ∃ passed failed,
    FilterHandler (Some (mkExtenderArgs (Some pod) (Some items))) order e =
      Done (AFilter passed failed) ∧
    passed `sublist_of` items ∧
    (∀ node, node ∈ passed ↔ node ∈ items ∧ hosts m mem (kn_Name node)) ∧
    ∀ name reason, failed !! name = Some reason ↔
      name ∈ (kn_Name <$> items) ∧ ¬ hosts m mem name ∧
      reason = match mgr_nodes m !! name with
               | None => "node not managed by GPU Scheduler"
               | Some _ => "insufficient GPU memory"
               end.
Proof.
  intros Ho Hk m mem. unfold FilterHandler, with_args; cbn [ea_Pod ea_Nodes]. fold mem.
  change (Allocator_GetNodes order (ext_allocator e)) with (Manager_GetNodes order m).
  assert (∀ done_ acc, filtered m mem done_ acc →
    filtered m mem (done_ ++ items) (foldl (filter_node mem (Manager_GetNodes order m)) acc items)) as Hloop.
  { clear -Ho Hk. induction items as [|node items IH]; intros done_ acc Hacc; cbn.
    - by rewrite app_nil_r.
    - rewrite cons_middle, app_assoc. apply IH, filter_node_step; done. }
  specialize (Hloop [] ([], ∅)). destruct (foldl _ _ _) as [passed failed].
  exists passed, failed. split; [done|]. apply Hloop. split_and!; cbn; [done|..].
  - intros n. rewrite elem_of_nil. naive_solver.
  - intros name reason. rewrite elem_of_nil, lookup_empty. naive_solver.
Qed.

Lemma sane_available g : sane_gpu g →
  AvailableMemoryMB g = gpu_TotalMemoryMB g - gpu_UsedMemoryMB g.
Proof. intros (Hu & Ht & Hm). unfold AvailableMemoryMB. apply wrap64_id. int_solve. Qed.

(** What the loop over the GPUs of a node has found. *)
Definition wasted (mem : Z) (seen : list GPU) (acc : Z * Z) : Prop :=
  (acc = (-1, 0) ∧ ∀ g, g ∈ seen → fits_gpu mem g = false) ∨
  (∃ g, best_fit mem seen g ∧ acc = (AvailableMemoryMB g - mem, gpu_TotalMemoryMB g)).

Lemma least_waste_step mem seen g acc :
  0 ≤ mem → sane_gpu g → Forall sane_gpu seen → wasted mem seen acc →
  wasted mem (seen ++ [g]) (least_waste mem acc g).
Proof.
  intros Hmem Hg Hs Hacc. destruct acc as [bw bt]. unfold least_waste.
  pose proof (sane_available g Hg) as Hav. destruct Hg as (Hu & Ht & Hm).
  destruct (fits_gpu mem g) eqn:Hfit.
  - assert (mem ≤ AvailableMemoryMB g) as Hge by (unfold fits_gpu in Hfit; bool_hyps; done).
    rewrite (wrap64_id (AvailableMemoryMB g - mem)) by int_solve.
    destruct Hacc as [[[= -> ->] Hno]|(b & (Hb & Hbf & Hmin) & [= -> ->])].
    + right. exists g. split; [|done]. split_and!; [apply elem_of_app; right; left|done|].
      intros g' [Hg'| ->%list_elem_of_singleton]%elem_of_app Hf'; [|done]. rewrite Hno in Hf'; done.
    + assert (mem ≤ AvailableMemoryMB b) as Hbm by (unfold fits_gpu in Hbf; bool_hyps; done).
      destruct (Z.eqb_spec (AvailableMemoryMB b - mem) (-1)); [lia|].
      destruct (Z.ltb_spec (AvailableMemoryMB g - mem) (AvailableMemoryMB b - mem)); cbn [orb].
      * right. exists g. split; [|done]. split_and!; [apply elem_of_app; right; left|done|].
        intros g' [Hg'| ->%list_elem_of_singleton]%elem_of_app Hf'; [|done].
        specialize (Hmin _ Hg' Hf'). lia.
      * right. exists b. split; [|done]. split_and!; [apply elem_of_app; by left|done|].
        intros g' [Hg'| ->%list_elem_of_singleton]%elem_of_app Hf'; [by apply Hmin|lia].
  - destruct Hacc as [[[= -> ->] Hno]|(b & (Hb & Hbf & Hmin) & Heq)].
    + left. split; [done|]. intros g' [Hg'| ->%list_elem_of_singleton]%elem_of_app; auto.
    + right. exists b. split; [|done]. split_and!; [apply elem_of_app; by left|done|].
      intros g' [Hg'| ->%list_elem_of_singleton]%elem_of_app Hf'; [by apply Hmin|congruence].
Qed.

Lemma least_waste_all mem gpus : 0 ≤ mem → Forall sane_gpu gpus →
  wasted mem gpus (foldl (least_waste mem) (-1, 0) gpus).
Proof.
  intros Hmem Hs.
  assert (∀ seen acc, Forall sane_gpu seen → wasted mem seen acc →
    wasted mem (seen ++ gpus) (foldl (least_waste mem) acc gpus)) as Hloop.
  { induction Hs as [|g gpus Hg Hs IH]; intros seen acc Hseen Hacc; cbn.
    - by rewrite app_nil_r.
    - rewrite cons_middle, app_assoc. apply IH; [apply Forall_app; auto|by apply least_waste_step]. }
  apply (Hloop []); [done|]. left. split; [done|]. intros g ?%elem_of_nil. done.
Qed.

(** The score of a node: 0 without a GPU that fits, else by the best fit. *)
Definition scored (mem : Z) (gpus : list GPU) (score : Z) : Prop :=
  (score = 0 ∧ ∀ g, g ∈ gpus → fits_gpu mem g = false) ∨
  (∃ g, best_fit mem gpus g ∧ 0 ≤ score ≤ 100 ∧
     score = 100 - ((AvailableMemoryMB g - mem) * 100) `quot` gpu_TotalMemoryMB g).

Lemma score_gpus_scored mem gpus : 0 ≤ mem → Forall sane_gpu gpus →
  ∃ score, score_gpus mem gpus = Done score ∧ scored mem gpus score.
Proof.
  intros Hmem Hs. unfold score_gpus.
  destruct (least_waste_all mem gpus Hmem Hs) as [[-> Hno]|(g & Hg & ->)].
  { exists 0. split; [done|]. by left. }
  pose proof Hg as (Hin & Hf & _). rewrite Forall_forall in Hs.
  pose proof (Hs _ Hin) as Hsane. pose proof (sane_available g Hsane) as Hav.
  destruct Hsane as (Hu & Ht & Hm).
  assert (mem ≤ AvailableMemoryMB g) as Hge by (unfold fits_gpu in Hf; bool_hyps; done).
  rewrite (proj2 (Z.eqb_neq _ _)) by lia. rewrite (proj2 (Z.eqb_neq _ _)) by lia.
  set (w := AvailableMemoryMB g - mem) in *.
  assert (0 ≤ (w * 100) `quot` gpu_TotalMemoryMB g ≤ 100) as Hq.
  { split; [apply Z.quot_pos; lia|]. rewrite Z.quot_div_nonneg by lia.
    apply Z.div_le_upper_bound; nia. }
  exists (100 - (w * 100) `quot` gpu_TotalMemoryMB g). split.
  - f_equal. rewrite (wrap64_id (w * 100)) by int_solve. int_solve.
  - right. exists g. split_and!; [done|lia|lia|done].
Qed.

(** The scores are bounded and order the nodes by fit.  With sane memory
    figures [PrioritizeHandler] never panics and answers one score in 0..100
    per node of the request, in its order: 0 for a node that is not managed or
    has no GPU for the pod, and otherwise 100 less the percentage of the best
    fitting GPU's memory that would be left over. *)
Theorem PrioritizeHandler_bounds e pod items order :
  range_order (mgr_nodes (all_manager (ext_allocator e))) order →
  keyed (all_manager (ext_allocator e)) →
  let m := all_manager (ext_allocator e) in
  let mem := GetGPUMemoryFromPod pod in
  0 ≤ mem →
  (∀ k info, mgr_nodes m !! k = Some info → Forall sane_gpu (node_GPUs info)) →
  ∃ scores,
    PrioritizeHandler (Some (mkExtenderArgs (Some pod) (Some items))) order e = Done (AScores scores) ∧
    scores.*1 = kn_Name <$> items ∧
    Forall (λ ns, 0 ≤ ns.2 ≤ 100 ∧
      match mgr_nodes m !! ns.1 with
      | None => ns.2 = 0
      | Some info => scored mem (node_GPUs info) ns.2
      end) scores.
Proof.
  intros Ho Hk m mem Hmem Hsane. unfold PrioritizeHandler, with_args; cbn [ea_Pod ea_Nodes]. fold mem.
  change (Allocator_GetNodes order (ext_allocator e)) with (Manager_GetNodes order m).
  assert (∀ node, ∃ s, score_node mem (Manager_GetNodes order m) node = Done s ∧ 0 ≤ s ≤ 100 ∧
    match mgr_nodes m !! kn_Name node with
    | None => s = 0 | Some info => scored mem (node_GPUs info) s end) as Hnode.
  { intros node. unfold score_node. rewrite (find_node_lookup m order _ Ho Hk).
    destruct (mgr_nodes m !! kn_Name node) as [info|] eqn:E; [|exists 0; split_and!; done || lia].
    destruct (score_gpus_scored mem _ Hmem (Hsane _ _ E)) as (s & -> & Hs).
    exists s. destruct Hs as [[-> ?]|(g & ? & ? & ->)]; split_and!; try done; try lia.
    - by left.
    - right. eauto 6. }
  match goal with |- ∃ _, (foldM ?f [] items ≫= _) = _ ∧ _ =>
    destruct (foldM_total (λ acc left, (acc.*1 ++ (kn_Name <$> left))%list = kn_Name <$> items ∧
      Forall (λ ns, 0 ≤ ns.2 ≤ 100 ∧
        match mgr_nodes m !! ns.1 with
        | None => ns.2 = 0 | Some info => scored mem (node_GPUs info) ns.2 end) acc) f items)
      with (a := @nil (string * Z)) as (scores & E & Hfst & Hall) end.
  - intros acc node left [Hfst Hall]. destruct (Hnode node) as (s & Es & Hs). rewrite Es. cbn.
    eexists. split; [done|]. split.
    + rewrite fmap_app, <-app_assoc. exact Hfst.
    + apply Forall_app. split; [done|]. apply Forall_cons. split; [exact Hs|done].
  - split; [done|constructor].
  - rewrite E. exists scores. rewrite app_nil_r in Hfst. done.
Qed.

(** C33: binding commits or leaves no trace.  Without a client it answers success
    and changes nothing.  With one, for a pod that asks for memory, an error
    answer (pod not found, no GPU, binding refused) leaves the allocator as it
    was, and success means that the API server took the binding and that the
    allocator charged the pod's memory to one eligible GPU, within its total. *)
Theorem BindHandler_commits e args jobID o1 o2 :
  let m := all_manager (ext_allocator e) in
  range_order (mgr_nodes m) o1 → range_order (mgr_nodes m) o2 → ids_unique m →
  (∀ k i g, gpu_at m k i g →
     0 ≤ gpu_UsedMemoryMB g ≤ gpu_TotalMemoryMB g ∧ gpu_TotalMemoryMB g ≤ int_max) →
  mgr_allocations m !! jobID = None →
  (∀ w w1 pod, ext_kubeClient e = Some w →
     GetPod w (eb_PodNamespace args) (eb_PodName args) = (w1, Ok pod) → 0 < GetGPUMemoryFromPod pod) →
  ∃ e' answer, BindHandler (Some args) jobID o1 o2 e = Done (e', answer) ∧
  match answer with
  | AError status _ => status = StatusBadRequest ∧ ext_allocator e' = ext_allocator e
  | ABound =>
      (ext_kubeClient e = None ∧ e' = e) ∨
      (∃ w w1 w2 pod k i g used,
         ext_kubeClient e = Some w ∧ ext_kubeClient e' = Some w2 ∧
         GetPod w (eb_PodNamespace args) (eb_PodName args) = (w1, Ok pod) ∧
         Bind w1 (eb_PodNamespace args) (eb_PodName args) (eb_Node args) = (w2, None) ∧
         gpu_at m k i g ∧ eligible false (GetGPUMemoryFromPod pod) g = true ∧
         gpu_at (all_manager (ext_allocator e')) k i (set_UsedMemoryMB used g) ∧
         gpu_UsedMemoryMB g + GetGPUMemoryFromPod pod ≤ used ≤ gpu_TotalMemoryMB g)
  | _ => False
  end.
Proof.
  intros m Ho1 Ho2 Hu Hsane Hnone Hpos. unfold BindHandler.
  destruct (ext_kubeClient e) as [w|] eqn:Ew; [|by eexists _, _; split; [done|]; left].
  destruct (GetPod w _ _) as [w1 [pod|msg]] eqn:Eg; [|by eexists _, _].
  specialize (Hpos _ _ _ eq_refl Eg). set (job := bind_job jobID args pod).
  destruct (Allocate_spec (ext_allocator e) job o1 o2 Ho1 Ho2 Hu ltac:(cbn; lia) Hsane)
    as ([[a r]|err] & -> & Hres); [|by eexists _, _].
  destruct Hres as (k & i & g & used & Hat & Hel & _ & Hat' & Hused & Hrel).
  destruct (Bind w1 _ _ _) as [w2 [msg|]] eqn:Eb.
  - rewrite (Hrel Hnone) by (cbn; lia). by eexists _, _.
  - eexists _, _. split; [done|]. right. exists w, w1, w2, pod, k, i, g, used. done.
Qed.
End extender_lemmas.

(** ** Examples *)
Lemma sample_keyed : keyed sample_manager.
Proof.
  intros k n Hk. cbn [mgr_nodes sample_manager] in Hk.
  apply (lookup_singleton_Some "local" k) in Hk as [<- <-]. done.
Qed.

Lemma sample_sane k info :
  mgr_nodes sample_manager !! k = Some info → Forall sane_gpu (node_GPUs info).
Proof.
  intros Hk. cbn [mgr_nodes sample_manager] in Hk.
  apply (lookup_singleton_Some "local" k) in Hk as [_ <-].
  repeat constructor; by vm_compute.
Qed.

Lemma FilterHandler_exact_witness :
  ∃ passed failed,
    FilterHandler (Some (mkExtenderArgs (Some (ext_pod "13000")) (Some [knode "local"; knode "other"])))
      ["local"] (sample_extender "13000" false) = Done (AFilter passed failed) ∧
    passed = [knode "local"] ∧ failed !! "other" = Some "node not managed by GPU Scheduler".
Proof.
  destruct (FilterHandler_exact (sample_extender "13000" false) (ext_pod "13000")
    [knode "local"; knode "other"] ["local"] sample_manager_order sample_keyed)
    as (passed & failed & E & _).
  exists passed, failed. split; [exact E|]. vm_compute in E. injection E as <- <-. done.
Defined.

Lemma PrioritizeHandler_bounds_witness :
  ∃ scores,
    PrioritizeHandler (Some (mkExtenderArgs (Some (ext_pod "10000")) (Some [knode "local"; knode "other"])))
      ["local"] (sample_extender "10000" false) = Done (AScores scores) ∧
    scores = [("local", 88); ("other", 0)] ∧ scores.*1 = ["local"; "other"].
Proof.
  destruct (PrioritizeHandler_bounds (sample_extender "10000" false) (ext_pod "10000")
    [knode "local"; knode "other"] ["local"] sample_manager_order sample_keyed ltac:(by vm_compute)
    sample_sane) as (scores & E & Hs & _).
  exists scores. split; [exact E|]. split; [|exact Hs]. vm_compute in E. by injection E as <-.
Defined.

Lemma BindHandler_commits_witness :
  ∃ e' answer,
    BindHandler (Some (mkExtenderBindingArgs "train-0" "default" "local")) "job-1" ["local"] ["local"]
      (sample_extender "10000" true) = Done (e', answer) ∧
    answer = AError StatusBadRequest (Text "conflict") ∧
    ext_allocator e' = ext_allocator (sample_extender "10000" true).
Proof.
  destruct (BindHandler_commits (sample_extender "10000" true)
    (mkExtenderBindingArgs "train-0" "default" "local") "job-1" ["local"] ["local"]
    sample_manager_order sample_manager_order sample_manager_unique sample_manager_sane eq_refl)
    as (e' & answer & E & Hans).
  { intros w w1 pod [= <-] [= <- <-]. by vm_compute. }
  exists e', answer. split; [exact E|]. vm_compute in E. injection E as <- <-.
  split; [done|]. apply Hans.
Defined.

(** [BindHandler] allocates on any node: the memory is charged to a GPU of
    "local" while the pod is bound to the node the request names. *)
Lemma bind_ignores_node :
  ∃ e', BindHandler (Some (mkExtenderBindingArgs "train-0" "default" "node-b")) "job-1"
      ["local"] ["local"] (sample_extender "10000" false) = Done (e', ABound) ∧
    ext_kubeClient e' = Some (mkExtCluster (ext_pod "10000") false [("train-0", "node-b")]) ∧
    GetAllocations (all_manager (ext_allocator e')) =
      {["job-1" := [mkAllocation "job-1" "GPU-1" "local" 10000]]}.
Proof. eexists. split; [vm_compute; reflexivity|]. done. Qed.

(** A pod without a memory request passes the filter on a node whose GPUs are
    all in use, where [BindHandler] can never place it. *)
Lemma filter_passes_full_node :
  let full := mkExtender (mkAllocator (mkManager [] {["local" := manager_node "local" [manager_gpu "GPU-0" 16000]]} ∅)
      NewRegistry) (Some (mkExtCluster (ext_pod "0") false [])) : Extender MockDiscoverer ExtCluster in
  FilterHandler (Some (mkExtenderArgs (Some (ext_pod "0")) (Some [knode "local"]))) ["local"] full =
    Done (AFilter [knode "local"] ∅) ∧
  match BindHandler (Some (mkExtenderBindingArgs "train-0" "default" "local")) "job-1" ["local"] ["local"] full with
  | Done (_, AError _ _) => True
  | _ => False
  end.
Proof. split; by vm_compute. Qed.

(** A failed binding of a 0 MB pod leaves its GPU marked full, with no allocation on record. *)
Lemma failed_bind_leaks :
  ∃ e' msg, BindHandler (Some (mkExtenderBindingArgs "train-0" "default" "local")) "job-1"
      ["local"] ["local"] (sample_extender "0" true) = Done (e', AError StatusBadRequest msg) ∧
    ∃ i id, gpu_at (all_manager (ext_allocator e')) "local" i (manager_gpu id 16000) ∧
    GetAllocations (all_manager (ext_allocator e')) = ∅.
Proof.
  eexists _, _. split; [vm_compute; reflexivity|]. exists 1%nat, "GPU-1".
  split; [|done]. eexists. split; reflexivity.
Qed.
