(* ===== verification/Injector.v ===== *)
(** * internal/scheduler/injector.go: pinning a pod to its GPUs

    [Inject] works on a deep copy of the pod, so its loops over the containers
    and over their environment are functions on lists here; the flag each of
    them returns says whether anything was assigned. *)

From Stdlib Require Import ZArith Lia String.
From stdpp Require Import base option list strings gmap.
From S2P Require Import Prelude GoStrings K8s.
Open Scope string_scope.
Open Scope Z_scope.

Definition cudaVisibleDevicesEnv : string := "CUDA_VISIBLE_DEVICES".

Definition containerRequestsGPU (container : Container) : bool :=
  match c_Limits container !! "nvidia.com/gpu" with
  | Some quantity => q_Value quantity >? 0
  | None => false
  end ||
  match c_Requests container !! "nvidia.com/gpu" with
  | Some quantity => q_Value quantity >? 0
  | None => false
  end.

(** The loop over the environment with the append when nothing was found. *)
Fixpoint inject_env (cudaValue : string) (env : list EnvVar) : list EnvVar * bool :=
  match env with
  | [] => ([mkEnvVar cudaVisibleDevicesEnv cudaValue], true)
  | e :: rest =>
      if String.eqb (env_Name e) cudaVisibleDevicesEnv then
        if String.eqb (env_Value e) cudaValue then (env, false)
        else (mkEnvVar (env_Name e) cudaValue :: rest, true)
      else let '(rest', changed) := inject_env cudaValue rest in (e :: rest', changed)
  end.

Fixpoint injectIntoContainers (cudaValue : string) (containers : list Container) :
    list Container * bool :=
  match containers with
  | [] => ([], false)
  | c :: rest =>
      let '(rest', changed) := injectIntoContainers cudaValue rest in
      if containerRequestsGPU c then
        let '(env, changed') := inject_env cudaValue (c_Env c) in
        (set_Env env c :: rest', changed' || changed)
      else (c :: rest', changed)
  end.

Definition Inject (pod : option Pod) (gpuIDs : list string) : result string (Pod * bool) :=
  match pod with
  | None => Err "pod cannot be nil"
  | Some pod =>
      match gpuIDs with
      | [] => Ok (pod, false)
      | _ =>
          let cudaValue := join "," gpuIDs in
          let '(inits, changed1) := injectIntoContainers cudaValue (pod_InitContainers pod) in
          let '(containers, changed2) := injectIntoContainers cudaValue (pod_Containers pod) in
          Ok (set_Containers inits containers pod, changed1 || changed2)
      end
  end.

(** ** Specification *)

(** The value of the first entry with that name. *)
Definition first_env (name : string) (env : list EnvVar) : option string :=
  env_Value <$> List.find (λ e, String.eqb (env_Name e) name) env.

(** [env'] is [env] with the variable set to [v] and nothing else touched. *)
Definition env_pinned (v : string) (env env' : list EnvVar) : Prop :=
  first_env cudaVisibleDevicesEnv env' = Some v ∧
  List.filter (λ e, negb (String.eqb (env_Name e) cudaVisibleDevicesEnv)) env' =
  List.filter (λ e, negb (String.eqb (env_Name e) cudaVisibleDevicesEnv)) env ∧
  (env' = env ↔ first_env cudaVisibleDevicesEnv env = Some v).

Definition container_pinned (v : string) (c c' : Container) : Prop :=
  c' = set_Env (c_Env c') c ∧
  if containerRequestsGPU c then env_pinned v (c_Env c) (c_Env c') else c' = c.

(** ** Lemmas *)
Lemma set_Env_id c : set_Env (c_Env c) c = c.
Proof. by destruct c. Qed.

Lemma inject_env_spec v env :
  env_pinned v env (inject_env v env).1 ∧ ((inject_env v env).2 = false ↔ (inject_env v env).1 = env).
Proof.
  unfold env_pinned, first_env. induction env as [|e env IH].
  { cbn. split_and!; done. }
  cbn [inject_env]. destruct (String.eqb (env_Name e) cudaVisibleDevicesEnv) eqn:En.
  - destruct (String.eqb_spec (env_Value e) v) as [Ev|Ev]; cbn [fst snd].
    + cbn. rewrite En. cbn. subst v. split_and!; done.
    + cbn. rewrite En. cbn. split_and!; try done.
      * split; [|congruence]. intros Heq. exfalso. apply Ev.
        apply (f_equal (λ l, env_Value (hd e l))) in Heq. cbn in Heq. congruence.
      * split; [done|]. intros Heq. exfalso. apply Ev.
        apply (f_equal (λ l, env_Value (hd e l))) in Heq. cbn in Heq. congruence.
  - destruct (inject_env v env) as [env' ch]. cbn [fst snd] in *. cbn. rewrite En. cbn.
    destruct IH as ((H1 & H2 & H3) & H4). split_and!.
    + done.
    + by rewrite H2.
    + rewrite <-H3. split; [by intros [= ->]|by intros ->].
    + rewrite H4. split; [by intros ->|by intros [= ->]].
Qed.

Lemma set_Env_inj e c : set_Env e c = c ↔ e = c_Env c.
Proof. destruct c; cbn. unfold set_Env; cbn. split; [by intros [= ->]|by intros ->]. Qed.

Lemma injectIntoContainers_spec v cs :
  Forall2 (container_pinned v) cs (injectIntoContainers v cs).1 ∧
  ((injectIntoContainers v cs).2 = false ↔ (injectIntoContainers v cs).1 = cs).
Proof.
  induction cs as [|c cs IH]; [by split; [constructor|]|]. cbn [injectIntoContainers].
  destruct (injectIntoContainers v cs) as [cs' ch]. cbn [fst snd] in IH. destruct IH as [IH1 IH2].
  unfold container_pinned at 1. destruct (containerRequestsGPU c) eqn:Er.
  - destruct (inject_env_spec v (c_Env c)) as [Hp Hc]. destruct (inject_env v (c_Env c)) as [env' ch'].
    cbn [fst snd] in *. split.
    + constructor; [|done]. rewrite Er. by split.
    + rewrite orb_false_iff, Hc, IH2. split.
      * intros [-> ->]. by rewrite set_Env_id.
      * intros [= Hc' ->]. apply (set_Env_inj env' c) in Hc'. done.
  - cbn [fst snd]. split.
    + constructor; [|done]. rewrite Er. by rewrite set_Env_id.
    + rewrite IH2. split; [by intros ->|by intros [= ->]].
Qed.

Lemma pinned_requests v c c' : container_pinned v c c' → containerRequestsGPU c' = containerRequestsGPU c.
Proof. intros [-> _]. done. Qed.

Lemma inject_env_pinned v env env' : env_pinned v env env' → inject_env v env' = (env', false).
Proof.
  intros (Hf & _). destruct (inject_env_spec v env') as [(_ & _ & H1) H2].
  destruct (inject_env v env') as [e ch]. cbn [fst snd] in *.
  rewrite <-H1 in Hf. subst e. by rewrite (proj2 H2 eq_refl).
Qed.

(** Pinned containers are left alone. *)
Lemma inject_pinned v cs cs' :
  Forall2 (container_pinned v) cs cs' → injectIntoContainers v cs' = (cs', false).
Proof.
  induction 1 as [|c c' cs cs' Hc _ IH]; [done|]. cbn [injectIntoContainers]. rewrite IH.
  rewrite (pinned_requests v c c' Hc). destruct Hc as [_ Hc]. destruct (containerRequestsGPU c); [|done].
  by rewrite (inject_env_pinned _ _ _ Hc), set_Env_id.
Qed.

(** Injection pins every container that asks for a GPU and nothing else.
    In such a container, init containers included, the first
    CUDA_VISIBLE_DEVICES entry becomes the comma-separated list of the devices,
    one being appended when there is none, and every other variable stays; the
    rest of the pod is untouched, the flag is false exactly when the pod did not
    change, and injecting again changes nothing. *)
Theorem Inject_pins pod gpuIDs :
  gpuIDs ≠ [] →
  let v := join "," gpuIDs in
  ∃ pod' changed, Inject (Some pod) gpuIDs = Ok (pod', changed) ∧
    Forall2 (container_pinned v) (pod_Containers pod) (pod_Containers pod') ∧
    Forall2 (container_pinned v) (pod_InitContainers pod) (pod_InitContainers pod') ∧
    pod' = set_Containers (pod_InitContainers pod') (pod_Containers pod') pod ∧
    (changed = false ↔ pod' = pod) ∧
    Inject (Some pod') gpuIDs = Ok (pod', false).
Proof.
  intros Hne v. unfold Inject. destruct gpuIDs as [|g gs]; [done|].
  fold v. destruct (injectIntoContainers_spec v (pod_InitContainers pod)) as [Hi Hic].
  destruct (injectIntoContainers_spec v (pod_Containers pod)) as [Hc Hcc].
  destruct (injectIntoContainers v (pod_InitContainers pod)) as [inits ch1].
  destruct (injectIntoContainers v (pod_Containers pod)) as [containers ch2]. cbn [fst snd] in *.
  eexists _, _. split; [done|]. cbn [pod_Containers pod_InitContainers set_Containers].
  rewrite (inject_pinned _ _ _ Hi), (inject_pinned _ _ _ Hc).
  split_and!; [done|done|done| |done].
  rewrite orb_false_iff, Hic, Hcc. split.
  - intros [-> ->]. by destruct pod.
  - intros Heq. apply (f_equal (λ p, (pod_InitContainers p, pod_Containers p))) in Heq.
    cbn in Heq. by injection Heq as -> ->.
Qed.

(** ** Examples *)
Definition cuda_container (env : list EnvVar) (n : Z) : Container :=
  mkContainer "main" env {["nvidia.com/gpu" := mkQuantity n (n =? 0)]} ∅ [].

Definition cuda_pod (env : list EnvVar) : Pod :=
  set_Containers [] [cuda_container env 1; cuda_container [] 0] (sample_pod "default" "train-0" []).

Lemma Inject_pins_witness :
  ["GPU-0"; "GPU-1"] ≠ [] ∧
  ∃ pod' changed, Inject (Some (cuda_pod [mkEnvVar "A" "1"])) ["GPU-0"; "GPU-1"] = Ok (pod', changed) ∧
    (c_Env <$> pod_Containers pod') =
      [[mkEnvVar "A" "1"; mkEnvVar "CUDA_VISIBLE_DEVICES" "GPU-0,GPU-1"]; []] ∧
    Inject (Some pod') ["GPU-0"; "GPU-1"] = Ok (pod', false).
Proof.
  split; [done|].
  destruct (Inject_pins (cuda_pod [mkEnvVar "A" "1"]) ["GPU-0"; "GPU-1"] ltac:(done))
    as (pod' & changed & E & _ & _ & _ & _ & Hagain).
  exists pod', changed. split; [exact E|]. split; [|exact Hagain].
  vm_compute in E. by injection E as <- <-.
Defined.

(** Only the first entry is rewritten, although the container runtime lets the
    last entry of a name win. *)
Lemma duplicate_env_survives :
  ∃ pod', Inject (Some (cuda_pod [mkEnvVar "CUDA_VISIBLE_DEVICES" "0"; mkEnvVar "CUDA_VISIBLE_DEVICES" "all"]))
      ["GPU-0"] = Ok (pod', true) ∧
    (c_Env <$> pod_Containers pod') =
      [[mkEnvVar "CUDA_VISIBLE_DEVICES" "GPU-0"; mkEnvVar "CUDA_VISIBLE_DEVICES" "all"]; []].
Proof. eexists. split; vm_compute; reflexivity. Qed.
