(* ===== verification/Webhook.v ===== *)
(** * internal/scheduler/webhook.go: the mutating admission webhook

    The webhook answers the creation of a shared GPU pod with a JSON patch.  A
    [patchOp] keeps its path as the string the code formats; its value is
    nothing (remove), one element (append) or a whole array.  Decoding the
    review and the pod is an input: what [json.Unmarshal] made of the body.
    The API server, which applies the patch, is the class [JSONPatch], with the
    part of RFC 6902 that the webhook relies on as laws. *)

From Stdlib Require Import ZArith Lia Ascii String.
From stdpp Require Import base option list strings gmap.
From S2P Require Import Prelude GoStrings Types K8s Helpers.
Open Scope string_scope.
Open Scope Z_scope.
Open Scope go_scope.

Definition gpuInfoVolumeName : string := "gpu-info".
Definition gpuInfoMountPath : string := "/etc/gpu-info".
Definition assignedGPUsAnnotation : string := "gpu-scheduler/assigned-gpus".

(** ** Patches *)
Inductive VolumeSource : Type :=
  | DownwardAPI (path fieldPath : string)
  | HostPath (path : string).

(** An element of one of the patched arrays. *)
Inductive item : Type :=
  | IEnv (e : EnvVar)
  | IVolume (name : string) (source : VolumeSource)
  | IMount (name mountPath : string) (readOnly : bool).

Inductive patch_value : Type :=
  | VNone
  | VItem (x : item)
  | VArray (l : list item).

Record patchOp : Type := mkPatchOp {
  po_Op : string;
  po_Path : string;
  po_Value : patch_value
}.

(** [fmt.Sprintf("/spec/containers/%d", i)], and for init containers. *)
Definition containers_path (init : bool) : string :=
  if init then "/spec/initContainers/" else "/spec/containers/".

Definition container_path (init : bool) (i : nat) : string :=
  containers_path init ++ itoa (Z.of_nat i).

(** ** Environment variables *)
Definition hasEnv (envs : list EnvVar) (name : string) : bool :=
  existsb (λ e, String.eqb (env_Name e) name) envs.

(** [make([]string, n)] panics when the slice would exceed the address space
    (48 bits, 16 bytes an element). *)
Definition make_strings_ok (n : Z) : bool := n <=? 17592186044416.

Definition mpsMemoryLimit (pod : Pod) : outcome string :=
  let memMB := GetGPUMemoryFromPod pod in
  let gpuCount := GetGPUCountFromPod pod in
  if gpuCount <=? 1 then Done ("0=" ++ itoa memMB ++ "M")
  else if negb (make_strings_ok gpuCount) then Panicked
  else Done (join "," ((λ i : nat, itoa (Z.of_nat i) ++ "=" ++ itoa memMB ++ "M") <$>
                         seq 0 (Z.to_nat gpuCount))).

Definition visible_all : EnvVar := mkEnvVar "NVIDIA_VISIBLE_DEVICES" "all".

Definition container_new_envs (pod : Pod) (c : Container) : outcome (list EnvVar) :=
  let e1 := if hasEnv (c_Env c) "NVIDIA_VISIBLE_DEVICES" then [] else [visible_all] in
  e2 ← (if hasEnv (c_Env c) "CUDA_MPS_PINNED_DEVICE_MEM_LIMIT" then Done []
        else limit ← mpsMemoryLimit pod; Done [mkEnvVar "CUDA_MPS_PINNED_DEVICE_MEM_LIMIT" limit]);
  let e3 := if hasEnv (c_Env c) "CUDA_MPS_PIPE_DIRECTORY" then []
            else [mkEnvVar "CUDA_MPS_PIPE_DIRECTORY" "/tmp/nvidia-mps"] in
  Done (e1 ++ e2 ++ e3)%list.

Definition init_new_envs (c : Container) : list EnvVar :=
  if hasEnv (c_Env c) "NVIDIA_VISIBLE_DEVICES" then [] else [visible_all].

(** The new entries, as one array when the field is absent from the pod, else
    one append each. *)
Definition array_patches (path : string) (present : nat) (new : list item) : list patchOp :=
  if (present =? 0)%nat && negb (length new =? 0)%nat then [mkPatchOp "add" path (VArray new)]
  else (λ x, mkPatchOp "add" (path ++ "/-") (VItem x)) <$> new.

Definition env_patches (init : bool) (i : nat) (c : Container) (new : list EnvVar) : list patchOp :=
  array_patches (container_path init i ++ "/env") (length (c_Env c)) (IEnv <$> new).

Fixpoint container_env_patches (pod : Pod) (ci : nat) (cs : list Container) : outcome (list patchOp) :=
  match cs with
  | [] => Done []
  | c :: rest =>
      newEnvs ← container_new_envs pod c;
      patches ← container_env_patches pod (S ci) rest;
      Done (env_patches false ci c newEnvs ++ patches)%list
  end.

(** ** Volumes and mounts *)
Definition gpuVolume : item :=
  IVolume gpuInfoVolumeName
    (DownwardAPI "assigned-gpus" ("metadata.annotations['" ++ assignedGPUsAnnotation ++ "']")).

Definition mpsVolume : item := IVolume "nvidia-mps" (HostPath "/tmp/nvidia-mps").

Definition gpu_mount : item := IMount gpuInfoVolumeName gpuInfoMountPath true.

Definition mpsMount : item := IMount "nvidia-mps" "/tmp/nvidia-mps" false.

Definition append_op (path : string) (x : item) : patchOp := mkPatchOp "add" (path ++ "/-") (VItem x).

Definition volume_patches (pod : Pod) : list patchOp :=
  (array_patches "/spec/volumes" (length (pod_Volumes pod)) [gpuVolume] ++
   [append_op "/spec/volumes" mpsVolume])%list.

Definition mounts_path (init : bool) (i : nat) : string := container_path init i ++ "/volumeMounts".

Definition mount_patches (init : bool) (i : nat) (c : Container) : list patchOp :=
  array_patches (mounts_path init i) (length (c_VolumeMounts c)) [gpu_mount].

(** ** Resources *)
Definition resource_path (i : nat) (kind : string) : string :=
  container_path false i ++ "/resources/" ++ kind.

Definition remove_gpu (i : nat) (kind : string) (resources : gmap string Quantity) : list patchOp :=
  match resources !! "nvidia.com/gpu" with
  | Some _ => [mkPatchOp "remove" (resource_path i kind ++ "/nvidia.com~1gpu") VNone]
  | None => []
  end.

Definition resource_patches (i : nat) (c : Container) : list patchOp :=
  (remove_gpu i "limits" (c_Limits c) ++ remove_gpu i "requests" (c_Requests c))%list.

Definition buildSharedGPUPatches (pod : Pod) : outcome (list patchOp) :=
  envs ← container_env_patches pod 0 (pod_Containers pod);
  Done (envs ++
    concat (imap (λ i c, env_patches true i c (init_new_envs c)) (pod_InitContainers pod)) ++
    volume_patches pod ++
    concat (imap (mount_patches false) (pod_Containers pod)) ++
    concat (imap (mount_patches true) (pod_InitContainers pod)) ++
    concat (imap (λ i _, [append_op (mounts_path false i) mpsMount]) (pod_Containers pod)) ++
    concat (imap resource_patches (pod_Containers pod)))%list.

(** ** The webhook *)
Record AdmissionRequest : Type := mkAdmissionRequest {
  ar_UID : string;
  ar_Kind : string;
  ar_Namespace : string;
  ar_Pod : result string Pod
}.

(** [Allowed], the patch if any; without one the result is a success status. *)
Record AdmissionResponse : Type := mkAdmissionResponse {
  ap_UID : string;
  ap_Allowed : bool;
  ap_Patch : option (list patchOp)
}.

Definition allowResponse : AdmissionResponse := mkAdmissionResponse "" true None.

(** A review without a request is a nil pointer, which [mutate] dereferences. *)
Definition mutate (req : option AdmissionRequest) : outcome AdmissionResponse :=
  match req with
  | None => Panicked
  | Some req =>
      if negb (String.eqb (ar_Kind req) "Pod") then Done allowResponse
      else
        match ar_Pod req with
        | Err _ => Done allowResponse
        | Ok pod =>
            if negb (String.eqb (annotation_or_empty pod "gpu-scheduler/shared") "true")
            then Done allowResponse
            else
              patches ← buildSharedGPUPatches pod;
              Done (match patches with
                    | [] => allowResponse
                    | _ => mkAdmissionResponse "" true (Some patches)
                    end)
        end
  end.

Inductive MutateAnswer : Type :=
  | MError (status : Z) (msg : string)
  | MReview (response : AdmissionResponse).

(** The body as read, and the decoded review: its request, which may be nil. *)
Definition HandleMutate (body : result string (result string (option AdmissionRequest))) :
    outcome MutateAnswer :=
  match body with
  | Err _ => Done (MError 400 "failed to read body")
  | Ok (Err _) => Done (MError 400 "failed to decode AdmissionReview")
  | Ok (Ok req) =>
      response ← mutate req;
      match req with
      | None => Panicked
      | Some r => Done (MReview (mkAdmissionResponse (ar_UID r) (ap_Allowed response) (ap_Patch response)))
      end
  end.

(** ** The API server's side: RFC 6902

    [array_at] and [object_at] look at a document: the elements of the array at
    a path, and whether the value at a path is an object; [member_at] says that
    there is a value.  Two paths are unrelated when neither is a prefix of the
    other.  The laws are those of "add" of a member of an object (section 4.1),
    of "add" at the end of an array, and of "remove" (4.2). *)
Class JSONPatch (Doc : Type) : Type := {
  apply_op : Doc → patchOp → option Doc;
  array_at : Doc → string → option (list item);
  object_at : Doc → string → bool;
  member_at : Doc → string → bool
}.

Definition unrelated (p q : string) : Prop := has_prefix p q = false ∧ has_prefix q p = false.

(** Outside [p] the document is the same. *)
Definition untouched {Doc} `{JSONPatch Doc} (p : string) (d d' : Doc) : Prop :=
  (∀ q, unrelated p q → array_at d' q = array_at d q) ∧
  (∀ q, has_prefix q p = false → object_at d' q = object_at d q ∧ member_at d' q = member_at d q).

Class JSONPatchLaws (Doc : Type) `{JSONPatch Doc} : Prop := {
  patch_add (d : Doc) parent k l :
    object_at d parent = true → str_mem "/" k = false → str_mem "~" k = false →
    ∃ d', apply_op d (mkPatchOp "add" (parent ++ "/" ++ k) (VArray l)) = Some d' ∧
      array_at d' (parent ++ "/" ++ k) = Some l ∧ untouched (parent ++ "/" ++ k) d d';
  patch_append (d : Doc) p l x :
    array_at d p = Some l →
    ∃ d', apply_op d (mkPatchOp "add" (p ++ "/-") (VItem x)) = Some d' ∧
      array_at d' p = Some (l ++ [x])%list ∧ untouched p d d';
  patch_remove (d : Doc) parent k :
    object_at d parent = true → str_mem "/" k = false → member_at d (parent ++ "/" ++ k) = true →
    ∃ d', apply_op d (mkPatchOp "remove" (parent ++ "/" ++ k) VNone) = Some d' ∧
      member_at d' (parent ++ "/" ++ k) = false ∧ untouched (parent ++ "/" ++ k) d d'
}.

Fixpoint apply_all {Doc} `{JSONPatch Doc} (d : Doc) (ops : list patchOp) : option Doc :=
  match ops with
  | [] => Some d
  | op :: rest => d' ← apply_op d op; apply_all d' rest
  end.

Section represents.
Context {Doc : Type} `{JSONPatch Doc}.

(** The elements at a path; an absent field is an empty array. *)
Definition content (d : Doc) (p : string) : list item := default [] (array_at d p).

(** The document has what the decoded container says. *)
Definition represents_container (d : Doc) (init : bool) (i : nat) (c : Container) : Prop :=
  object_at d (container_path init i) = true ∧
  length (content d (container_path init i ++ "/env")) = length (c_Env c) ∧
  length (content d (mounts_path init i)) = length (c_VolumeMounts c).

Definition represents_resources (d : Doc) (i : nat) (kind : string) (res : gmap string Quantity) : Prop :=
  is_Some (res !! "nvidia.com/gpu") →
  object_at d (resource_path i kind) = true ∧
  member_at d (resource_path i kind ++ "/nvidia.com~1gpu") = true.

Definition represents (d : Doc) (pod : Pod) : Prop :=
  object_at d "/spec" = true ∧
  length (content d "/spec/volumes") = length (pod_Volumes pod) ∧
  (∀ i c, pod_InitContainers pod !! i = Some c → represents_container d true i c) ∧
  (∀ i c, pod_Containers pod !! i = Some c → represents_container d false i c ∧
     represents_resources d i "limits" (c_Limits c) ∧ represents_resources d i "requests" (c_Requests c)).
End represents.

(** ** The places the webhook writes to *)
Inductive slot : Type :=
  | SEnv (init : bool) (i : nat)
  | SMounts (init : bool) (i : nat)
  | SVolumes
  | SResource (limits : bool) (i : nat).

#[export] Instance slot_eq_dec : EqDecision slot.
Proof. solve_decision. Defined.

Definition resource_kind (limits : bool) : string := if limits then "limits" else "requests".

(** The object that holds the slot and the slot's key in it. *)
Definition slot_parent (s : slot) : string :=
  match s with
  | SEnv init i | SMounts init i => container_path init i
  | SVolumes => "/spec"
  | SResource limits i => resource_path i (resource_kind limits)
  end.

Definition slot_key (s : slot) : string :=
  match s with
  | SEnv _ _ => "env" | SMounts _ _ => "volumeMounts"
  | SVolumes => "volumes" | SResource _ _ => "nvidia.com~1gpu"
  end.

Definition slot_path (s : slot) : string := slot_parent s ++ "/" ++ slot_key s.

(** Slice indices are non-negative [int]s. *)
Definition small (s : slot) : Prop :=
  match s with
  | SVolumes => True
  | SEnv _ i | SMounts _ i | SResource _ i => Z.of_nat i ≤ int_max
  end.

(** One operation on a slot, and the patch that performs it. *)
Inductive update : Type :=
  | UNew (l : list item)
  | UAppend (x : item)
  | URemove.

Definition patch_of (su : slot * update) : patchOp :=
  match su.2 with
  | UNew l => mkPatchOp "add" (slot_path su.1) (VArray l)
  | UAppend x => append_op (slot_path su.1) x
  | URemove => mkPatchOp "remove" (slot_path su.1) VNone
  end.

Definition is_resource (s : slot) : bool := match s with SResource _ _ => true | _ => false end.

Definition kind_ok (s : slot) (u : update) : bool :=
  match u with URemove => is_resource s | _ => negb (is_resource s) end.

(** What a slot holds, and what an operation makes of it; appending to or
    removing what is not there fails. *)
Definition update_slot (st : option (list item)) (u : update) : option (option (list item)) :=
  match u, st with
  | UNew l, _ => Some (Some l)
  | UAppend x, Some l => Some (Some (l ++ [x])%list)
  | URemove, Some _ => Some None
  | _, None => None
  end.

Fixpoint run_slot (st : option (list item)) (us : list update) : option (option (list item)) :=
  match us with
  | [] => Some st
  | u :: rest => st' ← update_slot st u; run_slot st' rest
  end.

Definition on_slot (s : slot) (ops : list (slot * update)) : list update :=
  omap (λ su, if decide (su.1 = s) then Some su.2 else None) ops.

(** ** What the patch is to do *)

(** The variables of [wanted] whose names the container does not set. *)
Definition missing (envs wanted : list EnvVar) : list EnvVar :=
  List.filter (λ e, bool_decide (env_Name e ∉ env_Name <$> envs)) wanted.

(** The memory of the pod on each of its GPUs, as ["0=4000M,1=4000M"]. *)
Definition memory_limit (pod : Pod) : string :=
  join "," ((λ i : nat, itoa (Z.of_nat i) ++ "=" ++ itoa (GetGPUMemoryFromPod pod) ++ "M") <$>
              seq 0 (Z.to_nat (Z.max 1 (GetGPUCountFromPod pod)))).

Definition wanted_envs (limit : string) : list EnvVar :=
  [mkEnvVar "NVIDIA_VISIBLE_DEVICES" "all"; mkEnvVar "CUDA_MPS_PINNED_DEVICE_MEM_LIMIT" limit;
   mkEnvVar "CUDA_MPS_PIPE_DIRECTORY" "/tmp/nvidia-mps"].

(** The container gets the variables it lacks, and the mounts whether or not it has
    them; the rest stays. *)
Definition injected_container {Doc} `{JSONPatch Doc} (d d' : Doc) (init : bool) (i : nat)
    (c : Container) (wanted : list EnvVar) (mounts : list item) : Prop :=
  content d' (container_path init i ++ "/env") =
    (content d (container_path init i ++ "/env") ++ (IEnv <$> missing (c_Env c) wanted))%list ∧
  content d' (mounts_path init i) = (content d (mounts_path init i) ++ mounts)%list.

Definition injected {Doc} `{JSONPatch Doc} (d d' : Doc) (pod : Pod) (limit : string) : Prop :=
  content d' "/spec/volumes" = (content d "/spec/volumes" ++
    [IVolume "gpu-info" (DownwardAPI "assigned-gpus" "metadata.annotations['gpu-scheduler/assigned-gpus']");
     IVolume "nvidia-mps" (HostPath "/tmp/nvidia-mps")])%list ∧
  (∀ i c, pod_InitContainers pod !! i = Some c →
     injected_container d d' true i c [mkEnvVar "NVIDIA_VISIBLE_DEVICES" "all"]
       [IMount "gpu-info" "/etc/gpu-info" true]) ∧
  (∀ i c, pod_Containers pod !! i = Some c →
     injected_container d d' false i c (wanted_envs limit)
       [IMount "gpu-info" "/etc/gpu-info" true; IMount "nvidia-mps" "/tmp/nvidia-mps" false] ∧
     (is_Some (c_Limits c !! "nvidia.com/gpu") →
        member_at d' (resource_path i "limits" ++ "/nvidia.com~1gpu") = false) ∧
     (is_Some (c_Requests c !! "nvidia.com/gpu") →
        member_at d' (resource_path i "requests" ++ "/nvidia.com~1gpu") = false)).

(** The same patches by slot. *)
Definition array_updates (present : nat) (new : list item) : list update :=
  if (present =? 0)%nat && negb (length new =? 0)%nat then [UNew new] else UAppend <$> new.

Definition at_slot (s : slot) (us : list update) : list (slot * update) := pair s <$> us.

Definition env_ops (init : bool) (wanted : list EnvVar) (i : nat) (c : Container) : list (slot * update) :=
  at_slot (SEnv init i) (array_updates (length (c_Env c)) (IEnv <$> missing (c_Env c) wanted)).

Definition mount_ops (init : bool) (i : nat) (c : Container) : list (slot * update) :=
  at_slot (SMounts init i) (array_updates (length (c_VolumeMounts c)) [gpu_mount]).

Definition mps_ops (i : nat) (_ : Container) : list (slot * update) :=
  at_slot (SMounts false i) [UAppend mpsMount].

Definition removal (resources : gmap string Quantity) : list update :=
  match resources !! "nvidia.com/gpu" with Some _ => [URemove] | None => [] end.

Definition resource_ops (i : nat) (c : Container) : list (slot * update) :=
  (at_slot (SResource true i) (removal (c_Limits c)) ++
   at_slot (SResource false i) (removal (c_Requests c)))%list.

Definition volume_ops (pod : Pod) : list (slot * update) :=
  at_slot SVolumes (array_updates (length (pod_Volumes pod)) [gpuVolume] ++ [UAppend mpsVolume]).

Definition pod_ops (pod : Pod) (limit : string) : list (slot * update) :=
  (concat (imap (env_ops false (wanted_envs limit)) (pod_Containers pod)) ++
   concat (imap (env_ops true [visible_all]) (pod_InitContainers pod)) ++
   volume_ops pod ++
   concat (imap (mount_ops false) (pod_Containers pod)) ++
   concat (imap (mount_ops true) (pod_InitContainers pod)) ++
   concat (imap mps_ops (pod_Containers pod)) ++
   concat (imap resource_ops (pod_Containers pod)))%list.

(** ** Lemmas on paths *)
Definition slot_parts (s : slot) : list string * string :=
  match s with
  | SEnv init i => ([""; "spec"; if init then "initContainers" else "containers"; itoa (Z.of_nat i)], "env")
  | SMounts init i =>
      ([""; "spec"; if init then "initContainers" else "containers"; itoa (Z.of_nat i)], "volumeMounts")
  | SVolumes => ([""; "spec"], "volumes")
  | SResource limits i =>
      ([""; "spec"; "containers"; itoa (Z.of_nat i); "resources"; resource_kind limits], "nvidia.com~1gpu")
  end.

Lemma split_number i s :
  split_on "/" (itoa (Z.of_nat i) ++ String "/" s) = itoa (Z.of_nat i) :: split_on "/" s.
Proof. apply split_on_app, itoa_no_slash. lia. Qed.

Lemma split_container init i rest :
  split_on "/" (container_path init i ++ String "/" rest) =
  ([""; "spec"; if init then "initContainers" else "containers"; itoa (Z.of_nat i)] ++
   split_on "/" rest)%list.
Proof.
  unfold container_path. rewrite <-str_app_assoc.
  set (tail := itoa (Z.of_nat i) ++ String "/" rest).
  assert (∀ w, str_mem "/" w = false → split_on "/" (("/spec/" ++ w ++ "/") ++ tail) =
    "" :: "spec" :: w :: split_on "/" tail) as Hw.
  { intros w Hw. rewrite <-!str_app_assoc.
    change ("/spec/" ++ ?x) with ("" ++ String "/" ("spec" ++ String "/" x)).
    change ("/" ++ tail) with (String "/" tail). by rewrite !split_on_app. }
  destruct init; cbn [containers_path].
  - change "/spec/initContainers/" with ("/spec/" ++ "initContainers" ++ "/").
    rewrite Hw by done. unfold tail. by rewrite split_number.
  - change "/spec/containers/" with ("/spec/" ++ "containers" ++ "/").
    rewrite Hw by done. unfold tail. by rewrite split_number.
Qed.

Lemma split_slot s : split_on "/" (slot_path s) = ((slot_parts s).1 ++ [(slot_parts s).2])%list.
Proof.
  unfold slot_path. destruct s as [init i|init i| |limits i]; cbn [slot_parent slot_key].
  - exact (split_container init i "env").
  - exact (split_container init i "volumeMounts").
  - done.
  - unfold resource_path. rewrite <-!str_app_assoc. destruct limits.
    + exact (split_container false i "resources/limits/nvidia.com~1gpu").
    + exact (split_container false i "resources/requests/nvidia.com~1gpu").
Qed.

Lemma itoa_nat_inj i j :
  Z.of_nat i ≤ int_max → Z.of_nat j ≤ int_max → itoa (Z.of_nat i) = itoa (Z.of_nat j) → i = j.
Proof.
  intros Hi Hj E%itoa_inj; [lia|..]; unfold in_int, int_min, int_max in *; lia.
Qed.

(** No slot lies inside another. *)
Lemma slot_prefix s s' : small s → small s' → has_prefix (slot_path s') (slot_path s) = true → s = s'.
Proof.
  intros Hs Hs' [r Hr]%prefix_app.
  destruct (split_prefix "/" _ r _ _ (split_slot s)) as (h & t & E).
  rewrite <-Hr, split_slot in E.
  destruct s as [[] i|[] i| |[] i], s' as [[] j|[] j| |[] j]; cbn -[itoa] in E; simplify_eq; try done;
    f_equal; by apply itoa_nat_inj.
Qed.

Lemma split_parent s : split_on "/" (slot_parent s) = (slot_parts s).1.
Proof.
  pose proof (split_slot s) as E. unfold slot_path in E.
  change ("/" ++ slot_key s) with (String "/" (slot_key s)) in E.
  rewrite split_app_sep, (split_on_free _ (slot_key s)) in E by (by destruct s).
  by apply app_inj_tail in E as [-> _].
Qed.

(** An operation on a slot leaves the objects that hold slots in place. *)
Lemma parent_outside s s' : has_prefix (slot_parent s') (slot_path s) = false.
Proof.
  destruct (has_prefix _ _) eqn:E; [|done]. exfalso. apply prefix_app in E as [r Hr].
  destruct (split_prefix "/" _ r _ _ (split_slot s)) as (h & t & E).
  rewrite <-Hr, split_parent in E.
  destruct s as [[] i|[] i| |[] i], s' as [[] j|[] j| |[] j]; cbn -[itoa] in E; simplify_eq; done.
Qed.

Lemma slot_unrelated s s' : small s → small s' → s ≠ s' → unrelated (slot_path s) (slot_path s').
Proof.
  intros Hs Hs' Hne. split.
  - destruct (has_prefix _ _) eqn:E; [|done]. apply slot_prefix in E; [|done..]. congruence.
  - destruct (has_prefix _ _) eqn:E; [|done]. apply slot_prefix in E; [|done..]. congruence.
Qed.

(** ** Applying patches slot by slot *)
Section apply.
Context {Doc : Type} `{JSONPatchLaws Doc}.

Definition slot_state (d : Doc) (s : slot) : option (list item) :=
  if is_resource s then (if member_at d (slot_path s) then Some [] else None)
  else array_at d (slot_path s).

Lemma untouched_slot s s' (d d' : Doc) :
  small s → small s' → s ≠ s' → untouched (slot_path s) d d' → slot_state d' s' = slot_state d s'.
Proof.
  intros Hs Hs' Hne [Ha Ho]. pose proof (slot_unrelated s s' Hs Hs' Hne) as Hu.
  unfold slot_state. rewrite (Ha _ Hu). by rewrite (proj2 (Ho _ (proj2 Hu))).
Qed.

Lemma untouched_parent s s' (d d' : Doc) :
  untouched (slot_path s) d d' → object_at d' (slot_parent s') = object_at d (slot_parent s').
Proof. intros [_ Ho]. apply (Ho _ (parent_outside s s')). Qed.

(** One patch does to its slot what [update_slot] says. *)
Lemma apply_slot (d : Doc) s u st :
  kind_ok s u = true → object_at d (slot_parent s) = true →
  update_slot (slot_state d s) u = Some st →
  ∃ d', apply_op d (patch_of (s, u)) = Some d' ∧ slot_state d' s = st ∧ untouched (slot_path s) d d'.
Proof.
  unfold slot_state. intros Hk Hp Hu. destruct u as [l|x|]; cbn in Hk; bool_hyps.
  - rewrite Hk in *. injection Hu as <-.
    destruct (patch_add d (slot_parent s) (slot_key s) l Hp) as (d' & Ed & Ea & Hun);
      [by destruct s..|]. exists d'. done.
  - rewrite Hk in *. cbn in Hu. destruct (array_at d (slot_path s)) as [l|] eqn:Ea; [|done].
    injection Hu as <-. destruct (patch_append d (slot_path s) l x Ea) as (d' & Ed & Ea' & Hun).
    by exists d'.
  - rewrite Hk in *. cbn in Hu. destruct (member_at d (slot_path s)) eqn:Em; [|done].
    injection Hu as <-.
    destruct (patch_remove d (slot_parent s) (slot_key s) Hp) as (d' & Ed & Em' & Hun);
      [by destruct s|done|]. exists d'. split_and!; [done| |done].
    change (slot_parent s ++ "/" ++ slot_key s) with (slot_path s) in Em'. by rewrite Em'.
Qed.

Definition op_ok (d : Doc) (su : slot * update) : Prop :=
  small su.1 ∧ kind_ok su.1 su.2 = true ∧ object_at d (slot_parent su.1) = true.

(** A patch list applies as soon as it does on each slot by itself. *)
Lemma apply_slots (d : Doc) ops :
  Forall (op_ok d) ops →
  (∀ s, small s → is_Some (run_slot (slot_state d s) (on_slot s ops))) →
  ∃ d', apply_all d (patch_of <$> ops) = Some d' ∧
    ∀ s, small s → run_slot (slot_state d s) (on_slot s ops) = Some (slot_state d' s).
Proof.
  revert d. induction ops as [|[s u] ops IH]; intros d Hok Hrun; [by exists d|].
  apply Forall_cons in Hok as [(Hs & Hk & Hp) Hok]. cbn [fst snd] in *.
  assert (∀ s', on_slot s' ((s, u) :: ops) = if decide (s = s') then u :: on_slot s' ops else on_slot s' ops)
    as Hon by (intros s'; cbn; by case_decide).
  pose proof (Hrun s Hs) as [st0 Hst0]. rewrite Hon, decide_True in Hst0 by done. cbn in Hst0.
  destruct (update_slot (slot_state d s) u) as [st|] eqn:Eu; [|done]. cbn in Hst0.
  destruct (apply_slot d s u st Hk Hp Eu) as (d1 & E1 & Hst & Hun).
  assert (∀ s', small s' → run_slot (slot_state d s') (on_slot s' ((s, u) :: ops)) =
    run_slot (slot_state d1 s') (on_slot s' ops)) as Hnext.
  { intros s' Hs'. rewrite Hon. case_decide as Heq; [subst s'; cbn; by rewrite Eu, Hst|].
    by rewrite (untouched_slot s s' d d1). }
  destruct (IH d1) as (d' & Ed & Hd').
  - eapply Forall_impl; [exact Hok|]. intros [s' u'] (? & ? & Hp'). split_and!; try done. cbn [fst] in *.
    by rewrite (untouched_parent s s' d d1 Hun).
  - intros s' Hs'. rewrite <-Hnext by done. by apply Hrun.
  - exists d'. cbn. rewrite E1. cbn. split; [done|]. intros s' Hs'. rewrite Hnext by done. by apply Hd'.
Qed.
End apply.

(** ** The patch list by slot *)
Lemma patch_of_array p present new s :
  slot_path s = p → patch_of <$> at_slot s (array_updates present new) = array_patches p present new.
Proof.
  intros <-. unfold array_updates, array_patches, at_slot. case_match; [done|].
  rewrite <-!list_fmap_compose. done.
Qed.

Lemma fmap_concat_imap {A B C} (f : B → C) (body : nat → A → list B) (body' : nat → A → list C) l :
  (∀ i x, f <$> body i x = body' i x) → f <$> concat (imap body l) = concat (imap body' l).
Proof.
  revert body body'. induction l as [|x l IH]; intros body body' Hb; [done|].
  cbn. rewrite fmap_app, Hb. f_equal. apply IH. intros. apply Hb.
Qed.

Lemma hasEnv_missing envs e :
  bool_decide (env_Name e ∉ env_Name <$> envs) = negb (hasEnv envs (env_Name e)).
Proof.
  unfold hasEnv. rewrite bool_decide_not. f_equal. apply eq_true_iff_eq.
  rewrite bool_decide_eq_true, existsb_exists, list_elem_of_fmap. split.
  - intros (y & E & Hy%list_elem_of_In). exists y. split; [done|]. by apply String.eqb_eq.
  - intros (y & Hy%list_elem_of_In & E%String.eqb_eq). by exists y.
Qed.

Lemma missing_cons envs e wanted :
  missing envs (e :: wanted) =
  ((if hasEnv envs (env_Name e) then [] else [e]) ++ missing envs wanted)%list.
Proof. unfold missing. cbn [List.filter]. rewrite hasEnv_missing. by destruct (hasEnv _ _). Qed.

Lemma container_new_envs_eq pod limit c :
  mpsMemoryLimit pod = Done limit →
  container_new_envs pod c = Done (missing (c_Env c) (wanted_envs limit)).
Proof.
  intros Hl. unfold container_new_envs, wanted_envs. rewrite Hl, !missing_cons. cbn.
  by destruct (hasEnv _ "NVIDIA_VISIBLE_DEVICES"), (hasEnv _ "CUDA_MPS_PINNED_DEVICE_MEM_LIMIT"),
    (hasEnv _ "CUDA_MPS_PIPE_DIRECTORY").
Qed.

Lemma init_new_envs_eq c : init_new_envs c = missing (c_Env c) [visible_all].
Proof. unfold init_new_envs. rewrite missing_cons. cbn. by destruct (hasEnv _ _). Qed.

Lemma mpsMemoryLimit_spec pod :
  GetGPUCountFromPod pod ≤ 17592186044416 → mpsMemoryLimit pod = Done (memory_limit pod).
Proof.
  intros Hmax. unfold mpsMemoryLimit, memory_limit, make_strings_ok.
  destruct (Z.leb_spec (GetGPUCountFromPod pod) 1).
  - by rewrite Z.max_l.
  - rewrite (proj2 (Z.leb_le _ _) Hmax), Z.max_r by lia. done.
Qed.

Lemma container_env_patches_eq pod limit k cs :
  mpsMemoryLimit pod = Done limit →
  container_env_patches pod k cs =
  Done (concat (imap (λ i c, env_patches false (k + i) c (missing (c_Env c) (wanted_envs limit))) cs)).
Proof.
  intros Hl. revert k. induction cs as [|c cs IH]; intros k; [done|].
  cbn [container_env_patches]. rewrite (container_new_envs_eq pod limit c Hl). cbn. rewrite IH. cbn.
  rewrite Nat.add_0_r. do 3 f_equal. apply imap_ext. intros i x _. cbn. f_equal. lia.
Qed.

Lemma build_by_slot pod limit :
  mpsMemoryLimit pod = Done limit → buildSharedGPUPatches pod = Done (patch_of <$> pod_ops pod limit).
Proof.
  intros Hl. unfold buildSharedGPUPatches. rewrite (container_env_patches_eq pod limit 0 _ Hl). cbn.
  unfold pod_ops. rewrite !fmap_app. f_equal.
  assert (∀ init wanted i c, patch_of <$> env_ops init wanted i c =
    env_patches init i c (missing (c_Env c) wanted)) as He.
  { intros init wanted i c. by apply patch_of_array. }
  rewrite !(fmap_concat_imap patch_of _ _ _ (He _ _)).
  rewrite !(fmap_concat_imap patch_of (mount_ops _) (mount_patches _))
    by (intros i c; by apply patch_of_array).
  f_equal. f_equal.
  { f_equal. apply imap_ext. intros i c _. cbn. by rewrite init_new_envs_eq. }
  f_equal.
  { unfold volume_ops, volume_patches, at_slot. rewrite fmap_app, fmap_app.
    f_equal. by rewrite <-(patch_of_array "/spec/volumes" _ _ SVolumes). }
  do 2 f_equal. f_equal.
  { symmetry. by apply fmap_concat_imap. }
  symmetry. apply fmap_concat_imap. intros i c. unfold resource_ops, resource_patches, remove_gpu, removal.
  rewrite fmap_app. by destruct (c_Limits c !! _), (c_Requests c !! _).
Qed.

#[local] Arguments on_slot : simpl never.

Lemma on_slot_app s o1 o2 : on_slot s (o1 ++ o2) = (on_slot s o1 ++ on_slot s o2)%list.
Proof. unfold on_slot. by rewrite omap_app. Qed.

Lemma on_slot_at s s' us : on_slot s (at_slot s' us) = if decide (s' = s) then us else [].
Proof.
  unfold on_slot, at_slot. induction us as [|u us IH]; cbn; [by case_decide|].
  cbn in IH. rewrite IH. by case_decide.
Qed.

Lemma on_slot_none {A} s (body : nat → A → list (slot * update)) l :
  (∀ i x, on_slot s (body i x) = []) → on_slot s (concat (imap body l)) = [].
Proof.
  revert body. induction l as [|x l IH]; intros body Hb; [done|]. cbn.
  rewrite on_slot_app, Hb, IH; [done|]. intros. apply Hb.
Qed.

(** A loop over the containers touches a slot of one container there only. *)
Lemma on_slot_index {A} s (body : nat → A → list (slot * update)) l i :
  (∀ j y, j ≠ i → on_slot s (body j y) = []) →
  on_slot s (concat (imap body l)) = default [] ((λ x, on_slot s (body i x)) <$> l !! i).
Proof.
  revert body i. induction l as [|y l IH]; intros body i Hb; [done|]. cbn. rewrite on_slot_app.
  destruct i as [|i].
  - rewrite on_slot_none; [by rewrite app_nil_r|]. intros j z. by apply (Hb (S j)).
  - rewrite Hb by done. apply (IH (body ∘ S) i). intros j z Hj. apply (Hb (S j)). lia.
Qed.

(** [on_slot] of each loop of the patch builder. *)
Ltac slot_elsewhere :=
  intros; unfold env_ops, mount_ops, mps_ops, resource_ops;
  rewrite ?on_slot_app, !on_slot_at; repeat case_decide; by simplify_eq.
Ltac slot_here :=
  unfold env_ops, mount_ops, mps_ops, resource_ops;
  rewrite ?on_slot_app, ?on_slot_at; repeat case_decide; simplify_eq; by rewrite ?app_nil_r.

(** The operations on one slot, for each of the seven loops. *)
Lemma pod_ops_on pod limit s :
  on_slot s (pod_ops pod limit) =
  match s with
  | SEnv false i => default [] ((λ c, array_updates (length (c_Env c))
        (IEnv <$> missing (c_Env c) (wanted_envs limit))) <$> pod_Containers pod !! i)
  | SEnv true i => default [] ((λ c, array_updates (length (c_Env c))
        (IEnv <$> missing (c_Env c) [visible_all])) <$> pod_InitContainers pod !! i)
  | SVolumes => array_updates (length (pod_Volumes pod)) [gpuVolume] ++ [UAppend mpsVolume]
  | SMounts false i => default [] ((λ c, array_updates (length (c_VolumeMounts c)) [gpu_mount] ++
        [UAppend mpsMount]) <$> pod_Containers pod !! i)
  | SMounts true i => default [] ((λ c, array_updates (length (c_VolumeMounts c)) [gpu_mount])
        <$> pod_InitContainers pod !! i)
  | SResource true i => default [] ((λ c, removal (c_Limits c)) <$> pod_Containers pod !! i)
  | SResource false i => default [] ((λ c, removal (c_Requests c)) <$> pod_Containers pod !! i)
  end%list.
Proof.
  unfold pod_ops. rewrite !on_slot_app.
  assert (on_slot s (volume_ops pod) = if decide (SVolumes = s) then
    array_updates (length (pod_Volumes pod)) [gpuVolume] ++ [UAppend mpsVolume] else [])%list as ->
    by apply on_slot_at.
  destruct s as [[] i|[] i| |[] i];
    repeat match goal with
    | |- context [on_slot ?s (concat (imap ?body ?l))] =>
        first [ rewrite (on_slot_none s body l) by slot_elsewhere
              | rewrite (on_slot_index s body l i) by slot_elsewhere ]
    end; rewrite ?app_nil_l, ?app_nil_r; [..|done| |];
    match goal with |- _ = default _ (_ <$> ?o) => destruct o as [c|] end; try done;
    cbn [fmap option_fmap option_map default from_option id]; slot_here.
Qed.

(** ** The patch applies and does what it is to do *)
Lemma run_slot_app st us vs : run_slot st (us ++ vs) = run_slot st us ≫= λ st', run_slot st' vs.
Proof.
  revert st. induction us as [|u us IH]; intros st; [done|]. cbn.
  destruct (update_slot st u); cbn; [apply IH|done].
Qed.

Lemma run_appends l new : run_slot (Some l) (UAppend <$> new) = Some (Some (l ++ new)%list).
Proof.
  revert l. induction new as [|x new IH]; intros l; cbn; [by rewrite app_nil_r|].
  rewrite IH. by rewrite <-app_assoc.
Qed.

(** Whether the field was there or not, the new elements end up behind the old. *)
Lemma run_array st present new :
  length (default [] st) = present →
  ∃ st', run_slot st (array_updates present new) = Some st' ∧
    default [] st' = (default [] st ++ new)%list ∧ (new ≠ [] → is_Some st').
Proof.
  intros Hl. unfold array_updates. destruct (Nat.eqb_spec present 0) as [E|E]; cbn [andb].
  - destruct new as [|x new]; cbn.
    + exists st. by rewrite app_nil_r.
    + eexists. split; [done|]. cbn. subst present. by destruct st as [[|]|].
  - destruct st as [l|]; [|cbn in Hl; lia]. rewrite run_appends. cbn. eauto.
Qed.

Lemma run_array_content st present new :
  length (default [] st) = present →
  ∃ st', run_slot st (array_updates present new) = Some st' ∧ default [] st' = (default [] st ++ new)%list.
Proof. intros Hl. destruct (run_array st present new Hl) as (st' & ? & ? & _). by exists st'. Qed.

Lemma run_array_append st present new x :
  length (default [] st) = present → new ≠ [] →
  ∃ st', run_slot st (array_updates present new ++ [UAppend x]) = Some st' ∧
    default [] st' = (default [] st ++ new ++ [x])%list.
Proof.
  intros Hl Hn. destruct (run_array st present new Hl) as (st' & E & Hst' & Hs).
  destruct (Hs Hn) as [l ->]. rewrite run_slot_app, E. cbn. eexists. split; [done|]. cbn in *.
  by rewrite Hst', app_assoc.
Qed.

Lemma Forall_concat_imap {A B} (P : B → Prop) (body : nat → A → list B) l :
  (∀ i x, l !! i = Some x → Forall P (body i x)) → Forall P (concat (imap body l)).
Proof.
  revert body. induction l as [|x l IH]; intros body Hb; [constructor|]. cbn. apply Forall_app. split.
  - by apply (Hb 0%nat).
  - apply IH. intros i y Hi. by apply (Hb (S i)).
Qed.

Section webhook.
Context {Doc : Type} `{JSONPatchLaws Doc}.
Implicit Types d : Doc.

Lemma op_ok_at d s us :
  small s → object_at d (slot_parent s) = true → Forall (λ u, kind_ok s u = true) us →
  Forall (op_ok d) (at_slot s us).
Proof. intros Hs Hp Hk. apply Forall_fmap. eapply Forall_impl; [exact Hk|]. by intros. Qed.

Lemma array_kind s present new :
  is_resource s = false → Forall (λ u, kind_ok s u = true) (array_updates present new).
Proof.
  intros Hs. unfold array_updates. case_match; [by repeat constructor; cbn; rewrite Hs|].
  apply Forall_fmap, Forall_true. intros x. cbn. by rewrite Hs.
Qed.

Lemma small_index {A} (l : list A) i x :
  l !! i = Some x → Z.of_nat (length l) ≤ int_max → Z.of_nat i ≤ int_max.
Proof. intros Hi%lookup_lt_Some Hl. lia. Qed.

Lemma pod_ops_ok d pod limit :
  represents d pod → Z.of_nat (length (pod_Containers pod)) ≤ int_max →
  Z.of_nat (length (pod_InitContainers pod)) ≤ int_max →
  Forall (op_ok d) (pod_ops pod limit).
Proof.
  intros (Hspec & Hvol & Hinit & Hcont) Hlc Hli. unfold pod_ops. rewrite !Forall_app.
  split_and!; try apply Forall_concat_imap; intros; unfold resource_ops;
    try match goal with
    | E : pod_Containers _ !! _ = Some _ |- _ =>
        pose proof (small_index _ _ _ E Hlc); destruct (Hcont _ _ E) as ((Hobj & _) & Hrl & Hrr)
    | E : pod_InitContainers _ !! _ = Some _ |- _ =>
        pose proof (small_index _ _ _ E Hli); destruct (Hinit _ _ E) as (Hobj & _)
    end; try (apply op_ok_at; [done..|]; try by apply array_kind).
  - apply Forall_app. split; [by apply array_kind|by repeat constructor].
  - by repeat constructor.
  - apply Forall_app. unfold removal. split.
    + destruct (c_Limits x !! "nvidia.com/gpu") eqn:E; [|constructor].
      apply op_ok_at; [done|apply Hrl; by rewrite E|by repeat constructor].
    + destruct (c_Requests x !! "nvidia.com/gpu") eqn:E; [|constructor].
      apply op_ok_at; [done|apply Hrr; by rewrite E|by repeat constructor].
Qed.

(** On every slot the operations run. *)
Lemma pod_ops_run d pod limit s :
  represents d pod → is_Some (run_slot (slot_state d s) (on_slot s (pod_ops pod limit))).
Proof.
  intros (Hspec & Hvol & Hinit & Hcont). rewrite pod_ops_on. unfold slot_state.
  destruct s as [[] i|[] i| |[] i]; cbn [is_resource];
    try match goal with |- context [default _ (_ <$> ?o)] => destruct o as [c|] eqn:E; [|done] end;
    try destruct (Hcont _ _ E) as ((_ & He & Hm) & Hrl & Hrr); try destruct (Hinit _ _ E) as (_ & He & Hm);
    cbn [fmap option_fmap option_map default from_option id].
  - destruct (run_array _ _ (IEnv <$> missing (c_Env c) [visible_all]) He) as (st & Hst & _). by exists st.
  - destruct (run_array _ _ (IEnv <$> missing (c_Env c) (wanted_envs limit)) He) as (st & Hst & _). by exists st.
  - destruct (run_array _ _ [gpu_mount] Hm) as (st & Hst & _). by exists st.
  - destruct (run_array_append _ _ [gpu_mount] mpsMount Hm) as (st & Hst & _); [done|]. by exists st.
  - destruct (run_array_append _ _ [gpuVolume] mpsVolume Hvol) as (st & Hst & _); [done|]. by exists st.
  - unfold removal. destruct (c_Limits c !! _) eqn:El; [|done].
    destruct (Hrl ltac:(by rewrite El)) as [_ Hmem]. unfold slot_path; cbn [slot_parent slot_key resource_kind].
    change ("/" ++ "nvidia.com~1gpu") with "/nvidia.com~1gpu". by rewrite Hmem.
  - unfold removal. destruct (c_Requests c !! _) eqn:El; [|done].
    destruct (Hrr ltac:(by rewrite El)) as [_ Hmem]. unfold slot_path; cbn [slot_parent slot_key resource_kind].
    change ("/" ++ "nvidia.com~1gpu") with "/nvidia.com~1gpu". by rewrite Hmem.
Qed.

(** What a run leaves in a slot, read off the document. *)
Lemma array_after d d' s us l :
  is_resource s = false → run_slot (slot_state d s) us = Some (slot_state d' s) →
  (∃ st, run_slot (array_at d (slot_path s)) us = Some st ∧ default [] st = l) →
  content d' (slot_path s) = l.
Proof.
  intros Hr. unfold slot_state. rewrite Hr. intros Hrun (st & Hst & <-).
  rewrite Hst in Hrun. by injection Hrun as ->.
Qed.

Lemma resource_after d d' limits i res :
  run_slot (slot_state d (SResource limits i)) (removal res) = Some (slot_state d' (SResource limits i)) →
  is_Some (res !! "nvidia.com/gpu") → member_at d' (slot_path (SResource limits i)) = false.
Proof.
  intros Hrun [q Hq]. unfold removal in Hrun. rewrite Hq in Hrun. unfold slot_state in Hrun.
  cbn [is_resource] in Hrun. destruct (member_at d _) in Hrun; [|done]. cbn in Hrun.
  by destruct (member_at d' _) in Hrun |- *.
Qed.

(** What the runs leave in each slot is what [injected] asks for. *)
Lemma pod_ops_injected d d' pod limit :
  represents d pod → Z.of_nat (length (pod_Containers pod)) ≤ int_max →
  Z.of_nat (length (pod_InitContainers pod)) ≤ int_max →
  (∀ s, small s → run_slot (slot_state d s) (on_slot s (pod_ops pod limit)) = Some (slot_state d' s)) →
  injected d d' pod limit.
Proof.
  intros (Hspec & Hvol & Hinit & Hcont) Hlc Hli Hrun. split_and!.
  - specialize (Hrun SVolumes I). rewrite pod_ops_on in Hrun.
    by apply (array_after _ _ SVolumes _ _ eq_refl Hrun), run_array_append.
  - intros i c E. destruct (Hinit i c E) as (_ & He & Hm). pose proof (small_index _ _ _ E Hli) as Hs.
    pose proof (Hrun (SEnv true i) Hs) as Henv. pose proof (Hrun (SMounts true i) Hs) as Hmnt.
    rewrite pod_ops_on, E in Henv, Hmnt. split.
    + by apply (array_after _ _ (SEnv true i) _ _ eq_refl Henv), run_array_content.
    + by apply (array_after _ _ (SMounts true i) _ _ eq_refl Hmnt), run_array_content.
  - intros i c E. destruct (Hcont i c E) as ((_ & He & Hm) & _). pose proof (small_index _ _ _ E Hlc) as Hs.
    pose proof (Hrun (SEnv false i) Hs) as Henv. pose proof (Hrun (SMounts false i) Hs) as Hmnt.
    pose proof (Hrun (SResource true i) Hs) as Hl. pose proof (Hrun (SResource false i) Hs) as Hr.
    rewrite pod_ops_on, E in Henv, Hmnt, Hl, Hr. split_and!.
    + split.
      * by apply (array_after _ _ (SEnv false i) _ _ eq_refl Henv), run_array_content.
      * by apply (array_after _ _ (SMounts false i) _ _ eq_refl Hmnt), run_array_append.
    + exact (resource_after _ _ _ _ _ Hl).
    + exact (resource_after _ _ _ _ _ Hr).
Qed.

Lemma mutate_spec d req pod limit :
  ar_Kind req = "Pod" → ar_Pod req = Ok pod → annotation_or_empty pod "gpu-scheduler/shared" = "true" →
  mpsMemoryLimit pod = Done limit → represents d pod →
  Z.of_nat (length (pod_Containers pod)) ≤ int_max →
  Z.of_nat (length (pod_InitContainers pod)) ≤ int_max →
  ∃ patches d', mutate (Some req) = Done (mkAdmissionResponse "" true (Some patches)) ∧
    apply_all d patches = Some d' ∧ injected d d' pod limit.
Proof.
  intros Hkind Hpod Hshared Hlimit Hrep Hlc Hli.
  destruct (apply_slots d (pod_ops pod limit)) as (d' & Happly & Hrun).
  - by apply pod_ops_ok.
  - intros s _. by apply pod_ops_run.
  - exists (patch_of <$> pod_ops pod limit), d'. split_and!.
    + unfold mutate. rewrite Hkind, Hpod, Hshared, (build_by_slot pod limit Hlimit). cbn.
      destruct (patch_of <$> pod_ops pod limit) eqn:E; [|done].
      apply fmap_nil_inv in E. pose proof (pod_ops_on pod limit SVolumes) as Hon. rewrite E in Hon.
      symmetry in Hon. by apply app_eq_nil in Hon as [_ Hon].
    + done.
    + by apply pod_ops_injected.
Qed.

(** C31: the webhook's patch applies and injects exactly what a shared pod needs.
    For a shared GPU pod the patch is accepted, operation after operation, on
    any document with the pod's fields, absent arrays included; afterwards every
    container has its variables followed by those of the three it lacked, with
    the pod's memory on each GPU as the MPS limit, its mounts followed by the
    device-info and MPS mounts, and no GPU limit or request; init containers get
    the visible-devices variable and the device-info mount, and the pod the two
    volumes. Volumes and mounts are appended whether or not the pod has them.
    The GPU count is below the size at which the handler panics
    ([huge_gpu_count_panics]). *)
Theorem mutate_injects d req pod :
  ar_Kind req = "Pod" → ar_Pod req = Ok pod → annotation pod "gpu-scheduler/shared" = Some "true" →
  GetGPUCountFromPod pod ≤ 17592186044416 → represents d pod →
  Z.of_nat (length (pod_Containers pod)) ≤ int_max →
  Z.of_nat (length (pod_InitContainers pod)) ≤ int_max →
  ∃ patches d', mutate (Some req) = Done (mkAdmissionResponse "" true (Some patches)) ∧
    apply_all d patches = Some d' ∧ injected d d' pod (memory_limit pod).
Proof.
  intros Hk Hp Hs Hc. apply mutate_spec; [done|done| |by apply mpsMemoryLimit_spec].
  unfold annotation_or_empty. by rewrite Hs.
Qed.
End webhook.

(** Other objects, undecodable pods and pods that are not shared pass unchanged. *)
Lemma mutate_allows_others req :
  ar_Kind req ≠ "Pod" ∨
  (∀ pod, ar_Pod req = Ok pod → annotation_or_empty pod "gpu-scheduler/shared" ≠ "true") →
  mutate (Some req) = Done allowResponse.
Proof.
  intros Hor. unfold mutate. destruct (String.eqb_spec (ar_Kind req) "Pod") as [E|E]; cbn [negb]; [|done].
  destruct Hor as [|Hpod]; [done|]. destruct (ar_Pod req) as [pod|]; [|done].
  specialize (Hpod _ eq_refl). apply String.eqb_neq in Hpod. by rewrite Hpod.
Qed.

(** ** A document store with these laws *)

(** The path without its last part, and that part. *)
Fixpoint rsplit (s : string) : option (string * string) :=
  match s with
  | EmptyString => None
  | String c s' =>
      match rsplit s' with
      | Some (a, b) => Some (String c a, b)
      | None => if Ascii.eqb c "/" then Some ("", s') else None
      end
  end.

Record SimpleDoc : Type := mkSimpleDoc {
  sd_arrays : gmap string (list item);
  sd_objects : gset string;
  sd_leaves : gset string
}.

Definition simple_apply (d : SimpleDoc) (op : patchOp) : option SimpleDoc :=
  match rsplit (po_Path op), po_Value op with
  | Some (parent, _), VArray l =>
      if decide (parent ∈ sd_objects d)
      then Some (mkSimpleDoc (<[po_Path op := l]> (sd_arrays d)) (sd_objects d) (sd_leaves d))
      else None
  | Some (p, _), VItem x =>
      l ← sd_arrays d !! p;
      Some (mkSimpleDoc (<[p := (l ++ [x])%list]> (sd_arrays d)) (sd_objects d) (sd_leaves d))
  | _, VNone =>
      if decide (po_Path op ∈ sd_leaves d)
      then Some (mkSimpleDoc (sd_arrays d) (sd_objects d) (sd_leaves d ∖ {[po_Path op]}))
      else None
  | None, _ => None
  end.

#[export] Instance simple_patch : JSONPatch SimpleDoc := {|
  apply_op := simple_apply;
  array_at d p := sd_arrays d !! p;
  object_at d p := bool_decide (p ∈ sd_objects d);
  member_at d p := bool_decide (p ∈ sd_leaves d)
|}.

Lemma rsplit_free k : str_mem "/" k = false → rsplit k = None.
Proof.
  induction k as [|c k IH]; cbn; [done|]. intros [Hc Hk]%orb_false_iff. by rewrite IH, Hc.
Qed.

Lemma rsplit_app p k : str_mem "/" k = false → rsplit (p ++ String "/" k) = Some (p, k).
Proof.
  intros Hk. induction p as [|c p IH].
  - change ("" ++ String "/" k) with (String "/" k). cbn [rsplit]. by rewrite (rsplit_free k Hk).
  - change (String c p ++ String "/" k) with (String c (p ++ String "/" k)). cbn [rsplit]. by rewrite IH.
Qed.

Lemma has_prefix_refl p : has_prefix p p = true.
Proof. apply prefix_app. exists "". by rewrite str_app_nil_r. Qed.

#[export] Instance simple_laws : JSONPatchLaws SimpleDoc.
Proof.
  split; intros d; cbn.
  - intros parent k l Hp Hk _. apply bool_decide_eq_true_1 in Hp. unfold simple_apply; cbn [po_Path po_Value].
    change ("/" ++ k) with (String "/" k).
    rewrite (rsplit_app parent k Hk), decide_True by done. eexists. split_and!; [done|apply lookup_insert_eq|].
    split; [|done]. intros q [Hq _]. cbn. apply lookup_insert_ne. intros <-.
    by rewrite has_prefix_refl in Hq.
  - intros p l x Hl. unfold simple_apply; cbn [po_Path po_Value].
    rewrite (rsplit_app p "-" eq_refl), Hl. cbn. eexists. split_and!; [done|apply lookup_insert_eq|].
    split; [|done]. intros q [Hq _]. cbn. apply lookup_insert_ne. intros ->. by rewrite has_prefix_refl in Hq.
  - intros parent k _ Hk Hm. apply bool_decide_eq_true_1 in Hm. unfold simple_apply; cbn [po_Path po_Value].
    change ("/" ++ k) with (String "/" k) in *.
    rewrite (rsplit_app parent k Hk), decide_True by done. eexists. split_and!; [done| |].
    + apply bool_decide_eq_false_2. cbn. set_solver.
    + split; [done|]. intros q Hq. split; [done|]. cbn. apply bool_decide_ext. cbn.
      rewrite elem_of_difference, elem_of_singleton. split; [by intros [? _]|]. intros Hin.
      split; [done|]. intros ->. by rewrite has_prefix_refl in Hq.
Qed.

(** ** Examples *)

(** A pod with one container that asks for a GPU and sets one variable, and an
    init container without any. *)
Definition shared_pod : Pod :=
  set_Containers [mkContainer "init" [] ∅ ∅ []]
    [mkContainer "main" [mkEnvVar "NVIDIA_VISIBLE_DEVICES" "0"]
       {["nvidia.com/gpu" := mkQuantity 1 false]} ∅ []]
    (sample_pod "default" "infer-0" [("gpu-scheduler/shared", "true"); ("gpu-scheduler/memory-mb", "4000")]).

Definition shared_doc : SimpleDoc :=
  mkSimpleDoc {["/spec/containers/0/env" := [IEnv (mkEnvVar "NVIDIA_VISIBLE_DEVICES" "0")]]}
    {["/spec"; "/spec/containers/0"; "/spec/initContainers/0"; "/spec/containers/0/resources/limits"]}
    {["/spec/containers/0/resources/limits/nvidia.com~1gpu"]}.

Lemma shared_represents : represents shared_doc shared_pod.
Proof.
  split_and!; [done|done|..].
  - intros [|i] c Hc; [|done]. by injection Hc as <-.
  - intros [|i] c Hc; [|done]. injection Hc as <-. split_and!; try done. by intros [q Hq].
Qed.

Definition shared_request : AdmissionRequest := mkAdmissionRequest "uid-1" "Pod" "default" (Ok shared_pod).

Lemma mutate_injects_witness :
  ∃ patches d', mutate (Some shared_request) = Done (mkAdmissionResponse "" true (Some patches)) ∧
    apply_all shared_doc patches = Some d' ∧ length patches = 9%nat ∧
    content d' "/spec/containers/0/env" =
      [IEnv (mkEnvVar "NVIDIA_VISIBLE_DEVICES" "0");
       IEnv (mkEnvVar "CUDA_MPS_PINNED_DEVICE_MEM_LIMIT" "0=4000M");
       IEnv (mkEnvVar "CUDA_MPS_PIPE_DIRECTORY" "/tmp/nvidia-mps")] ∧
    content d' "/spec/volumes" = [gpuVolume; mpsVolume].
Proof.
  destruct (mutate_injects shared_doc shared_request shared_pod eq_refl eq_refl eq_refl ltac:(by vm_compute)
    shared_represents ltac:(by vm_compute) ltac:(by vm_compute)) as (patches & d' & E & Ha & Hv & _ & Hc).
  exists patches, d'. split; [exact E|]. split; [exact Ha|].
  split; [vm_compute in E; by injection E as <-|].
  destruct (Hc 0%nat _ eq_refl) as ((He & _) & _). split; [exact He|exact Hv].
Defined.

(** A review without a request crashes the handler. *)
Lemma empty_review_panics : HandleMutate (Ok (Ok None)) = Panicked.
Proof. reflexivity. Qed.

(** So does a shared pod that asks for too many GPUs. *)
Lemma huge_gpu_count_panics :
  mutate (Some (mkAdmissionRequest "uid-1" "Pod" "default" (Ok
    (set_Containers [] [mkContainer "main" [] ∅ ∅ []] (sample_pod "default" "infer-0"
      [("gpu-scheduler/shared", "true"); ("gpu-scheduler/gpu-count", "9000000000000000000")]))))) = Panicked.
Proof. reflexivity. Qed.

(** The MPS limit is the pod's memory on each device, also when the memory is
    the total over the devices. *)
Lemma mps_limit_ignores_mode :
  mpsMemoryLimit (sample_pod "default" "infer-0" [("gpu-scheduler/memory-mb", "8000");
    ("gpu-scheduler/gpu-count", "2"); ("gpu-scheduler/memory-mode", "total")]) = Done "0=8000M,1=8000M".
Proof. reflexivity. Qed.

(** An init container keeps its GPU limit. *)
Lemma init_limit_stays :
  buildSharedGPUPatches (set_Containers
    [mkContainer "init" [visible_all] {["nvidia.com/gpu" := mkQuantity 1 false]} ∅ []] []
    (sample_pod "default" "infer-0" [("gpu-scheduler/shared", "true")])) =
  Done [mkPatchOp "add" "/spec/volumes" (VArray [gpuVolume]); append_op "/spec/volumes" mpsVolume;
        mkPatchOp "add" "/spec/initContainers/0/volumeMounts" (VArray [gpu_mount])].
Proof. reflexivity. Qed.
