(* ===== verification/Discoverer.v ===== *)
(** * internal/gpu/k8s_discoverer.go: GPUs from the Kubernetes API

    On managed clusters the GPUs are synthetic: one per unit of a node's
    nvidia.com/gpu capacity, with the memory its instance type suggests, marked
    as used when the pods of the node ask for that many.  The discoverer keeps a
    cache from "node-gpu-slot" to GPU so that a slot keeps its identifier.  The
    API server is the class [ClusterLister]; [uuid] gives the n-th UUID drawn. *)

From Stdlib Require Import ZArith Lia Ascii String.
From stdpp Require Import base option list strings gmap.
From S2P Require Import Prelude GoFloat GoStrings Types K8s Manager.
Open Scope string_scope.
Open Scope Z_scope.
Open Scope go_scope.

Class ClusterLister (W : Type) : Type := {
  ListAllPods : W → W * result string (list Pod);
  ListNodes : W → W * result string (list KNode)
}.

(** ** Reading a node *)

(** [contains], by its loop over the start positions. *)
Definition contains (s substr : string) : bool :=
  existsb (λ i, String.eqb (String.substring i (String.length substr) s) substr)
    (seq 0 (S (String.length s) - String.length substr)).

(** The cases of the switch, in its order. *)
Definition estimateGPUMemory (labels : gmap string string) : Z :=
  let instanceType := default "" (labels !! "node.kubernetes.io/instance-type") in
  if contains instanceType "g4dn" then 16384
  else if contains instanceType "g5" then 24576
  else if contains instanceType "p3" then 16384
  else if contains instanceType "p4d" then 40960
  else if contains instanceType "p4de" then 81920
  else if contains instanceType "p5" then 81920
  else 16384.

Definition isNodeReady (node : KNode) : bool :=
  match List.find (λ c, String.eqb (fst c) "Ready") (kn_Conditions node) with
  | Some (_, status) => String.eqb status "True"
  | None => false
  end.

(** ** Usage *)
Definition pod_gpus (usage : gmap string Z) (pod : Pod) : gmap string Z :=
  if String.eqb (pod_NodeName pod) "" then usage
  else if String.eqb (pod_Phase pod) PodSucceeded || String.eqb (pod_Phase pod) PodFailed then usage
  else
    foldl (λ usage c,
      match c_Limits c !! "nvidia.com/gpu" with
      | Some quantity =>
          <[pod_NodeName pod := default 0 (usage !! pod_NodeName pod) ⊞ q_Value quantity]> usage
      | None => usage
      end) usage (pod_Containers pod).

Definition slot_key (nodeName : string) (i : nat) : string :=
  nodeName ++ "-gpu-" ++ itoa (Z.of_nat i).

Section discoverer.
Context {W : Type} `{ClusterLister W} (uuid : nat → string).

(** The client, the cache and the number of UUIDs drawn. *)
Record K8sDiscoverer : Type := mkK8sDiscoverer {
  kd_clientset : W;
  kd_gpuCache : gmap string GPU;
  kd_drawn : nat
}.

Definition NewK8sDiscoverer (clientset : option W) : result string K8sDiscoverer :=
  match clientset with
  | None => Err "kubernetes clientset is required"
  | Some w => Ok (mkK8sDiscoverer w ∅ 0)
  end.

Definition getGPUUsageByNode (w : W) : W * result string (gmap string Z) :=
  match ListAllPods w with
  | (w', Err e) => (w', Err e)
  | (w', Ok pods) => (w', Ok (foldl pod_gpus ∅ pods))
  end.

(** What the loops of [Discover] change. *)
Record Scan : Type := mkScan {
  sc_cache : gmap string GPU;
  sc_drawn : nat;
  sc_gpus : list GPU
}.

(** [gpuIndex] counts the GPUs found so far. *)
Definition scan_slot (usage : gmap string Z) (node : KNode) (sc : Scan) (i : nat) : Scan :=
  let cacheKey := slot_key (kn_Name node) i in
  let '(gpuID, drawn) :=
    match sc_cache sc !! cacheKey with
    | Some cached => (gpu_ID cached, sc_drawn sc)
    | None => ("GPU-" ++ uuid (sc_drawn sc), S (sc_drawn sc))
    end in
  let totalMemoryMB := estimateGPUMemory (kn_Labels node) in
  let usedCount := default 0 (usage !! kn_Name node) in
  let usedMemoryMB := if Z.of_nat i <? usedCount then totalMemoryMB else 0 in
  let gpu := mkGPU gpuID (Z.of_nat (length (sc_gpus sc))) (kn_Name node) totalMemoryMB usedMemoryMB
               f64_zero (isNodeReady node) false 0 false in
  mkScan (<[cacheKey := gpu]> (sc_cache sc)) drawn (sc_gpus sc ++ [gpu])%list.

Definition gpu_slots (node : KNode) : list nat :=
  match kn_Capacity node !! "nvidia.com/gpu" with
  | None => []
  | Some gpuQuantity => seq 0 (Z.to_nat (q_Value gpuQuantity))
  end.

Definition scan_node (usage : gmap string Z) (sc : Scan) (node : KNode) : Scan :=
  foldl (scan_slot usage node) sc (gpu_slots node).

Definition K8s_Discover (k : K8sDiscoverer) : K8sDiscoverer * result string (list GPU) :=
  let (w1, found) := getGPUUsageByNode (kd_clientset k) in
  let gpuUsage := match found with Ok usage => usage | Err _ => ∅ end in
  match ListNodes w1 with
  | (w2, Err e) => (mkK8sDiscoverer w2 (kd_gpuCache k) (kd_drawn k), Err ("failed to list nodes: " ++ e))
  | (w2, Ok nodes) =>
      let sc := foldl (scan_node gpuUsage) (mkScan (kd_gpuCache k) (kd_drawn k) []) nodes in
      (mkK8sDiscoverer w2 (sc_cache sc) (sc_drawn sc), Ok (sc_gpus sc))
  end.

Definition set_used_health (used : Z) (healthy : bool) (g : GPU) : GPU :=
  mkGPU (gpu_ID g) (gpu_Index g) (gpu_NodeName g) (gpu_TotalMemoryMB g) used
    (gpu_UtilizationPercent g) healthy (gpu_IsShared g) (gpu_AllocatedPods g) (gpu_IsMPS g).

Definition K8s_Refresh (k : K8sDiscoverer) (gpu : GPU) : K8sDiscoverer * result string GPU :=
  match K8s_Discover k with
  | (k', Err e) => (k', Err e)
  | (k', Ok gpus) =>
      (k', match List.find (λ g, String.eqb (gpu_ID g) (gpu_ID gpu)) gpus with
           | Some g => Ok (set_used_health (gpu_UsedMemoryMB g) (gpu_IsHealthy g) gpu)
           | None => Err ("GPU " ++ gpu_ID gpu ++ " not found after refresh")
           end)
  end.

#[export] Instance k8s_discoverer : GPUDiscoverer K8sDiscoverer := {|
  Discover := K8s_Discover;
  Refresh := K8s_Refresh
|}.
End discoverer.
Arguments K8sDiscoverer W : clear implicits.
Arguments mkK8sDiscoverer {W}.

(** ** Specification *)

(** The slots in the order [Discover] visits them. *)
Definition visits (nodes : list KNode) : list (KNode * nat) :=
  node ← nodes; pair node <$> gpu_slots node.

(** The entry of a slot, given its position and identifier. *)
Definition slot_gpu (usage : gmap string Z) (node : KNode) (i p : nat) (id : string) : GPU :=
  mkGPU id (Z.of_nat p) (kn_Name node) (estimateGPUMemory (kn_Labels node))
    (if Z.of_nat i <? default 0 (usage !! kn_Name node) then estimateGPUMemory (kn_Labels node) else 0)
    f64_zero (isNodeReady node) false 0 false.

(** Cached identifiers were drawn, and no two slots share one. *)
Definition cache_ok (uuid : nat → string) (cache : gmap string GPU) (drawn : nat) : Prop :=
  (∀ key g, cache !! key = Some g → ∃ n, (n < drawn)%nat ∧ gpu_ID g = "GPU-" ++ uuid n) ∧
  (∀ key1 key2 g1 g2, cache !! key1 = Some g1 → cache !! key2 = Some g2 → gpu_ID g1 = gpu_ID g2 → key1 = key2).

Definition capacity_int (nodes : list KNode) : Prop :=
  ∀ node q, node ∈ nodes → kn_Capacity node !! "nvidia.com/gpu" = Some q → q_Value q ≤ int_max.

(** ** Lemmas *)
Lemma slot_key_inj n1 n2 i j :
  Z.of_nat i ≤ int_max → Z.of_nat j ≤ int_max → slot_key n1 i = slot_key n2 j → n1 = n2 ∧ i = j.
Proof.
  intros Hi Hj E. unfold slot_key in E.
  assert (∀ n k, split_on "-" (n ++ "-gpu-" ++ itoa (Z.of_nat k)) =
    (split_on "-" n ++ ["gpu"; itoa (Z.of_nat k)])%list) as Hsplit.
  { intros n k. change ("-gpu-" ++ itoa (Z.of_nat k))
      with (String "-" ("gpu" ++ String "-" (itoa (Z.of_nat k)))).
    rewrite split_app_sep, split_on_app by done. do 2 f_equal.
    apply split_on_free, itoa_free; [done|lia]. }
  pose proof (f_equal (split_on "-") E) as Es. rewrite !Hsplit in Es.
  assert (itoa (Z.of_nat i) = itoa (Z.of_nat j)) as Hij.
  { apply (f_equal last) in Es. rewrite !last_app in Es. cbn in Es. by injection Es. }
  rewrite Hij in E. split; [by apply str_app_inv_r in E|].
  apply itoa_inj in Hij; [lia|..]; unfold in_int, int_min, int_max in *; lia.
Qed.

Lemma elem_of_visits nodes node i :
  (node, i) ∈ visits nodes ↔ node ∈ nodes ∧ i ∈ gpu_slots node.
Proof.
  unfold visits. rewrite list_elem_of_bind. split.
  - intros (n & (j & [= -> ->] & Hj)%list_elem_of_fmap & Hn). done.
  - intros [Hn Hi]. exists node. split; [|done]. apply list_elem_of_fmap. eauto.
Qed.

Lemma slot_small nodes node i :
  capacity_int nodes → (node, i) ∈ visits nodes → Z.of_nat i ≤ int_max.
Proof.
  intros Hc [Hn Hi]%elem_of_visits. unfold gpu_slots in Hi.
  destruct (kn_Capacity node !! "nvidia.com/gpu") as [q|] eqn:E; [|by apply elem_of_nil in Hi].
  apply elem_of_seq in Hi. pose proof (Hc _ _ Hn E). lia.
Qed.

(** Nodes with distinct names have distinct slots. *)
Lemma visits_keys nodes :
  NoDup (kn_Name <$> nodes) → capacity_int nodes →
  NoDup ((λ v, slot_key (kn_Name v.1) v.2) <$> visits nodes).
Proof.
  intros Hnd Hc. apply NoDup_fmap_2_strong.
  - intros [n1 i] [n2 j] H1 H2 E. cbn in E.
    pose proof (slot_small _ _ _ Hc H1) as Hi. pose proof (slot_small _ _ _ Hc H2) as Hj.
    destruct (slot_key_inj _ _ _ _ Hi Hj E) as [En <-]. f_equal.
    apply elem_of_visits in H1 as [H1 _], H2 as [H2 _].
    apply list_elem_of_lookup in H1 as [p1 H1], H2 as [p2 H2].
    assert (p1 = p2) as ->; [|congruence].
    eapply NoDup_lookup; [exact Hnd|..]; rewrite list_lookup_fmap, ?H1, ?H2; cbn; by rewrite ?En.
  - clear Hc. unfold visits. induction nodes as [|n nodes IH]; cbn; [constructor|].
    apply NoDup_cons in Hnd as [Hn Hnd]. apply NoDup_app. split_and!.
    + apply NoDup_fmap; [by intros ?? [=]|]. unfold gpu_slots. case_match; [apply NoDup_seq|constructor].
    + intros [n' i] (j & [= -> ->] & _)%list_elem_of_fmap Hin. apply Hn.
      apply (elem_of_visits nodes) in Hin as [Hin _]. by apply list_elem_of_fmap_2.
    + by apply IH.
Qed.

Section lemmas.
Context {W : Type} `{ClusterLister W} (uuid : nat → string).
Hypothesis uuid_inj : ∀ m n, uuid m = uuid n → m = n.
Implicit Types (sc : Scan) (usage : gmap string Z).

(** What holds after the visits [seen], starting from [cache0]. *)
Definition scanned usage (cache0 : gmap string GPU) (seen : list (KNode * nat)) sc : Prop :=
  cache_ok uuid (sc_cache sc) (sc_drawn sc) ∧
  (∀ key g, cache0 !! key = Some g → ∃ g', sc_cache sc !! key = Some g' ∧ gpu_ID g' = gpu_ID g) ∧
  length (sc_gpus sc) = length seen ∧
  ∀ p node i, seen !! p = Some (node, i) → ∃ id,
    sc_gpus sc !! p = Some (slot_gpu usage node i p id) ∧
    sc_cache sc !! slot_key (kn_Name node) i = Some (slot_gpu usage node i p id).

(** The identifier of a slot is drawn afresh or the cached one. *)
Lemma cache_ok_insert cache drawn key g :
  cache_ok uuid cache drawn →
  (∃ g0, cache !! key = Some g0 ∧ gpu_ID g = gpu_ID g0) → cache_ok uuid (<[key := g]> cache) drawn.
Proof.
  intros [Hd Hu] (g0 & Hg0 & Hid). split.
  - intros k g'. rewrite lookup_insert_Some. intros [[<- <-]|[_ Hk]]; [rewrite Hid|]; eauto.
  - intros k1 k2 g1 g2. rewrite !lookup_insert_Some.
    intros [[<- <-]|[? H1]] [[<- <-]|[? H2]] E; [done|..].
    + rewrite Hid in E. by apply (Hu _ _ _ _ Hg0 H2).
    + rewrite Hid in E. by apply (Hu _ _ _ _ H1 Hg0).
    + by apply (Hu _ _ _ _ H1 H2).
Qed.

Lemma cache_ok_draw cache drawn key g :
  cache_ok uuid cache drawn → gpu_ID g = "GPU-" ++ uuid drawn →
  cache_ok uuid (<[key := g]> cache) (S drawn).
Proof.
  intros [Hd Hu] Hid.
  assert (∀ k g', cache !! k = Some g' → gpu_ID g' ≠ gpu_ID g) as Hfresh.
  { intros k g' Hk E. destruct (Hd _ _ Hk) as (n & Hn & En). rewrite En, Hid in E.
    apply str_app_inv_l, uuid_inj in E. lia. }
  split.
  - intros k g'. rewrite lookup_insert_Some. intros [[<- <-]|[_ Hk]]; [eauto|].
    destruct (Hd _ _ Hk) as (n & ? & ?). eauto.
  - intros k1 k2 g1 g2. rewrite !lookup_insert_Some.
    intros [[<- <-]|[? H1]] [[<- <-]|[? H2]] E; [done|..].
    + by apply eq_sym, (Hfresh _ _ H2) in E.
    + by apply (Hfresh _ _ H1) in E.
    + by apply (Hu _ _ _ _ H1 H2).
Qed.

Lemma scan_slot_step usage cache0 seen sc node i :
  scanned usage cache0 seen sc →
  (∀ p n j, seen !! p = Some (n, j) → slot_key (kn_Name n) j ≠ slot_key (kn_Name node) i) →
  scanned usage cache0 (seen ++ [(node, i)]) (scan_slot uuid usage node sc i).
Proof.
  intros (Hok & Hkept & Hlen & Hseen) Hfresh. unfold scan_slot.
  set (key := slot_key (kn_Name node) i).
  assert (∃ id drawn, (match sc_cache sc !! key with
    | Some cached => (gpu_ID cached, sc_drawn sc)
    | None => ("GPU-" ++ uuid (sc_drawn sc), S (sc_drawn sc)) end) = (id, drawn) ∧
    cache_ok uuid (<[key := slot_gpu usage node i (length seen) id]> (sc_cache sc)) drawn ∧
    ∀ g, sc_cache sc !! key = Some g → gpu_ID g = id) as (id & drawn & -> & Hok' & Hid).
  { destruct (sc_cache sc !! key) as [g|] eqn:E.
    - eexists _, _. split_and!; [done|apply cache_ok_insert; eauto|congruence].
    - eexists _, _. split_and!; [done|by apply cache_ok_draw|done]. }
  cbn [fst snd]. unfold scanned; cbn [sc_cache sc_drawn sc_gpus]. rewrite Hlen.
  change (mkGPU id _ _ _ _ _ _ _ _ _) with (slot_gpu usage node i (length seen) id). split_and!.
  - done.
  - intros k g Hk. destruct (Hkept k g Hk) as (g' & Hg' & E). destruct (decide (key = k)) as [<-|Hne].
    + rewrite lookup_insert_eq. eexists. split; [done|]. cbn. rewrite <-E. by rewrite (Hid g').
    + rewrite lookup_insert_ne by done. eauto.
  - rewrite !length_app, Hlen. done.
  - intros p n j Hp. apply lookup_app_Some in Hp as [Hp|[Hle Hp]].
    + destruct (Hseen p n j Hp) as (id' & Hg & Hc). exists id'. split; [by apply lookup_app_l_Some|].
      rewrite lookup_insert_ne; [done|]. intros E. by apply (Hfresh p n j Hp).
    + destruct (p - length seen)%nat eqn:Ep; [|done]. injection Hp as <- <-.
      assert (p = length seen) as -> by lia. exists id. split; [|by rewrite lookup_insert_eq].
      rewrite lookup_app_r by lia. by rewrite Hlen, Nat.sub_diag.
Qed.

Lemma scan_all usage cache0 todo seen sc :
  NoDup ((λ v, slot_key (kn_Name v.1) v.2) <$> (seen ++ todo)%list) →
  scanned usage cache0 seen sc →
  scanned usage cache0 (seen ++ todo) (foldl (λ sc v, scan_slot uuid usage v.1 sc v.2) sc todo).
Proof.
  revert seen sc. induction todo as [|[node i] todo IH]; intros seen sc Hnd Hs; cbn [foldl].
  { by rewrite app_nil_r. }
  rewrite cons_middle, app_assoc in *. apply IH; [done|]. cbn [fst snd]. apply scan_slot_step; [done|].
  intros p n j Hp E. rewrite <-app_assoc, fmap_app in Hnd. apply NoDup_app in Hnd as (_ & Hdis & _).
  apply (Hdis (slot_key (kn_Name n) j)).
  - apply list_elem_of_fmap. exists (n, j). split; [done|]. by eapply list_elem_of_lookup_2.
  - rewrite E. cbn. left.
Qed.

Lemma scan_visits usage sc nodes :
  foldl (scan_node uuid usage) sc nodes = foldl (λ sc v, scan_slot uuid usage v.1 sc v.2) sc (visits nodes).
Proof.
  revert sc. induction nodes as [|n nodes IH]; intros sc; [done|]. cbn. rewrite foldl_app, IH.
  f_equal. unfold scan_node. generalize (gpu_slots n). intros l. revert sc.
  induction l as [|i l IHl]; intros sc; [done|]. apply IHl.
Qed.

(** The usage [Discover] works with: none when the pods could not be listed. *)
Definition usage_of (found : result string (gmap string Z)) : gmap string Z :=
  match found with Ok usage => usage | Err _ => ∅ end.

Lemma Discover_spec (k : K8sDiscoverer W) w1 found w2 nodes :
  getGPUUsageByNode (kd_clientset k) = (w1, found) → ListNodes w1 = (w2, Ok nodes) →
  NoDup (kn_Name <$> nodes) → capacity_int nodes → cache_ok uuid (kd_gpuCache k) (kd_drawn k) →
  ∃ k' gpus, K8s_Discover uuid k = (k', Ok gpus) ∧ cache_ok uuid (kd_gpuCache k') (kd_drawn k') ∧
    (∀ key g, kd_gpuCache k !! key = Some g →
       ∃ g', kd_gpuCache k' !! key = Some g' ∧ gpu_ID g' = gpu_ID g) ∧
    NoDup (gpu_ID <$> gpus) ∧ length gpus = length (visits nodes) ∧
    ∀ p node i, visits nodes !! p = Some (node, i) → ∃ id,
      gpus !! p = Some (slot_gpu (usage_of found) node i p id) ∧
      kd_gpuCache k' !! slot_key (kn_Name node) i = Some (slot_gpu (usage_of found) node i p id).
Proof.
  intros Hu Hl Hnd Hc Hok. unfold K8s_Discover. rewrite Hu. fold (usage_of found). rewrite Hl.
  set (sc0 := mkScan _ _ _). pose proof (visits_keys nodes Hnd Hc) as Hkeys.
  destruct (scan_all (usage_of found) (kd_gpuCache k) (visits nodes) [] sc0) as (Hok' & Hkept & Hlen & Hall);
    [done| |]. { split_and!; cbn; [done|eauto|done|done]. }
  rewrite <-scan_visits in *. set (sc := foldl _ sc0 nodes) in *.
  eexists _, (sc_gpus sc). split_and!; [done|done|done| |done|done].
  apply NoDup_alt. intros p q id Hp Hq. rewrite list_lookup_fmap in Hp, Hq.
  destruct (sc_gpus sc !! p) as [g1|] eqn:E1; [injection Hp as <-|done].
  destruct (sc_gpus sc !! q) as [g2|] eqn:E2; [injection Hq as Hid|done].
  assert (∀ r g, sc_gpus sc !! r = Some g → ∃ node i, visits nodes !! r = Some (node, i) ∧
    sc_cache sc !! slot_key (kn_Name node) i = Some g) as Hback.
  { intros r g Hr. destruct (lookup_lt_is_Some_2 (visits nodes) r) as [[node i] Hv].
    { apply lookup_lt_Some in Hr. cbn in Hlen. lia. }
    destruct (Hall r node i Hv) as (id & Hg & Hcache). exists node, i. split; [done|]. congruence. }
  destruct (Hback _ _ E1) as (n1 & i1 & V1 & C1), (Hback _ _ E2) as (n2 & i2 & V2 & C2).
  pose proof (proj2 Hok' _ _ _ _ C1 C2 (eq_sym Hid)) as Ekey.
  eapply NoDup_lookup; [exact Hkeys|..]; rewrite list_lookup_fmap, ?V1, ?V2; cbn; [done|by rewrite Ekey].
Qed.

(** Discovery is exact and its identifiers are stable.  On nodes with
    distinct names [Discover] answers one GPU per unit of capacity, in node and
    slot order, its index the position, used when the pods of the node ask for
    that many; the identifiers are pairwise distinct, every slot that was cached
    keeps the one it had, and each slot's entry is cached for the next time. *)
Theorem Discover_exact (k : K8sDiscoverer W) w1 found w2 nodes :
  getGPUUsageByNode (kd_clientset k) = (w1, found) → ListNodes w1 = (w2, Ok nodes) →
  NoDup (kn_Name <$> nodes) → capacity_int nodes → cache_ok uuid (kd_gpuCache k) (kd_drawn k) →
  ∃ k' gpus, K8s_Discover uuid k = (k', Ok gpus) ∧ cache_ok uuid (kd_gpuCache k') (kd_drawn k') ∧
    NoDup (gpu_ID <$> gpus) ∧ length gpus = length (visits nodes) ∧
    ∀ p node i, visits nodes !! p = Some (node, i) → ∃ id,
      gpus !! p = Some (slot_gpu (usage_of found) node i p id) ∧
      kd_gpuCache k' !! slot_key (kn_Name node) i = Some (slot_gpu (usage_of found) node i p id) ∧
      ∀ g, kd_gpuCache k !! slot_key (kn_Name node) i = Some g → id = gpu_ID g.
Proof.
  intros Hu Hl Hnd Hc Hok.
  destruct (Discover_spec k w1 found w2 nodes Hu Hl Hnd Hc Hok) as (k' & gpus & E & Hok' & Hkept & Hids & Hlen & Hall).
  exists k', gpus. split_and!; try done. intros p node i Hp. destruct (Hall p node i Hp) as (id & Hg & Hcache).
  exists id. split_and!; [done|done|]. intros g (g' & Hg' & Eid)%Hkept. rewrite Hcache in Hg'.
  injection Hg' as <-. by rewrite <-Eid.
Qed.

(** ** The manager it fills *)

(** [group_gpus] files each GPU under its node, in order. *)
Lemma group_gpus_lookup nodeName gpus name :
  group_gpus nodeName gpus !! name =
  let own := List.filter (λ g, String.eqb
    (if String.eqb (gpu_NodeName g) "" then nodeName else gpu_NodeName g) name) gpus in
  match own with [] => None | _ => Some own end.
Proof.
  unfold group_gpus.
  induction gpus as [|g gpus IH] using rev_ind; [done|].
  rewrite foldl_app, List.filter_app. cbn -[gmap_empty].
  set (actual := if String.eqb (gpu_NodeName g) "" then nodeName else gpu_NodeName g).
  destruct (String.eqb_spec actual name) as [<-|Hne].
  - rewrite lookup_insert_eq, IH. cbn. by destruct (List.filter _ gpus).
  - rewrite lookup_insert_ne by done. rewrite app_nil_r. exact IH.
Qed.

Lemma filter_lookup_nodup (P : GPU → bool) gpus i1 i2 g1 g2 :
  NoDup (gpu_ID <$> gpus) → List.filter P gpus !! i1 = Some g1 → List.filter P gpus !! i2 = Some g2 →
  gpu_ID g1 = gpu_ID g2 → i1 = i2.
Proof.
  intros Hnd H1 H2 E.
  assert (NoDup (gpu_ID <$> List.filter P gpus)) as Hnd'.
  { clear -Hnd. induction gpus as [|g gpus IH]; [constructor|]. apply NoDup_cons in Hnd as [Hg Hnd].
    cbn. destruct (P g); [|by apply IH]. apply NoDup_cons. split; [|by apply IH].
    intros (g' & E & Hin)%list_elem_of_fmap. apply list_elem_of_In, List.filter_In in Hin as [Hin _]. apply Hg.
    rewrite E. apply list_elem_of_fmap_2. by apply list_elem_of_In. }
  eapply NoDup_lookup; [exact Hnd'|..]; rewrite list_lookup_fmap, ?H1, ?H2; cbn; by rewrite ?E.
Qed.

Lemma estimate_range labels : 0 < estimateGPUMemory labels ≤ 81920.
Proof. unfold estimateGPUMemory. repeat case_match; lia. Qed.

(** The node a GPU is filed under. *)
Definition home (nodeName : string) (g : GPU) : string :=
  if String.eqb (gpu_NodeName g) "" then nodeName else gpu_NodeName g.

(** The nodes [NewManager] builds out of the GPUs, the fallback included. *)
Lemma manager_nodes_of nodeName gpus d m :
  @NewManager _ (k8s_discoverer uuid) d nodeName = Ok m →
  (K8s_Discover uuid d).2 = Ok gpus →
  mgr_allocations m = ∅ ∧ ∀ name info, mgr_nodes m !! name = Some info →
    node_Name info = name ∧
    node_GPUs info = List.filter (λ g, String.eqb (home nodeName g) name) gpus.
Proof.
  unfold NewManager. cbn [Discover k8s_discoverer].
  destruct (K8s_Discover uuid d) as [d' r]. cbn [snd]. intros Hm ->. injection Hm as <-. split; [done|].
  cbn [mgr_nodes]. set (ns := map_imap _ _). intros name info.
  assert (∀ n, ns !! n = None → List.filter (λ g, String.eqb (home nodeName g) n) gpus = []) as Hnone.
  { intros n. unfold ns. rewrite map_lookup_imap, group_gpus_lookup. cbn. fold (home nodeName).
    by destruct (List.filter _ gpus) eqn:E. }
  destruct (Nat.eqb_spec (size ns) 0) as [Hz|Hz].
  - intros [<- <-]%lookup_singleton_Some. split; [done|]. cbn. apply map_size_empty_inv in Hz.
    destruct gpus as [|g gpus]; [done|]. specialize (Hnone (home nodeName g)).
    rewrite Hz in Hnone. specialize (Hnone eq_refl). cbn in Hnone. by rewrite String.eqb_refl in Hnone.
  - unfold ns. rewrite map_lookup_imap, group_gpus_lookup. cbn.
    change (λ g, String.eqb (if String.eqb (gpu_NodeName g) "" then nodeName else gpu_NodeName g) name)
      with (λ g, String.eqb (home nodeName g) name).
    destruct (List.filter _ gpus) as [|g own]; [done|]. cbn. by intros [= <-].
Qed.

(** C38: the manager built from the Kubernetes API is well formed, as every
    theorem on the manager, the allocator and the extender requires: its nodes
    are keyed by name, GPU identifiers are unique in the cluster, the memory
    figures are sane and far from overflow, and nothing is allocated. *)
Theorem discovered_manager_wf (k : K8sDiscoverer W) w1 found w2 nodes nodeName :
  getGPUUsageByNode (kd_clientset k) = (w1, found) → ListNodes w1 = (w2, Ok nodes) →
  NoDup (kn_Name <$> nodes) → capacity_int nodes → cache_ok uuid (kd_gpuCache k) (kd_drawn k) →
  ∃ m, @NewManager _ (k8s_discoverer uuid) k nodeName = Ok m ∧
    ids_unique m ∧ mgr_allocations m = ∅ ∧
    (∀ name info, mgr_nodes m !! name = Some info → node_Name info = name) ∧
    ∀ name i g, gpu_at m name i g →
      0 ≤ gpu_UsedMemoryMB g ≤ gpu_TotalMemoryMB g ∧ 0 < gpu_TotalMemoryMB g ≤ 81920.
Proof.
  intros Hu Hl Hnd Hc Hok.
  destruct (Discover_spec k w1 found w2 nodes Hu Hl Hnd Hc Hok) as (k' & gpus & E & _ & _ & Hids & Hlen & Hall).
  destruct (@NewManager _ (k8s_discoverer uuid) k nodeName) as [m|e] eqn:Em;
    [|unfold NewManager in Em; cbn [Discover k8s_discoverer] in Em; by rewrite E in Em].
  destruct (manager_nodes_of nodeName gpus k m Em ltac:(by rewrite E)) as [Halloc Hns].
  exists m. split_and!; [done| |done|by intros ?? [? _]%Hns|].
  - intros n1 i1 g1 n2 i2 g2 (f1 & [_ K1]%Hns & I1) (f2 & [_ K2]%Hns & I2) Eid.
    rewrite K1 in I1. rewrite K2 in I2.
    pose proof (list_elem_of_lookup_2 _ _ _ I1) as F1. pose proof (list_elem_of_lookup_2 _ _ _ I2) as F2.
    apply list_elem_of_In, List.filter_In in F1 as [F1 N1], F2 as [F2 N2]. bool_hyps.
    assert (g1 = g2) as <-.
    { apply list_elem_of_In in F1, F2. apply list_elem_of_lookup in F1 as [p P1], F2 as [q P2].
      assert (p = q) as ->; [|congruence].
      eapply NoDup_lookup; [exact Hids|..]; rewrite list_lookup_fmap, ?P1, ?P2; cbn; by rewrite ?Eid. }
    subst n1 n2. split; [done|]. by eapply filter_lookup_nodup.
  - intros name i g (info & [_ K]%Hns & Hi). rewrite K in Hi.
    apply list_elem_of_lookup_2, list_elem_of_In, List.filter_In in Hi as [Hi%list_elem_of_In _].
    apply list_elem_of_lookup in Hi as [p Hp].
    destruct (lookup_lt_is_Some_2 (visits nodes) p) as [[node j] Hv]; [apply lookup_lt_Some in Hp; lia|].
    destruct (Hall p node j Hv) as (id & Hg & _). rewrite Hp in Hg. injection Hg as ->. cbn.
    pose proof (estimate_range (kn_Labels node)). case_match; lia.
Qed.
End lemmas.

(** ** Examples *)

(** A cluster with these pods and nodes; [None] makes the listing fail. *)
Record ListedCluster : Type := mkListedCluster {
  lc_pods : option (list Pod);
  lc_nodes : option (list KNode)
}.

#[export] Instance listed_cluster : ClusterLister ListedCluster := {|
  ListAllPods w := (w, match lc_pods w with Some ps => Ok ps | None => Err "timeout" end);
  ListNodes w := (w, match lc_nodes w with Some ns => Ok ns | None => Err "timeout" end)
|}.

Definition gpu_knode (name instanceType : string) (n : Z) : KNode :=
  mkKNode name {["node.kubernetes.io/instance-type" := instanceType]}
    {["nvidia.com/gpu" := mkQuantity n (n =? 0)]} [("Ready", "True")].

Definition running_gpu_pod (node : string) (n : Z) : Pod :=
  mkPod "train-0" "default" ∅ ∅ 0 "" node None
    [mkContainer "main" [] {["nvidia.com/gpu" := mkQuantity n (n =? 0)]} ∅ []] [] [] PodRunning [].

Definition two_nodes : list KNode := [gpu_knode "a" "g5.xlarge" 2; gpu_knode "b" "p4de.24xlarge" 1].

Definition two_node_discoverer : K8sDiscoverer ListedCluster :=
  mkK8sDiscoverer (mkListedCluster (Some [running_gpu_pod "a" 1]) (Some two_nodes)) ∅ 0.

(** UUIDs for the examples: unary numerals. *)
Fixpoint unary_uuid (n : nat) : string :=
  match n with O => "" | S n => String "u" (unary_uuid n) end.

Lemma unary_uuid_inj m n : unary_uuid m = unary_uuid n → m = n.
Proof. revert n. induction m; intros [|n]; cbn; [done..|]. intros [= ?]. f_equal. auto. Qed.

Lemma two_nodes_names : NoDup (kn_Name <$> two_nodes).
Proof. apply (bool_decide_unpack _). by vm_compute. Qed.

Lemma two_nodes_capacity : capacity_int two_nodes.
Proof.
  intros node q Hn Hq. unfold two_nodes in Hn. rewrite !elem_of_cons, elem_of_nil in Hn.
  destruct Hn as [-> |[-> |[]]]; vm_compute in Hq; injection Hq as <-; by vm_compute.
Qed.

Lemma empty_cache_ok uuid : cache_ok uuid ∅ 0.
Proof. split; intros *; by rewrite lookup_empty. Qed.

Lemma two_nodes_usage :
  getGPUUsageByNode (kd_clientset two_node_discoverer) =
  (kd_clientset two_node_discoverer, Ok {["a" := 1]}).
Proof. unfold getGPUUsageByNode. cbn [ListAllPods listed_cluster]. f_equal; by vm_compute. Qed.

Lemma two_nodes_listed :
  ListNodes (kd_clientset two_node_discoverer) = (kd_clientset two_node_discoverer, Ok two_nodes).
Proof. reflexivity. Qed.

Lemma Discover_exact_witness :
  ∃ k' gpus, K8s_Discover unary_uuid two_node_discoverer = (k', Ok gpus) ∧
    NoDup (gpu_ID <$> gpus) ∧
    ((λ g, (gpu_NodeName g, gpu_TotalMemoryMB g, gpu_UsedMemoryMB g)) <$> gpus) =
      [("a", 24576, 24576); ("a", 24576, 0); ("b", 40960, 0)].
Proof.
  destruct (Discover_exact unary_uuid unary_uuid_inj two_node_discoverer _ _ _ two_nodes two_nodes_usage
    two_nodes_listed
    two_nodes_names two_nodes_capacity (empty_cache_ok _)) as (k' & gpus & E & _ & Hids & _).
  exists k', gpus. split; [exact E|]. split; [exact Hids|]. vm_compute in E. by injection E as _ <-.
Defined.

Lemma discovered_manager_wf_witness :
  ∃ m, @NewManager _ (k8s_discoverer unary_uuid) two_node_discoverer "local" = Ok m ∧ ids_unique m ∧
    is_Some (mgr_nodes m !! "b").
Proof.
  destruct (discovered_manager_wf unary_uuid unary_uuid_inj two_node_discoverer _ _ _ two_nodes "local"
    two_nodes_usage two_nodes_listed two_nodes_names two_nodes_capacity (empty_cache_ok _)) as (m & E & Hu & _).
  exists m. split; [exact E|]. split; [exact Hu|]. vm_compute in E. injection E as <-. vm_compute. eauto.
Defined.

(** When the pods cannot be listed every GPU is reported unused, so a refresh
    frees the GPUs that running pods hold. *)
Lemma failed_listing_frees_gpus :
  match K8s_Discover unary_uuid two_node_discoverer with
  | (k1, Ok (g :: _)) =>
      AvailableMemoryMB g = 0 ∧
      match K8s_Refresh unary_uuid (mkK8sDiscoverer (mkListedCluster None (Some two_nodes))
              (kd_gpuCache k1) (kd_drawn k1)) g with
      | (_, Ok g') => gpu_ID g' = gpu_ID g ∧ AvailableMemoryMB g' = 24576
      | _ => False
      end
  | _ => False
  end.
Proof. by vm_compute. Qed.

Definition used_on {D} (name : string) (m : Manager D) : list Z :=
  gpu_UsedMemoryMB <$> default [] (node_GPUs <$> mgr_nodes m !! name).

(** A refresh forgets what the manager allocated: the memory of an allocation
    on a GPU that no pod uses yet is available again, and its release then
    makes the used memory negative. *)
Lemma refresh_forgets_allocations :
  match @NewManager _ (k8s_discoverer unary_uuid) two_node_discoverer "local" with
  | Ok m =>
      match Manager_Allocate "job-1" "GPU-uu" 4000 ["a"; "b"] m with
      | Ok m1 =>
          let m2 := (@RefreshAll _ (k8s_discoverer unary_uuid) ["a"; "b"] m1).1 in
          used_on "b" m1 = [4000] ∧ used_on "b" m2 = [0] ∧
          match Manager_Release "job-1" m2 with
          | Ok m3 => used_on "b" m3 = [-4000]
          | Err _ => False
          end
      | Err _ => False
      end
  | Err _ => False
  end.
Proof. by vm_compute. Qed.
