(* ===== verification/Workers.v ===== *)
(** * The control endpoints of cmd/scheduler/main.go

    [collectInferenceWorkers] turns the running inference pods into the worker
    list the proxy routes on; [gpu_report_handler] is the endpoint the node
    agents report to.  The pods come from [Watcher.GetRunningPod]. *)

From Stdlib Require Import ZArith Lia Ascii String.
From stdpp Require Import base option list strings gmap.
From S2P Require Import Prelude GoFloat GoStrings Types K8s Config Helpers Registry Router Watcher Http Scenario.
Open Scope string_scope.
Open Scope Z_scope.
Open Scope go_scope.

(** One turn of the loop over the pods; [None] is a [continue]. *)
Definition worker_of (r : Registry) (pod : Pod) : option WorkerInfo :=
  let podRole := GetPodInferenceRole pod in
  let endpoint := GetInferencePodEndpoint pod in
  let modelGroup := GetPodModelGroup pod in
  match GetNode (pod_NodeName pod) r with
  | None => None
  | Some node =>
      if String.eqb podRole Unknown then None
      else
        let routable := negb (String.eqb endpoint "") in
        let draining := IsDrainingGPUPod (Some pod) in
        let routable :=
          if String.eqb podRole Prefill || String.eqb podRole Decode
          then routable && negb (String.eqb modelGroup "")
          else if String.eqb podRole Unified then routable
          else false in
        let '(routable, workerState) := if draining then (false, Draining) else (routable, Ready) in
        Some (mkWorkerInfo (pod_key (pod_Namespace pod) (pod_Name pod)) podRole workerState routable
                (ng_HasNVLink node) endpoint modelGroup)
  end.

Section endpoints.
Context {W : Type} `{KubeAPI W} (wc : WatcherConfig).

Definition collectInferenceWorkers (st : WState W) : WState W * result string (list WorkerInfo) :=
  match GetRunningPod wc st with
  | (st', Err e) => (st', Err e)
  | (st', Ok allPods) => (st', Ok (omap (worker_of (w_registry st')) allPods))
  end.

Definition worker_json (w : WorkerInfo) : json :=
  JObj [("id", JStr (wi_ID w)); ("role", JStr (wi_Role w)); ("state", JStr (wi_State w));
        ("routable", JBool (wi_Routable w)); ("gpu2gpu_ready", JBool (wi_GPU2GPUReady w));
        ("endpoint", JStr (wi_Endpoint w)); ("model_group", JStr (wi_ModelGroup w))].

(** A slice to which nothing was appended is nil, and encodes as null. *)
Definition workers_json (workers : list WorkerInfo) : json :=
  match workers with [] => JNull | _ => JArr (worker_json <$> workers) end.

(** The handler of both worker endpoints. *)
Definition workers_handler (method : string) (st : WState W) : WState W * Response :=
  if negb (String.eqb method "GET")
  then (st, http_error "Method not allowed" StatusMethodNotAllowed no_response)
  else
    match collectInferenceWorkers st with
    | (st', Err e) => (st', http_error e StatusInternalServerError no_response)
    | (st', Ok workers) =>
        (st', write (PJson (workers_json workers))
                (set_header "Content-Type" "application/json" no_response))
    end.

Definition quoted (s : string) : string := String "034" s ++ String "034" "".

Definition status_ok : string := "{" ++ quoted "status" ++ ":" ++ quoted "ok" ++ "}".

(** [POST /api/v1/gpu-report]; the sums it logs have no effect. *)
Definition gpu_report_handler (method : string) (body : result string GPUReport) (now : Time)
    (st : WState W) : WState W * Response :=
  if negb (String.eqb method "POST")
  then (st, http_error "Method not allowed" StatusMethodNotAllowed no_response)
  else
    match body with
    | Err e => (st, http_error ("Invalid JSON: " ++ e) StatusBadRequest no_response)
    | Ok report =>
        (set_registry (UpdateFromReport now report (w_registry st)) st,
         write (PRaw status_ok) (write_header StatusOK no_response))
    end.
End endpoints.

(** ** Specification *)

(** A pod that the scheduler runs and that is ready. *)
Definition running_pod (wc : WatcherConfig) (pod : Pod) : Prop :=
  pod_SchedulerName pod = wt_schedulerName wc ∧ pod_Phase pod = PodRunning ∧ pod_NodeName pod ≠ "" ∧
  is_ready pod = true.

(** [w] describes [pod]. *)
Definition describes (r : Registry) (pod : Pod) (w : WorkerInfo) : Prop :=
  ∃ node, GetNode (pod_NodeName pod) r = Some node ∧
    wi_ID w = pod_key (pod_Namespace pod) (pod_Name pod) ∧
    wi_Role w = GetPodInferenceRole pod ∧ wi_Role w ∈ [Prefill; Decode; Unified] ∧
    wi_State w = (if IsDrainingGPUPod (Some pod) then Draining else Ready) ∧
    (wi_Routable w = true ↔ IsDrainingGPUPod (Some pod) = false ∧ wi_Endpoint w ≠ "" ∧
       (wi_Role w = Unified ∨ wi_ModelGroup w ≠ "")) ∧
    wi_GPU2GPUReady w = ng_HasNVLink node ∧
    wi_Endpoint w = GetInferencePodEndpoint pod ∧ wi_ModelGroup w = GetPodModelGroup pod.

(** ** Lemmas *)
Lemma role_cases pod :
  GetPodInferenceRole pod = Unknown ∨ GetPodInferenceRole pod ∈ [Prefill; Decode; Unified].
Proof.
  unfold GetPodInferenceRole. destruct (annotation pod _) as [role|]; [|by left].
  destruct (String.eqb_spec role Prefill) as [->|]; [by right; repeat constructor|].
  destruct (String.eqb_spec role Decode) as [->|]; [by right; repeat constructor|].
  destruct (String.eqb_spec role Unified) as [->|]; [by right; repeat constructor|by left].
Qed.

Lemma worker_of_describes r pod w : worker_of r pod = Some w → describes r pod w.
Proof.
  unfold worker_of, describes. destruct (GetNode _ r) as [node|]; [|done].
  destruct (role_cases pod) as [Hr|Hr]; [by rewrite Hr|].
  destruct (String.eqb_spec (GetPodInferenceRole pod) Unknown) as [E|_]; [done|]. intros Hw.
  exists node. split; [done|].
  assert (GetPodInferenceRole pod = Prefill ∨ GetPodInferenceRole pod = Decode ∨
    GetPodInferenceRole pod = Unified) as Hcases.
  { rewrite !elem_of_cons in Hr. destruct Hr as [?|[?|[?|?%elem_of_nil]]]; auto. done. }
  destruct (IsDrainingGPUPod (Some pod)); injection Hw as <-; cbn.
  - split_and!; try done. split; [done|]. by intros (? & _).
  - split_and!; try done. destruct Hcases as [-> |[-> | ->]]; cbn;
      destruct (String.eqb_spec (GetInferencePodEndpoint pod) "");
      destruct (String.eqb_spec (GetPodModelGroup pod) ""); cbn; naive_solver.
Qed.

Section collected.
Context {W : Type} `{KubeAPI W} (wc : WatcherConfig).

Lemma GetRunningPod_spec (st st' : WState W) pods :
  GetRunningPod wc st = (st', Ok pods) →
  w_registry st' = w_registry st ∧ ∃ w' listed, ListPods (w_api st) = (w', Ok listed) ∧
    pods `sublist_of` listed ∧ ∀ pod, pod ∈ pods ↔ pod ∈ listed ∧ running_pod wc pod.
Proof.
  unfold GetRunningPod. destruct (ListPods (w_api st)) as [w' [listed|e]] eqn:E; [|done].
  intros [= <- <-]. split; [done|]. exists w', listed. split; [done|]. split.
  - clear. induction listed as [|p ps IH]; cbn; [done|]. case_match; by constructor.
  - intros pod. rewrite list_elem_of_In, List.filter_In, <-list_elem_of_In. unfold running_pod.
    rewrite !andb_true_iff, negb_true_iff, !String.eqb_eq, String.eqb_neq. naive_solver.
Qed.

Lemma omap_keys r pods :
  NoDup ((λ p, pod_key (pod_Namespace p) (pod_Name p)) <$> pods) →
  NoDup (wi_ID <$> omap (worker_of r) pods).
Proof.
  induction pods as [|p pods IH]; cbn; [constructor|]. intros [Hp Hnd]%NoDup_cons.
  destruct (worker_of r p) as [w|] eqn:E; [|by apply IH]. cbn. apply NoDup_cons. split; [|by apply IH].
  intros (w' & Eid & (p' & Hp' & E')%list_elem_of_omap)%list_elem_of_fmap. apply Hp.
  apply worker_of_describes in E as (? & _ & Hid & _). apply worker_of_describes in E' as (? & _ & Hid' & _).
  apply list_elem_of_fmap. exists p'. split; [congruence|done].
Qed.

(** The worker list is well formed.  Each entry describes one of the listed
    pods, which is running and ready on a node the registry knows: a role among
    the three, ready or draining, routable exactly when it is not draining, has
    an endpoint, and, unless unified, a model group.  Every such pod with a role
    is listed, and when the pods' keys are distinct so are the identifiers. *)
Theorem collectInferenceWorkers_wf (st st' : WState W) workers :
  collectInferenceWorkers wc st = (st', Ok workers) →
  ∃ w' listed, ListPods (w_api st) = (w', Ok listed) ∧
    (∀ w, w ∈ workers → ∃ pod, pod ∈ listed ∧ running_pod wc pod ∧ describes (w_registry st) pod w) ∧
    (∀ pod, pod ∈ listed → running_pod wc pod → GetPodInferenceRole pod ≠ Unknown →
       is_Some (GetNode (pod_NodeName pod) (w_registry st)) →
       ∃ w, w ∈ workers ∧ describes (w_registry st) pod w) ∧
    (NoDup ((λ p, pod_key (pod_Namespace p) (pod_Name p)) <$> listed) → NoDup (wi_ID <$> workers)).
Proof.
  unfold collectInferenceWorkers. destruct (GetRunningPod wc st) as [st1 [pods|e]] eqn:E; [|done].
  intros [= <- <-]. destruct (GetRunningPod_spec _ _ _ E) as (Hr & w' & listed & El & Hsub & Hpods).
  rewrite Hr. exists w', listed. split; [done|]. split_and!.
  - intros w (pod & [Hin Hrun]%Hpods & Hw)%list_elem_of_omap. exists pod.
    split_and!; [done|done|by apply worker_of_describes].
  - intros pod Hin Hrun Hrole [node Hnode].
    destruct (worker_of (w_registry st) pod) as [w|] eqn:Ew.
    + exists w. split; [|by apply worker_of_describes]. apply list_elem_of_omap. exists pod.
      split; [by apply Hpods|done].
    + unfold worker_of in Ew. rewrite Hnode in Ew. apply String.eqb_neq in Hrole. rewrite Hrole in Ew.
      by destruct (IsDrainingGPUPod _) in Ew.
  - intros Hnd. apply omap_keys. clear -Hsub Hnd.
    induction Hsub as [|p l1 l2 Hs IH|p l1 l2 Hs IH]; cbn in *; [done|..];
      apply NoDup_cons in Hnd as [Hp Hnd]; [|by apply IH]. apply NoDup_cons. split; [|by apply IH].
    intros (p' & Ep & Hp')%list_elem_of_fmap. apply Hp. apply list_elem_of_fmap. exists p'.
    split; [done|]. eapply elem_of_submseteq; [exact Hp'|by apply sublist_submseteq].
Qed.

(** No request reaches a pod that is draining.  Whenever the router answers a
    request for a model group from the collected workers, each worker it names
    is a listed pod that is running, ready and not being drained, on a known
    node, with the role it is chosen for, the group and a non-empty endpoint, and
    for the split roles on a node with NVLink. *)
Theorem routed_pod (st st' : WState W) workers g stats pressure rw role w :
  collectInferenceWorkers wc st = (st', Ok workers) →
  FindRequestWorker g workers stats pressure = Ok rw → chosen rw role w →
  ∃ w' listed pod node, ListPods (w_api st) = (w', Ok listed) ∧ pod ∈ listed ∧ running_pod wc pod ∧
    wi_ID w = pod_key (pod_Namespace pod) (pod_Name pod) ∧
    IsDrainingGPUPod (Some pod) = false ∧ GetPodInferenceRole pod = role ∧ GetPodModelGroup pod = g ∧
    GetInferencePodEndpoint pod = wi_Endpoint w ∧ wi_Endpoint w ≠ "" ∧
    GetNode (pod_NodeName pod) (w_registry st) = Some node ∧
    (role = Prefill ∨ role = Decode → ng_HasNVLink node = true).
Proof.
  unfold collectInferenceWorkers. destruct (GetRunningPod wc st) as [st1 [pods|e]] eqn:E; [|done].
  intros [= <- <-] Hf Hc. destruct (GetRunningPod_spec _ _ _ E) as (Hr & w' & listed & El & _ & Hpods).
  destruct (FindRequestWorker_usable _ _ _ _ _ _ _ Hf Hc) as [Hin (Hg & Hrole & _ & Hroute & Hend & Hnv)].
  apply list_elem_of_omap in Hin as (pod & [Hin Hrun]%Hpods & Hw). rewrite Hr in Hw.
  apply worker_of_describes in Hw as (node & Hn & Hid & Hrole' & _ & _ & Hroutable & Hready & Hep & Hmg).
  apply Hroutable in Hroute as (Hd & _). exists w', listed, pod, node.
  split_and!; try done; try congruence. intros Hs. rewrite <-Hready. by apply Hnv.
Qed.
End collected.

(** ** Examples *)
Definition nvlink_registry : Registry :=
  mkRegistry {["node-a" := mkNodeGPUs "node-a" true [] 1]} ∅ ∅ ∅ ∅.

Definition inference_pod (name role : string) (extra : list (string * string)) : Pod :=
  mkPod name "default" ∅ (list_to_map ([("gpu-scheduler/inference-role", role);
      ("gpu-scheduler/inference-endpoint", ("http://" ++ name)%string); ("gpu-scheduler/model-group", "llama")] ++ extra)%list)
    0 "gpu-scheduler" "node-a" None [] [] [] PodRunning [("Ready", "True")].

Definition inference_pods : list Pod :=
  [inference_pod "p0" "prefill" []; inference_pod "d0" "decode" [];
   inference_pod "d1" "decode" [("gpu-scheduler/draining", "true")]].

Definition inference_state : WState FakeCluster := sample_state inference_pods true true nvlink_registry.

Definition inference_worker (name role state : string) (routable : bool) : WorkerInfo :=
  mkWorkerInfo ("default/" ++ name) role state routable true ("http://" ++ name) "llama".

Definition inference_workers : list WorkerInfo :=
  [inference_worker "p0" Prefill Ready true; inference_worker "d0" Decode Ready true;
   inference_worker "d1" Decode Draining false].

Lemma inference_collected :
  collectInferenceWorkers sample_watcher inference_state = (inference_state, Ok inference_workers).
Proof. by vm_compute. Qed.

Lemma inference_routed :
  FindRequestWorker "llama" inference_workers ∅ ∅ =
  Ok (mkRequestWorker None (Some (inference_worker "p0" Prefill Ready true))
        (Some (inference_worker "d0" Decode Ready true))).
Proof. by vm_compute. Qed.

Lemma collectInferenceWorkers_wf_witness :
  NoDup (wi_ID <$> inference_workers) ∧
  ∀ w, w ∈ inference_workers → ∃ pod, pod ∈ inference_pods ∧ running_pod sample_watcher pod.
Proof.
  destruct (collectInferenceWorkers_wf sample_watcher inference_state _ _ inference_collected)
    as (w' & listed & El & Hw & _ & Hnd).
  cbn in El. injection El as _ <-. split.
  - apply Hnd. apply (bool_decide_unpack _). by vm_compute.
  - intros w Hin. destruct (Hw w Hin) as (pod & ? & ? & _). by exists pod.
Defined.

Lemma routed_pod_witness :
  chosen (mkRequestWorker None (Some (inference_worker "p0" Prefill Ready true))
        (Some (inference_worker "d0" Decode Ready true))) Decode (inference_worker "d0" Decode Ready true) ∧
  ∃ pod, pod ∈ inference_pods ∧ IsDrainingGPUPod (Some pod) = false ∧ GetPodInferenceRole pod = Decode.
Proof.
  assert (chosen (mkRequestWorker None (Some (inference_worker "p0" Prefill Ready true))
        (Some (inference_worker "d0" Decode Ready true))) Decode (inference_worker "d0" Decode Ready true))
    as Hc by (right; right; done).
  split; [exact Hc|].
  destruct (routed_pod sample_watcher inference_state _ _ "llama" _ _ _ _ _
    inference_collected inference_routed Hc) as (w' & listed & pod & node & El & Hin & _ & _ & Hd & Hr & _).
  exists pod. injection El as _ <-. split; [exact Hin|]. split; [exact Hd|exact Hr].
Defined.
