(* ===== verification/Scaling.v ===== *)
(** * The rebalancing tick of cmd/scheduler/main.go

    A tick fetches the pressure reports of the proxy, collects the workers, asks
    [Rebalancer.Evaluate] for each model group, and executes the actions that
    are not blocked; a removal drains a pod before it runs the script.  The API
    server, the proxy and the script are outside: the classes [PodStore] and
    [ControlPlane].  How many polls fit in the drain timeout is an argument, and
    so is the text of the time written to the pod. *)

From Stdlib Require Import ZArith Lia Ascii String OrdersEx.
From stdpp Require Import base option list strings gmap sorting.
From S2P Require Import Prelude GoFloat GoStrings Types K8s Config Helpers Registry Rebalancer Router Watcher Workers.
Open Scope string_scope.
Open Scope Z_scope.
Open Scope go_scope.

(** ** The outside *)
Inductive ScriptResult : Type :=
  | ScriptOk (output : string)
  | ScriptFailed (err output : string)
  | ScriptTimedOut (output : string).

(** [Pods(ns).List], [os.Stat], the run of the script with its environment, and
    the proxy's two endpoints: status and decoded body. *)
Class ControlPlane (W : Type) : Type := {
  ListPodsIn : W → string → W * result string (list Pod);
  StatScript : W → string → W * option string;
  RunScript : W → string → string → list (string * string) → W * ScriptResult;
  GetPressure : W → string → W * result string (Z * result string (list PressureReport));
  GetWorkerStats : W → string → W * result string (Z * result string (list WorkerStat))
}.

(** The configuration the tick reads, and whether there is a client. *)
Record TickConfig : Type := mkTickConfig {
  tc_Namespace : string;
  tc_SchedulerPort : Z;
  tc_ProxyPort : Z;
  tc_kubeClient : bool
}.

Inductive ScaleError : Type :=
  | ENoClient
  | ENilPod
  | ERemote (msg : string)
  | EStatus (code : Z)
  | EEmptyWorker
  | EDrainTimeout
  | ETimedOut (workerID : string)
  | EUnsupported (action : RebalancerDecision)
  | ENoScript (group : string)
  | EScriptMissing (path msg : string)
  | ESelectTarget (e : ScaleError)
  | ENoTarget (group role : string)
  | EMark (workerID : string) (e : ScaleError)
  | EDrainFailed (workerID : string) (e : ScaleError)
  | EDrainStuck (workerID : string) (e clearErr : ScaleError)
  | EScriptFailed (err output : string)
  | EScriptTimedOut (output : string).

Section scaling.
Context {W : Type} `{PodStore W} `{ControlPlane W} (tc : TickConfig).

(** ** The proxy's endpoints *)

(** The status check and the decoding of both fetches. *)
Definition fetched {A} (r : W * result string (Z * result string A)) : W * result ScaleError A :=
  match r with
  | (w, Err e) => (w, Err (ERemote e))
  | (w, Ok (code, body)) =>
      if (code <? 200) || (code >=? 300) then (w, Err (EStatus code))
      else match body with Err e => (w, Err (ERemote e)) | Ok a => (w, Ok a) end
  end.

Definition proxy_url (path : string) : string :=
  "http://127.0.0.1:" ++ itoa (tc_ProxyPort tc) ++ path.

Definition fetchProxyPressureReports (w : W) : W * result ScaleError (list PressureReport) :=
  fetched (GetPressure w (proxy_url "/api/v1/control/pressure")).

Definition fetchProxyWorkerStats (w : W) : W * result ScaleError (list WorkerStat) :=
  fetched (GetWorkerStats w (proxy_url "/api/v1/control/worker-stats")).

(** ** Looking at the pods *)
Definition list_pods (w : W) : W * result ScaleError (list Pod) :=
  if negb (tc_kubeClient tc) then (w, Err ENoClient)
  else match ListPodsIn w (tc_Namespace tc) with
       | (w', Err e) => (w', Err (ERemote e))
       | (w', Ok pods) => (w', Ok pods)
       end.

(** The tests the three scans share. *)
Definition role_pod (policy : ModelGroupPolicy) (targetRole : string) (pod : Pod) : bool :=
  String.eqb (annotation_or_empty pod "gpu-scheduler/workflow") Inference &&
  String.eqb (GetPodModelGroup pod) (mp_Name policy) &&
  String.eqb (GetPodInferenceRole pod) targetRole.

Definition ended_pod (pod : Pod) : bool :=
  String.eqb (pod_Phase pod) PodSucceeded || String.eqb (pod_Phase pod) PodFailed.

Definition isPodReady : Pod → bool := is_ready.

Definition in_progress (policy : ModelGroupPolicy) (targetRole : string) (pod : Pod) : bool :=
  role_pod policy targetRole pod && negb (ended_pod pod) && negb (isPodReady pod).

Definition hasInProgressInferencePod (policy : ModelGroupPolicy) (targetRole : string) (w : W) :
    W * result ScaleError bool :=
  match list_pods w with
  | (w', Err e) => (w', Err e)
  | (w', Ok pods) => (w', Ok (existsb (in_progress policy targetRole) pods))
  end.

Definition draining_pod (policy : ModelGroupPolicy) (targetRole : string) (pod : Pod) : bool :=
  negb (ended_pod pod) && role_pod policy targetRole pod && IsDrainingGPUPod (Some pod).

Definition hasDrainingInferencePod (policy : ModelGroupPolicy) (targetRole : string) (w : W) :
    W * result ScaleError bool :=
  match list_pods w with
  | (w', Err e) => (w', Err e)
  | (w', Ok pods) => (w', Ok (existsb (draining_pod policy targetRole) pods))
  end.

Definition scale_down_candidate (policy : ModelGroupPolicy) (targetRole : string) (pod : Pod) : bool :=
  negb (ended_pod pod) && role_pod policy targetRole pod && negb (IsDrainingGPUPod (Some pod)) &&
  isPodReady pod.

(** Newest first, then by descending name. *)
Definition newer (p q : Pod) : bool :=
  if pod_CreationTimestamp p =? pod_CreationTimestamp q then String.ltb (pod_Name q) (pod_Name p)
  else pod_CreationTimestamp p >? pod_CreationTimestamp q.

Definition selectScaleDownTargetPod `{GoSort} (policy : ModelGroupPolicy) (targetRole : string) (w : W) :
    W * result ScaleError (option Pod) :=
  match list_pods w with
  | (w', Err e) => (w', Err e)
  | (w', Ok pods) =>
      let candidates := List.filter (scale_down_candidate policy targetRole) pods in
      if (length candidates <=? 1)%nat then (w', Ok None)
      else (w', Ok (head (sort_slice newer candidates)))
  end.

(** ** Draining *)
Definition mark_draining (now : string) (m : gmap string string) : gmap string string :=
  <["gpu-scheduler/drain-started-at" := now]> (<["gpu-scheduler/draining" := "true"]> m).

Definition unmark_draining (m : gmap string string) : gmap string string :=
  delete "gpu-scheduler/drain-started-at" (delete "gpu-scheduler/draining" m).

(** [UpdatePod]'s error as a [ScaleError]. *)
Definition update_pod (w : W) (pod : Pod) : W * option ScaleError :=
  let (w', e) := UpdatePod w pod in (w', ERemote <$> e).

Definition markPodDraining (pod : option Pod) (now : string) (w : W) : W * option ScaleError :=
  if negb (tc_kubeClient tc) then (w, Some ENoClient)
  else match pod with
  | None => (w, Some ENilPod)
  | Some pod =>
      match GetPod w (pod_Namespace pod) (pod_Name pod) with
      | (w1, Err e) => (w1, Some (ERemote e))
      | (w1, Ok latest) => update_pod w1 (set_Annotations (mark_draining now (pod_Annotations latest)) latest)
      end
  end.

(** The API leaves out empty annotations, so that they are a nil map here. *)
Definition clearPodDraining (pod : option Pod) (w : W) : W * option ScaleError :=
  if negb (tc_kubeClient tc) then (w, Some ENoClient)
  else match pod with
  | None => (w, Some ENilPod)
  | Some pod =>
      match GetPod w (pod_Namespace pod) (pod_Name pod) with
      | (w1, Err e) => (w1, Some (ERemote e))
      | (w1, Ok latest) =>
          if decide (pod_Annotations latest = ∅) then (w1, None)
          else update_pod w1 (set_Annotations (unmark_draining (pod_Annotations latest)) latest)
      end
  end.

(** Whether the first entry of the worker, if any, is idle. *)
Definition drained (workerID : string) (stats : list WorkerStat) : bool :=
  match List.find (λ st, String.eqb (ws_ID st) workerID) stats with
  | None => true
  | Some st => ws_Inflight st =? 0
  end.

(** [polls] ticks win against the deadline. *)
Fixpoint drain_polls (workerID : string) (polls : nat) (w : W) : W * option ScaleError :=
  match fetchProxyWorkerStats w with
  | (w', Err e) => (w', Some e)
  | (w', Ok stats) =>
      if drained workerID stats then (w', None)
      else match polls with
           | O => (w', Some (ETimedOut workerID))
           | S polls' => drain_polls workerID polls' w'
           end
  end.

Definition waitForWorkerInflightZero (workerID : string) (timeout : Z) (polls : nat) (w : W) :
    W * option ScaleError :=
  if String.eqb (trim_space workerID) "" then (w, Some EEmptyWorker)
  else if timeout <=? 0 then (w, Some EDrainTimeout)
  else drain_polls workerID polls w.

(** ** Executing an action *)

(** The script's name for the action, the role to drain if any. *)
Definition action_script (action : RebalancerDecision) : option (string * option string) :=
  match action with
  | AddDecode => Some ("scale-decode-up", None)
  | AddPrefill => Some ("scale-prefill-up", None)
  | RemoveDecode => Some ("scale-decode-down", Some Decode)
  | RemovePrefill => Some ("scale-prefill-down", Some Prefill)
  | NoAction | ScaleBoth => None
  end.

(** The block guarded by [requiresDrain]. *)
Definition drain_target `{GoSort} (policy : ModelGroupPolicy) (targetRole : string) (drainSeconds : Z)
    (now : string) (polls : nat) (w : W) : W * option ScaleError :=
  match selectScaleDownTargetPod policy targetRole w with
  | (w1, Err e) => (w1, Some (ESelectTarget e))
  | (w1, Ok None) => (w1, Some (ENoTarget (mp_Name policy) targetRole))
  | (w1, Ok (Some targetPod)) =>
      let workerID := pod_key (pod_Namespace targetPod) (pod_Name targetPod) in
      match markPodDraining (Some targetPod) now w1 with
      | (w2, Some e) => (w2, Some (EMark workerID e))
      | (w2, None) =>
          match waitForWorkerInflightZero workerID (seconds drainSeconds) polls w2 with
          | (w3, None) => (w3, None)
          | (w3, Some e) =>
              match clearPodDraining (Some targetPod) w3 with
              | (w4, Some clearErr) => (w4, Some (EDrainStuck workerID e clearErr))
              | (w4, None) => (w4, Some (EDrainFailed workerID e))
              end
          end
      end
  end.

Definition script_env (policy : ModelGroupPolicy) : list (string * string) :=
  [("NAMESPACE", tc_Namespace tc);
   ("SCHEDULER_URL", "http://localhost:" ++ itoa (tc_SchedulerPort tc));
   ("PROXY_URL", "http://localhost:" ++ itoa (tc_ProxyPort tc));
   ("MODEL_GROUP", mp_Name policy)].

Definition run_script (policy : ModelGroupPolicy) (scriptPath scriptAction : string) (w : W) :
    W * option ScaleError :=
  match RunScript w scriptPath scriptAction (script_env policy) with
  | (w', ScriptOk _) => (w', None)
  | (w', ScriptFailed err output) => (w', Some (EScriptFailed err output))
  | (w', ScriptTimedOut output) => (w', Some (EScriptTimedOut output))
  end.

Definition handleRebalancerAction `{GoSort} (drainSeconds : Z) (now : string) (polls : nat)
    (policy : ModelGroupPolicy) (d : RebalancerDecisionResult) (w : W) : W * option ScaleError :=
  match action_script (rd_Action d) with
  | None => (w, Some (EUnsupported (rd_Action d)))
  | Some (scriptAction, drainRole) =>
      let scriptPath := trim_space (mp_ExecutionScript policy) in
      if String.eqb scriptPath "" then (w, Some (ENoScript (mp_Name policy)))
      else
        match StatScript w scriptPath with
        | (w1, Some msg) => (w1, Some (EScriptMissing scriptPath msg))
        | (w1, None) =>
            match drainRole with
            | None => run_script policy scriptPath scriptAction w1
            | Some role =>
                match drain_target policy role drainSeconds now polls w1 with
                | (w2, Some e) => (w2, Some e)
                | (w2, None) => run_script policy scriptPath scriptAction w2
                end
            end
        end
  end.

(** ** The tick *)
Definition checkDeduplication (policy : ModelGroupPolicy) (d : RebalancerDecisionResult)
    (modelWorkers : list WorkerInfo) (w : W) : W * result ScaleError bool :=
  match rd_Action d with
  | AddDecode =>
      if count_role Decode modelWorkers >=? mp_MaxDecodeWorkers policy then (w, Ok true)
      else hasInProgressInferencePod policy Decode w
  | AddPrefill =>
      if count_role Prefill modelWorkers >=? mp_MaxPrefillWorkers policy then (w, Ok true)
      else hasInProgressInferencePod policy Prefill w
  | RemoveDecode => hasDrainingInferencePod policy Decode w
  | RemovePrefill => hasDrainingInferencePod policy Prefill w
  | ScaleBoth | NoAction => (w, Ok true)
  end.

(** What the tick logs about a policy. *)
Inductive tick_outcome : Type :=
  | NoReport
  | NoActionTaken
  | DryRunSkipped
  | DedupeError (e : ScaleError)
  | Blocked
  | NoExecutor
  | ExecutionFailed (e : ScaleError)
  | Executed.

Definition Executor : Type := ModelGroupPolicy → RebalancerDecisionResult → W → W * option ScaleError.

Definition reports_by_group (reports : list PressureReport) : gmap string PressureReport :=
  foldl (λ m r, <[pr_ModelGroup r := r]> m) ∅ reports.

Definition group_workers (name : string) (workers : list WorkerInfo) : list WorkerInfo :=
  List.filter (λ w, String.eqb (wi_ModelGroup w) name) workers.

(** What happens to a decision. *)
Definition act (execute : option Executor) (policy : ModelGroupPolicy) (d : RebalancerDecisionResult)
    (modelWorkers : list WorkerInfo) (w : W) : W * tick_outcome :=
  if decide (rd_Action d = NoAction) then (w, NoActionTaken)
  else if rd_DryRun d then (w, DryRunSkipped)
  else
    match checkDeduplication policy d modelWorkers w with
    | (w1, Err e) => (w1, DedupeError e)
    | (w1, Ok true) => (w1, Blocked)
    | (w1, Ok false) =>
        match execute with
        | None => (w1, NoExecutor)
        | Some execute =>
            match execute policy d w1 with
            | (w2, Some e) => (w2, ExecutionFailed e)
            | (w2, None) => (w2, Executed)
            end
        end
    end.

Definition process_policy (execute : option Executor) (reports : gmap string PressureReport)
    (workers : list WorkerInfo) (now : Time) (policy : ModelGroupPolicy) (rb : Rebalancer) (w : W) :
    Rebalancer * W * tick_outcome :=
  match reports !! mp_Name policy with
  | None => (rb, w, NoReport)
  | Some report =>
      let modelWorkers := group_workers (mp_Name policy) workers in
      let '(rb', d) := Evaluate rb policy report modelWorkers now in
      let '(w', outcome) := act execute policy d modelWorkers w in
      (rb', w', outcome)
  end.

Fixpoint process_policies (execute : option Executor) (reports : gmap string PressureReport)
    (workers : list WorkerInfo) (now : Time) (policies : list ModelGroupPolicy) (rb : Rebalancer) (w : W) :
    Rebalancer * W * list tick_outcome :=
  match policies with
  | [] => (rb, w, [])
  | policy :: rest =>
      let '(rb1, w1, outcome) := process_policy execute reports workers now policy rb w in
      let '(rb2, w2, outcomes) := process_policies execute reports workers now rest rb1 w1 in
      (rb2, w2, outcome :: outcomes)
  end.

Definition processRebalancingReports (execute : option Executor) (pressureReports : list PressureReport)
    (workers : list WorkerInfo) (now : Time) (rb : Rebalancer) (w : W) :
    Rebalancer * W * list tick_outcome :=
  process_policies execute (reports_by_group pressureReports) workers now (rb_ModelGroupPolicies rb) rb w.
End scaling.

(** The whole tick, over the watcher's state. *)
Definition runRebalancingTick {W} `{KubeAPI W} `{PodStore W} `{ControlPlane W} `{GoSort} (tc : TickConfig)
    (wc : WatcherConfig) (now : Time) (nowText : string) (polls : nat) (rb : Rebalancer) (st : WState W) :
    Rebalancer * WState W * list tick_outcome :=
  match fetchProxyPressureReports tc (w_api st) with
  | (w1, Err _) => (rb, set_api w1 st, [])
  | (w1, Ok pressureReports) =>
      match collectInferenceWorkers wc (set_api w1 st) with
      | (st2, Err _) => (rb, st2, [])
      | (st2, Ok workers) =>
          let '(rb', w', outcomes) := processRebalancingReports tc
            (Some (handleRebalancerAction tc (rb_DrainTimeoutSeconds rb) nowText polls))
            pressureReports workers now rb (w_api st2) in
          (rb', set_api w' st2, outcomes)
      end
  end.

(** ** Specification *)

(** The last report of a group, and its workers. *)
Definition last_report (reports : list PressureReport) (group : string) : option PressureReport :=
  last (filter (λ r, pr_ModelGroup r = group) reports).

Definition workers_of (group : string) (workers : list WorkerInfo) : list WorkerInfo :=
  filter (λ w, wi_ModelGroup w = group) workers.

Definition workers_in (group role : string) (workers : list WorkerInfo) : Z :=
  Z.of_nat (length (filter (λ w, wi_Role w = role) (workers_of group workers))).

(** The rebalancer's own run over the policies: no API, no script. *)
Fixpoint eval_policies (reports : list PressureReport) (workers : list WorkerInfo) (now : Time)
    (policies : list ModelGroupPolicy) (rb : Rebalancer) :
    Rebalancer * list (ModelGroupPolicy * option RebalancerDecisionResult) :=
  match policies with
  | [] => (rb, [])
  | policy :: rest =>
      let '(rb1, d) :=
        match last_report reports (mp_Name policy) with
        | None => (rb, None)
        | Some report =>
            let '(rb', d) := Evaluate rb policy report (workers_of (mp_Name policy) workers) now in (rb', Some d)
        end in
      let '(rb2, ds) := eval_policies reports workers now rest rb1 in (rb2, (policy, d) :: ds)
  end.

(** A pod of the group that serves in a role, and what it may be doing. *)
Definition inference_pod (policy : ModelGroupPolicy) (role : string) (pod : Pod) : Prop :=
  annotation pod "gpu-scheduler/workflow" = Some "inference" ∧
  trim_space (default "" (annotation pod "gpu-scheduler/model-group")) = mp_Name policy ∧
  annotation pod "gpu-scheduler/inference-role" = Some role.

Definition alive_pod (pod : Pod) : Prop := pod_Phase pod ≠ "Succeeded" ∧ pod_Phase pod ≠ "Failed".

Definition being_drained (pod : Pod) : Prop :=
  ∃ value, annotation pod "gpu-scheduler/draining" = Some value ∧ to_lower (trim_space value) = "true".

Definition ready_pod (pod : Pod) : Prop := ("Ready", "True") ∈ pod_Conditions pod.

(** A pod that stands in the way of an action: one still being started for an
    addition, one being drained for a removal. *)
Definition blocking (policy : ModelGroupPolicy) (action : RebalancerDecision) (pod : Pod) : Prop :=
  match action with
  | AddDecode => inference_pod policy "decode" pod ∧ alive_pod pod ∧ ¬ ready_pod pod
  | AddPrefill => inference_pod policy "prefill" pod ∧ alive_pod pod ∧ ¬ ready_pod pod
  | RemoveDecode => inference_pod policy "decode" pod ∧ alive_pod pod ∧ being_drained pod
  | RemovePrefill => inference_pod policy "prefill" pod ∧ alive_pod pod ∧ being_drained pod
  | ScaleBoth | NoAction => False
  end.

(** The group has its maximum of workers; scaling both roles is never possible. *)
Definition at_limit (policy : ModelGroupPolicy) (workers : list WorkerInfo) (action : RebalancerDecision) :
    Prop :=
  match action with
  | AddDecode => mp_MaxDecodeWorkers policy ≤ workers_in (mp_Name policy) "decode" workers
  | AddPrefill => mp_MaxPrefillWorkers policy ≤ workers_in (mp_Name policy) "prefill" workers
  | RemoveDecode | RemovePrefill => False
  | ScaleBoth | NoAction => True
  end.

Section specification.
Context {W : Type} `{PodStore W} `{ControlPlane W} (tc : TickConfig).

(** One listing of the namespace, made in [w]. *)
Definition lists (w w' : W) (pods : list Pod) : Prop :=
  tc_kubeClient tc = true ∧ ListPodsIn w (tc_Namespace tc) = (w', Ok pods).

Definition lists_not (w w' : W) : Prop :=
  tc_kubeClient tc = false ∧ w' = w ∨ ∃ msg, ListPodsIn w (tc_Namespace tc) = (w', Err msg).

Definition to_carry_out (d : RebalancerDecisionResult) : Prop :=
  rd_Action d ≠ NoAction ∧ rd_DryRun d = false.

(** What becomes of a decision in the world [w]: the outcome, and the world after. *)
Inductive handled (execute : option (@Executor W)) (workers : list WorkerInfo) (policy : ModelGroupPolicy)
    (d : RebalancerDecisionResult) (w : W) : tick_outcome → W → Prop :=
  | handled_nothing : rd_Action d = NoAction → handled execute workers policy d w NoActionTaken w
  | handled_dry :
      rd_Action d ≠ NoAction → rd_DryRun d = true → handled execute workers policy d w DryRunSkipped w
  | handled_limit :
      to_carry_out d → at_limit policy workers (rd_Action d) → handled execute workers policy d w Blocked w
  | handled_unlisted w1 e :
      to_carry_out d → ¬ at_limit policy workers (rd_Action d) → lists_not w w1 →
      handled execute workers policy d w (DedupeError e) w1
  | handled_blocked w1 pods pod :
      to_carry_out d → ¬ at_limit policy workers (rd_Action d) → lists w w1 pods →
      pod ∈ pods → blocking policy (rd_Action d) pod → handled execute workers policy d w Blocked w1
  | handled_unable w1 pods :
      to_carry_out d → ¬ at_limit policy workers (rd_Action d) → lists w w1 pods →
      (∀ pod, pod ∈ pods → ¬ blocking policy (rd_Action d) pod) → execute = None →
      handled execute workers policy d w NoExecutor w1
  | handled_run w1 pods ex w2 e :
      to_carry_out d → ¬ at_limit policy workers (rd_Action d) → lists w w1 pods →
      (∀ pod, pod ∈ pods → ¬ blocking policy (rd_Action d) pod) → execute = Some ex →
      ex policy d w1 = (w2, e) →
      handled execute workers policy d w (match e with None => Executed | Some err => ExecutionFailed err end) w2.

(** The decisions one after the other, each in the world the one before left. *)
Inductive carried_out (execute : option (@Executor W)) (workers : list WorkerInfo) :
    list (ModelGroupPolicy * option RebalancerDecisionResult) → W → list tick_outcome → W → Prop :=
  | carried_nil w : carried_out execute workers [] w [] w
  | carried_none policy rest w os w' :
      carried_out execute workers rest w os w' →
      carried_out execute workers ((policy, None) :: rest) w (NoReport :: os) w'
  | carried_some policy d rest w o w1 os w' :
      handled execute workers policy d w o w1 → carried_out execute workers rest w1 os w' →
      carried_out execute workers ((policy, Some d) :: rest) w (o :: os) w'.
End specification.

(** ** Lemmas on the tick *)
Lemma Evaluate_dry rb policy report workers now rb' d :
  Evaluate rb policy report workers now = (rb', d) →
  rb_DryRun rb' = rb_DryRun rb ∧ rd_DryRun d = rb_DryRun rb.
Proof.
  unfold Evaluate. repeat case_match; try (intros [= <- <-]; done).
Qed.

Section tick.
Context {W : Type} `{PodStore W} `{ControlPlane W} (tc : TickConfig).
Implicit Types (w : W) (execute : option (@Executor W)).

Lemma list_pods_ok w w' pods :
  list_pods tc w = (w', Ok pods) → ListPodsIn w (tc_Namespace tc) = (w', Ok pods).
Proof.
  unfold list_pods. destruct (negb _); [done|].
  by destruct (ListPodsIn w _) as [w1 [ps|e]]; intros [= -> ->].
Qed.

(** ** The scans, in the words of the specification *)
Lemma role_pod_spec policy role pod :
  role ∈ ["prefill"; "decode"] → role_pod policy role pod = true ↔ inference_pod policy role pod.
Proof.
  intros Hrole. unfold role_pod, inference_pod, GetPodModelGroup, GetPodInferenceRole, annotation_or_empty.
  rewrite !andb_true_iff, !String.eqb_eq. unfold Inference.
  destruct (annotation pod "gpu-scheduler/workflow"), (annotation pod "gpu-scheduler/inference-role") as [r|];
    cbn [default from_option id]; repeat case_match; bool_hyps; set_solver.
Qed.

Lemma alive_spec pod : ended_pod pod = false ↔ alive_pod pod.
Proof. unfold ended_pod, alive_pod. by rewrite orb_false_iff, !String.eqb_neq. Qed.

Lemma ready_spec pod : isPodReady pod = true ↔ ready_pod pod.
Proof.
  unfold isPodReady, is_ready, ready_pod. rewrite existsb_exists. split.
  - intros ([a b] & Hin%list_elem_of_In & Hab). cbn in Hab.
    by apply andb_true_iff in Hab as [->%String.eqb_eq ->%String.eqb_eq].
  - intros Hin%list_elem_of_In. by exists ("Ready", "True").
Qed.

Lemma draining_spec pod : IsDrainingGPUPod (Some pod) = true ↔ being_drained pod.
Proof.
  unfold IsDrainingGPUPod, being_drained. destruct (annotation pod _) as [v|]; [|naive_solver].
  rewrite String.eqb_eq. naive_solver.
Qed.

Lemma in_progress_spec policy role pod :
  role ∈ ["prefill"; "decode"] → in_progress policy role pod = true ↔
  inference_pod policy role pod ∧ alive_pod pod ∧ ¬ ready_pod pod.
Proof.
  intros Hr. unfold in_progress.
  rewrite !andb_true_iff, !negb_true_iff, role_pod_spec, alive_spec, <-ready_spec by done.
  rewrite not_true_iff_false. tauto.
Qed.

Lemma draining_pod_spec policy role pod :
  role ∈ ["prefill"; "decode"] → draining_pod policy role pod = true ↔
  inference_pod policy role pod ∧ alive_pod pod ∧ being_drained pod.
Proof.
  intros Hr. unfold draining_pod.
  rewrite !andb_true_iff, negb_true_iff, role_pod_spec, alive_spec, draining_spec by done. tauto.
Qed.

Lemma filter_eqb {A} (f : A → string) (k : string) (l : list A) :
  List.filter (λ x, String.eqb (f x) k) l = filter (λ x, f x = k) l.
Proof.
  induction l as [|x l IH]; [done|]. cbn [List.filter]. rewrite filter_cons.
  destruct (String.eqb_spec (f x) k); case_decide; congruence.
Qed.

Lemma group_workers_eq name workers : group_workers name workers = workers_of name workers.
Proof. apply filter_eqb. Qed.

Lemma count_role_in policy role workers :
  count_role role (group_workers (mp_Name policy) workers) = workers_in (mp_Name policy) role workers.
Proof. unfold count_role, group_workers, workers_in, workers_of. by rewrite !filter_eqb. Qed.

Lemma last_report_eq reports g : reports_by_group reports !! g = last_report reports g.
Proof.
  unfold reports_by_group, last_report. induction reports as [|r reports IH] using rev_ind; [apply lookup_empty|].
  rewrite foldl_app, filter_app, last_app. cbn [foldl]. rewrite filter_cons, filter_nil.
  case_decide as E; cbn; [by rewrite <-E, lookup_insert_eq|]. by rewrite lookup_insert_ne.
Qed.

(** A scan finds a pod, none, or fails to list them. *)
Lemma scan_cases (P : Pod → bool) w w' r :
  match list_pods tc w with
  | (w', Err e) => (w', Err e)
  | (w', Ok pods) => (w', Ok (existsb P pods))
  end = (w', r) →
  match r with
  | Err _ => lists_not tc w w'
  | Ok found => ∃ pods, lists tc w w' pods ∧
      if found then ∃ pod, pod ∈ pods ∧ P pod = true else ∀ pod, pod ∈ pods → P pod = false
  end.
Proof.
  unfold list_pods, lists, lists_not. destruct (tc_kubeClient tc); cbn [negb]; [|intros [= <- <-]; by left].
  destruct (ListPodsIn w (tc_Namespace tc)) as [w1 [pods|e]]; intros [= <- <-]; [|right; by eexists].
  exists pods. split; [done|]. destruct (existsb P pods) eqn:E.
  - apply existsb_exists in E as (p & Hp%list_elem_of_In & ?). eauto.
  - intros p Hp%list_elem_of_In. destruct (P p) eqn:Ep; [|done].
    assert (existsb P pods = true) by (apply existsb_exists; eauto). congruence.
Qed.

(** The check lets the action through, blocks it or fails, for cause. *)
Lemma checkDeduplication_cases policy d workers w w' r :
  rd_Action d ≠ NoAction →
  checkDeduplication tc policy d (group_workers (mp_Name policy) workers) w = (w', r) →
  (r = Ok true ∧ w' = w ∧ at_limit policy workers (rd_Action d)) ∨
  ¬ at_limit policy workers (rd_Action d) ∧
  match r with
  | Err _ => lists_not tc w w'
  | Ok found => ∃ pods, lists tc w w' pods ∧
      if found then ∃ pod, pod ∈ pods ∧ blocking policy (rd_Action d) pod
      else ∀ pod, pod ∈ pods → ¬ blocking policy (rd_Action d) pod
  end.
Proof.
  intros Hne. unfold checkDeduplication. rewrite !count_role_in.
  assert (∀ P : Pod → bool, (∀ pod, P pod = true ↔ blocking policy (rd_Action d) pod) →
    match list_pods tc w with
    | (w', Err e) => (w', Err e)
    | (w', Ok pods) => (w', Ok (existsb P pods))
    end = (w', r) →
    match r with
    | Err _ => lists_not tc w w'
    | Ok found => ∃ pods, lists tc w w' pods ∧
        if found then ∃ pod, pod ∈ pods ∧ blocking policy (rd_Action d) pod
        else ∀ pod, pod ∈ pods → ¬ blocking policy (rd_Action d) pod
    end) as Hscan.
  { intros P HP Hr%scan_cases. destruct r as [found|]; [|done]. destruct Hr as (pods & Hl & Hf).
    exists pods. split; [done|]. destruct found.
    - destruct Hf as (pod & ? & Hp%HP). eauto.
    - intros pod Hin Hb%HP. by rewrite Hf in Hb. }
  destruct (rd_Action d); cbn [at_limit blocking] in *; [done|intros [= <- <-]; by left|..].
  all: try (rewrite Z.geb_leb; match goal with |- context [?a <=? ?b] => destruct (Z.leb_spec a b) end;
    [intros [= <- <-]; by left|]).
  all: intros Hr; right; (split; [first [by apply Z.lt_nge|by intros []]|]); eapply Hscan, Hr; intros pod.
  all: first [apply in_progress_spec|apply draining_pod_spec]; set_solver.
Qed.

Lemma act_handled execute policy d workers w w' o :
  act tc execute policy d (group_workers (mp_Name policy) workers) w = (w', o) →
  handled tc execute workers policy d w o w'.
Proof.
  unfold act. destruct (decide _) as [E|E]; [intros [= <- <-]; by constructor|].
  destruct (rd_DryRun d) eqn:Ed; [intros [= <- <-]; by constructor|].
  assert (to_carry_out d) as Ht by done.
  destruct (checkDeduplication _ _ _ _ _) as [w1 r] eqn:Ec.
  apply checkDeduplication_cases in Ec as [(-> & -> & Hl)|[Hl Hr]];
    [intros [= <- <-]; by apply handled_limit| |done].
  destruct r as [[]|e]; [destruct Hr as (pods & Hlist & pod & Hin & Hb)|destruct Hr as (pods & Hlist & Hn)|].
  - intros [= <- <-]. by eapply handled_blocked.
  - destruct execute as [ex|]; [|intros [= <- <-]; by eapply handled_unable].
    destruct (ex policy d w1) as [w2 e] eqn:Ee. intros Hr.
    assert (w' = w2 ∧ o = match e with None => Executed | Some err => ExecutionFailed err end) as [-> ->]
      by (by destruct e; injection Hr as <- <-).
    by eapply handled_run.
  - intros [= <- <-]. by apply handled_unlisted.
Qed.

Lemma carried_dry execute workers ds w os w' :
  carried_out tc execute workers ds w os w' →
  Forall (λ pd, ∀ d, pd.2 = Some d → rd_DryRun d = true) ds → w' = w.
Proof.
  induction 1 as [|policy rest w os w' _ IH|policy d rest w o w1 os w' Hh _ IH]; [done|..];
    intros [Hd Hds]%Forall_cons; [by apply IH|].
  rewrite (IH Hds). specialize (Hd d eq_refl). inversion Hh; subst; try done;
    match goal with Hc : to_carry_out _ |- _ => destruct Hc end; congruence.
Qed.

End tick.

(** ** The order of the candidates *)
Lemma ascii_compare_N a b : Ascii.compare a b = N.compare (N_of_ascii a) (N_of_ascii b).
Proof. done. Qed.

Lemma ltb_trans x y z : String.ltb x y = true → String.ltb y z = true → String.ltb x z = true.
Proof.
  unfold String.ltb. revert y z. induction x as [|a x IH]; intros [|b y] [|c z]; cbn; try done.
  rewrite !ascii_compare_N.
  destruct (N.compare_spec (N_of_ascii a) (N_of_ascii b)), (N.compare_spec (N_of_ascii b) (N_of_ascii c)),
    (N.compare_spec (N_of_ascii a) (N_of_ascii c)); try done; try lia. apply IH.
Qed.

Lemma ltb_total x y : x ≠ y → String.ltb x y = false → String.ltb y x = true.
Proof.
  unfold String.ltb. rewrite (String.compare_antisym x y). intros Hne.
  destruct (String.compare y x) eqn:E; cbn; [|done|done].
  apply String.compare_eq_iff in E. congruence.
Qed.

Lemma ltb_asym x y : String.ltb x y = true → String.ltb y x = false.
Proof. unfold String.ltb. rewrite (String.compare_antisym x y). by destruct (String.compare y x). Qed.

#[export] Instance name_greater_weak : WeakLess (λ p q : Pod, String.ltb (pod_Name q) (pod_Name p)).
Proof.
  split.
  - intros p q. apply ltb_asym.
  - intros x y z Hxy Hyz. destruct (String.ltb (pod_Name z) (pod_Name x)) eqn:E; [|done].
    destruct (decide (pod_Name y = pod_Name x)) as [Exy|Hne]; [congruence|].
    pose proof (ltb_total _ _ Hne Hxy) as Hlt. pose proof (ltb_trans _ _ _ E Hlt). congruence.
Qed.

#[export] Instance newer_weak : WeakLess newer.
Proof.
  assert (∀ p q, newer p q = (λ x y : Pod, if - pod_CreationTimestamp x =? - pod_CreationTimestamp y
    then String.ltb (pod_Name y) (pod_Name x) else - pod_CreationTimestamp x <? - pod_CreationTimestamp y) p q)
    as Heq.
  { intros p q. unfold newer. rewrite Z.gtb_ltb.
    destruct (Z.eqb_spec (pod_CreationTimestamp p) (pod_CreationTimestamp q)),
      (Z.eqb_spec (- pod_CreationTimestamp p) (- pod_CreationTimestamp q)); done || lia. }
  pose proof (weak_less_lex (λ p : Pod, - pod_CreationTimestamp p) _ name_greater_weak) as [Ha Hn].
  split.
  - intros x y. rewrite !Heq. apply Ha.
  - intros x y z. rewrite !Heq. apply Hn.
Qed.

Section selection.
Context {W : Type} `{PodStore W} `{ControlPlane W} `{GoSort} (tc : TickConfig).

Lemma select_spec policy role (w w' : W) r :
  selectScaleDownTargetPod tc policy role w = (w', Ok r) →
  ∃ pods, ListPodsIn w (tc_Namespace tc) = (w', Ok pods) ∧
  let candidates := List.filter (scale_down_candidate policy role) pods in
  match r with
  | None => (length candidates ≤ 1)%nat
  | Some target => (2 ≤ length candidates)%nat ∧ target ∈ candidates ∧
      ∀ p, p ∈ candidates → newer p target = false
  end.
Proof.
  unfold selectScaleDownTargetPod. destruct (list_pods tc w) as [w1 [pods|e]] eqn:E; [|done].
  apply list_pods_ok in E. destruct (Nat.leb_spec (length (List.filter (scale_down_candidate policy role) pods)) 1)
    as [Hle|Hgt]; intros [= <- <-]; exists pods; (split; [done|]); cbn; [done|].
  set (cs := List.filter _ pods) in *.
  destruct (sort_slice newer cs) as [|target rest] eqn:Es.
  - pose proof (sort_slice_length newer cs) as Hl. rewrite Es in Hl. cbn in Hl. lia.
  - cbn. split; [lia|]. split.
    + apply (sort_slice_elem newer). rewrite Es. left.
    + intros p Hp. by apply (sort_slice_head newer cs target rest p newer_weak Es).
Qed.

(** Scaling down keeps a worker and takes the newest.  The pod chosen for
    removal is one of at least two pods of the group and role that are ready,
    not ended and not draining, and none of them is newer (or, when equally old,
    later in name), whatever sort is used; with at most one such pod there is
    no choice. *)
Theorem selectScaleDownTargetPod_newest policy role (w w' : W) r :
  selectScaleDownTargetPod tc policy role w = (w', Ok r) →
  ∃ pods, ListPodsIn w (tc_Namespace tc) = (w', Ok pods) ∧
  let candidates := List.filter (scale_down_candidate policy role) pods in
  match r with
  | None => (length candidates ≤ 1)%nat
  | Some target => (2 ≤ length candidates)%nat ∧ target ∈ candidates ∧
      ∀ p, p ∈ candidates →
        pod_CreationTimestamp p < pod_CreationTimestamp target ∨
        pod_CreationTimestamp p = pod_CreationTimestamp target ∧
          (p = target ∨ pod_Name p = pod_Name target ∨ String.ltb (pod_Name p) (pod_Name target) = true)
  end.
Proof.
  intros Hs. destruct (select_spec _ _ _ _ _ Hs) as (pods & El & Hr). exists pods. split; [done|].
  destruct r as [target|]; [|done]. destruct Hr as (Hlen & Hin & Hmin). split_and!; [done|done|].
  intros p Hp. specialize (Hmin p Hp). unfold newer in Hmin. rewrite Z.gtb_ltb in Hmin.
  destruct (Z.eqb_spec (pod_CreationTimestamp p) (pod_CreationTimestamp target)) as [E|E].
  - right. split; [done|]. right. destruct (decide (pod_Name p = pod_Name target)) as [|Hne]; [by left|right].
    by apply ltb_total.
  - left. bool_hyps. lia.
Qed.
End selection.

(** ** Draining *)

(** A store of pods without other writers: reads give what is stored, updates
    store the pod under its name, and the other calls of the tick leave it. *)
Class StoredPods (W : Type) `{PodStore W} `{ControlPlane W} : Type := {
  stored : W → gmap (string * string) Pod;
  stored_get w ns name : ∃ w', stored w' = stored w ∧
    GetPod w ns name = (w', match stored w !! (ns, name) with Some p => Ok p | None => Err "not found" end);
  stored_update w pod : ∃ w', UpdatePod w pod = (w', None) ∧
    stored w' = <[(pod_Namespace pod, pod_Name pod) := pod]> (stored w);
  stored_list w ns : stored (ListPodsIn w ns).1 = stored w;
  stored_stat w path : stored (StatScript w path).1 = stored w;
  stored_stats w url : stored (GetWorkerStats w url).1 = stored w;
  stored_listed w w' ns pods p : ListPodsIn w ns = (w', Ok pods) → p ∈ pods →
    stored w !! (pod_Namespace p, pod_Name p) = Some p
}.

(** [w] is where a fetch ended whose statistics show no request in flight on the
    worker. *)
Definition reported_idle {W} `{ControlPlane W} (tc : TickConfig) (workerID : string) (w : W) : Prop :=
  ∃ w0 stats, fetchProxyWorkerStats tc w0 = (w, Ok stats) ∧ drained workerID stats = true.

Definition never_marked (pod : Pod) : Prop :=
  annotation pod "gpu-scheduler/draining" = None ∧ annotation pod "gpu-scheduler/drain-started-at" = None.

Lemma unmark_mark now m :
  m !! "gpu-scheduler/draining" = None → m !! "gpu-scheduler/drain-started-at" = None →
  unmark_draining (mark_draining now m) = m.
Proof.
  intros H1 H2. unfold unmark_draining, mark_draining.
  rewrite delete_insert_ne by done.
  rewrite (delete_insert_id m "gpu-scheduler/draining" "true") by done. by rewrite delete_insert_id.
Qed.

Lemma set_Annotations_id p : set_Annotations (pod_Annotations p) p = p.
Proof. by destruct p. Qed.

Section draining.
Context {W : Type} `{StoredPods W} `{GoSort} (tc : TickConfig).
Implicit Types w : W.

Lemma fetched_world {A} (r : W * result string (Z * result string A)) : (fetched r).1 = r.1.
Proof. destruct r as [w [[code [a|e]]|e]]; cbn; [|by case_match|done]. by case_match. Qed.

Lemma fetch_stored w w' r : fetchProxyWorkerStats tc w = (w', r) → stored w' = stored w.
Proof.
  intros E. unfold fetchProxyWorkerStats in E. rewrite <-(stored_stats w (proxy_url tc "/api/v1/control/worker-stats")).
  f_equal. rewrite <-fetched_world. by rewrite E.
Qed.

Lemma wait_spec workerID timeout polls w w' r :
  waitForWorkerInflightZero tc workerID timeout polls w = (w', r) →
  stored w' = stored w ∧ (r = None → reported_idle tc workerID w').
Proof.
  unfold waitForWorkerInflightZero. destruct (String.eqb _ ""); [by intros [= <- <-]|].
  destruct (timeout <=? 0); [by intros [= <- <-]|].
  revert w. induction polls as [|polls IH]; intros w; cbn;
    destruct (fetchProxyWorkerStats tc w) as [w1 [stats|e]] eqn:E;
    pose proof (fetch_stored _ _ _ E) as Hst; try (by intros [= <- <-]);
    destruct (drained workerID stats) eqn:Ed.
  - intros [= <- <-]. split; [done|]. intros _. by exists w, stats.
  - by intros [= <- <-].
  - intros [= <- <-]. split; [done|]. intros _. by exists w, stats.
  - intros Hr. destruct (IH w1 Hr) as [Hs Hi]. split; [congruence|done].
Qed.

Definition pkey (p : Pod) : string * string := (pod_Namespace p, pod_Name p).

Definition marked (now : string) (p : Pod) : Pod := set_Annotations (mark_draining now (pod_Annotations p)) p.

Lemma mark_spec now p w w' r :
  stored w !! pkey p = Some p → markPodDraining tc (Some p) now w = (w', r) →
  (r = None ∧ stored w' = <[pkey p := marked now p]> (stored w)) ∨ (r ≠ None ∧ stored w' = stored w).
Proof.
  intros Hp. unfold markPodDraining. destruct (negb _); [intros [= <- <-]; by right|].
  destruct (stored_get w (pod_Namespace p) (pod_Name p)) as (w1 & Hs1 & ->). fold (pkey p). rewrite Hp.
  unfold update_pod.
  destruct (stored_update w1 (marked now p)) as (w2 & E2 & Hs2). unfold marked in E2. rewrite E2.
  intros [= <- <-]. left. split; [done|]. rewrite Hs2, Hs1. done.
Qed.

Lemma clear_spec now p w w' r :
  never_marked p → tc_kubeClient tc = true → stored w !! pkey p = Some (marked now p) →
  clearPodDraining tc (Some p) w = (w', r) → r = None ∧ stored w' = <[pkey p := p]> (stored w).
Proof.
  intros [Hn1 Hn2] Hk Hp. unfold clearPodDraining. rewrite Hk. cbn [negb].
  destruct (stored_get w (pod_Namespace p) (pod_Name p)) as (w1 & Hs1 & ->). fold (pkey p). rewrite Hp.
  cbn [pod_Annotations marked set_Annotations]. rewrite decide_False by (by apply insert_non_empty).
  unfold update_pod, marked. cbn [pod_Annotations set_Annotations]. rewrite (unmark_mark now) by done.
  match goal with |- context [UpdatePod w1 ?q] => assert (q = p) as -> by (by destruct p) end.
  destruct (stored_update w1 p) as (w2 & -> & Hs2). intros [= <- <-]. split; [done|]. by rewrite Hs2, Hs1.
Qed.

(** The outcomes of the drain: ready for the script, or everything as before. *)
Lemma drain_spec policy role secs now polls w w' r :
  (∀ k p, stored w !! k = Some p → scale_down_candidate policy role p = true → never_marked p) →
  drain_target tc policy role secs now polls w = (w', r) →
  match r with
  | None => ∃ target pods, target ∈ pods ∧ (∃ w1 w2, ListPodsIn w1 (tc_Namespace tc) = (w2, Ok pods)) ∧
      (2 ≤ length (List.filter (scale_down_candidate policy role) pods))%nat ∧
      scale_down_candidate policy role target = true ∧ stored w !! pkey target = Some target ∧
      reported_idle tc (pod_key (pod_Namespace target) (pod_Name target)) w' ∧
      stored w' = <[pkey target := marked now target]> (stored w)
  | Some _ => stored w' = stored w
  end.
Proof.
  intros Hnever. unfold drain_target.
  destruct (selectScaleDownTargetPod tc policy role w) as [w1 [[target|]|e]] eqn:Es.
  2-3: intros [= <- <-]; unfold selectScaleDownTargetPod, list_pods in Es;
    destruct (negb (tc_kubeClient tc)); [by simplify_eq|];
    pose proof (stored_list w (tc_Namespace tc)) as Hl;
    destruct (ListPodsIn w _) as [w2 [pods|e2]]; cbn in Hl; repeat case_match; simplify_eq; done.
  destruct (select_spec tc _ _ _ _ _ Es) as (pods & El & Hlen & Hin & _).
  pose proof (stored_list w (tc_Namespace tc)) as Hs1. rewrite El in Hs1. cbn in Hs1.
  apply list_elem_of_In, List.filter_In in Hin as [Hin Hcand]. apply list_elem_of_In in Hin.
  pose proof (stored_listed _ _ _ _ _ El Hin) as Hst. fold (pkey target) in Hst.
  pose proof (Hnever _ _ Hst Hcand) as Hnm.
  assert (tc_kubeClient tc = true) as Hk.
  { unfold selectScaleDownTargetPod, list_pods in Es. by destruct (tc_kubeClient tc). }
  destruct (markPodDraining tc (Some target) now w1) as [w2 rm] eqn:Em.
  apply mark_spec in Em as [[-> Hs2]|[Hne Hs2]]; [| |by rewrite Hs1].
  2: { destruct rm; [|done]. intros [= <- <-]. congruence. }
  destruct (waitForWorkerInflightZero _ _ _ _ _) as [w3 rw] eqn:Ew. apply wait_spec in Ew as [Hs3 Hidle].
  destruct rw as [e|].
  - destruct (clearPodDraining tc (Some target) w3) as [w4 rc] eqn:Ec.
    apply (clear_spec now) in Ec as [-> Hs4]; [|done|done|rewrite Hs3, Hs2; apply lookup_insert_eq].
    intros [= <- <-]. rewrite Hs4, Hs3, Hs2, insert_insert_eq, Hs1. by apply insert_id.
  - intros [= <- <-]. exists target, pods. split_and!; try done; [by exists w, w1|by apply Hidle|].
    by rewrite Hs3, Hs2, Hs1.
Qed.

(** A removal either failed before the script or ran it from where the drain ended. *)
Lemma removal_spec policy d script role secs now polls w w' r :
  action_script (rd_Action d) = Some (script, Some role) →
  (∀ k p, stored w !! k = Some p → scale_down_candidate policy role p = true → never_marked p) →
  handleRebalancerAction tc secs now polls policy d w = (w', r) →
  (r ≠ None ∧ stored w' = stored w) ∨
  ∃ target pods w0 w1, w0 = (StatScript w (trim_space (mp_ExecutionScript policy))).1 ∧
    drain_target tc policy role secs now polls w0 = (w1, None) ∧
    target ∈ pods ∧ (∃ w2 w3, ListPodsIn w2 (tc_Namespace tc) = (w3, Ok pods)) ∧
    (2 ≤ length (List.filter (scale_down_candidate policy role) pods))%nat ∧
    scale_down_candidate policy role target = true ∧ stored w !! pkey target = Some target ∧
    reported_idle tc (pod_key (pod_Namespace target) (pod_Name target)) w1 ∧
    stored w1 = <[pkey target := marked now target]> (stored w) ∧
    run_script tc policy (trim_space (mp_ExecutionScript policy)) script w1 = (w', r).
Proof.
  intros Ha Hnever. unfold handleRebalancerAction. rewrite Ha.
  destruct (String.eqb _ ""); [intros [= <- <-]; by left|].
  pose proof (stored_stat w (trim_space (mp_ExecutionScript policy))) as Hs1.
  destruct (StatScript w _) as [w1 [msg|]] eqn:Est; cbn in Hs1; [intros [= <- <-]; by left|].
  destruct (drain_target tc policy role secs now polls w1) as [w2 rd] eqn:Edr.
  pose proof Edr as Ed. apply drain_spec in Ed; [|by rewrite Hs1]. destruct rd as [e|].
  - intros [= <- <-]. left. split; [done|congruence].
  - intros Hrun. right. destruct Ed as (target & pods & Hin & Hl & Hlen & Hc & Hst & Hidle & Hs2).
    exists target, pods, w1, w2. rewrite <-Hs1. done.
Qed.
End draining.

(** ** Draining against an API server that may fail *)

(** A store of pods whose only writer is the tick: reads that succeed give what is
    stored, and an update stores the pod, or fails, with or without effect. *)
Class ApiPods (W : Type) `{PodStore W} `{ControlPlane W} : Type := {
  api_pods : W → gmap (string * string) Pod;
  api_get w ns name : api_pods (GetPod w ns name).1 = api_pods w ∧
    ∀ p, (GetPod w ns name).2 = Ok p → api_pods w !! (ns, name) = Some p;
  api_update w pod : let r := UpdatePod w pod in
    api_pods r.1 = <[(pod_Namespace pod, pod_Name pod) := pod]> (api_pods w) ∨
    r.2 ≠ None ∧ api_pods r.1 = api_pods w;
  api_list w ns : api_pods (ListPodsIn w ns).1 = api_pods w;
  api_stat w path : api_pods (StatScript w path).1 = api_pods w;
  api_stats w url : api_pods (GetWorkerStats w url).1 = api_pods w;
  api_listed w w' ns pods p : ListPodsIn w ns = (w', Ok pods) → p ∈ pods →
    api_pods w !! (pod_Namespace p, pod_Name p) = Some p
}.

(** The calls of a tick but the script. *)
Inductive plain_call {W} `{PodStore W} `{ControlPlane W} (w : W) : W → Prop :=
  | plain_list ns : plain_call w (ListPodsIn w ns).1
  | plain_stat path : plain_call w (StatScript w path).1
  | plain_stats url : plain_call w (GetWorkerStats w url).1
  | plain_get ns name : plain_call w (GetPod w ns name).1
  | plain_update pod : plain_call w (UpdatePod w pod).1.

(** A pod that may be removed: of the group and role, alive, ready, not draining. *)
Definition removable (policy : ModelGroupPolicy) (role : string) (pod : Pod) : Prop :=
  inference_pod policy role pod ∧ alive_pod pod ∧ ready_pod pod ∧ ¬ being_drained pod.

(** The statistics show no request on the worker: its first entry, if it has one,
    counts none. *)
Definition shown_idle (workerID : string) (stats : list WorkerStat) : Prop :=
  ∀ l1 st l2, stats = (l1 ++ st :: l2)%list → ws_ID st = workerID →
    Forall (λ s, ws_ID s ≠ workerID) l1 → ws_Inflight st = 0.

(** The pod with the drain marks, and with none. *)
Definition with_marks (now : string) (p : Pod) : Pod :=
  set_Annotations (<["gpu-scheduler/drain-started-at" := now]>
    (<["gpu-scheduler/draining" := "true"]> (pod_Annotations p))) p.

Definition without_marks (p : Pod) : Pod :=
  set_Annotations (delete "gpu-scheduler/drain-started-at" (delete "gpu-scheduler/draining" (pod_Annotations p))) p.

Section unreliable.
Context {W : Type} `{ApiPods W} `{GoSort} (tc : TickConfig).
Implicit Types w : W.

(** From [w], a listing shows at least two pods that may be removed, the [target]
    the newest of them; the target alone is marked; and the last call was a fetch
    whose answer shows no request on it. *)
Definition drained_for (policy : ModelGroupPolicy) (role now : string) (target : Pod) (w w1 : W) : Prop :=
  ∃ wa wb w0 pods code stats,
    rtc plain_call w wa ∧ ListPodsIn wa (tc_Namespace tc) = (wb, Ok pods) ∧ rtc plain_call wb w0 ∧
    GetWorkerStats w0 ("http://127.0.0.1:" ++ itoa (tc_ProxyPort tc) ++ "/api/v1/control/worker-stats") =
      (w1, Ok (code, Ok stats)) ∧ 200 ≤ code < 300 ∧
    target ∈ pods ∧ removable policy role target ∧
    (∃ l1 p l2 q l3, pods = (l1 ++ p :: l2 ++ q :: l3)%list ∧ removable policy role p ∧ removable policy role q) ∧
    (∀ p, p ∈ pods → removable policy role p → pod_CreationTimestamp p ≤ pod_CreationTimestamp target) ∧
    shown_idle (pod_Namespace target ++ "/" ++ pod_Name target) stats ∧
    api_pods w1 = <[(pod_Namespace target, pod_Name target) := with_marks now target]> (api_pods w).

(** A removal that failed before its script: the pods are as before, or the drain
    marks of one pod were taken back, or the error says that they may have stayed. *)
Definition given_up (policy : ModelGroupPolicy) (role now : string) (e : ScaleError) (w w' : W) : Prop :=
  rtc plain_call w w' ∧
  (api_pods w' = api_pods w ∨
   ∃ target, removable policy role target ∧ api_pods w !! (pod_Namespace target, pod_Name target) = Some target ∧
     (api_pods w' = <[(pod_Namespace target, pod_Name target) := without_marks target]> (api_pods w) ∨
      api_pods w' = <[(pod_Namespace target, pod_Name target) := with_marks now target]> (api_pods w) ∧
      ((∃ id e1, e = EMark id e1) ∨ ∃ id e1 e2, e = EDrainStuck id e1 e2))).

Lemma removable_spec policy role pod :
  role ∈ ["prefill"; "decode"] → scale_down_candidate policy role pod = true ↔ removable policy role pod.
Proof.
  intros Hr. unfold scale_down_candidate, removable.
  rewrite !andb_true_iff, !negb_true_iff, role_pod_spec, alive_spec, ready_spec, <-draining_spec, not_true_iff_false by done.
  tauto.
Qed.

Lemma drained_shown id stats : drained id stats = true → shown_idle id stats.
Proof.
  unfold drained. intros Hd l1 st l2 -> Hid Hn.
  assert (List.find (λ s, String.eqb (ws_ID s) id) (l1 ++ st :: l2) = Some st) as E.
  { clear Hd. induction Hn as [|s l1 Hs _ IH]; cbn; [by rewrite Hid, String.eqb_refl|].
    by rewrite (proj2 (String.eqb_neq _ _) Hs). }
  rewrite E in Hd. by apply Z.eqb_eq.
Qed.

Lemma two_of_filter {A} (f : A → bool) l :
  (2 ≤ length (List.filter f l))%nat → ∃ l1 p l2 q l3, l = (l1 ++ p :: l2 ++ q :: l3)%list ∧ f p = true ∧ f q = true.
Proof.
  induction l as [|x l IH]; cbn; [lia|]. destruct (f x) eqn:Ex.
  - cbn. intros Hlen. destruct (List.filter f l) as [|y ys] eqn:E; [cbn in Hlen; lia|].
    assert (y ∈ List.filter f l) as Hy by (rewrite E; left).
    apply list_elem_of_In, List.filter_In in Hy as [Hy%list_elem_of_In Hfy].
    apply list_elem_of_split in Hy as (l2 & l3 & ->). by exists [], x, l2, y, l3.
  - intros (l1 & p & l2 & q & l3 & -> & ? & ?)%IH. by exists (x :: l1), p, l2, q, l3.
Qed.

(** The polls change no pod; when they end well, the last one shows the worker idle. *)
Lemma wait_calls id timeout polls w w' r :
  waitForWorkerInflightZero tc id timeout polls w = (w', r) →
  rtc plain_call w w' ∧ api_pods w' = api_pods w ∧ (r = None → ∃ w0 code stats,
    rtc plain_call w w0 ∧ GetWorkerStats w0 (proxy_url tc "/api/v1/control/worker-stats") = (w', Ok (code, Ok stats)) ∧
    200 ≤ code < 300 ∧ shown_idle id stats).
Proof.
  unfold waitForWorkerInflightZero. destruct (String.eqb _ ""); [by intros [= <- <-]|].
  destruct (timeout <=? 0); [by intros [= <- <-]|]. set (url := proxy_url tc _).
  assert (∀ w w1 r, fetchProxyWorkerStats tc w = (w1, r) → plain_call w w1 ∧ api_pods w1 = api_pods w ∧
    ∀ stats, r = Ok stats → ∃ code, GetWorkerStats w url = (w1, Ok (code, Ok stats)) ∧ 200 ≤ code < 300) as Hfetch.
  { intros w0 w1 r0 E. assert (w1 = (GetWorkerStats w0 url).1) as Ew.
    { rewrite <-(fetched_world (GetWorkerStats w0 url)). unfold fetchProxyWorkerStats in E. fold url in E. by rewrite E. }
    split; [rewrite Ew; constructor|]. split; [rewrite Ew; apply api_stats|]. intros stats ->.
    unfold fetchProxyWorkerStats, fetched in E. fold url in E.
    destruct (GetWorkerStats w0 url) as [w2 [[code [body|e]]|e]]; try (by repeat case_match).
    destruct (Z.ltb_spec code 200); [done|]. rewrite Z.geb_leb in E. destruct (Z.leb_spec 300 code); [done|].
    injection E as -> ->. exists code. split; [done|lia]. }
  revert w. induction polls as [|polls IH]; intros w; cbn;
    destruct (fetchProxyWorkerStats tc w) as [w1 [stats|e]] eqn:E;
    apply Hfetch in E as (Hc & Ha & Hok);
    try (intros [= <- <-]; by split; [apply rtc_once|]);
    destruct (drained id stats) eqn:Ed; try (intros [= <- <-]; split; [by apply rtc_once|]; split; [done|]).
  - intros _. destruct (Hok stats eq_refl) as (code & Hg & ?). exists w, code, stats.
    split_and!; try done; [lia..|by apply drained_shown].
  - done.
  - intros _. destruct (Hok stats eq_refl) as (code & Hg & ?). exists w, code, stats.
    split_and!; try done; [lia..|by apply drained_shown].
  - intros Hr. destruct (IH w1 Hr) as (Hcs & Has & Hidle). split; [by eapply rtc_l|]. split; [congruence|].
    intros Hn. destruct (Hidle Hn) as (w0 & code & st & ? & ?). exists w0, code, st. split; [by eapply rtc_l|done].
Qed.

(** What marking and clearing do to the stored pods. *)
Lemma mark_calls now p w w' r :
  api_pods w !! pkey p = Some p → markPodDraining tc (Some p) now w = (w', r) →
  rtc plain_call w w' ∧
  (api_pods w' = <[pkey p := with_marks now p]> (api_pods w) ∨ r ≠ None ∧ api_pods w' = api_pods w).
Proof.
  intros Hp. unfold markPodDraining. destruct (negb _); [intros [= <- <-]; by split; [|right]|].
  destruct (api_get w (pod_Namespace p) (pod_Name p)) as [Hg Hok].
  pose proof (plain_get w (pod_Namespace p) (pod_Name p)) as Hcall.
  destruct (GetPod w _ _) as [w1 [q|e]]; cbn [fst snd] in *; [|intros [= <- <-]; split; [by apply rtc_once|by right]].
  specialize (Hok q eq_refl). fold (pkey p) in Hok. assert (q = p) as -> by congruence.
  unfold update_pod. fold (with_marks now p). pose proof (api_update w1 (with_marks now p)) as Hu.
  pose proof (plain_update w1 (with_marks now p)) as Hcall2. cbv zeta in Hu.
  change (set_Annotations (mark_draining now (pod_Annotations p)) p) with (with_marks now p).
  destruct (UpdatePod w1 (with_marks now p)) as [w2 e]; cbn [fst snd] in *. intros [= <- <-].
  split; [by eapply rtc_l, rtc_once|]. rewrite Hg in Hu. destruct Hu as [Hu|[Hne Hu]]; [by left|right].
  split; [by destruct e|done].
Qed.

Lemma clear_calls now p w w' r :
  api_pods w !! pkey p = Some (with_marks now p) → clearPodDraining tc (Some p) w = (w', r) →
  rtc plain_call w w' ∧
  (api_pods w' = <[pkey p := without_marks p]> (api_pods w) ∨ r ≠ None ∧ api_pods w' = api_pods w).
Proof.
  intros Hp. unfold clearPodDraining. destruct (negb _); [intros [= <- <-]; by split; [|right]|].
  destruct (api_get w (pod_Namespace p) (pod_Name p)) as [Hg Hok].
  pose proof (plain_get w (pod_Namespace p) (pod_Name p)) as Hcall.
  destruct (GetPod w _ _) as [w1 [q|e]]; cbn [fst snd] in *; [|intros [= <- <-]; split; [by apply rtc_once|by right]].
  specialize (Hok q eq_refl). fold (pkey p) in Hok. assert (q = with_marks now p) as -> by congruence.
  unfold with_marks at 1. cbn [pod_Annotations set_Annotations]. rewrite decide_False by (by apply insert_non_empty).
  unfold update_pod. match goal with |- context [UpdatePod w1 ?q] => assert (q = without_marks p) as -> end.
  { trans (set_Annotations (unmark_draining (pod_Annotations (with_marks now p))) p); [done|].
    unfold without_marks, with_marks, unmark_draining. cbn [pod_Annotations set_Annotations].
    rewrite delete_insert_ne, delete_insert_eq by done. by rewrite delete_insert_eq. }
  pose proof (api_update w1 (without_marks p)) as Hu. cbv zeta in Hu.
  pose proof (plain_update w1 (without_marks p)) as Hcall2.
  destruct (UpdatePod w1 (without_marks p)) as [w2 e]; cbn [fst snd] in *. intros [= <- <-].
  split; [by eapply rtc_l, rtc_once|]. rewrite Hg in Hu. destruct Hu as [Hu|[Hne Hu]]; [by left|right].
  split; [by destruct e|done].
Qed.

(** Choosing the target is one listing. *)
Lemma select_calls policy role w w' r :
  role ∈ ["prefill"; "decode"] → selectScaleDownTargetPod tc policy role w = (w', r) →
  rtc plain_call w w' ∧ api_pods w' = api_pods w ∧
  ∀ target, r = Ok (Some target) → ∃ pods, ListPodsIn w (tc_Namespace tc) = (w', Ok pods) ∧ target ∈ pods ∧
    removable policy role target ∧ api_pods w !! pkey target = Some target ∧
    (∃ l1 p l2 q l3, pods = (l1 ++ p :: l2 ++ q :: l3)%list ∧ removable policy role p ∧ removable policy role q) ∧
    ∀ p, p ∈ pods → removable policy role p → pod_CreationTimestamp p ≤ pod_CreationTimestamp target.
Proof.
  intros Hrole Es. assert (w' = w ∨ w' = (ListPodsIn w (tc_Namespace tc)).1) as Hw'.
  { unfold selectScaleDownTargetPod, list_pods in Es. destruct (negb _); [injection Es as <- _; by left|].
    destruct (ListPodsIn w _) as [w1 [pods|e]]; [|injection Es as <- _; by right].
    case_match; injection Es as <- _; by right. }
  split; [destruct Hw' as [-> | ->]; [done|apply rtc_once; constructor]|].
  split; [destruct Hw' as [-> | ->]; [done|apply api_list]|]. intros target ->.
  destruct (select_spec tc _ _ _ _ _ Es) as (pods & El & Hlen & Hin & Hmax). exists pods. split; [done|].
  apply list_elem_of_In, List.filter_In in Hin as [Hin%list_elem_of_In Hcand].
  split_and!; [done|by apply removable_spec|by eapply api_listed|..].
  - apply two_of_filter in Hlen as (l1 & p & l2 & q & l3 & ? & ? & ?).
    exists l1, p, l2, q, l3. split_and!; [done|by apply removable_spec..].
  - intros p Hp Hr. assert (newer p target = false) as Hn.
    { apply Hmax, list_elem_of_In, List.filter_In. split; [by apply list_elem_of_In|by apply removable_spec]. }
    unfold newer in Hn. destruct (Z.eqb_spec (pod_CreationTimestamp p) (pod_CreationTimestamp target)); bool_hyps; lia.
Qed.

Lemma drain_calls policy role secs now polls w w' r :
  role ∈ ["prefill"; "decode"] → drain_target tc policy role secs now polls w = (w', r) →
  match r with
  | None => ∃ target, drained_for policy role now target w w'
  | Some e => given_up policy role now e w w'
  end.
Proof.
  intros Hrole. unfold drain_target, given_up.
  destruct (selectScaleDownTargetPod tc policy role w) as [w1 rs] eqn:Es.
  apply select_calls in Es as (Hc1 & Ha1 & Hsel); [|done].
  destruct rs as [[target|]|e]; [|intros [= <- <-]; by split; [|left]..].
  destruct (Hsel target eq_refl) as (pods & El & Hin & Hrem & Hst & Htwo & Hnew). clear Hsel.
  destruct (markPodDraining tc (Some target) now w1) as [w2 rm] eqn:Em.
  apply mark_calls in Em as [Hc2 Ha2]; [|by rewrite Ha1].
  assert (rtc plain_call w w2) as Hc12 by (by etrans). rewrite Ha1 in Ha2.
  destruct rm as [e|].
  { intros [= <- <-]. split; [done|]. destruct Ha2 as [Ha2|[_ Ha2]]; [|by left].
    right. exists target. split; [done|]. split; [done|]. right. split; [done|]. left. eauto. }
  destruct Ha2 as [Ha2|[]]; [|done].
  destruct (waitForWorkerInflightZero _ _ _ _ _) as [w3 rw] eqn:Ew.
  apply wait_calls in Ew as (Hc3 & Ha3 & Hidle). rewrite Ha2 in Ha3. destruct rw as [e|].
  - destruct (clearPodDraining tc (Some target) w3) as [w4 rc] eqn:Ec.
    apply (clear_calls now) in Ec as [Hc4 Ha4]; [|rewrite Ha3; apply lookup_insert_eq].
    rewrite Ha3, insert_insert_eq in Ha4. assert (rtc plain_call w w4) as Hc by (etrans; [exact Hc12|by etrans]).
    intros Hr. assert (w' = w4) as -> by (by destruct rc; injection Hr as <- _).
    destruct r as [e'|]; [|by destruct rc]. split; [done|]. right. exists target. do 2 (split; [done|]).
    destruct Ha4 as [Ha4|[Hne Ha4]]; [by left|right]. split; [done|]. right.
    destruct rc; [|done]. injection Hr as <-. eauto.
  - intros [= <- <-]. destruct (Hidle eq_refl) as (w0 & code & stats & Hc & Hg & Hcode & Hsi).
    exists target, w, w1, w0, pods, code, stats. split_and!; try done; [by etrans|lia..].
Qed.

(** C17: a removal drains safely, also against an API server that fails. While
    nobody else writes the pods, removing a prefill or decode worker either fails
    without running the script, or runs it. It runs it only after a listing showed
    two pods of the group and role that were ready, alive and not draining, the
    newest of them, and no other, was marked as draining, and the proxy's last
    answer showed no request on it. When it fails the pods are as before, or the
    marks of that pod were taken back; they stay only when the API server failed
    to mark or unmark the pod, and then the error says so. *)
Theorem handleRebalancerAction_drains policy d role script secs now polls w w' r :
  (rd_Action d, role, script) ∈ [(RemoveDecode, "decode", "scale-decode-down"); (RemovePrefill, "prefill", "scale-prefill-down")] →
  handleRebalancerAction tc secs now polls policy d w = (w', r) →
  (∃ e, r = Some e ∧ given_up policy role now e w w') ∨
  ∃ target w1 env res, drained_for policy role now target w w1 ∧
    RunScript w1 (trim_space (mp_ExecutionScript policy)) script env = (w', res) ∧
    (r = None ↔ ∃ output, res = ScriptOk output).
Proof.
  intros Hd. assert (role ∈ ["prefill"; "decode"] ∧ action_script (rd_Action d) = Some (script, Some role))
    as [Hrole Ha].
  { rewrite !elem_of_cons in Hd. destruct Hd as [[= -> -> ->]|[[= -> -> ->]|Hd%elem_of_nil]];
      [by split; [set_solver|]..|done]. }
  unfold handleRebalancerAction. rewrite Ha.
  destruct (String.eqb _ ""); [intros [= <- <-]; left; eexists; split; [done|]; by split; [|left]|].
  pose proof (api_stat w (trim_space (mp_ExecutionScript policy))) as Hs1.
  pose proof (plain_stat w (trim_space (mp_ExecutionScript policy))) as Hc1.
  destruct (StatScript w _) as [w1 [msg|]]; cbn [fst] in *.
  { intros [= <- <-]. left. eexists. split; [done|]. split; [by apply rtc_once|by left]. }
  destruct (drain_target tc policy role secs now polls w1) as [w2 rd] eqn:Edr.
  apply drain_calls in Edr; [|done]. destruct rd as [e|].
  - intros [= <- <-]. left. exists e. split; [done|]. unfold given_up in *. rewrite Hs1 in Edr.
    destruct Edr as [Hc Hor]. split; [by eapply rtc_l|done].
  - destruct Edr as (target & wa & wb & w0 & pods & code & stats & Hca & Hdr). unfold run_script.
    destruct (RunScript w2 _ _ _) as [w3 res] eqn:Er. intros Hr. right. exists target, w2. eexists _, res.
    split; [|split; [|by destruct res; injection Hr as <- <-; split; try done; intros []; eauto]].
    + exists wa, wb, w0, pods, code, stats. split; [by eapply rtc_l|]. by rewrite <-Hs1.
    + rewrite Er. by destruct res; injection Hr as <- _.
Qed.
End unreliable.

(** ** Examples *)

(** A plane with these pods, the statistics of each poll, and a script that
    succeeds or fails; it counts the runs. *)
Record FakePlane : Type := mkFakePlane {
  fp_pods : gmap (string * string) Pod;
  fp_stats : list (list WorkerStat);
  fp_works : bool;
  fp_runs : list string
}.

#[export] Instance plane_store : PodStore FakePlane := {|
  GetPod w ns name := (w, match fp_pods w !! (ns, name) with Some p => Ok p | None => Err "not found" end);
  UpdatePod w p := (mkFakePlane (<[(pod_Namespace p, pod_Name p) := p]> (fp_pods w)) (fp_stats w)
    (fp_works w) (fp_runs w), None)
|}.

(** The listing holds the pods stored under their own key. *)
Definition plane_list (w : FakePlane) : list Pod :=
  omap (λ kp, if decide (kp.1 = (pod_Namespace kp.2, pod_Name kp.2)) then Some kp.2 else None)
    (map_to_list (fp_pods w)).

#[export] Instance plane_control : ControlPlane FakePlane := {|
  ListPodsIn w ns := (w, Ok (plane_list w));
  StatScript w path := (w, None);
  RunScript w path action env :=
    (mkFakePlane (fp_pods w) (fp_stats w) (fp_works w) (fp_runs w ++ [action])%list,
     if fp_works w then ScriptOk "" else ScriptFailed "exit status 1" "");
  GetPressure w url := (w, Ok (200, Ok []));
  GetWorkerStats w url := (mkFakePlane (fp_pods w) (tail (fp_stats w)) (fp_works w) (fp_runs w),
    Ok (200, Ok (default [] (head (fp_stats w)))))
|}.

#[export] Instance plane_stored : StoredPods FakePlane.
Proof.
  refine {| stored := fp_pods |}.
  - intros w ns name. by exists w.
  - intros w pod. eexists. split; [done|]. done.
  - done.
  - done.
  - done.
  - intros w w' ns pods p [= <- <-] Hin. apply list_elem_of_omap in Hin as ([k q] & Hkq & Hq). cbn in Hq.
    case_decide as Ek; [|done]. injection Hq as ->. cbn in Ek. subst k. by apply elem_of_map_to_list in Hkq.
Defined.

#[export] Instance plane_api : ApiPods FakePlane.
Proof.
  refine {| api_pods := fp_pods |}.
  - intros w ns name. split; [done|]. cbn. intros p. by destruct (fp_pods w !! (ns, name)); intros [= <-].
  - intros w pod. by left.
  - done.
  - done.
  - done.
  - intros w w' ns pods p Hl Hin. exact (stored_listed w w' ns pods p Hl Hin).
Defined.

Definition decode_pod (name : string) (created : Z) : Pod :=
  mkPod name "default" ∅ {["gpu-scheduler/workflow" := "inference"; "gpu-scheduler/inference-role" := "decode";
      "gpu-scheduler/model-group" := "llama"]}
    created "gpu-scheduler" "node-a" None [] [] [] PodRunning [("Ready", "True")].

Definition sample_tick : TickConfig := mkTickConfig "default" 8888 8080 true.

Definition llama_policy : ModelGroupPolicy := mkPolicy "llama" 500 50 2 2 "/opt/rebalance.sh".

Definition two_decoders (stats : list (list WorkerStat)) (works : bool) : FakePlane :=
  mkFakePlane {[("default", "d0") := decode_pod "d0" 1; ("default", "d1") := decode_pod "d1" 2]} stats works [].

Definition busy (n : Z) : list WorkerStat := [mkWorkerStat "default/d1" n f64_zero f64_zero f64_zero].

Definition removal_of (action : RebalancerDecision) : RebalancerDecisionResult :=
  mkDecision action ReasonExtraDecodeNormal false.

Lemma selectScaleDownTargetPod_newest_witness :
  ∃ target pods, ListPodsIn (two_decoders [] true) "default" = (two_decoders [] true, Ok pods) ∧
    pod_Name target = "d1" ∧
    target ∈ List.filter (scale_down_candidate llama_policy Decode) pods.
Proof.
  assert (selectScaleDownTargetPod sample_tick llama_policy Decode (two_decoders [] true) =
    (two_decoders [] true, Ok (Some (decode_pod "d1" 2)))) as E by (by vm_compute).
  destruct (selectScaleDownTargetPod_newest sample_tick llama_policy Decode _ _ _ E) as (pods & El & _ & Hin & _).
  exists (decode_pod "d1" 2), pods. split; [exact El|]. split; [reflexivity|exact Hin].
Defined.

Lemma two_decoders_unmarked stats works :
  ∀ k p, stored (two_decoders stats works) !! k = Some p →
    scale_down_candidate llama_policy Decode p = true → never_marked p.
Proof.
  intros k p Hk _. cbn in Hk. apply lookup_insert_Some in Hk as [[_ <-]|[_ Hk]]; [by vm_compute|].
  apply lookup_singleton_Some in Hk as [_ <-]. by vm_compute.
Qed.

(** The proxy still reports a request on the second poll and the deadline
    passes: the pods are as before, and no script has run. *)
Lemma drain_times_out :
  handleRebalancerAction sample_tick 60 "now" 1 llama_policy (removal_of RemoveDecode)
    (two_decoders [busy 3; busy 1] true) =
  (two_decoders [] true, Some (EDrainFailed "default/d1" (ETimedOut "default/d1"))).
Proof. by vm_compute. Qed.

(** The second poll shows the worker idle, and the script runs. *)
Lemma drain_succeeds :
  handleRebalancerAction sample_tick 60 "now" 1 llama_policy (removal_of RemoveDecode)
    (two_decoders [busy 3; busy 0] true) =
  (mkFakePlane (<[("default", "d1") := marked "now" (decode_pod "d1" 2)]> (fp_pods (two_decoders [] true)))
    [] true ["scale-decode-down"], None).
Proof. by vm_compute. Qed.

Lemma handleRebalancerAction_drains_witness :
  ∃ target w1, drained_for sample_tick llama_policy "decode" "now" target (two_decoders [busy 3; busy 0] true) w1 ∧
    fp_runs w1 = [] ∧
    (handleRebalancerAction sample_tick 60 "now" 1 llama_policy (removal_of RemoveDecode)
      (two_decoders [busy 3; busy 0] true)).1 = (RunScript w1 "/opt/rebalance.sh" "scale-decode-down" []).1.
Proof.
  destruct (handleRebalancerAction_drains sample_tick llama_policy (removal_of RemoveDecode) "decode"
    "scale-decode-down" 60 "now" 1 _ _ _ (list_elem_of_here _ _) drain_succeeds)
    as [(e & He & _)|(target & w1 & env & res & Hd & Hrun & _)]; [discriminate He|].
  exists target, w1. split; [exact Hd|]. split.
  - apply (f_equal (fp_runs ∘ fst)) in Hrun. cbn in Hrun.
    destruct (fp_runs w1) as [|x [|y l]]; [reflexivity|discriminate Hrun..].
  - rewrite drain_succeeds. exact (eq_sym (f_equal fst Hrun)).
Defined.

(** A decode-hot group with one decode worker, sustained and past the cooldown. *)
Definition hot_rebalancer (dry : bool) : Rebalancer :=
  mkRebalancer true dry 5 10 60 true true 60 [llama_policy] {["llama" := mkState 0 1000 0 0]}.

Definition hot_report : PressureReport :=
  mkPressureReport "llama" 5 f64_zero f64_zero (f64_of_int 80) DecodeHot.

Definition llama_workers : list WorkerInfo :=
  [inference_worker "p0" Prefill Ready true; inference_worker "d0" Decode Ready true].

Definition hot_now : Time := 30000001000.

Definition plane_executor : Executor := handleRebalancerAction sample_tick 60 "now" 3.

(** The first listing shows a pod that is still starting, so that the decode worker
    is not added; without it the script runs. *)
Definition starting_pod : Pod :=
  mkPod "d1" "default" ∅ (pod_Annotations (decode_pod "d1" 2)) 2 "gpu-scheduler" "node-a" None
    [] [] [] PodRunning [].


(** A script that fails leaves the drained pod marked: it serves no request any
    more, and every later removal of that role is blocked. *)
Lemma failed_script_leaves_draining :
  match handleRebalancerAction sample_tick 60 "now" 1 llama_policy (removal_of RemoveDecode)
      (two_decoders [[]] false) with
  | (w', Some (EScriptFailed _ _)) =>
      hasDrainingInferencePod sample_tick llama_policy Decode w' = (w', Ok true) ∧
      (IsDrainingGPUPod ∘ Some) <$> stored w' !! ("default", "d1") = Some true
  | _ => False
  end.
Proof. by vm_compute. Qed.

(** An action that is blocked, here by a pod that is still starting, begins the
    cooldown all the same. *)
Lemma blocked_action_starts_cooldown :
  let starting := mkPod "d1" "default" ∅ (pod_Annotations (decode_pod "d1" 2)) 2 "gpu-scheduler" "node-a" None
      [] [] [] PodRunning [] in
  let '(rb', w', outcomes) := processRebalancingReports sample_tick (Some plane_executor) [hot_report]
      llama_workers hot_now (hot_rebalancer false) (mkFakePlane {[("default", "d1") := starting]} [] true []) in
  outcomes = [Blocked] ∧ fp_runs w' = [] ∧
  lastActionAt <$> rb_modelGroupStates rb' !! "llama" = Some hot_now.
Proof. by vm_compute. Qed.

(** The decision to split a unified worker is never carried out. *)
Lemma ScaleBoth_never_runs {W} `{PodStore W} `{ControlPlane W} tc execute policy d workers (w : W) :
  rd_Action d = ScaleBoth → rd_DryRun d = false → act tc execute policy d workers w = (w, Blocked).
Proof.
  intros Ha Hd. unfold act. rewrite decide_False by congruence. rewrite Hd.
  unfold checkDeduplication. by rewrite Ha.
Qed.
