(* ===== verification/Sync.v ===== *)
(** * The proxy's worker list and where it comes from

    Every five seconds the proxy asks the scheduler for its workers
    ([inferenceWorkerLoop] of internal/proxy/proxy.go); the scheduler answers
    from its pods ([workers_handler]).  This file models the decoding of that
    answer and the turn of the loop, and composes the two sides. *)

From Stdlib Require Import ZArith Lia Ascii String.
From stdpp Require Import base option list strings gmap.
From S2P Require Import Prelude GoFloat GoStrings Types K8s Config Helpers Registry Router Watcher Http Workers Pressure Proxy ProxyServer Scenario.
Open Scope string_scope.
Open Scope Z_scope.
Open Scope go_scope.

(** ** Decoding [[]*controlplane.WorkerInfo]

    A null leaves a field as it is, a value of another kind is an error, an
    unknown field is ignored, a later duplicate wins, and names are matched
    whatever the case of their letters. *)
Definition decode_string (old : string) (v : json) : result string string :=
  match v with
  | JStr s => Ok s
  | JNull => Ok old
  | _ => Err "json: cannot unmarshal into Go value of type string"
  end.

Definition decode_bool (old : bool) (v : json) : result string bool :=
  match v with
  | JBool b => Ok b
  | JNull => Ok old
  | _ => Err "json: cannot unmarshal into Go value of type bool"
  end.

Definition decode_field (w : WorkerInfo) (kv : string * json) : result string WorkerInfo :=
  let '(mkWorkerInfo id role state routable ready endpoint group) := w in
  let name := to_lower kv.1 in
  if String.eqb name "id" then
    x ← decode_string id kv.2; Ok (mkWorkerInfo x role state routable ready endpoint group)
  else if String.eqb name "role" then
    x ← decode_string role kv.2; Ok (mkWorkerInfo id x state routable ready endpoint group)
  else if String.eqb name "state" then
    x ← decode_string state kv.2; Ok (mkWorkerInfo id role x routable ready endpoint group)
  else if String.eqb name "routable" then
    x ← decode_bool routable kv.2; Ok (mkWorkerInfo id role state x ready endpoint group)
  else if String.eqb name "gpu2gpu_ready" then
    x ← decode_bool ready kv.2; Ok (mkWorkerInfo id role state routable x endpoint group)
  else if String.eqb name "endpoint" then
    x ← decode_string endpoint kv.2; Ok (mkWorkerInfo id role state routable ready x group)
  else if String.eqb name "model_group" then
    x ← decode_string group kv.2; Ok (mkWorkerInfo id role state routable ready endpoint x)
  else Ok w.

Definition zero_worker : WorkerInfo := mkWorkerInfo "" "" "" false false "" "".

Definition decode_fields (fields : list (string * json)) (w : WorkerInfo) : result string WorkerInfo :=
  foldl (λ acc kv, w ← acc; decode_field w kv) (Ok w) fields.

(** An element is a pointer, which a null leaves nil. *)
Definition decode_worker (v : json) : result string (option WorkerInfo) :=
  match v with
  | JNull => Ok None
  | JObj fields => w ← decode_fields fields zero_worker; Ok (Some w)
  | _ => Err "json: cannot unmarshal into Go value of type controlplane.WorkerInfo"
  end.

Definition decode_workers (v : json) : result string (list (option WorkerInfo)) :=
  match v with
  | JNull => Ok []
  | JArr l => mapM decode_worker l
  | _ => Err "json: cannot unmarshal into Go value of type []*controlplane.WorkerInfo"
  end.

(** One turn of [inferenceWorkerLoop]: the reply is an error of the request, or
    the status and the first JSON value of the body. *)
Definition worker_sync (reply : result string (Z * result string json)) (st : ProxyState) : ProxyState :=
  match reply with
  | Err _ => st
  | Ok (status, body) =>
      if negb (status =? StatusOK) then st
      else
        match body with
        | Err _ => st
        | Ok v =>
            match decode_workers v with
            | Err _ => st
            | Ok workers => set_workers workers st
            end
        end
  end.

(** What the client reads of a response: its status, and the first JSON value
    of its body; the text of [http.Error] is none. *)
Definition wire (resp : Response) : Z * result string json :=
  (default StatusOK (rs_status resp),
   match rs_body resp with
   | PJson v :: _ => Ok v
   | PRaw _ :: _ => Err "invalid character"
   | [] => Err "EOF"
   end).

(** [handleHealthz] of the proxy. *)
Definition handleHealthz (method : string) : Response :=
  if negb (String.eqb method "GET")
  then http_error "Method not allowed" StatusMethodNotAllowed no_response
  else write_json StatusOK (jfields [("status", "ok")]) no_response.

(** ** Encoding then decoding *)
Lemma decode_worker_json w : decode_worker (worker_json w) = Ok (Some w).
Proof. by destruct w. Qed.

Lemma decode_workers_json ws : decode_workers (workers_json ws) = Ok (Some <$> ws).
Proof.
  destruct ws as [|w ws]; [done|]. cbn [decode_workers workers_json]. apply mapM_ok.
  apply Forall2_fmap, Forall_Forall2_diag, Forall_true. intros. apply decode_worker_json.
Qed.

(** ** The scheduler's side *)
Section sync.
Context {W : Type} `{KubeAPI W} (wc : WatcherConfig).

(** What the proxy learns is what the scheduler collected.  After a turn of the
    loop answered by the worker endpoint, the proxy's list is exactly the list
    the scheduler collected from its pods, every field of every worker arriving
    unchanged and none of them nil; when the collection fails the proxy keeps the
    list it had, and nothing else of its state changes in either case. *)
Lemma worker_sync_exact (st : WState W) px :
  worker_sync (Ok (wire (workers_handler wc "GET" st).2)) px =
    match (collectInferenceWorkers wc st).2 with
    | Ok workers => set_workers (Some <$> workers) px
    | Err _ => px
    end.
Proof.
  unfold workers_handler. change (negb (String.eqb "GET" "GET")) with false. cbn iota.
  destruct (collectInferenceWorkers wc st) as [st1 [ws|e]]; cbn; [|done]. by rewrite decode_workers_json.
Qed.
End sync.
