(* ===== verification/Feedback.v ===== *)
(** * From the proxy back to the scheduler

    The scheduler's rebalancing tick asks the proxy for its pressure reports and a
    drain asks for its worker statistics; both travel as JSON.  Here are the two
    handlers of internal/proxy/server.go with their encoding, the decoding of
    cmd/scheduler/main.go, and that the scheduler reads what the proxy holds.
    The timestamp of a report is not modelled: nothing reads it. *)

From Stdlib Require Import ZArith Lia Ascii String SpecFloat.
From stdpp Require Import base option list strings gmap.
From S2P Require Import Prelude GoFloat GoStrings Types Http Pressure Proxy ProxyServer Scaling Sync.
Open Scope string_scope.
Open Scope Z_scope.
Open Scope go_scope.

(** ** Encoding

    The encoder refuses the values JSON does not have. *)
Definition float_json (f : float64) : option json :=
  match f with
  | S754_zero _ | S754_finite _ _ _ => Some (JFloat f)
  | S754_infinity _ | S754_nan => None
  end.

Definition stat_json (s : WorkerStat) : option json :=
  wait ← float_json (ws_QueueWaitP95 s); ttft ← float_json (ws_TTFTP95 s); itl ← float_json (ws_ITLP95 s);
  Some (JObj [("id", JStr (ws_ID s)); ("inflight", JInt (ws_Inflight s)); ("queue_wait_p95", wait);
    ("ttft_p95", ttft); ("itl_p95", itl)]).

Definition report_json (r : PressureReport) : option json :=
  wait ← float_json (pr_QueueWaitP95 r); ttft ← float_json (pr_TTFTP95 r); itl ← float_json (pr_ITLP95 r);
  Some (JObj [("model_group", JStr (pr_ModelGroup r)); ("inflight", JInt (pr_Inflight r));
    ("queue_wait_p95", wait); ("ttft_p95", ttft); ("itl_p95", itl); ("pressure_state", JStr (pr_PressureState r))]).

(** [writeJSON] of a value the encoder may refuse: the body then stays empty. *)
Definition write_encoded (status : Z) (v : option (list json)) (r : Response) : Response :=
  match v with
  | Some l => write_json status (JArr l) r
  | None => write_header status (set_header "Content-Type" "application/json" r)
  end.

Section handlers.
Context `{GoSort}.

Definition handleWorkerStats (method : string) (order : list string) (st : ProxyState) : Response :=
  if negb (String.eqb method "GET")
  then http_error "Method not allowed" StatusMethodNotAllowed no_response
  else write_encoded StatusOK (mapM stat_json (worker_stats order st)) no_response.

Definition handlePressure (method modelGroup : string) (order : list string) (st : ProxyState) : Response :=
  if negb (String.eqb method "GET")
  then http_error "Method not allowed" StatusMethodNotAllowed no_response
  else write_encoded StatusOK (mapM report_json (pressure_reports modelGroup order st)) no_response.
End handlers.

(** ** Decoding *)
Definition decode_float (old : float64) (v : json) : result string float64 :=
  match v with
  | JFloat f => Ok f
  | JInt z => Ok (f64_of_int z)
  | JNull => Ok old
  | _ => Err "json: cannot unmarshal into Go value of type float64"
  end.

(** A number is an integer when it is written as one and fits. *)
Definition decode_int (old : Z) (v : json) : result string Z :=
  let fit z := if (int_min <=? z) && (z <=? int_max) then Ok z
               else Err "json: cannot unmarshal number into Go value of type int" in
  match v with
  | JInt z => fit z
  | JFloat f =>
      if f64_eqb f (f64_of_int (f64_to_int f)) then Ok (f64_to_int f)
      else Err "json: cannot unmarshal number into Go value of type int"
  | JNull => Ok old
  | _ => Err "json: cannot unmarshal into Go value of type int"
  end.

Definition decode_stat_field (s : WorkerStat) (kv : string * json) : result string WorkerStat :=
  let '(mkWorkerStat id inflight wait ttft itl) := s in
  let name := to_lower kv.1 in
  if String.eqb name "id" then x ← decode_string id kv.2; Ok (mkWorkerStat x inflight wait ttft itl)
  else if String.eqb name "inflight" then x ← decode_int inflight kv.2; Ok (mkWorkerStat id x wait ttft itl)
  else if String.eqb name "queue_wait_p95" then x ← decode_float wait kv.2; Ok (mkWorkerStat id inflight x ttft itl)
  else if String.eqb name "ttft_p95" then x ← decode_float ttft kv.2; Ok (mkWorkerStat id inflight wait x itl)
  else if String.eqb name "itl_p95" then x ← decode_float itl kv.2; Ok (mkWorkerStat id inflight wait ttft x)
  else Ok s.

Definition decode_report_field (r : PressureReport) (kv : string * json) : result string PressureReport :=
  let '(mkPressureReport group inflight wait ttft itl state) := r in
  let name := to_lower kv.1 in
  if String.eqb name "model_group" then
    x ← decode_string group kv.2; Ok (mkPressureReport x inflight wait ttft itl state)
  else if String.eqb name "inflight" then
    x ← decode_int inflight kv.2; Ok (mkPressureReport group x wait ttft itl state)
  else if String.eqb name "queue_wait_p95" then
    x ← decode_float wait kv.2; Ok (mkPressureReport group inflight x ttft itl state)
  else if String.eqb name "ttft_p95" then
    x ← decode_float ttft kv.2; Ok (mkPressureReport group inflight wait x itl state)
  else if String.eqb name "itl_p95" then
    x ← decode_float itl kv.2; Ok (mkPressureReport group inflight wait ttft x state)
  else if String.eqb name "pressure_state" then
    x ← decode_string state kv.2; Ok (mkPressureReport group inflight wait ttft itl x)
  else Ok r.

(** A slice of structs: a null element leaves a zero struct. *)
Definition decode_struct {A} (field : A → string * json → result string A) (zero : A) (v : json) : result string A :=
  match v with
  | JNull => Ok zero
  | JObj fields => foldl (λ acc kv, a ← acc; field a kv) (Ok zero) fields
  | _ => Err "json: cannot unmarshal into Go value of struct type"
  end.

Definition decode_slice {A} (field : A → string * json → result string A) (zero : A) (v : json) :
    result string (list A) :=
  match v with
  | JNull => Ok []
  | JArr l => mapM (decode_struct field zero) l
  | _ => Err "json: cannot unmarshal into Go value of slice type"
  end.

Definition decode_stats : json → result string (list WorkerStat) :=
  decode_slice decode_stat_field (mkWorkerStat "" 0 f64_zero f64_zero f64_zero).

Definition decode_reports : json → result string (list PressureReport) :=
  decode_slice decode_report_field (mkPressureReport "" 0 f64_zero f64_zero f64_zero "").

(** The answer of an endpoint as [fetched] sees it. *)
Definition received {A} (decode : json → result string A) (resp : Response) : Z * result string A :=
  ((wire resp).1, v ← (wire resp).2; decode v).

(** ** Lemmas *)
Lemma decode_int_fit old z : in_int z → decode_int old (JInt z) = Ok z.
Proof. unfold in_int. intros [H1%Z.leb_le H2%Z.leb_le]. cbn. by rewrite H1, H2. Qed.

Lemma float_json_some f v : float_json f = Some v → v = JFloat f.
Proof. by destruct f; intros [= <-]. Qed.

Lemma float_json_none f : float_json f = None ↔ f = S754_nan ∨ ∃ s, f = S754_infinity s.
Proof. destruct f; cbn; naive_solver. Qed.

Lemma stat_inflight id old n w t i :
  in_int n → decode_stat_field (mkWorkerStat id old w t i) ("inflight", JInt n) = Ok (mkWorkerStat id n w t i).
Proof.
  intros Hn. change ((x ← decode_int old (JInt n); Ok (mkWorkerStat id x w t i)) = Ok (mkWorkerStat id n w t i)).
  by rewrite decode_int_fit.
Qed.

Lemma report_inflight g old n w t i s :
  in_int n →
  decode_report_field (mkPressureReport g old w t i s) ("inflight", JInt n) = Ok (mkPressureReport g n w t i s).
Proof.
  intros Hn. change ((x ← decode_int old (JInt n); Ok (mkPressureReport g x w t i s)) = Ok (mkPressureReport g n w t i s)).
  by rewrite decode_int_fit.
Qed.

Lemma stat_json_decode s v :
  in_int (ws_Inflight s) → stat_json s = Some v →
  decode_struct decode_stat_field (mkWorkerStat "" 0 f64_zero f64_zero f64_zero) v = Ok s.
Proof.
  destruct s as [id n w t i]. intros Hn (wv & ->%float_json_some & H)%bind_Some.
  apply bind_Some in H as (tv & ->%float_json_some & H). apply bind_Some in H as (iv & ->%float_json_some & [= <-]).
  change (foldl (λ acc kv, a ← acc; decode_stat_field a kv)
    (decode_stat_field (mkWorkerStat id 0 f64_zero f64_zero f64_zero) ("inflight", JInt n))
    [("queue_wait_p95", JFloat w); ("ttft_p95", JFloat t); ("itl_p95", JFloat i)] = Ok (mkWorkerStat id n w t i)).
  by rewrite stat_inflight.
Qed.

Lemma report_json_decode r v :
  in_int (pr_Inflight r) → report_json r = Some v →
  decode_struct decode_report_field (mkPressureReport "" 0 f64_zero f64_zero f64_zero "") v = Ok r.
Proof.
  destruct r as [g n w t i s]. intros Hn (wv & ->%float_json_some & H)%bind_Some.
  apply bind_Some in H as (tv & ->%float_json_some & H). apply bind_Some in H as (iv & ->%float_json_some & [= <-]).
  change (foldl (λ acc kv, a ← acc; decode_report_field a kv)
    (decode_report_field (mkPressureReport g 0 f64_zero f64_zero f64_zero "") ("inflight", JInt n))
    [("queue_wait_p95", JFloat w); ("ttft_p95", JFloat t); ("itl_p95", JFloat i); ("pressure_state", JStr s)]
    = Ok (mkPressureReport g n w t i s)).
  by rewrite report_inflight.
Qed.

(** Encoding a slice and decoding it, or an empty body. *)
Lemma received_slice {A} (field : A → string * json → result string A) zero (enc : A → option json) l :
  Forall (λ a, ∀ v, enc a = Some v → decode_struct field zero v = Ok a) l →
  received (decode_slice field zero) (write_encoded StatusOK (mapM enc l) no_response) =
    (StatusOK, if (mapM enc l : option (list json)) then Ok l else Err "EOF").
Proof.
  intros Hall. destruct (mapM enc l : option (list json)) as [vs|] eqn:E; [|done]. unfold received. cbn. f_equal.
  apply mapM_Some in E. apply mapM_ok. apply Forall2_flip.
  revert Hall. induction E; intros Hall; [constructor|]. apply Forall_cons in Hall as [Hx Hl].
  constructor; [by apply Hx|by apply IHE].
Qed.

(** What the scheduler can read of a value. *)
Definition stat_finite (s : WorkerStat) : bool := if stat_json s then true else false.

Definition report_finite (r : PressureReport) : bool := if report_json r then true else false.

Lemma mapM_all {A B} (f : A → option B) l :
  (if (mapM f l : option (list B)) then true else false) = forallb (λ a, if f a then true else false) l.
Proof.
  induction l as [|a l IH]; [done|]. cbn. destruct (f a); [|done]. cbn. rewrite <-IH. by destruct (mapM f l).
Qed.

Section feedback.
Context `{GoSort} {W : Type} (w : W) (order : list string) (st : ProxyState).

(** The scheduler reads what the proxy holds.  When the figures of every worker
    are numbers, the statistics that a drain decodes from the proxy's answer are
    the proxy's own, each field unchanged and ordered by worker; so are the
    reports that a rebalancing tick decodes; and a single figure that is not a
    number makes the whole fetch fail, so that nothing is acted on. *)
Theorem feedback_exact :
  map_Forall (λ _ s, in_int (ws_Inflight s)) (px_workerStats st) →
  map_Forall (λ _ r, in_int (pr_Inflight r)) (px_pressureReport st) →
  fetched (w, Ok (received decode_stats (handleWorkerStats "GET" order st))) =
    (w, if forallb stat_finite (worker_stats order st) then Ok (worker_stats order st) else Err (ERemote "EOF")) ∧
  ∀ group, fetched (w, Ok (received decode_reports (handlePressure "GET" group order st))) =
    (w, if forallb report_finite (pressure_reports group order st)
        then Ok (pressure_reports group order st) else Err (ERemote "EOF")).
Proof.
  intros Hs Hr. split.
  - unfold decode_stats. change (handleWorkerStats "GET" order st) with
      (write_encoded StatusOK (mapM stat_json (worker_stats order st)) no_response). rewrite received_slice.
    + unfold fetched. cbn [StatusOK]. change (forallb stat_finite ?l) with (forallb (λ a, if stat_json a then true else false) l).
      rewrite <-mapM_all. by destruct (mapM _ _).
    + apply Forall_forall. intros s (k & _ & Hk)%list_elem_of_omap v. apply stat_json_decode. by apply (Hs k).
  - intros group. unfold decode_reports. change (handlePressure "GET" group order st) with
      (write_encoded StatusOK (mapM report_json (pressure_reports group order st)) no_response). rewrite received_slice.
    + unfold fetched. cbn [StatusOK]. change (forallb report_finite ?l) with (forallb (λ a, if report_json a then true else false) l).
      rewrite <-mapM_all. by destruct (mapM _ _).
    + apply Forall_forall. intros r Hin v. apply report_json_decode. unfold pressure_reports in Hin.
      destruct (negb _); [|apply list_elem_of_omap in Hin as (k & _ & Hk); by apply (Hr k)].
      destruct (px_pressureReport st !! group) eqn:E; cbn in Hin; [|by apply elem_of_nil in Hin].
      apply list_elem_of_singleton in Hin as ->. by apply (Hr group).
Qed.
End feedback.

(** ** Examples *)
Definition busy_proxy : ProxyState :=
  set_stats (beginWorkerRequest "default/d0" (beginWorkerRequest "default/d0" ∅)) NewProxy.

Lemma busy_proxy_fits :
  map_Forall (λ _ s, in_int (ws_Inflight s)) (px_workerStats busy_proxy) ∧
  map_Forall (λ _ r, in_int (pr_Inflight r)) (px_pressureReport busy_proxy).
Proof. unfold in_int. split; apply (bool_decide_unpack _); vm_compute; exact I. Qed.

Lemma feedback_exact_witness :
  fetched (tt, Ok (received decode_stats (handleWorkerStats "GET" ["default/d0"] busy_proxy))) =
    (tt, Ok [mkWorkerStat "default/d0" 2 f64_zero f64_zero f64_zero]).
Proof.
  destruct busy_proxy_fits as [Hs Hr].
  exact (proj1 (feedback_exact tt ["default/d0"] busy_proxy Hs Hr)).
Defined.

(** One average that is not a number hides every worker. *)
Example nan_hides_all :
  received decode_stats (handleWorkerStats "GET" ["a"]
    (set_stats {["a" := mkWorkerStat "a" 1 f64_zero S754_nan f64_zero]} NewProxy)) = (200, Err "EOF").
Proof. vm_compute. reflexivity. Qed.
