(* ===== verification/Fleet.v ===== *)
(** * Scheduler and proxy together

    The scheduler answers for its pods, the proxy routes on the last answer it
    got, and a removal watches the proxy's counters from outside.  Here the
    proxy runs against the scheduler of this repository ([fleet_step]), and the
    drain of [Scaling] against a proxy that goes on serving ([LiveProxy]). *)

From Stdlib Require Import ZArith Lia Ascii String.
From stdpp Require Import base option list strings gmap relations.
From S2P Require Import Prelude GoFloat GoStrings Types K8s Config Helpers Registry Rebalancer Router Watcher Http Workers Scaling Pressure Proxy ProxyServer Scenario Sync.
Open Scope string_scope.
Open Scope Z_scope.
Open Scope go_scope.

Definition Pods : Type := gmap (string * string) Pod.

(** The pods the scheduler lists are stored under their names. *)
Definition listed_from (pods : Pods) {W} `{KubeAPI W} (st : WState W) : Prop :=
  ∀ w l p, ListPods (w_api st) = (w, Ok l) → p ∈ l → pods !! pkey p = Some p.

(** An answer of the scheduler's endpoint at these pods, whatever its registry. *)
Definition answered (pods : Pods) (reply : result string (Z * result string json)) : Prop :=
  ∃ (W : Type) (api : KubeAPI W) (wc : WatcherConfig) (st : WState W) workers,
    listed_from pods st ∧ (collectInferenceWorkers wc st).2 = Ok workers ∧
    reply = Ok (wire (workers_handler wc "GET" st).2).

Section fleet.
Context {N : Type} `{HTTPClient UpstreamRequest N}.
Context (pr : string → result string ChatCompletionRequest) (po : string → result string (gmap string json)).
Context (c : RebalancingConfig).

(** A step of the proxy; when its worker list changes, the scheduler answered. *)
Definition fleet_step (pods : Pods) (s s' : ProxyState * list Thread) : Prop :=
  proxy_step pr po c s s' ∧
  (px_inferenceWorkers s'.1 = px_inferenceWorkers s.1 ∨
   ∃ reply, answered pods reply ∧ s' = (worker_sync reply s.1, s.2)).

(** Runs while the pods change freely; the index is the pods of the last answer. *)
Inductive fleet_reachable : Pods → ProxyState * list Thread → Prop :=
  | fleet_init seen : fleet_reachable seen (NewProxy, [])
  | fleet_serve seen s s' :
      fleet_reachable seen s → proxy_step pr po c s s' →
      px_inferenceWorkers s'.1 = px_inferenceWorkers s.1 → fleet_reachable seen s'
  | fleet_answer seen pods st ths reply :
      fleet_reachable seen (st, ths) → answered pods reply →
      fleet_reachable pods (worker_sync reply st, ths).
End fleet.

(** [p] serves requests for the group: running, ready, not draining, with a role. *)
Definition serves (group : string) (p : Pod) : Prop :=
  pod_Phase p = PodRunning ∧ is_ready p = true ∧ IsDrainingGPUPod (Some p) = false ∧
  GetPodInferenceRole p ∈ [Prefill; Decode; Unified] ∧ GetPodModelGroup p = group ∧
  GetInferencePodEndpoint p ≠ "".

(** The state right after an answer. *)
Definition synced (pods : Pods) (s : ProxyState * list Thread) : Prop :=
  ∃ reply st, answered pods reply ∧ s.1 = worker_sync reply st.

(** A request the thread is about to begin, or is serving, on this worker. *)
Definition awaits (id : string) (th : Thread) : bool :=
  existsb (λ a, match a with Begin ids => existsb (String.eqb id) ids | _ => false end) (th_rest th).

Definition names (id : string) (th : Thread) : Prop :=
  id ∈ th_open th ∨ ∃ ids, Begin ids ∈ th_rest th ∧ id ∈ ids.

(** Every pod with this identifier is marked as draining. *)
Definition out_of_service (id : string) (pods : Pods) : Prop :=
  ∀ k p, pods !! k = Some p → pod_key (pod_Namespace p) (pod_Name p) = id →
    IsDrainingGPUPod (Some p) = true.

(** The proxy does not offer the worker; and no request is on it or about to be. *)
Definition withdrawn (id : string) (st : ProxyState) : Prop :=
  ∀ w, Some w ∈ px_inferenceWorkers st → wi_ID w = id → wi_Routable w = false.

Definition quiet (id : string) (s : ProxyState * list Thread) : Prop :=
  withdrawn id s.1 ∧ Forall (λ th, ¬ names id th) s.2.

Lemma awaits_spec id th : awaits id th = true ↔ ∃ ids, Begin ids ∈ th_rest th ∧ id ∈ ids.
Proof.
  unfold awaits. rewrite existsb_exists. split.
  - intros ([ids| |] & Ha%list_elem_of_In & He); try done.
    apply existsb_exists in He as (x & Hx%list_elem_of_In & <-%String.eqb_eq). by exists ids.
  - intros (ids & Ha%list_elem_of_In & Hid%list_elem_of_In). exists (Begin ids). split; [done|].
    apply existsb_exists. exists id. split; [done|apply String.eqb_refl].
Qed.

(** ** Lemmas: what a turn of the loop brings *)
Lemma collected_listed {W} `{KubeAPI W} wc (st : WState W) pods workers w :
  listed_from pods st → (collectInferenceWorkers wc st).2 = Ok workers → w ∈ workers →
  ∃ p r, pods !! pkey p = Some p ∧ running_pod wc p ∧ describes r p w.
Proof.
  intros Hl. unfold collectInferenceWorkers. destruct (GetRunningPod wc st) as [st1 [ps|e]] eqn:E; [|done].
  intros [= <-] (p & Hp & Hw)%list_elem_of_omap.
  destruct (GetRunningPod_spec _ _ _ _ E) as (_ & w' & listed & El & _ & Hps).
  apply Hps in Hp as [Hp Hrun]. exists p, (w_registry st1).
  split_and!; [by eapply Hl|done|by apply worker_of_describes].
Qed.

(** The list after an answer: workers of the pods, none nil. *)
Lemma answered_workers pods reply st :
  answered pods reply →
  ∃ workers, worker_sync reply st = set_workers (Some <$> workers) st ∧
    ∀ w, w ∈ workers → ∃ p r wc, pods !! pkey p = Some p ∧ running_pod wc p ∧ describes r p w.
Proof.
  intros (W & api & wc & wst & ws & Hl & Hc & ->). rewrite worker_sync_exact, Hc.
  exists ws. split; [done|]. intros w Hw.
  destruct (collected_listed wc wst pods ws w Hl Hc Hw) as (p & r & ?). by exists p, r, wc.
Qed.

(** A pod that is marked is never offered. *)
Lemma answered_withdrawn pods reply st id :
  answered pods reply → out_of_service id pods → withdrawn id (worker_sync reply st).
Proof.
  intros Ha Hout w. destruct (answered_workers _ _ st Ha) as (ws & -> & Hws).
  cbn. intros (w' & [= ->] & Hw)%list_elem_of_fmap Hid.
  destruct (Hws _ Hw) as (p & r & wc & Hp & _ & node & _ & Eid & _ & _ & _ & Hr & _).
  destruct (wi_Routable w') eqn:E; [|done]. destruct (proj1 Hr eq_refl) as [Hd _].
  rewrite (Hout _ _ Hp) in Hd; [done|congruence].
Qed.

(** ** Lemmas: where requests go *)
Lemma answered_offers pods reply st w :
  answered pods reply → Some w ∈ px_inferenceWorkers (worker_sync reply st) → wi_Routable w = true →
  wi_Endpoint w ≠ "" →
  ∃ p, pods !! pkey p = Some p ∧ wi_ID w = pod_key (pod_Namespace p) (pod_Name p) ∧
    serves (wi_ModelGroup w) p.
Proof.
  intros Ha Hw Hr He. destruct (answered_workers _ _ st Ha) as (ws & E & Hws). rewrite E in Hw.
  cbn in Hw. apply list_elem_of_fmap in Hw as (w' & [= ->] & Hw).
  destruct (Hws _ Hw) as (p & r & wc & Hp & (_ & Hph & _ & Hrd) & node & _ & Eid & Erole & Hrole & _ & Hroute & _ & Eend & Egrp).
  apply Hroute in Hr as (Hd & _). exists p. unfold serves. split_and!; try done; congruence.
Qed.

Section routes.
Context {N : Type} `{HTTPClient UpstreamRequest N}.

Lemma unified_begins auth w req worker (n : N) ids :
  Begin ids ∈ fw_actions (forwardUnifiedChatCompletions auth w req worker n) → ids = [wi_ID worker].
Proof.
  unfold forwardUnifiedChatCompletions. repeat case_match; cbn; rewrite ?elem_of_cons, ?elem_of_nil; naive_solver.
Qed.

Lemma disagg_begins auth w req raw p d (n : N) ids :
  Begin ids ∈ fw_actions (forwardDisaggChatCompletion auth w req raw p d n) → ids = [wi_ID p; wi_ID d].
Proof.
  unfold forwardDisaggChatCompletion.
  destruct (String.eqb _ _); [by intros ?%elem_of_nil|]. destruct (String.eqb _ _); [by intros ?%elem_of_nil|].
  destruct (doPrefillRequest _ _ _ _ _ n) as [n1 [[m rec1]|e]] eqn:Ep;
    [apply prefill_record in Ep|cbn; rewrite ?elem_of_cons, ?elem_of_nil; naive_solver].
  destruct (m !! "kv_transfer_params") as [[| | | | | |kv]|];
    try (cbn; rewrite ?elem_of_cons, ?elem_of_nil; intros [|[<-|[]]]; naive_solver).
  destruct (doDecodeRequest _ _ _ _ _ _ _ _ n1) as [[n2 w'] [rec2|e]] eqn:Ed;
    [apply decode_record in Ed|]; cbn; rewrite ?elem_of_cons, ?elem_of_nil;
    intros [?|[<-|?]]; try done; [naive_solver|naive_solver| |]; destruct_or?; subst; naive_solver.
Qed.

(** The workers a handled request begins on are usable for its model. *)
Lemma handle_begins pr po method auth body w st (n : N) st' f ids wid :
  handleChatCompletions pr po method auth body w st n = Done (st', f) →
  Begin ids ∈ fw_actions f → wid ∈ ids →
  ∃ req raw v role, read_chat pr po body = Ok (req, raw) ∧ Some v ∈ px_inferenceWorkers st ∧
    wi_ID v = wid ∧ usable (ccr_Model req) role v.
Proof.
  unfold handleChatCompletions. destruct (negb _); [intros [= <- <-]; by intros ?%elem_of_nil|].
  destruct (read_chat _ _ _) as [[req raw]|e]; [|intros [= <- <-]; by intros ?%elem_of_nil].
  intros (routed & Hf & Hfw)%outcome_bind_done.
  destruct routed as [rw|e]; injection Hfw as <- <-; [|by intros ?%elem_of_nil].
  unfold find_request_worker in Hf. cbn [px_inferenceWorkers next_seq] in Hf.
  destruct (mapM id (px_inferenceWorkers st)) as [ws|] eqn:Em; [|done]. injection Hf as Hf.
  apply mapM_Some in Em. intros Hb Hid.
  assert (∃ v role, chosen rw role v ∧ wi_ID v = wid) as (v & role & Hc & Ev).
  { destruct (route_ok _ _ _ _ _ Hf) as [[u ->]|(p & d & ->)];
      unfold forward_routed, finish_forward in Hb; cbn [rw_UnifiedWorker rw_DecodeWorker rw_PrefillWorker] in Hb.
    - assert (ids = [wi_ID u]) as -> by (eapply unified_begins; by destruct (fw_error _) in Hb).
      apply list_elem_of_singleton in Hid. exists u, Unified. split; [by left|done].
    - assert (ids = [wi_ID p; wi_ID d]) as -> by (eapply disagg_begins; by destruct (fw_error _) in Hb).
      apply elem_of_cons in Hid as [->|Hid%list_elem_of_singleton];
        [exists p, Prefill|exists d, Decode]; (split; [|done]); [right; left|right; right]; done. }
  destruct (FindRequestWorker_usable _ _ _ _ _ _ _ Hf Hc) as [Hin Hu].
  exists req, raw, v, role. split_and!; try done.
  apply list_elem_of_lookup in Hin as [i Hi].
  destruct (Forall2_lookup_r _ _ _ _ _ Em Hi) as (o & Ho & Eo). cbn in Eo. subst o.
  by eapply list_elem_of_lookup_2.
Qed.
End routes.

(** The list never holds a nil worker, and what it offers was listed. *)
Section runs.
Context {N : Type} `{HTTPClient UpstreamRequest N}.
Context (pr : string → result string ChatCompletionRequest) (po : string → result string (gmap string json)).
Context (c : RebalancingConfig).

Definition list_inv (seen : Pods) (st : ProxyState) : Prop :=
  None ∉ px_inferenceWorkers st ∧
  ∀ w, Some w ∈ px_inferenceWorkers st → wi_Routable w = true → wi_Endpoint w ≠ "" →
    ∃ p, seen !! pkey p = Some p ∧ wi_ID w = pod_key (pod_Namespace p) (pod_Name p) ∧
      serves (wi_ModelGroup w) p.

Lemma fleet_reachable_inv seen s : fleet_reachable pr po c seen s → list_inv seen s.1.
Proof.
  induction 1 as [seen|seen s s' _ IH _ E|seen pods st ths reply _ _ Ha]; unfold list_inv in *.
  - split; [by intros ?%elem_of_nil|]. by intros w ?%elem_of_nil.
  - by rewrite E.
  - split.
    + destruct (answered_workers _ _ st Ha) as (ws & E & _). cbn. rewrite E. cbn.
      by intros (w & ? & _)%list_elem_of_fmap.
    + intros w Hw Hr He. by apply (answered_offers pods reply st).
Qed.

Lemma mapM_id_some {A} (l : list (option A)) : None ∉ l → ∃ k, mapM id l = Some k.
Proof.
  induction l as [|[x|] l IH]; intros Hn; [by exists []| |].
  - rewrite not_elem_of_cons in Hn. destruct IH as [k Hk]; [tauto|]. exists (x :: k). cbn. by rewrite Hk.
  - exfalso. apply Hn. left.
Qed.

(** C25: requests go where the scheduler says.  A proxy that learns its workers from
    the scheduler never panics on a request, and every worker that a request is
    sent to is a pod the scheduler listed in its last answer: running, ready, not
    draining, with an endpoint and one of the three roles, and of the model group
    the request asks for. *)
Theorem fleet_routes seen st ths method auth body w (n : N) :
  fleet_reachable pr po c seen (st, ths) →
  ∃ st' f, handleChatCompletions pr po method auth body w st n = Done (st', f) ∧
    ∀ ids wid, Begin ids ∈ fw_actions f → wid ∈ ids →
      ∃ req raw p, read_chat pr po body = Ok (req, raw) ∧ seen !! pkey p = Some p ∧
        wid = pod_key (pod_Namespace p) (pod_Name p) ∧ serves (ccr_Model req) p.
Proof.
  intros [Hnone Hoff]%fleet_reachable_inv. cbn in Hnone, Hoff.
  assert (∃ st' f, handleChatCompletions pr po method auth body w st n = Done (st', f)) as (st' & f & Hh).
  { unfold handleChatCompletions. destruct (negb _); [eauto|].
    destruct (read_chat _ _ _) as [[req raw]|e]; [|eauto].
    unfold find_request_worker. cbn [px_inferenceWorkers next_seq].
    destruct (mapM_id_some _ Hnone) as [k ->]. cbn. destruct (FindRequestWorker _ _ _ _); eauto. }
  exists st', f. split; [done|]. intros ids wid Hb Hid.
  destruct (handle_begins _ _ _ _ _ _ _ _ _ _ _ _ Hh Hb Hid)
    as (req & raw & v & role & Hreq & Hin & <- & Hgrp & _ & _ & Hr & He & _).
  destruct (Hoff v Hin Hr He) as (p & Hp & Eid & Hs). exists req, raw, p.
  split_and!; try done. by rewrite <-Hgrp.
Qed.
End runs.

(** ** Lemmas: a worker that is out of service stays quiet *)
Lemma names_advance id th a rest :
  th_rest th = a :: rest → names id (advance a rest th) → names id th.
Proof.
  intros Er [Ho|(ids & Hb & Hid)].
  - destruct a as [ids|i p d|ids]; cbn in Ho.
    + apply elem_of_app in Ho as [Ho|Ho]; [by left|]. right. exists ids. rewrite Er. by split; [left|].
    + by left.
    + left. by apply list_elem_of_difference in Ho as [Ho _].
  - right. exists ids. rewrite Er. split; [by right|done].
Qed.

Section drained.
Context {N : Type} `{HTTPClient UpstreamRequest N}.
Context (pr : string → result string ChatCompletionRequest) (po : string → result string (gmap string json)).
Context (c : RebalancingConfig).

Lemma handle_workers method auth body w st (n : N) st' f :
  handleChatCompletions pr po method auth body w st n = Done (st', f) →
  px_inferenceWorkers st' = px_inferenceWorkers st.
Proof.
  unfold handleChatCompletions. destruct (negb _); [by intros [= <- _]|].
  destruct (read_chat _ _ _) as [[req raw]|e]; [|by intros [= <- _]].
  intros (routed & _ & Hf)%outcome_bind_done. destruct routed; by injection Hf as <- _.
Qed.

Lemma fleet_step_quiet id pods s s' :
  out_of_service id pods → fleet_step pr po c pods s s' → quiet id s → quiet id s'.
Proof.
  intros Hout [Hs Hw] [Hwd Hq]. split.
  - destruct Hw as [E|(reply & Ha & ->)]; [unfold withdrawn; by rewrite E|by eapply answered_withdrawn].
  - destruct Hs as [st ths method auth body w n st' f Hf|st ths i th a rest Hi Hr|st ths ws|st ths now order ts rs _ _];
      cbn in *; try done.
    + apply Forall_app. split; [done|]. apply Forall_singleton. intros [Ho%elem_of_nil|(ids & Hb & Hid)]; [done|].
      destruct (handle_begins _ _ _ _ _ _ _ _ _ _ _ _ Hf Hb Hid)
        as (req & raw & v & role & _ & Hin & Ev & _ & _ & _ & Hr & _).
      by rewrite (Hwd v Hin Ev) in Hr.
    + apply Forall_insert; [done|]. intros Hn. apply (Forall_lookup_1 _ _ _ _ Hq Hi). by eapply names_advance.
Qed.

Lemma fleet_steps_quiet id pods s s' :
  out_of_service id pods → rtc (fleet_step pr po c pods) s s' → quiet id s → quiet id s'.
Proof. intros Hout. induction 1; [done|]. intros. by eauto using fleet_step_quiet. Qed.

Lemma fleet_steps_withdrawn id pods s s' :
  out_of_service id pods → rtc (fleet_step pr po c pods) s s' → withdrawn id s.1 → withdrawn id s'.1.
Proof.
  intros Hout. induction 1 as [|x y z [_ Hw] _ IH]; [done|]. intros Hwd. apply IH.
  destruct Hw as [E|(reply & Ha & ->)]; [unfold withdrawn; by rewrite E|by eapply answered_withdrawn].
Qed.

(** The invariants of the counters, kept by every step. *)
Definition counters_ok (s : ProxyState * list Thread) : Prop :=
  proxy_inv s ∧ map_Forall (λ k st, ws_ID st = k) (px_workerStats s.1).

Lemma begin_keyed k stats :
  map_Forall (λ k st, ws_ID st = k) stats → map_Forall (λ k st, ws_ID st = k) (beginWorkerRequest k stats).
Proof.
  intros Hk. unfold beginWorkerRequest. destruct (stats !! k) eqn:E; apply map_Forall_insert_2; try done.
  cbn. by apply Hk in E.
Qed.

Lemma end_keyed k stats :
  map_Forall (λ k st, ws_ID st = k) stats → map_Forall (λ k st, ws_ID st = k) (endWorkerRequest k stats).
Proof.
  intros Hk. unfold endWorkerRequest. destruct (stats !! k) as [s|] eqn:E; [|done].
  destruct (_ <=? 0); [done|]. apply map_Forall_insert_2; [|done]. cbn. by apply Hk in E.
Qed.

Lemma record_keyed k phase d stats :
  map_Forall (λ k st, ws_ID st = k) stats → map_Forall (λ k st, ws_ID st = k) (recordWorkerPhase k phase d stats).
Proof.
  intros Hk. unfold recordWorkerPhase. apply map_Forall_insert_2; [|done].
  assert (ws_ID (default (mkWorkerStat k 0 f64_zero f64_zero f64_zero) (stats !! k)) = k) as E.
  { destruct (stats !! k) eqn:E; [by apply Hk in E|done]. }
  by destruct (String.eqb phase "prefill"), (String.eqb phase "decode").
Qed.

Lemma run_action_keyed a stats :
  map_Forall (λ k st, ws_ID st = k) stats → map_Forall (λ k st, ws_ID st = k) (run_action a stats).
Proof.
  destruct a as [ids|i p d|ids]; cbn; [| by apply record_keyed |];
    revert stats; induction ids as [|k ids IH]; intros stats Hk; cbn; [done| |done|];
    apply IH; first [by apply begin_keyed|by apply end_keyed].
Qed.

Lemma proxy_step_counters s s' : proxy_step pr po c s s' → counters_ok s → counters_ok s'.
Proof.
  intros Hs [Hi Hk]. split; [by eapply proxy_step_inv|].
  destruct Hs as [st ths method auth body w n st' f Hf|st ths i th a rest Hi' Hr|st ths ws|st ths now order ts rs _ _];
    cbn in *; try done.
  - by apply handle_balanced in Hf as [_ ->].
  - by apply run_action_keyed.
Qed.

Lemma fleet_steps_counters pods s s' :
  rtc (fleet_step pr po c pods) s s' → counters_ok s → counters_ok s'.
Proof. induction 1 as [|x y z [Hs _] _ IH]; [done|]. intros. by eauto using proxy_step_counters. Qed.

Lemma fleet_reachable_counters seen s : fleet_reachable pr po c seen s → counters_ok s.
Proof.
  induction 1 as [seen|seen s s' _ IH Hs _|seen pods st ths reply _ IH Ha].
  - split; [|done]. by split; [constructor|].
  - by eapply proxy_step_counters.
  - destruct (answered_workers _ _ st Ha) as (ws & -> & _). done.
Qed.
End drained.

(** What the statistics say of a worker is its counter. *)
Lemma drained_idle `{GoSort} id st order :
  map_Forall (λ k s, ws_ID s = k) (px_workerStats st) → range_order (px_workerStats st) order →
  drained id (worker_stats order st) = true → inflight (px_workerStats st) id = 0.
Proof.
  intros Hk Ho. unfold inflight. destruct (px_workerStats st !! id) as [s|] eqn:E; [|done].
  assert (s ∈ worker_stats order st) as Hin.
  { apply list_elem_of_omap. exists id. split; [|done]. unfold sort_strings. rewrite sort_slice_perm.
    apply list_elem_of_fmap. exists (id, s). split; [done|]. by apply range_elem. }
  unfold drained. destruct (List.find _ _) as [s'|] eqn:Ef.
  - apply find_some in Ef as [Hin' Eid%String.eqb_eq]. apply list_elem_of_In, list_elem_of_omap in Hin' as (k & _ & Hs').
    pose proof (Hk _ _ Hs') as Ek. cbn in Ek. rewrite Ek in Eid. subst k.
    rewrite E in Hs'. injection Hs' as <-. by intros ?%Z.eqb_eq.
  - exfalso. apply list_elem_of_In in Hin. apply (find_none _ _ Ef) in Hin.
    pose proof (Hk _ _ E) as Ek. cbn in Ek. rewrite Ek in Hin. by rewrite String.eqb_refl in Hin.
Qed.

Lemma outstanding_zero ths id : outstanding ths id = 0 → Forall (λ th, id ∉ th_open th) ths.
Proof.
  intros Hz. apply Forall_forall. intros th Hth Hin. apply list_elem_of_lookup in Hth as [i Hi].
  pose proof (outstanding_elem ths i th id Hi) as Hle. unfold occurrences in Hle.
  assert (id ∈ List.filter (String.eqb id) (th_open th)) as Hf.
  { apply list_elem_of_In, filter_In. split; [by apply list_elem_of_In|apply String.eqb_refl]. }
  destruct (List.filter (String.eqb id) (th_open th)); [by apply elem_of_nil in Hf|]. cbn [length] in Hle. lia.
Qed.

(** ** A drain while the proxy serves *)

(** The identifiers of the stored pods are distinct. *)
Definition distinct_ids (pods : Pods) : Prop :=
  ∀ k k' p p', pods !! k = Some p → pods !! k' = Some p' →
    pod_key (pod_Namespace p) (pod_Name p) = pod_key (pod_Namespace p') (pod_Name p') → k = k'.

(** Namespaces hold no slash. *)
Lemma slash_free_distinct pods :
  map_Forall (λ k p, k = pkey p ∧ str_mem "/"%char (pod_Namespace p) = false) pods → distinct_ids pods.
Proof.
  intros Hall k k' p p' Hp Hp' E. destruct (Hall _ _ Hp) as [-> H1]. destruct (Hall _ _ Hp') as [-> H2].
  unfold pkey. by apply pod_key_inj in E as [-> ->].
Qed.

Lemma marked_draining now p : IsDrainingGPUPod (Some (marked now p)) = true.
Proof.
  unfold IsDrainingGPUPod, annotation, marked, mark_draining. cbn [pod_Annotations set_Annotations].
  rewrite lookup_insert_ne by done. by rewrite lookup_insert_eq.
Qed.

Lemma marked_out_of_service pods now target :
  distinct_ids pods → pods !! pkey target = Some target →
  out_of_service (pod_key (pod_Namespace target) (pod_Name target)) (<[pkey target := marked now target]> pods).
Proof.
  intros Hd Ht k p [[<- <-]|[Hne Hp]]%lookup_insert_Some Hid; [by rewrite marked_draining|].
  destruct Hne. by eapply Hd.
Qed.

Section live.
Context {N : Type} `{HTTPClient UpstreamRequest N}.
Context (pr : string → result string ChatCompletionRequest) (po : string → result string (gmap string json)).
Context (c : RebalancingConfig) `{GoSort}.

(** A proxy that serves, and learns its workers, while the scheduler makes its
    calls; it answers for its statistics as they are at that moment. *)
Class LiveProxy (W : Type) `{PodStore W} `{ControlPlane W} : Type := {
  live : W → ProxyState * list Thread;
  evolves (w w' : W) : Prop := rtc (λ s s', ∃ pods, fleet_step pr po c pods s s') (live w) (live w');
  live_get w ns name : evolves w (GetPod w ns name).1;
  live_update w pod : evolves w (UpdatePod w pod).1;
  live_list w ns : evolves w (ListPodsIn w ns).1;
  live_stat w path : evolves w (StatScript w path).1;
  live_stats w url : evolves w (GetWorkerStats w url).1;
  live_answer w url w' code stats :
    GetWorkerStats w url = (w', Ok (code, Ok stats)) → 200 ≤ code < 300 →
    ∃ order, range_order (px_workerStats (live w').1) order ∧ stats = worker_stats order (live w').1
}.

Context {W : Type} `{PodStore W} `{ControlPlane W} `{!StoredPods W} `{!LiveProxy W} (tc : TickConfig).
Implicit Types w : W.

Lemma evolves_refl w : evolves w w.
Proof. apply rtc_refl. Qed.

Lemma evolves_trans w1 w2 w3 : evolves w1 w2 → evolves w2 w3 → evolves w1 w3.
Proof. unfold evolves. intros. by etrans. Qed.

Lemma fetch_evolves w w' r : fetchProxyWorkerStats tc w = (w', r) → evolves w w'.
Proof.
  intros E. unfold fetchProxyWorkerStats in E.
  assert (w' = (GetWorkerStats w (proxy_url tc "/api/v1/control/worker-stats")).1) as ->
    by (by rewrite <-fetched_world, E). apply live_stats.
Qed.

Lemma drain_polls_evolves workerID polls w w' r : drain_polls tc workerID polls w = (w', r) → evolves w w'.
Proof.
  revert w. induction polls as [|polls IH]; intros w; cbn;
    destruct (fetchProxyWorkerStats tc w) as [w1 [stats|e]] eqn:E; apply fetch_evolves in E;
    try (by intros [= <- <-]); case_match; try (by intros [= <- <-]).
  intros Hr. eapply evolves_trans; eauto.
Qed.

Lemma update_evolves w p w' r : update_pod w p = (w', r) → evolves w w'.
Proof.
  unfold update_pod. destruct (UpdatePod w p) as [w1 e] eqn:E. intros [= <- _].
  assert (w1 = (UpdatePod w p).1) as -> by (by rewrite E). apply live_update.
Qed.

Lemma mark_evolves p now w w' r : markPodDraining tc (Some p) now w = (w', r) → evolves w w'.
Proof.
  unfold markPodDraining. destruct (negb _); [intros [= <- _]; apply evolves_refl|].
  pose proof (live_get w (pod_Namespace p) (pod_Name p)) as Hg.
  destruct (GetPod w _ _) as [w1 [q|e]]; cbn in Hg; [|by intros [= <- _]].
  intros Hu%update_evolves. by eapply evolves_trans.
Qed.

Lemma list_evolves w w' r : list_pods tc w = (w', r) → evolves w w'.
Proof.
  unfold list_pods. destruct (negb _); [intros [= <- _]; apply evolves_refl|].
  pose proof (live_list w (tc_Namespace tc)) as Hl.
  destruct (ListPodsIn w _) as [w1 [q|e]]; cbn in Hl; by intros [= <- _].
Qed.

(** A drain that succeeds: the pods stand marked while the proxy goes on. *)
Lemma drain_evolves policy role secs now polls w w' :
  drain_target tc policy role secs now polls w = (w', None) → evolves w w'.
Proof.
  unfold drain_target, selectScaleDownTargetPod. destruct (list_pods tc w) as [w1 [pods|e]] eqn:El; [|done].
  apply list_evolves in El. destruct (length _ <=? 1)%nat; [done|]. destruct (head _) as [target|]; [|done].
  destruct (markPodDraining tc (Some target) now w1) as [w2 [e|]] eqn:Em; [done|]. apply mark_evolves in Em.
  unfold waitForWorkerInflightZero. destruct (String.eqb _ ""); [by repeat case_match|].
  destruct (seconds secs <=? 0); [by repeat case_match|].
  destruct (drain_polls _ _ _ _) as [w3 [e|]] eqn:Ed; [by repeat case_match|]. apply drain_polls_evolves in Ed.
  intros [= <-]. eauto using evolves_trans.
Qed.

Lemma fetched_stats w w' stats :
  fetchProxyWorkerStats tc w = (w', Ok stats) →
  ∃ order, range_order (px_workerStats (live w').1) order ∧ stats = worker_stats order (live w').1.
Proof.
  unfold fetchProxyWorkerStats, fetched.
  destruct (GetWorkerStats w _) as [w1 [[code [body|e]]|e]] eqn:E; try (by repeat case_match).
  destruct (Z.ltb_spec code 200); [done|]. destruct (Z.geb_spec code 300); [done|].
  intros [= <- <-]. by eapply live_answer.
Qed.

Lemma evolves_counters w w' : evolves w w' → counters_ok (live w) → counters_ok (live w').
Proof.
  unfold evolves. induction 1 as [|x y z (pods & Hs & _) _ IH]; [done|]. intros. apply IH.
  by eapply proxy_step_counters.
Qed.

(** C18: a removal waits for its worker.  When the script of a removal runs, a pod of
    the group has been marked and the proxy has reported it idle; and if by then
    the proxy has had an answer of the scheduler since the mark, and no request
    already routed to the pod was still about to begin, then for as long as the
    mark stays the proxy offers the pod to no request, and no request is being
    served on it or will be: the script removes a worker nobody uses. *)
Theorem removal_waits policy d script role secs now polls w w' r :
  action_script (rd_Action d) = Some (script, Some role) →
  (∀ k p, stored w !! k = Some p → scale_down_candidate policy role p = true → never_marked p) →
  distinct_ids (stored w) → counters_ok (live w) →
  handleRebalancerAction tc secs now polls policy d w = (w', r) →
  (r ≠ None ∧ stored w' = stored w) ∨
  ∃ target w1, scale_down_candidate policy role target = true ∧ stored w !! pkey target = Some target ∧
    stored w1 = <[pkey target := marked now target]> (stored w) ∧
    run_script tc policy (trim_space (mp_ExecutionScript policy)) script w1 = (w', r) ∧
    let id := pod_key (pod_Namespace target) (pod_Name target) in
    2 * Z.of_nat (length (live w1).2) ≤ int_max →
    (∃ s0, synced (stored w1) s0 ∧ rtc (fleet_step pr po c (stored w1)) s0 (live w1)) →
    Forall (λ th, awaits id th = false) (live w1).2 →
    ∀ s, rtc (fleet_step pr po c (stored w1)) (live w1) s → quiet id s.
Proof.
  intros Ha Hnever Hd Hk Hh.
  destruct (removal_spec _ _ _ _ _ _ _ _ _ _ _ Ha Hnever Hh)
    as [?|(target & pods & w0 & w1 & E0 & Edr & _ & _ & _ & Hc & Hst & (w2 & stats & Hf & Hidle) & Hs1 & Hrun)];
    [by left|right].
  exists target, w1. do 4 (split; [done|]). intros id Hmax (s0 & (reply & st & Hans & E) & Hsteps) Hwait.
  assert (out_of_service id (stored w1)) as Hout by (rewrite Hs1; by apply marked_out_of_service).
  assert (counters_ok (live w1)) as [[Hok Hinv] Hkeys].
  { apply drain_evolves in Edr. subst w0. pose proof (live_stat w (trim_space (mp_ExecutionScript policy))) as He.
    eapply evolves_counters; [|exact Hk]. by eapply evolves_trans. }
  apply fetched_stats in Hf as (order & Hord & ->). apply drained_idle in Hidle; [|done..].
  rewrite Hinv in Hidle by done. apply outstanding_zero in Hidle.
  intros s Hs. eapply fleet_steps_quiet; [exact Hout|exact Hs|]. split.
  - eapply fleet_steps_withdrawn; [exact Hout|exact Hsteps|]. rewrite E. by eapply answered_withdrawn.
  - apply Forall_forall. intros th Hth [Ho|(ids & Hb & Hid)].
    + by apply (proj1 (Forall_forall _ _) Hidle th Hth).
    + pose proof (proj1 (Forall_forall _ _) Hwait th Hth) as Hf. cbn in Hf.
      assert (awaits id th = true) as Ht by (apply awaits_spec; eauto). congruence.
Qed.
End live.

(** ** A world to run it in

    The scheduler's API server and a proxy in one state; before the proxy answers
    for its statistics it makes the next moves of a script. *)
Inductive move : Type :=
  | MSync
  | MChat
  | MAct (i : nat).

Record World : Type := mkWorld {
  wd_pods : Pods;
  wd_proxy : ProxyState * list Thread;
  wd_future : list (list move);
  wd_runs : list string
}.

Definition pods_listed (pods : Pods) : list Pod := plane_list (mkFakePlane pods [] true []).

Definition scheduler_at (pods : Pods) : WState FakeCluster :=
  sample_state (pods_listed pods) true true nvlink_registry.

Definition scheduler_answer (pods : Pods) : result string (Z * result string json) :=
  Ok (wire (workers_handler sample_watcher "GET" (scheduler_at pods)).2).

Definition run_move (pods : Pods) (s : ProxyState * list Thread) (m : move) : ProxyState * list Thread :=
  match m with
  | MSync => (worker_sync (scheduler_answer pods) s.1, s.2)
  | MChat =>
      match handleChatCompletions sample_parse sample_object "POST" "" (Ok "{}") sample_sink s.1 ok_net with
      | Done (st', f) => (st', (s.2 ++ [mkThread [] (fw_actions f)])%list)
      | Panicked => s
      end
  | MAct i =>
      match s.2 !! i with
      | Some th =>
          match th_rest th with
          | a :: rest => (set_stats (run_action a (px_workerStats s.1)) s.1, <[i := advance a rest th]> s.2)
          | [] => s
          end
      | None => s
      end
  end.

Definition run_moves (pods : Pods) (ms : list move) (s : ProxyState * list Thread) : ProxyState * list Thread :=
  foldl (run_move pods) s ms.

#[export] Instance world_store : PodStore World := {|
  GetPod w ns name := (w, match wd_pods w !! (ns, name) with Some p => Ok p | None => Err "not found" end);
  UpdatePod w p := (mkWorld (<[pkey p := p]> (wd_pods w)) (wd_proxy w) (wd_future w) (wd_runs w), None)
|}.

#[export] Instance world_control : ControlPlane World := {|
  ListPodsIn w ns := (w, Ok (pods_listed (wd_pods w)));
  StatScript w path := (w, None);
  RunScript w path action env :=
    (mkWorld (wd_pods w) (wd_proxy w) (wd_future w) (wd_runs w ++ [action])%list, ScriptOk "");
  GetPressure w url := (w, Ok (200, Ok []));
  GetWorkerStats w url :=
    let s := run_moves (wd_pods w) (default [] (head (wd_future w))) (wd_proxy w) in
    (mkWorld (wd_pods w) s (tail (wd_future w)) (wd_runs w),
     Ok (200, Ok (worker_stats (map_to_list (px_workerStats s.1)).*1 s.1)))
|}.

Lemma pods_listed_stored pods p : p ∈ pods_listed pods → pods !! pkey p = Some p.
Proof.
  unfold pods_listed, plane_list. intros ([k q] & Hkq & Hq)%list_elem_of_omap. cbn in Hkq, Hq.
  case_decide as Ek; [|done]. injection Hq as ->. cbn in Ek. subst k. by apply elem_of_map_to_list in Hkq.
Qed.

#[export] Instance world_stored : StoredPods World.
Proof.
  refine {| stored := wd_pods |}.
  - intros w ns name. by exists w.
  - intros w pod. eexists. by split.
  - done.
  - done.
  - done.
  - intros w w' ns pods p [= <- <-] Hin. by apply pods_listed_stored.
Defined.

Lemma scheduler_answers pods : answered pods (scheduler_answer pods).
Proof.
  exists FakeCluster, fake_api, sample_watcher, (scheduler_at pods). eexists. split_and!; [|reflexivity|done].
  intros w l p [= _ <-]. apply pods_listed_stored.
Qed.

Notation world_step := (fleet_step sample_parse sample_object sample_rebalancing).

Lemma run_move_step pods s m : rtc (world_step pods) s (run_move pods s m).
Proof.
  destruct s as [st ths], m as [| |i]; cbn [run_move fst snd].
  - apply rtc_once. pose proof (scheduler_answers pods) as Ha.
    split; [|right; by exists (scheduler_answer pods)].
    destruct (answered_workers _ _ st Ha) as (ws & -> & _). constructor.
  - destruct (handleChatCompletions _ _ _ _ _ _ _ _) as [[st' f]|] eqn:E; [|done]. apply rtc_once.
    split; [by eapply step_request|]. left. by eapply handle_workers.
  - destruct (ths !! i) as [th|] eqn:Ei; [|done]. destruct (th_rest th) as [|a rest] eqn:Er; [done|].
    apply rtc_once. split; [by eapply step_action|by left].
Qed.

Lemma run_moves_steps pods ms s : rtc (world_step pods) s (run_moves pods ms s).
Proof.
  revert s. induction ms as [|m ms IH]; intros s; [done|]. etrans; [apply run_move_step|apply IH].
Qed.

#[export] Instance world_live : LiveProxy sample_parse sample_object sample_rebalancing World.
Proof.
  refine {| live := wd_proxy |}; try (intros; apply rtc_refl).
  - intros w url. cbn. eapply rtc_subrel; [|apply run_moves_steps]. intros s s' Hs. by exists (wd_pods w).
  - intros w url w' code stats [= <- <- <-] _. cbn. eexists. split; [|done]. by apply range_order_exists.
Defined.

(** ** Runs *)
Definition fleet_pod (name role : string) (created : Z) : Pod :=
  mkPod name "default" ∅ {["gpu-scheduler/workflow" := "inference"; "gpu-scheduler/inference-role" := role;
      "gpu-scheduler/inference-endpoint" := "http://" ++ name; "gpu-scheduler/model-group" := "llama"]}
    created "gpu-scheduler" "node-a" None [] [] [] PodRunning [("Ready", "True")].

Definition fleet_pods : Pods :=
  list_to_map ((λ p, (pkey p, p)) <$>
    [fleet_pod "p0" Prefill 1; fleet_pod "d0" Decode 2; fleet_pod "d1" Decode 3]).

(** After the scheduler's answer a request is sent to a prefill and a decode pod. *)
Definition synced_proxy : ProxyState := worker_sync (scheduler_answer fleet_pods) NewProxy.

Lemma synced_proxy_reachable :
  fleet_reachable sample_parse sample_object sample_rebalancing fleet_pods (synced_proxy, []).
Proof. eapply fleet_answer; [apply (fleet_init _ _ _ ∅)|apply scheduler_answers]. Qed.

Lemma synced_proxy_begins :
  match handleChatCompletions sample_parse sample_object "POST" "" (Ok "{}") sample_sink synced_proxy ok_net with
  | Done (_, f) => head (fw_actions f) = Some (Begin ["default/p0"; "default/d1"])
  | Panicked => False
  end.
Proof. vm_compute. reflexivity. Qed.

Lemma fleet_routes_witness :
  ∃ p group, fleet_pods !! pkey p = Some p ∧ "default/d1" = pod_key (pod_Namespace p) (pod_Name p) ∧ serves group p.
Proof.
  destruct (fleet_routes sample_parse sample_object sample_rebalancing fleet_pods synced_proxy [] "POST" ""
    (Ok "{}") sample_sink ok_net synced_proxy_reachable) as (st' & f & Hf & Hall).
  pose proof synced_proxy_begins as Hb. rewrite Hf in Hb.
  assert (Begin ["default/p0"; "default/d1"] ∈ fw_actions f) as Hin
    by (apply list_elem_of_lookup; exists 0%nat; by rewrite <-head_lookup).
  destruct (Hall _ "default/d1" Hin) as (req & raw & p & _ & Hp & Hid & Hs); [by right; left|].
  exists p, (ccr_Model req). split; [exact Hp|]. split; [exact Hid|exact Hs].
Defined.

(** Before the removal: one turn of the loop, a request begun. *)
Definition serving_fleet (future : list (list move)) : World :=
  mkWorld fleet_pods (run_moves fleet_pods [MSync; MChat; MAct 0] (NewProxy, [])) future [].

Definition open_requests (w : World) : list (list string) := th_open <$> (wd_proxy w).2.

Definition fleet_removal (polls : nat) (w : World) : World * option ScaleError :=
  handleRebalancerAction sample_tick 60 "now" polls llama_policy (removal_of RemoveDecode) w.

(** A removal during which the request ends and the proxy hears from the
    scheduler; a request that comes in then goes to the other decoder. *)
Definition end_request : list move := [MAct 0; MAct 0; MAct 0].

Definition drained_pods : Pods := <[("default", "d1") := marked "now" (fleet_pod "d1" Decode 3)]> fleet_pods.

Definition serving_state : ProxyState * list Thread := wd_proxy (serving_fleet []).

Definition heard_state (s : ProxyState * list Thread) : ProxyState * list Thread :=
  run_moves drained_pods (end_request ++ [MChat])%list (run_move drained_pods s MSync).

Definition heard_fleet : World :=
  mkWorld drained_pods (heard_state serving_state) [] ["scale-decode-down"].

Lemma removal_heard :
  fleet_removal 2 (serving_fleet [[]; (MSync :: end_request ++ [MChat])%list]) = (heard_fleet, None).
Proof. vm_compute. reflexivity. Qed.

Lemma fleet_unmarked k p : fleet_pods !! k = Some p → never_marked p.
Proof.
  revert k p. change (map_Forall (λ _ p, never_marked p) fleet_pods). unfold never_marked.
  apply (bool_decide_unpack _). vm_compute. exact I.
Qed.

Lemma serving_unmarked future k p :
  stored (serving_fleet future) !! k = Some p → scale_down_candidate llama_policy Decode p = true → never_marked p.
Proof. intros Hp _. by apply (fleet_unmarked k). Qed.

Lemma fleet_distinct : distinct_ids fleet_pods.
Proof. apply slash_free_distinct. apply (bool_decide_unpack _). vm_compute. exact I. Qed.

Lemma fleet_counters future :
  counters_ok (live sample_parse sample_object sample_rebalancing (serving_fleet future)).
Proof.
  change (counters_ok (run_moves fleet_pods [MSync; MChat; MAct 0] (NewProxy, []))).
  eapply fleet_steps_counters; [apply run_moves_steps|].
  by apply (fleet_reachable_counters sample_parse sample_object sample_rebalancing ∅), fleet_init.
Qed.

Lemma fleet_candidates p :
  fleet_pods !! pkey p = Some p → scale_down_candidate llama_policy Decode p = true →
  p = fleet_pod "d0" Decode 2 ∨ p = fleet_pod "d1" Decode 3.
Proof.
  unfold fleet_pods. cbn [list_to_map fmap list_fmap foldr].
  intros [[_ <-]|[_ [[_ <-]|[_ [[_ <-]|[_ Hn]]%lookup_insert_Some]]%lookup_insert_Some]]%lookup_insert_Some Hc;
    [vm_compute in Hc; discriminate|by left|by right|by vm_compute in Hn].
Qed.

Lemma heard_run s : rtc (world_step drained_pods) (run_move drained_pods s MSync) (heard_state s).
Proof. apply run_moves_steps. Qed.

Lemma move_synced pods s : synced pods (run_move pods s MSync).
Proof. exists (scheduler_answer pods), s.1. split; [apply scheduler_answers|done]. Qed.

Lemma heard_begun : Forall (λ th, awaits "default/d1" th = false) (wd_proxy heard_fleet).2.
Proof. apply (bool_decide_unpack _). vm_compute. exact I. Qed.

Lemma drained_is_d1 :
  drained_pods ≠ <[pkey (fleet_pod "d0" Decode 2) := marked "now" (fleet_pod "d0" Decode 2)]> fleet_pods.
Proof.
  intros E. apply (f_equal (λ m : Pods, (IsDrainingGPUPod ∘ Some) <$> m !! ("default", "d1"))) in E.
  assert ((IsDrainingGPUPod ∘ Some) <$> drained_pods !! ("default", "d1") = Some true) as H1 by (by vm_compute).
  rewrite H1 in E. clear H1. revert E. apply not_eq_sym, (bool_decide_unpack _). vm_compute. exact I.
Qed.

Lemma heard_few : 2 * Z.of_nat (length (wd_proxy heard_fleet).2) ≤ int_max.
Proof. vm_compute. discriminate. Qed.

Lemma heard_synced :
  ∃ s0, synced drained_pods s0 ∧ rtc (world_step drained_pods) s0 (wd_proxy heard_fleet).
Proof.
  exists (run_move drained_pods serving_state MSync). split; [apply move_synced|].
  unfold heard_fleet. cbn [wd_proxy]. apply heard_run.
Qed.

Lemma script_leaves tc policy path script (w w' : World) r :
  run_script tc policy path script w = (w', r) → wd_pods w = wd_pods w' ∧ wd_proxy w = wd_proxy w'.
Proof. by intros [= <- _]. Qed.

Lemma world_quiet (w w1 : World) id ms :
  wd_pods w1 = wd_pods w → wd_proxy w1 = wd_proxy w →
  (2 * Z.of_nat (length (wd_proxy w1).2) ≤ int_max →
   (∃ s0, synced (wd_pods w1) s0 ∧ rtc (world_step (wd_pods w1)) s0 (wd_proxy w1)) →
   Forall (λ th, awaits id th = false) (wd_proxy w1).2 →
   ∀ s, rtc (world_step (wd_pods w1)) (wd_proxy w1) s → quiet id s) →
  2 * Z.of_nat (length (wd_proxy w).2) ≤ int_max →
  (∃ s0, synced (wd_pods w) s0 ∧ rtc (world_step (wd_pods w)) s0 (wd_proxy w)) →
  Forall (λ th, awaits id th = false) (wd_proxy w).2 →
  quiet id (run_moves (wd_pods w) ms (wd_proxy w)).
Proof. intros -> -> Hq Hl Hs Hb. apply Hq; try done. apply run_moves_steps. Qed.

Lemma removal_waits_witness :
  quiet "default/d1" (run_moves drained_pods [MAct 1; MChat; MSync; MChat; MAct 2] (wd_proxy heard_fleet)).
Proof.
  destruct (removal_waits sample_parse sample_object sample_rebalancing sample_tick llama_policy
    (removal_of RemoveDecode) "scale-decode-down" Decode 60 "now" 2
    (serving_fleet [[]; (MSync :: end_request ++ [MChat])%list]) _ _ eq_refl
    (serving_unmarked _) fleet_distinct (fleet_counters _) removal_heard)
    as [[Hn _]|(target & w1 & Hc & Ht & Hs & Hrun & Hq)]; [exact (False_ind _ (Hn eq_refl))|].
  destruct (script_leaves _ _ _ _ _ _ _ Hrun) as [Ep Ex]. destruct (fleet_candidates _ Ht Hc) as [-> | ->].
  - exact (False_ind _ (drained_is_d1 (eq_trans (eq_sym Ep) Hs))).
  - apply (world_quiet heard_fleet w1 "default/d1" [MAct 1; MChat; MSync; MChat; MAct 2] Ep Ex Hq); [exact heard_few|exact heard_synced|exact heard_begun].
Defined.

(** ** Findings *)

(** When the request ends before the proxy hears of the mark, the first poll finds
    the worker idle: the script runs, and the next request goes to the worker it
    is removing. *)
Lemma drain_races_sync :
  match fleet_removal 2 (serving_fleet [end_request]) with
  | (w, None) => wd_runs w = ["scale-decode-down"] ∧
      (IsDrainingGPUPod ∘ Some) <$> wd_pods w !! ("default", "d1") = Some true ∧
      th_open <$> (run_moves (wd_pods w) [MChat; MAct 1] (wd_proxy w)).2 = [[]; ["default/p0"; "default/d1"]]
  | _ => False
  end.
Proof. vm_compute. done. Qed.
