(* ===== verification/Dashboard.v ===== *)
(** * internal/dashboard/handler.go: the dashboard's endpoints

    Each handler is a function of the request's method and decoded content; an
    answer is the value it encodes, or the error it writes.  The client set is
    the class [DashAPI]; the formatted creation time and the decoding of bodies
    and query strings belong to the standard library and are inputs. *)

From Stdlib Require Import ZArith Lia Ascii String.
From stdpp Require Import base option list strings gmap.
From S2P Require Import Prelude GoFloat GoStrings Types K8s Config Helpers Registry Http EventBus LogBuffer.
Open Scope string_scope.
Open Scope Z_scope.
Open Scope go_scope.

(** ** internal/dashboard/types.go *)
Record ClusterSummary : Type := mkClusterSummary {
  cs_TotalNodes : Z;
  cs_TotalGPUs : Z;
  cs_HealthyGPUs : Z;
  cs_TotalMemoryMB : Z;
  cs_ReservedMemoryMB : Z;
  cs_AvgUtilization : float64;
  cs_MPSGPUs : Z;
  cs_NonMPSGPUs : Z
}.

Record CreatePodRequest : Type := mkCreatePodRequest {
  cp_Name : string;
  cp_Namespace : string;
  cp_ContainerName : string;
  cp_Image : string;
  cp_Command : list string;
  cp_MemoryMB : Z;
  cp_GPUCount : Z;
  cp_Workflow : string;
  cp_Priority : Z;
  cp_Shared : bool;
  cp_Preemptible : bool;
  cp_GangID : string;
  cp_GangSize : Z;
  cp_CheckpointCmd : string;
  cp_RestartPolicy : string;
  cp_ResumeCmd : string;
  cp_AutoResume : bool;
  cp_MemoryMode : string
}.

Record PodResponse : Type := mkPodResponse {
  pp_Name : string;
  pp_Namespace : string;
  pp_Phase : string;
  pp_NodeName : string;
  pp_CreatedAt : Z;
  pp_MemoryMB : Z;
  pp_GPUCount : Z;
  pp_Workflow : string;
  pp_Priority : Z;
  pp_Shared : bool;
  pp_Preemptible : bool;
  pp_GangID : string;
  pp_AutoResume : bool;
  pp_ResumeCmd : string;
  pp_AssignedGPUs : list string
}.

Record PodListResponse : Type := mkPodListResponse {
  pl_Pods : list PodResponse;
  pl_Total : Z;
  pl_PendingCount : Z;
  pl_RunningCount : Z;
  pl_CompletedCount : Z;
  pl_FailedCount : Z
}.

(** ** The API *)

(** A container's [State]: the reason it waits for or ended with, if so. *)
Record ContainerStatus : Type := mkContainerStatus {
  ct_Waiting : option string;
  ct_Terminated : option string
}.

Record ListedPod : Type := mkListedPod {
  lp_Pod : Pod;
  lp_Statuses : list ContainerStatus
}.

(** A pod to create: the fields [Pod] does not have go beside it. *)
Record NewPod : Type := mkNewPod {
  np_Pod : Pod;
  np_Image : string;
  np_Command : list string;
  np_RestartPolicy : string
}.

Class DashAPI (W : Type) : Type := {
  DashList : W → W * result string (list ListedPod);
  DashCreate : W → string → NewPod → W * result string (string * string * string);
  DashDelete : W → string → string → W * option string;
  DashLogs : W → string → string → Z → bool → W * result string body_reads
}.

Inductive DashAnswer : Type :=
  | DError (status : Z) (msg : string)
  | DCluster (nodes : list NodeGPUs) (summary : ClusterSummary)
  | DPods (pods : PodListResponse)
  | DCreated (status pod namespace : string)
  | DNoContent
  | DLogs (entries : list LogEntry) (total : Z).

Definition method_not_allowed : DashAnswer := DError StatusMethodNotAllowed "Method not allowed".

(** ** The cluster *)
Definition add_gpu (r : Registry) (acc : ClusterSummary * Z) (ng : NodeGPUs * GPUInfo) :
    ClusterSummary * Z :=
  let '(s, totalUtilization) := acc in
  let '(node, gpu) := ng in
  (mkClusterSummary (cs_TotalNodes s) (cs_TotalGPUs s ⊞ 1)
     (if gi_IsHealthy gpu then cs_HealthyGPUs s ⊞ 1 else cs_HealthyGPUs s)
     (cs_TotalMemoryMB s ⊞ gi_TotalMemoryMB gpu)
     (cs_ReservedMemoryMB s ⊞ GetReservedMemory (ng_NodeName node) (gi_UUID gpu) r)
     (cs_AvgUtilization s)
     (if gi_MPSEnabled gpu then cs_MPSGPUs s ⊞ 1 else cs_MPSGPUs s)
     (if gi_MPSEnabled gpu then cs_NonMPSGPUs s else cs_NonMPSGPUs s ⊞ 1),
   totalUtilization ⊞ gi_UtilizationGPU gpu).

Definition cluster_gpus (nodes : list NodeGPUs) : list (NodeGPUs * GPUInfo) :=
  node ← nodes; pair node <$> ng_GPUs node.

Definition BuildClusterResponse (now : Time) (order : list string) (r : Registry) :
    Registry * (list NodeGPUs * ClusterSummary) :=
  let '(r', registryNodes) := GetAllNodes now order r in
  let '(s, totalUtilization) := foldl (add_gpu r')
    (mkClusterSummary (Z.of_nat (length registryNodes)) 0 0 0 0 f64_zero 0 0, 0)
    (cluster_gpus registryNodes) in
  let avg := if cs_TotalGPUs s >? 0
             then f64_div (f64_of_int totalUtilization) (f64_of_int (cs_TotalGPUs s)) else f64_zero in
  (r', (registryNodes, mkClusterSummary (cs_TotalNodes s) (cs_TotalGPUs s) (cs_HealthyGPUs s)
     (cs_TotalMemoryMB s) (cs_ReservedMemoryMB s) avg (cs_MPSGPUs s) (cs_NonMPSGPUs s))).

Definition ClusterHandler (method : string) (now : Time) (order : list string) (r : Registry) :
    Registry * DashAnswer :=
  if negb (String.eqb method "GET") then (r, method_not_allowed)
  else let '(r', (nodes, summary)) := BuildClusterResponse now order r in (r', DCluster nodes summary).

(** ** Listing pods *)

(** The first container that waits or ended for a reason names the phase. *)
Definition status_reason (cs : ContainerStatus) : option string :=
  match ct_Waiting cs with
  | Some reason => if negb (String.eqb reason "") then Some reason else
      match ct_Terminated cs with
      | Some reason => if negb (String.eqb reason "") then Some reason else None
      | None => None
      end
  | None =>
      match ct_Terminated cs with
      | Some reason => if negb (String.eqb reason "") then Some reason else None
      | None => None
      end
  end.

Definition shown_phase (p : ListedPod) : string :=
  default (pod_Phase (lp_Pod p)) (head (omap status_reason (lp_Statuses p))).

Definition pod_response (cfg : Config) (p : ListedPod) : PodResponse :=
  let pod := lp_Pod p in
  mkPodResponse (pod_Name pod) (pod_Namespace pod) (shown_phase p) (pod_NodeName pod)
    (pod_CreationTimestamp pod) (GetGPUMemoryFromPod pod) (GetGPUCountFromPod pod)
    (GetWorkflowFromPod pod) (GetPriorityFromPod pod (cfg_Workflows cfg)) (IsSharedGPUPod pod)
    (IsPreemptible pod (cfg_Workflows cfg)) (GetGangIDFromPod pod) (GetAutoResumeFromPod pod)
    (GetResumeCmdFromPod pod) (GetAssignedGPUS pod).

(** The counters: pending, running, completed, failed. *)
Record PhaseCounts : Type := mkPhaseCounts {
  pcn_pending : Z;
  pcn_running : Z;
  pcn_completed : Z;
  pcn_failed : Z
}.

Definition count_phase (podPhase : string) (c : PhaseCounts) : PhaseCounts :=
  if String.eqb podPhase PodRunning
  then mkPhaseCounts (pcn_pending c) (pcn_running c ⊞ 1) (pcn_completed c) (pcn_failed c)
  else if String.eqb podPhase PodPending
  then mkPhaseCounts (pcn_pending c ⊞ 1) (pcn_running c) (pcn_completed c) (pcn_failed c)
  else if String.eqb podPhase PodSucceeded
  then mkPhaseCounts (pcn_pending c) (pcn_running c) (pcn_completed c ⊞ 1) (pcn_failed c)
  else if String.eqb podPhase PodFailed
  then mkPhaseCounts (pcn_pending c) (pcn_running c) (pcn_completed c) (pcn_failed c ⊞ 1)
  else c.

Definition list_pod (cfg : Config) (acc : list PodResponse * PhaseCounts) (p : ListedPod) :
    list PodResponse * PhaseCounts :=
  if String.eqb (pod_SchedulerName (lp_Pod p)) (sc_Name (cfg_Scheduler cfg))
  then ((acc.1 ++ [pod_response cfg p])%list, count_phase (pod_Phase (lp_Pod p)) acc.2)
  else acc.

(** ** Creating pods *)
Definition set_if (b : bool) (k v : string) (m : gmap string string) : gmap string string :=
  if b then <[k := v]> m else m.

Definition request_annotations (q : CreatePodRequest) : gmap string string :=
  set_if (negb (String.eqb (cp_ResumeCmd q) "")) "gpu-scheduler/resume-cmd" (cp_ResumeCmd q) $
  set_if (cp_AutoResume q) "gpu-scheduler/auto-resume" "true" $
  set_if (negb (String.eqb (cp_CheckpointCmd q) "")) "gpu-scheduler/checkpoint-cmd" (cp_CheckpointCmd q) $
  set_if (negb (String.eqb (cp_GangID q) "")) "gpu-scheduler/gang-size" (itoa (cp_GangSize q)) $
  set_if (negb (String.eqb (cp_GangID q) "")) "gpu-scheduler/gang-id" (cp_GangID q) $
  set_if (cp_Preemptible q) "gpu-scheduler/preemptible" "true" $
  set_if (cp_Shared q) "gpu-scheduler/shared" "true" $
  {["gpu-scheduler/memory-mb" := itoa (cp_MemoryMB q);
    "gpu-scheduler/workflow" := cp_Workflow q;
    "gpu-scheduler/priority" := itoa (cp_Priority q);
    "gpu-scheduler/gpu-count" := itoa (cp_GPUCount q);
    "gpu-scheduler/memory-mode" := cp_MemoryMode q]}.

Definition new_pod (cfg : Config) (q : CreatePodRequest) : NewPod :=
  mkNewPod
    (mkPod (cp_Name q) (cp_Namespace q) ∅ (request_annotations q) 0 (sc_Name (cfg_Scheduler cfg)) "" None
       [mkContainer (cp_ContainerName q) []
          (if cp_Shared q then ∅ else {["nvidia.com/gpu" := mkQuantity 1 false]}) ∅ []]
       [] [] "" [])
    (cp_Image q) (cp_Command q)
    (if String.eqb (cp_RestartPolicy q) "" then "Never" else cp_RestartPolicy q).

Section handlers.
Context {W : Type} `{DashAPI W} (cfg : Config).

Definition list_pods_handler (w : W) : W * DashAnswer :=
  match DashList w with
  | (w', Err e) => (w', DError StatusInternalServerError e)
  | (w', Ok pods) =>
      let '(podResponseList, c) := foldl (list_pod cfg) ([], mkPhaseCounts 0 0 0 0) pods in
      (w', DPods (mkPodListResponse podResponseList (Z.of_nat (length podResponseList))
             (pcn_pending c) (pcn_running c) (pcn_completed c) (pcn_failed c)))
  end.

Definition create_pod_handler (body : result string CreatePodRequest) (w : W) : W * DashAnswer :=
  match body with
  | Err e => (w, DError StatusBadRequest e)
  | Ok podRequest =>
      match DashCreate w (cp_Namespace podRequest) (new_pod cfg podRequest) with
      | (w', Err e) => (w', DError StatusInternalServerError e)
      | (w', Ok (phase, name, namespace)) => (w', DCreated phase name namespace)
      end
  end.

Definition PodsHandler (method : string) (body : result string CreatePodRequest) (w : W) : W * DashAnswer :=
  if String.eqb method "GET" then list_pods_handler w
  else if String.eqb method "POST" then create_pod_handler body w
  else (w, method_not_allowed).

(** ** Deleting pods *)
Definition pods_prefix : string := "/api/v1/dashboard/pods/".

(** [strings.Trim(s, "/")] *)
Fixpoint trim_left_slash (s : string) : string :=
  match s with
  | String "/" s' => trim_left_slash s'
  | _ => s
  end.

Definition trim_slashes (s : string) : string :=
  String.rev (trim_left_slash (String.rev (trim_left_slash s))).

Definition delete_target (url_path : string) : result string (string * string) :=
  match strip_prefix pods_prefix url_path with
  | None => Err "invalid path"
  | Some path =>
      match split_on "/" (trim_slashes path) with
      | [namespace; name] => Ok (namespace, name)
      | _ => Err "expected /pods/{namespace}/{name}"
      end
  end.

Definition DeletePodsHandler (method url_path : string) (w : W) : W * DashAnswer :=
  if negb (String.eqb method "DELETE") then (w, method_not_allowed)
  else
    match delete_target url_path with
    | Err e => (w, DError StatusBadRequest e)
    | Ok (namespace, name) =>
        match DashDelete w namespace name with
        | (w', Some e) => (w', DError StatusInternalServerError e)
        | (w', None) => (w', DNoContent)
        end
    end.

(** ** Logs *)

(** The query's parameters, empty when absent. *)
Definition log_limit (l : string) : Z :=
  if negb (String.eqb l "") then
    match atoi l with Some n => if n >? 0 then n else 200 | None => 200 end
  else 200.

Definition LogsHandler (method category limit : string) (lb : LogBuffer) : outcome DashAnswer :=
  if negb (String.eqb method "GET") then Done method_not_allowed
  else
    entries ← GetRecent (log_limit limit) category lb;
    Done (DLogs entries (Z.of_nat (length entries))).

(** The copy with a flush after each read; it ignores failing writes. *)
Fixpoint follow_loop (reads : body_reads) (k : Sink) : Sink :=
  match reads with
  | [] => k
  | (data, err) :: rest =>
      let k' := if String.eqb data "" then k else flush (sink_write data k).1 in
      match err with
      | Continues => follow_loop rest k'
      | EOF | ReadError _ => k'
      end
  end.

Definition tail_lines (t : string) : Z :=
  if negb (String.eqb t "") then default 100 (atoi t) else 100.

Definition follow_param (f : string) : bool :=
  if negb (String.eqb f "") then default false (parse_bool f) else false.

Definition set_sink (r : Response) (k : Sink) : Sink := mkSink r (sk_accepts k) (sk_flushes k).

Definition PodLogsHandler (namespace name tail follow : string) (flusher : bool) (k : Sink) (w : W) :
    W * Sink :=
  let follow := follow_param follow in
  match DashLogs w namespace name (tail_lines tail) follow with
  | (w', Err e) => (w', set_sink (http_error e StatusInternalServerError (sk_response k)) k)
  | (w', Ok stream) =>
      if follow then
        if negb flusher
        then (w', set_sink (http_error "streaming not supported" StatusInternalServerError (sk_response k)) k)
        else (w', follow_loop stream (set_sink (set_header "Connection" "keep-alive"
                   (set_header "Cache-Control" "no-cache"
                     (set_header "Content-Type" "text/plain" (sk_response k)))) k))
      else (w', (io_copy stream (set_sink (set_header "Content-Type" "text/plain" (sk_response k)) k)).1)
  end.
End handlers.

(** ** The proxy's control endpoints *)
Definition control_url (cfg : Config) (path rawQuery : string) : string :=
  let url := "http://127.0.0.1:" ++ itoa (pc_Port (cfg_ProxyConfig cfg)) ++ path in
  if negb (String.eqb rawQuery "") then url ++ "?" ++ rawQuery else url.

Definition proxyControlHandler {N} `{HTTPClient string N} (cfg : Config) (method path rawQuery : string)
    (k : Sink) (n : N) : N * Sink :=
  if negb (String.eqb method "GET")
  then (n, set_sink (http_error "Method not allowed" StatusMethodNotAllowed (sk_response k)) k)
  else if negb (pc_Enabled (cfg_ProxyConfig cfg))
  then (n, set_sink (http_error "proxy is disabled" StatusServiceUnavailable (sk_response k)) k)
  else
    let url := control_url cfg path rawQuery in
    match NewRequest n url with
    | Some e => (n, set_sink (http_error e StatusInternalServerError (sk_response k)) k)
    | None =>
        match Do n url with
        | (n', Err e) => (n', set_sink (http_error e StatusBadGateway (sk_response k)) k)
        | (n', Ok resp) =>
            (n', (io_copy (hr_Body resp) (set_sink (write_header (hr_StatusCode resp)
                   (set_header "Content-Type" "application/json" (sk_response k))) k)).1)
        end
    end.

Definition ProxyPressureHandler {N} `{HTTPClient string N} (cfg : Config) (method rawQuery : string) (k : Sink) (n : N) : N * Sink :=
  proxyControlHandler cfg method "/api/v1/control/pressure" rawQuery k n.

Definition ProxyWorkerStatsHandler {N} `{HTTPClient string N} (cfg : Config) (method rawQuery : string) (k : Sink) (n : N) : N * Sink :=
  proxyControlHandler cfg method "/api/v1/control/worker-stats" rawQuery k n.

(** ** Events *)
Definition newline : string := String (ascii_of_N 10) "".

(** [fmt.Fprintf(w, "event: %s\ndata: %s\n\n", ...)] *)
Definition sse_frame (event data : string) : string :=
  "event: " ++ event ++ newline ++ "data: " ++ data ++ newline ++ newline.

Section events.
Context {D : Type} (marshal : D → result string string).

(** An [SSEEvent] is its type and its data. *)
Definition EventHandler_start (method : string) (flusher : bool) (b : EventBus (string * D)) (k : Sink) :
    outcome (EventBus (string * D) * Sink * option nat) :=
  if negb (String.eqb method "GET")
  then Done (b, set_sink (http_error "Method not allowed" StatusMethodNotAllowed (sk_response k)) k, None)
  else
    let k := set_sink (set_header "Connection" "keep-alive" (set_header "Cache-Control" "no-cache"
               (set_header "Content-Type" "text/event-stream" (sk_response k)))) k in
    let '(b, busChan) := Subscribe b in
    if negb flusher then
      b ← Unsubscribe busChan b;
      Done (b, set_sink (http_error "streaming not supported" StatusInternalServerError (sk_response k)) k, None)
    else Done (b, k, Some busChan).

(** One turn of the loop, when an event is ready. *)
Definition EventHandler_turn (busChan : nat) (b : EventBus (string * D)) (k : Sink) :
    option (EventBus (string * D) * Sink) :=
  '(event, b') ← receive busChan b;
  match marshal event.2 with
  | Err _ => Some (b', k)
  | Ok data => Some (b', flush (sink_write (sse_frame event.1 data) k).1)
  end.

(** The request's context is done: the deferred call. *)
Definition EventHandler_end (busChan : nat) (b : EventBus (string * D)) : outcome (EventBus (string * D)) :=
  Unsubscribe busChan b.
End events.

(** ** Lemmas *)
Lemma lookup_set_if b k v m k' :
  set_if b k v m !! k' = if decide (k' = k) then (if b then Some v else m !! k') else m !! k'.
Proof.
  unfold set_if. destruct b; case_decide as E; try done.
  - subst. apply lookup_insert_eq.
  - by apply lookup_insert_ne.
Qed.

(** The annotations of a created pod, key by key. *)
Ltac key_neq := apply String.eqb_neq; reflexivity.
Ltac created_annotation :=
  unfold annotation; cbn [np_Pod new_pod pod_Annotations]; unfold request_annotations;
  repeat (rewrite lookup_set_if; first [rewrite decide_False by key_neq | rewrite decide_True by reflexivity]);
  repeat (rewrite lookup_insert_ne by key_neq);
  first [reflexivity | rewrite lookup_insert_eq; reflexivity | rewrite lookup_singleton_ne by key_neq; reflexivity
        | rewrite lookup_singleton_eq; reflexivity].

Section created.
Context (cfg : Config) (q : CreatePodRequest).
Let pod := np_Pod (new_pod cfg q).

Lemma created_required :
  annotation pod "gpu-scheduler/memory-mb" = Some (itoa (cp_MemoryMB q)) ∧
  annotation pod "gpu-scheduler/workflow" = Some (cp_Workflow q) ∧
  annotation pod "gpu-scheduler/priority" = Some (itoa (cp_Priority q)) ∧
  annotation pod "gpu-scheduler/gpu-count" = Some (itoa (cp_GPUCount q)) ∧
  annotation pod "gpu-scheduler/memory-mode" = Some (cp_MemoryMode q) ∧
  annotation pod "gpu-scheduler.io/memory-mb" = None.
Proof. unfold pod. split_and!; created_annotation. Qed.

Lemma created_optional :
  annotation pod "gpu-scheduler/shared" = (if cp_Shared q then Some "true" else None) ∧
  annotation pod "gpu-scheduler/preemptible" = (if cp_Preemptible q then Some "true" else None) ∧
  annotation pod "gpu-scheduler/gang-id" =
    (if negb (String.eqb (cp_GangID q) "") then Some (cp_GangID q) else None) ∧
  annotation pod "gpu-scheduler/gang-size" =
    (if negb (String.eqb (cp_GangID q) "") then Some (itoa (cp_GangSize q)) else None) ∧
  annotation pod "gpu-scheduler/checkpoint-cmd" =
    (if negb (String.eqb (cp_CheckpointCmd q) "") then Some (cp_CheckpointCmd q) else None) ∧
  annotation pod "gpu-scheduler/auto-resume" = (if cp_AutoResume q then Some "true" else None) ∧
  annotation pod "gpu-scheduler/resume-cmd" =
    (if negb (String.eqb (cp_ResumeCmd q) "") then Some (cp_ResumeCmd q) else None).
Proof. unfold pod. split_and!; created_annotation. Qed.
End created.

Lemma if_nonempty (s : string) : default "" (if negb (String.eqb s "") then Some s else None) = s.
Proof. by destruct (String.eqb_spec s "") as [->|]. Qed.

(** What the configuration says of a workflow type: the first entry of its name, if
    there is one, says whether its pods may be preempted. *)
Definition type_preemptible (cfg : WorkflowConfig) (workflow : string) (b : bool) : Prop :=
  (∃ l1 t l2, wfc_Types cfg = (l1 ++ t :: l2)%list ∧ wf_Name t = workflow ∧
     Forall (λ t', wf_Name t' ≠ workflow) l1 ∧ b = wf_Preemptible t) ∨
  Forall (λ t, wf_Name t ≠ workflow) (wfc_Types cfg) ∧ b = false.

Lemma find_type_preemptible cfg workflow :
  type_preemptible cfg workflow
    match find_type cfg workflow with Some t => wf_Preemptible t | None => false end.
Proof.
  unfold type_preemptible, find_type. induction (wfc_Types cfg) as [|t ts IH]; cbn; [right; by split; [constructor|]|].
  destruct (String.eqb_spec (wf_Name t) workflow) as [E|E].
  - left. by exists [], t, ts.
  - destruct IH as [(l1 & t' & l2 & -> & ? & ? & ?)|[? ?]].
    + left. exists (t :: l1), t', l2. by split_and!; [| |constructor|].
    + right. split; [by constructor|done].
Qed.

(** C40: what the dashboard asks for is what the scheduler reads, except for a
    refusal of preemption.  On the pod created for a request whose numbers are
    [int]s, the scheduler's helpers read back its memory, priority, sharing, gang,
    checkpoint, resume and auto-resume settings, its GPU count when positive, its
    gang size when positive and the gang is named, and its workflow and memory
    mode when they are known ones; the pod goes to this scheduler and is recognised
    as a GPU pod. A request for a preemptible pod gives one; a request for a pod
    that is not says nothing, and the pod is preemptible when its workflow type is
    by configuration. *)
Theorem create_pod_roundtrip cfg q :
  in_int (cp_MemoryMB q) → in_int (cp_Priority q) → in_int (cp_GPUCount q) → in_int (cp_GangSize q) →
  let pod := np_Pod (new_pod cfg q) in
  pod_SchedulerName pod = sc_Name (cfg_Scheduler cfg) ∧ IsGPUPod pod = true ∧
  GetGPUMemoryFromPod pod = cp_MemoryMB q ∧
  GetPriorityFromPod pod (cfg_Workflows cfg) = cp_Priority q ∧
  IsSharedGPUPod pod = cp_Shared q ∧ GetGangIDFromPod pod = cp_GangID q ∧
  GetCheckpointCmdFromPod pod = cp_CheckpointCmd q ∧ GetResumeCmdFromPod pod = cp_ResumeCmd q ∧
  GetAutoResumeFromPod pod = cp_AutoResume q ∧
  (0 < cp_GPUCount q → GetGPUCountFromPod pod = cp_GPUCount q) ∧
  (cp_GangID q ≠ "" → 0 < cp_GangSize q → GetGangSizeFromPod pod = cp_GangSize q) ∧
  (cp_Workflow q ∈ [Build; Training; Inference] → GetWorkflowFromPod pod = cp_Workflow q) ∧
  (cp_MemoryMode q ∈ [MemoryPerGPU; MemoryTotal; MemoryNone] → GetMemoryModeFromPod pod = cp_MemoryMode q) ∧
  (cp_Preemptible q = true → IsPreemptible pod (cfg_Workflows cfg) = true) ∧
  (cp_Preemptible q = false →
     type_preemptible (cfg_Workflows cfg) (GetWorkflowFromPod pod) (IsPreemptible pod (cfg_Workflows cfg))).
Proof.
  intros Hm Hp Hc Hg pod.
  destruct (created_required cfg q) as (Amem & Awf & Aprio & Acnt & Amode & Aio).
  destruct (created_optional cfg q) as (Ash & Apre & Agid & Agsz & Ack & Aar & Arc).
  fold pod in Amem, Awf, Aprio, Acnt, Amode, Aio, Ash, Apre, Agid, Agsz, Ack, Aar, Arc.
  assert (pod_SchedulerName pod = sc_Name (cfg_Scheduler cfg)) as Hname by done.
  clearbody pod. split_and!; [done|..].
  - unfold IsGPUPod. rewrite !orb_true_iff. left. left. right. apply bool_decide_eq_true_2.
    exact (mk_is_Some _ _ Amem).
  - unfold GetGPUMemoryFromPod. rewrite Aio, Amem. cbn. by rewrite (atoi_itoa _ Hm).
  - unfold GetPriorityFromPod, int_annotation. rewrite Aprio. cbn. by rewrite (atoi_itoa _ Hp).
  - unfold IsSharedGPUPod. rewrite Ash. by destruct (cp_Shared q).
  - unfold GetGangIDFromPod, annotation_or_empty. rewrite Agid. apply if_nonempty.
  - unfold GetCheckpointCmdFromPod, annotation_or_empty. rewrite Ack. apply if_nonempty.
  - unfold GetResumeCmdFromPod, annotation_or_empty. rewrite Arc. apply if_nonempty.
  - unfold GetAutoResumeFromPod. rewrite Aar. by destruct (cp_AutoResume q).
  - intros Hpos. unfold GetGPUCountFromPod, int_annotation. rewrite Acnt. cbn. rewrite (atoi_itoa _ Hc).
    rewrite Z.gtb_ltb. by rewrite (proj2 (Z.ltb_lt _ _) Hpos).
  - intros Hne Hpos. unfold GetGangSizeFromPod, int_annotation. rewrite Agsz.
    rewrite (proj2 (String.eqb_neq _ _) Hne). cbn. rewrite (atoi_itoa _ Hg).
    rewrite Z.gtb_ltb. by rewrite (proj2 (Z.ltb_lt _ _) Hpos).
  - rewrite !elem_of_cons, elem_of_nil. intros Hwf. unfold GetWorkflowFromPod. rewrite Awf.
    by destruct Hwf as [-> |[-> |[-> |[]]]].
  - rewrite !elem_of_cons, elem_of_nil. intros Hmode. unfold GetMemoryModeFromPod. rewrite Amode.
    by destruct Hmode as [-> |[-> |[-> |[]]]].
  - intros Hpre. unfold IsPreemptible. by rewrite Apre, Hpre.
  - intros Hpre. unfold IsPreemptible. rewrite Apre, Hpre. apply find_type_preemptible.
Qed.

(** ** The path of a deletion *)
(** No slash at the front: nothing to trim. *)
Definition no_front_slash (s : string) : Prop := ∀ s', s ≠ String "/" s'.

Lemma trim_left_id s : no_front_slash s → trim_left_slash s = s.
Proof.
  intros Hs. destruct s as [|c s]; [done|]. cbn.
  destruct (ascii_dec c "/") as [->|Hc]; [by destruct (Hs s)|].
  by destruct c as [[] [] [] [] [] [] [] []].
Qed.

Lemma trim_left_front s : no_front_slash (trim_left_slash s).
Proof.
  induction s as [|c s IH]; [done|]. destruct (ascii_dec c "/") as [->|Hc]; [exact IH|].
  rewrite trim_left_id; intros s' [= ? _]; done.
Qed.

Lemma mem_no_front c s : str_mem "/" s = false → s ≠ "" → no_front_slash (s ++ c).
Proof.
  intros Hs Hne s' E. destruct s as [|a s]; [done|].
  change (String a s ++ c) with (String a (s ++ c)) in E. injection E as -> _. done.
Qed.

Lemma trim_slashes_id ns name :
  str_mem "/" ns = false → ns ≠ "" → str_mem "/" name = false → name ≠ "" →
  trim_slashes (ns ++ String "/" name) = ns ++ String "/" name.
Proof.
  intros Hn Hnne Hm Hmne. unfold trim_slashes.
  rewrite (trim_left_id (ns ++ _)) by (by apply mem_no_front). rewrite rev_app_str, rev_cons_str, <-str_app_assoc.
  rewrite trim_left_id; [by rewrite !rev_app_str, !rev_involutive_str, <-str_app_assoc|].
  apply mem_no_front; [by rewrite str_mem_rev|]. intros E. apply Hmne.
  rewrite <-(rev_involutive_str name), E. done.
Qed.

Lemma split_parts_free sep s : Forall (λ w, str_mem sep w = false) (split_on sep s).
Proof.
  induction s as [|c s IH]; cbn; [by repeat constructor|].
  destruct (Ascii.eqb c sep) eqn:Ec; [by constructor|].
  destruct (split_on sep s) as [|w ws]; [constructor; [cbn; by rewrite Ec|constructor]|].
  apply Forall_cons in IH as [Hw Hws]. constructor; [cbn; by rewrite Ec|done].
Qed.

Lemma join_split sep s : join (String sep "") (split_on sep s) = s.
Proof.
  induction s as [|c s IH]; [done|]. cbn [split_on].
  destruct (split_on sep s) as [|w ws] eqn:E; [by apply split_on_nonempty in E|].
  destruct (Ascii.eqb_spec c sep) as [->|Hc].
  - rewrite join_cons, IH. done.
  - destruct ws as [|w' ws]; [cbn in *; by rewrite IH|]. rewrite join_cons in *. by rewrite <-IH.
Qed.

Lemma split_two sep s a b : split_on sep s = [a; b] → s = a ++ String sep b.
Proof. intros E. rewrite <-(join_split sep s), E. apply join_cons. Qed.

Lemma trim_slashes_ends s a b :
  trim_slashes s = a ++ String "/" b → a ≠ "" ∧ b ≠ "".
Proof.
  intros E. unfold trim_slashes in E. set (t := String.rev (trim_left_slash s)) in *.
  pose proof (trim_left_front t) as Hback. split.
  - intros ->. pose proof (trim_left_front s) as Hfront.
    assert (∀ u, ∃ r, u = r ++ trim_left_slash u) as Htl.
    { induction u as [|c u [r Hr]]; [by exists ""|]. destruct (ascii_dec c "/") as [->|Hc].
      - exists (String "/" r). change (trim_left_slash (String "/" u)) with (trim_left_slash u).
        change (String "/" r ++ trim_left_slash u) with (String "/" (r ++ trim_left_slash u)). by rewrite <-Hr.
      - exists "". rewrite trim_left_id; [done|]. by intros ? [=]. }
    destruct (Htl t) as [r Hr]. apply (f_equal String.rev) in Hr. rewrite rev_app_str, E in Hr.
    unfold t in Hr. rewrite rev_involutive_str in Hr. by apply (Hfront (b ++ String.rev r)).
  - intros ->. apply (f_equal String.rev) in E. rewrite rev_involutive_str, rev_app_str in E.
    by apply (Hback (String.rev a)).
Qed.

(** Deletions name exactly one pod.  A path under the pods prefix whose rest,
    slashes at its ends aside, is a non-empty namespace, a slash and a non-empty
    name without slashes deletes that pod; no other path reaches the API server:
    it is answered 400, and any method but DELETE 405. *)
Theorem DeletePodsHandler_exact {W} `{DashAPI W} method url_path (w : W) :
  (∃ ns name path, method = "DELETE" ∧ url_path = pods_prefix ++ path ∧
     trim_slashes path = ns ++ "/" ++ name ∧ ns ≠ "" ∧ name ≠ "" ∧
     str_mem "/" ns = false ∧ str_mem "/" name = false ∧
     DeletePodsHandler method url_path w =
       (let (w', e) := DashDelete w ns name in
        (w', match e with Some e => DError StatusInternalServerError e | None => DNoContent end))) ∨
  (∃ status msg, status ∈ [StatusBadRequest; StatusMethodNotAllowed] ∧
     DeletePodsHandler method url_path w = (w, DError status msg) ∧
     ¬ (method = "DELETE" ∧ ∃ ns name, url_path = pods_prefix ++ ns ++ "/" ++ name ∧
         ns ≠ "" ∧ name ≠ "" ∧ str_mem "/" ns = false ∧ str_mem "/" name = false)).
Proof.
  unfold DeletePodsHandler. destruct (String.eqb_spec method "DELETE") as [->|Hm]; cbn [negb].
  2: { right. eexists _, _. split; [right; left|]. split; [done|]. by intros [? _]. }
  unfold delete_target. destruct (strip_prefix pods_prefix url_path) as [path|] eqn:Ep.
  2: { right. eexists _, _. split; [left|]. split; [done|]. intros [_ (ns & name & -> & _)].
       assert (strip_prefix pods_prefix (pods_prefix ++ ns ++ "/" ++ name) = Some (ns ++ "/" ++ name)) as E
         by (by apply strip_prefix_spec). congruence. }
  apply strip_prefix_spec in Ep as ->.
  destruct (split_on "/" (trim_slashes path)) as [|ns [|name [|? ?]]] eqn:Es.
  1,2,4: right; eexists _, _; (split; [left|]); (split; [done|]);
    intros [_ (n1 & n2 & Hp%str_app_inv_l & H1 & H2 & H3 & H4)]; subst path;
    change ("/" ++ n2) with (String "/" n2) in Es; rewrite trim_slashes_id in Es by done;
    rewrite split_on_app, split_on_free in Es by done; discriminate.
  left. exists ns, name, path. pose proof (split_two _ _ _ _ Es) as Et.
  pose proof (split_parts_free "/" (trim_slashes path)) as Hfree. rewrite Es in Hfree.
  apply Forall_cons in Hfree as [Hn [Hm _]%Forall_cons]. destruct (trim_slashes_ends _ _ _ Et) as [H1 H2].
  split_and!; try done. by destruct (DashDelete w ns name) as [w' [e|]].
Qed.

(** ** The cluster summary *)
Definition count_gpus (P : GPUInfo → bool) (gpus : list (NodeGPUs * GPUInfo)) : Z :=
  Z.of_nat (length (List.filter (λ ng, P ng.2) gpus)).

Definition total_memory (gpus : list (NodeGPUs * GPUInfo)) : Z :=
  zsum ((λ ng, gi_TotalMemoryMB ng.2) <$> gpus).

Definition total_reserved (r : Registry) (gpus : list (NodeGPUs * GPUInfo)) : Z :=
  zsum ((λ ng, GetReservedMemory (ng_NodeName ng.1) (gi_UUID ng.2) r) <$> gpus).

(** The figures after some GPUs, exact as long as the sums are [int]s. *)
Definition summarised (r : Registry) (gpus : list (NodeGPUs * GPUInfo)) (s : ClusterSummary) : Prop :=
  cs_TotalGPUs s = Z.of_nat (length gpus) ∧ cs_HealthyGPUs s = count_gpus gi_IsHealthy gpus ∧
  cs_MPSGPUs s = count_gpus gi_MPSEnabled gpus ∧
  cs_NonMPSGPUs s = count_gpus (negb ∘ gi_MPSEnabled) gpus ∧
  cs_TotalMemoryMB s = wrap64 (total_memory gpus) ∧
  cs_ReservedMemoryMB s = wrap64 (total_reserved r gpus).

Lemma count_gpus_snoc P gpus ng :
  count_gpus P (gpus ++ [ng]) = count_gpus P gpus + (if P ng.2 then 1 else 0).
Proof.
  unfold count_gpus. rewrite List.filter_app, length_app. cbn. destruct (P ng.2); cbn; lia.
Qed.

Lemma count_gpus_le P gpus : 0 ≤ count_gpus P gpus ≤ Z.of_nat (length gpus).
Proof. unfold count_gpus. pose proof (List.filter_length_le (λ ng : NodeGPUs * GPUInfo, P ng.2) gpus). lia. Qed.

Lemma add_gpu_summarised r gpus ng s u :
  Z.of_nat (length (gpus ++ [ng])) ≤ int_max → summarised r gpus s →
  summarised r (gpus ++ [ng]) (add_gpu r (s, u) ng).1.
Proof.
  intros Hlen (H1 & H2 & H3 & H4 & H5 & H6). destruct ng as [node gpu]. unfold summarised, add_gpu; cbn.
  rewrite length_app in Hlen. cbn in Hlen.
  pose proof (count_gpus_le gi_IsHealthy gpus). pose proof (count_gpus_le gi_MPSEnabled gpus).
  pose proof (count_gpus_le (negb ∘ gi_MPSEnabled) gpus).
  rewrite !count_gpus_snoc, length_app, H1, H2, H3, H4, H5, H6. cbn [length snd compose].
  unfold total_memory, total_reserved. rewrite !fmap_app, !zsum_app, !wrap64_add_l. cbn.
  rewrite !Z.add_0_r. unfold compose in *. split_and!; try done.
  - int_solve.
  - destruct (gi_IsHealthy gpu); int_solve.
  - destruct (gi_MPSEnabled gpu); cbn; int_solve.
  - destruct (gi_MPSEnabled gpu); cbn; int_solve.
Qed.

Lemma summary_loop r todo seen s u :
  Z.of_nat (length (seen ++ todo)) ≤ int_max → summarised r seen s →
  summarised r (seen ++ todo) (foldl (add_gpu r) (s, u) todo).1 ∧
  cs_TotalNodes (foldl (add_gpu r) (s, u) todo).1 = cs_TotalNodes s.
Proof.
  revert seen s u. induction todo as [|ng todo IH]; intros seen s u Hlen Hs; [by rewrite app_nil_r|].
  cbn [foldl]. rewrite cons_middle, app_assoc in *. destruct (add_gpu r (s, u) ng) as [s' u'] eqn:E.
  destruct (IH (seen ++ [ng])%list s' u' Hlen) as [IH1 IH2].
  - pose proof (add_gpu_summarised r seen ng s u) as Hstep. rewrite E in Hstep. apply Hstep; [|done].
    rewrite length_app in Hlen. lia.
  - split; [done|]. rewrite IH2. destruct ng. by injection E as <- _.
Qed.

(** The cluster summary adds up.  It describes the nodes that are not stale:
    the GPUs are those of the nodes in the answer, split into MPS and non-MPS
    ones, the healthy ones are among them, and the memory figures are the sums
    of their totals and of the reservations on them, up to the width of [int]. *)
Theorem BuildClusterResponse_exact now order r r' nodes s :
  BuildClusterResponse now order r = (r', (nodes, s)) →
  Z.of_nat (length (cluster_gpus nodes)) ≤ int_max →
  let gpus := cluster_gpus nodes in
  (r', nodes) = GetAllNodes now order r ∧
  cs_TotalNodes s = Z.of_nat (length nodes) ∧ summarised r' gpus s ∧
  cs_MPSGPUs s + cs_NonMPSGPUs s = cs_TotalGPUs s ∧ 0 ≤ cs_HealthyGPUs s ≤ cs_TotalGPUs s.
Proof.
  unfold BuildClusterResponse. destruct (GetAllNodes now order r) as [r1 ns] eqn:E.
  destruct (foldl _ _ _) as [s1 u] eqn:Es. intros [= <- <- <-] Hlen.
  destruct (summary_loop r1 (cluster_gpus ns) [] (mkClusterSummary (Z.of_nat (length ns)) 0 0 0 0 f64_zero 0 0) 0)
    as [Hs Hn]; [done|by split_and!|]. rewrite Es in Hs, Hn. cbn in Hs, Hn.
  destruct Hs as (H1 & H2 & H3 & H4 & H5 & H6). unfold summarised. cbn.
  pose proof (count_gpus_le gi_IsHealthy (cluster_gpus ns)). split_and!; try done; [|lia..].
  rewrite H1, H3, H4. unfold count_gpus, compose. clear. induction (cluster_gpus ns) as [|ng l IH]; [done|].
  cbn. destruct (gi_MPSEnabled ng.2); cbn [length negb] in *; lia.
Qed.

(** ** Examples *)
Record DashWorld : Type := mkDashWorld { dw_deleted : list (string * string) }.

#[export] Instance dash_api : DashAPI DashWorld := {|
  DashList w := (w, Ok []);
  DashCreate w ns p := (w, Ok ("Pending", pod_Name (np_Pod p), ns));
  DashDelete w ns name := (mkDashWorld (dw_deleted w ++ [(ns, name)])%list, None);
  DashLogs w _ _ _ _ := (w, Ok [])
|}.

Definition train_request : CreatePodRequest :=
  mkCreatePodRequest "train-0" "ml" "main" "pytorch" ["python"] 8000 2 "training" 80 false false "gang-1" 4
    "save.sh" "" "" true "total".

Definition dash_config : Config :=
  mkConfig (mkSchedulerConfig "gpu-scheduler" 8888 0 "standalone" 60 true 30 30 3 10) (mkQueueConfig 100 "binpack")
    (mkWorkflowConfig true true 50 [mkWorkFlowTypeConfig "training" 50 true])
    (mkGPUConfig 5 false) (mkKubernetesConfig "" "default")
    (mkLoggingConfig "info" "json") (mkProxyConfig true 8080 "") (mkRebalancingConfig false true 5 10 60 60 true true []).

Lemma create_pod_roundtrip_witness :
  GetGPUMemoryFromPod (np_Pod (new_pod dash_config train_request)) = 8000 ∧
  GetGPUCountFromPod (np_Pod (new_pod dash_config train_request)) = 2 ∧
  GetGangSizeFromPod (np_Pod (new_pod dash_config train_request)) = 4 ∧
  GetMemoryModeFromPod (np_Pod (new_pod dash_config train_request)) = MemoryTotal ∧
  type_preemptible (cfg_Workflows dash_config) "training" true.
Proof.
  destruct (create_pod_roundtrip dash_config train_request) as
    (_ & _ & Hm & _ & _ & _ & _ & _ & _ & Hc & Hg & _ & Hmode & _ & Hpre); [by vm_compute..|].
  split; [exact Hm|]. split; [apply Hc; by vm_compute|]. split; [apply Hg; by vm_compute|].
  split; [apply Hmode; right; left|]. exact (Hpre eq_refl).
Defined.

Lemma BuildClusterResponse_exact_witness :
  ∃ r' nodes s, BuildClusterResponse 2 ["node-a"] sample_registry = (r', (nodes, s)) ∧
    cs_MPSGPUs s + cs_NonMPSGPUs s = cs_TotalGPUs s ∧ cs_TotalGPUs s = Z.of_nat (length (cluster_gpus nodes)).
Proof.
  destruct (BuildClusterResponse 2 ["node-a"] sample_registry) as [r' [nodes s]] eqn:E.
  exists r', nodes, s. split; [reflexivity|].
  destruct (BuildClusterResponse_exact 2 ["node-a"] sample_registry r' nodes s E) as (_ & _ & Hs & Hmps & _).
  { vm_compute in E. injection E as <- <- <-. by vm_compute. }
  split; [exact Hmps|]. apply Hs.
Defined.

(** A request that asks for no preemption says nothing, so that the default of
    its workflow applies: the pod is preemptible. *)
Lemma preemptible_cannot_be_refused :
  cp_Preemptible train_request = false ∧
  IsPreemptible (np_Pod (new_pod dash_config train_request)) (cfg_Workflows dash_config) = true.
Proof. by vm_compute. Qed.

(** A request for two exclusive GPUs limits its container to one device. *)
Lemma two_gpus_one_device :
  cp_GPUCount train_request = 2 ∧
  (λ c, q_Value <$> c_Limits c !! "nvidia.com/gpu") <$> pod_Containers (np_Pod (new_pod dash_config train_request)) =
    [Some 1].
Proof. by vm_compute. Qed.
