(* ===== verification/Nvml.v ===== *)
(** * internal/gpu/nvml.go: the discoverers of a single machine

    [NVMLDiscoverer] runs nvidia-smi and parses the CSV it prints;
    [NewMockDiscoverer] makes up GPUs for tests (the mock's methods are in
    [Manager]).  Running a command and asking for the host's name are the class
    [SmiRunner]; the text of an error is the parameter [error_text], since only
    its being an error matters. *)

From Stdlib Require Import ZArith Lia Ascii String.
From stdpp Require Import base option list strings gmap.
From S2P Require Import Prelude GoFloat GoStrings Types Manager.
Open Scope string_scope.
Open Scope Z_scope.

(** ** The mock *)
Record MockGPUConfig : Type := mkMockGPUConfig {
  mc_TotalMemoryMB : Z;
  mc_UsedMemoryMB : Z;
  mc_UtilizationPercent : float64;
  mc_IsHealthy : bool
}.

(** [uuid i] is the UUID drawn for the [i]-th GPU. *)
Definition NewMockDiscoverer (uuid : nat → string) (nodeName : string) (gpuConfigs : list MockGPUConfig) :
    MockDiscoverer :=
  imap (λ i cfg, mkGPU ("GPU-" ++ uuid i) (Z.of_nat i) nodeName (mc_TotalMemoryMB cfg) (mc_UsedMemoryMB cfg)
    (mc_UtilizationPercent cfg) (mc_IsHealthy cfg) false 0 false) gpuConfigs.

(** ** Parsing the output of nvidia-smi *)
Inductive SmiError : Type :=
  | ESmiFailed (e : string)
  | ESmiOutput (line : string)
  | ESmiIndex (field : string)
  | ESmiTotal (field : string)
  | ESmiUsed (field : string)
  | ESmiUtil (field : string)
  | ESmiNoGPUs
  | ESmiGone (id : string).

Definition newline : ascii := byte 10.

(** [strconv.Atoi(strings.TrimSpace(f))] with the error of that field. *)
Definition int_field (err : string → SmiError) (f : string) : result SmiError Z :=
  match atoi (trim_space f) with Some n => Ok n | None => Err (err f) end.

(** The body of the loop on a line that is not blank. *)
Definition parse_line (nodeName line : string) : result SmiError GPU :=
  match split_str ", " line with
  | f0 :: f1 :: f2 :: f3 :: f4 :: _ =>
      index ← int_field ESmiIndex f0;
      let nvidiaUUID := trim_space f1 in
      totalMem ← int_field ESmiTotal f2;
      usedMem ← int_field ESmiUsed f3;
      util ← int_field ESmiUtil f4;
      Ok (mkGPU nvidiaUUID index nodeName totalMem usedMem (f64_of_int util) true false 0 false)
  | _ => Err (ESmiOutput line)
  end.

Fixpoint parse_lines (nodeName : string) (lines : list string) : result SmiError (list GPU) :=
  match lines with
  | [] => Ok []
  | line :: rest =>
      let line := trim_space line in
      if String.eqb line "" then parse_lines nodeName rest
      else
        gpu ← parse_line nodeName line;
        gpus ← parse_lines nodeName rest;
        Ok (gpu :: gpus)
  end.

Definition parse_output (nodeName out : string) : result SmiError (list GPU) :=
  gpus ← parse_lines nodeName (split_on newline (trim_space out));
  match gpus with [] => Err ESmiNoGPUs | _ => Ok gpus end.

(** ** The discoverer *)
Class SmiRunner (W : Type) : Type := {
  RunSmi : W → W * result string string;
  LookPath : W → option string;
  Hostname : W → result string string
}.

Section nvml.
Context {W : Type} `{SmiRunner W} (error_text : SmiError → string).

Record NVMLDiscoverer : Type := mkNVMLDiscoverer {
  nd_nodeName : string;
  nd_runner : W
}.

Definition NewNVMLDiscoverer (nodeName : string) (w : W) : result string NVMLDiscoverer :=
  let nodeName :=
    if String.eqb nodeName "" then match Hostname w with Ok h => h | Err _ => "localhost" end
    else nodeName in
  match LookPath w with
  | Some e => Err ("nvidia-smi not found in PATH: " ++ e)
  | None => Ok (mkNVMLDiscoverer nodeName w)
  end.

Definition queryGPUs (n : NVMLDiscoverer) : NVMLDiscoverer * result SmiError (list GPU) :=
  let (w, out) := RunSmi (nd_runner n) in
  (mkNVMLDiscoverer (nd_nodeName n) w,
   match out with Err e => Err (ESmiFailed e) | Ok out => parse_output (nd_nodeName n) out end).

Definition text_of {A} (r : result SmiError A) : result string A :=
  match r with Ok a => Ok a | Err e => Err (error_text e) end.

Definition NVML_Discover (n : NVMLDiscoverer) : NVMLDiscoverer * result string (list GPU) :=
  let (n', r) := queryGPUs n in (n', text_of r).

(** The three assignments of [Refresh]. *)
Definition set_measured (g : GPU) (gpu : GPU) : GPU :=
  mkGPU (gpu_ID gpu) (gpu_Index gpu) (gpu_NodeName gpu) (gpu_TotalMemoryMB gpu) (gpu_UsedMemoryMB g)
    (gpu_UtilizationPercent g) (gpu_IsHealthy g) (gpu_IsShared gpu) (gpu_AllocatedPods gpu) (gpu_IsMPS gpu).

Definition NVML_Refresh (n : NVMLDiscoverer) (gpu : GPU) : NVMLDiscoverer * result string GPU :=
  let (n', r) := queryGPUs n in
  (n', text_of (gpus ← r;
        match List.find (λ g, String.eqb (gpu_ID g) (gpu_ID gpu)) gpus with
        | Some g => Ok (set_measured g gpu)
        | None => Err (ESmiGone (gpu_ID gpu))
        end)).

#[export] Instance nvml_discoverer : GPUDiscoverer NVMLDiscoverer := {|
  Discover := NVML_Discover;
  Refresh := NVML_Refresh
|}.
End nvml.
Arguments NVMLDiscoverer W : clear implicits.
Arguments mkNVMLDiscoverer {W}.

(** ** Specification: what nvidia-smi prints *)

(** A row of the query index,uuid,memory.total,memory.used,utilization.gpu. *)
Record Row : Type := mkRow {
  row_index : Z;
  row_uuid : string;
  row_total : Z;
  row_used : Z;
  row_util : Z
}.

Definition uuid_char (c : ascii) : bool := plain c && negb (Ascii.eqb c ",").

Definition row_ok (r : Row) : Prop :=
  in_int (row_index r) ∧ in_int (row_total r) ∧ in_int (row_used r) ∧ in_int (row_util r) ∧
  row_uuid r ≠ "" ∧ str_all uuid_char (row_uuid r) = true.

(** [--format=csv,noheader,nounits] *)
Definition print_row (r : Row) : string :=
  join ", " [itoa (row_index r); row_uuid r; itoa (row_total r); itoa (row_used r); itoa (row_util r)].

Definition print_rows (rs : list Row) : string := join (String newline "") (print_row <$> rs) ++ String newline "".

Definition row_gpu (nodeName : string) (r : Row) : GPU :=
  mkGPU (row_uuid r) (row_index r) nodeName (row_total r) (row_used r) (f64_of_int (row_util r)) true false 0 false.

(** ** Lemmas *)
Lemma uuid_plain s : str_all uuid_char s = true → str_all plain s = true.
Proof.
  induction s as [|c s IH]; cbn; [done|]. unfold uuid_char at 1.
  intros [[Hc _]%andb_true_iff Hs]%andb_true_iff. by rewrite Hc, IH.
Qed.

Lemma int_field_itoa err z : in_int z → int_field err (itoa z) = Ok z.
Proof. intros Hz. unfold int_field. by rewrite trim_space_neat, (atoi_itoa z Hz) by apply neat_itoa. Qed.

(** A number holds no comma and no line end. *)
Lemma itoa_without c z : digit_val c = None → c ≠ "-"%char → str_mem c (itoa z) = false.
Proof.
  intros Hd Hm. apply (str_all_mem (λ a, negb (Ascii.eqb a c))).
  - apply itoa_all; [|by destruct (Ascii.eqb_spec "-" c)]. intros d Hr. by rewrite digit_char_not.
  - by rewrite Ascii.eqb_refl.
Qed.

Lemma uuid_without s : str_all uuid_char s = true → str_mem "," s = false ∧ str_mem newline s = false.
Proof. intros Hs. split; by apply (str_all_mem uuid_char). Qed.

Lemma print_row_eq r : print_row r =
  itoa (row_index r) ++ ", " ++ row_uuid r ++ ", " ++ itoa (row_total r) ++ ", " ++
  itoa (row_used r) ++ ", " ++ itoa (row_util r).
Proof. reflexivity. Qed.

Lemma print_row_neat r : row_ok r → neat (print_row r) = true.
Proof.
  intros (_ & _ & _ & _ & Hne & Hu). rewrite print_row_eq.
  repeat apply neat_app; try apply neat_itoa. by apply str_all_neat, uuid_plain.
Qed.

Lemma print_row_line r : row_ok r → str_mem newline (print_row r) = false.
Proof.
  intros (_ & _ & _ & _ & _ & Hu). rewrite print_row_eq, !str_mem_app, !itoa_without by done.
  by rewrite (proj2 (uuid_without _ Hu)).
Qed.

Lemma parse_print_line nodeName r : row_ok r → parse_line nodeName (print_row r) = Ok (row_gpu nodeName r).
Proof.
  intros (Hi & Ht & Hs & Hp & Hne & Hu). unfold parse_line. rewrite print_row_eq.
  rewrite !split_str_app by first [by apply itoa_without | by apply uuid_without].
  rewrite split_str_free by by apply itoa_without.
  rewrite !int_field_itoa by done. cbn.
  by rewrite (trim_space_neat (row_uuid r)) by by apply str_all_neat, uuid_plain.
Qed.

Lemma parse_print_lines nodeName rs :
  Forall row_ok rs → parse_lines nodeName (print_row <$> rs) = Ok (row_gpu nodeName <$> rs).
Proof.
  induction 1 as [|r rs Hr _ IH]; [done|]. pose proof (print_row_neat r Hr) as Hn.
  cbn [fmap list_fmap parse_lines]. rewrite (trim_space_neat _ Hn).
  destruct (String.eqb_spec (print_row r) "") as [E|_]; [by rewrite E in Hn|].
  rewrite (parse_print_line nodeName r Hr). cbn. by rewrite IH.
Qed.

Lemma join_neat c rs : Forall row_ok rs → rs ≠ [] → neat (join (String c "") (print_row <$> rs)) = true.
Proof.
  induction 1 as [|r rs Hr Hrs IH]; [done|]. intros _. destruct Hrs as [|r2 rs Hr2 Hrs].
  - by apply print_row_neat.
  - cbn [fmap list_fmap]. rewrite join_cons.
    apply (neat_app _ (String c "")); [by apply print_row_neat|]. by apply IH.
Qed.

(** Parsing what nvidia-smi prints gives back the GPUs it printed.  For a
    non-empty table whose numbers are [int]s and whose identifiers are visible
    characters without commas, the output parses to one healthy GPU per row, in
    order, with the row's identifier, index, memory and utilisation. *)
Theorem smi_roundtrip nodeName rs :
  rs ≠ [] → Forall row_ok rs → parse_output nodeName (print_rows rs) = Ok (row_gpu nodeName <$> rs).
Proof.
  intros Hne Hrs. unfold parse_output, print_rows.
  rewrite trim_space_newline by by apply join_neat.
  rewrite split_join.
  - rewrite parse_print_lines by done. by destruct rs.
  - by destruct rs.
  - apply Forall_fmap. by eapply Forall_impl; [exact Hrs|apply print_row_line].
Qed.

(** ** Witness *)
Definition sample_rows : list Row :=
  [mkRow 0 "GPU-5f2a" 81559 1024 37; mkRow 1 "GPU-77c1" 81559 0 0].

Lemma smi_roundtrip_witness :
  gpu_ID <$> (match parse_output "node-a" (print_rows sample_rows) with Ok gpus => gpus | Err _ => [] end) =
  ["GPU-5f2a"; "GPU-77c1"].
Proof.
  rewrite (smi_roundtrip "node-a" sample_rows); [done|done|].
  repeat constructor; try done; cbn; lia.
Defined.

(** ** Findings *)

(** One field that is not a number, such as the utilisation of a GPU in MIG
    mode, fails the discovery of every GPU of the machine. *)
Lemma one_bad_field_fails_all :
  parse_output "node-a" (print_row (mkRow 0 "GPU-5f2a" 81559 1024 37) ++ String newline
    ("1, GPU-77c1, 81559, 0, [N/A]" ++ String newline "")) = Err (ESmiUtil "[N/A]").
Proof. by vm_compute. Qed.
