(* ===== verification/GangTest.v ===== *)
(** * cmd/gangtest: the gang-scheduling test program

    The program discovers the GPUs of the machine, runs a table of gang requests
    through both strategies, checks the answers, and schedules a workload through
    the manager.  What it prints is left out, except for the bars, whose drawing
    can panic; a test's answer is whether it passed.  The workload's process is an argument. *)

From Stdlib Require Import ZArith Lia Ascii String.
From stdpp Require Import base option list strings gmap.
From S2P Require Import Prelude GoFloat GoStrings Types Strategy Binpack Fifo Manager Nvml.
Open Scope string_scope.
Open Scope Z_scope.
Open Scope go_scope.

(** ** The table of requests *)
Record gangTest : Type := mkGangTest {
  gt_name : string;
  gt_gpuCount : Z;
  gt_memoryMB : Z;
  gt_memoryMode : string;
  gt_expectFail : bool;
  gt_skip : bool
}.

Definition safe_memory (sampleGPU : GPU) : Z :=
  let safeMem := AvailableMemoryMB sampleGPU ⊘ 4 in if safeMem <? 1 then 1 else safeMem.

Definition gang_tests (safeMem gpuCount : Z) : list gangTest :=
  ([mkGangTest "MemoryPerGPU mode" (Z.min 2 gpuCount) safeMem MemoryPerGPU false (gpuCount <? 2);
    mkGangTest "MemoryTotal mode (split across GPUs)" (Z.min 2 gpuCount) (safeMem ⊠ 2) MemoryTotal false (gpuCount <? 2);
    mkGangTest "MemoryNone mode (no memory requirement)" (Z.min 2 gpuCount) 0 MemoryNone false (gpuCount <? 2);
    mkGangTest "Request more GPUs than available (expect failure)" (gpuCount ⊞ 1) safeMem MemoryPerGPU true false] ++
   (if gpuCount >=? 4 then [mkGangTest "Gang schedule all GPUs" gpuCount safeMem MemoryPerGPU false false] else []))%list.

(** [nodes[0].GPUs[0]] panics when there is none. *)
Definition buildTests (nodes : list NodeInfo) (gpuCount : Z) : outcome (list gangTest) :=
  match nodes with
  | node :: _ => match node_GPUs node with
                 | sampleGPU :: _ => Done (gang_tests (safe_memory sampleGPU) gpuCount)
                 | [] => Panicked
                 end
  | [] => Panicked
  end.

Definition test_job (jobID : string) (tt : gangTest) : Job :=
  mkJob jobID ("test-" ++ gt_name tt) "" (gt_gpuCount tt) (gt_memoryMB tt) "" false.

Definition same_node (placements : list GPUPlacement) (nodeName : string) : bool :=
  forallb (λ p, String.eqb (gp_NodeName p) nodeName) placements.

Definition runTest (jobID : string) (tt : gangTest) (strategy : SchedulingStrategy) (nodes : list NodeInfo) :
    outcome bool :=
  if gt_skip tt then Done true
  else
    res ← ScheduleGang (Some (test_job jobID tt)) nodes (gt_gpuCount tt) (gt_memoryMode tt);
    match res with
    | Err _ => Done (gt_expectFail tt)
    | Ok result =>
        if gt_expectFail tt then Done false
        else if negb (Z.of_nat (length (gsr_Placements result)) =? gt_gpuCount tt) then Done false
        else match gsr_Placements result with
             | [] => Panicked
             | p0 :: _ => Done (same_node (gsr_Placements result) (gp_NodeName p0))
             end
    end.

(** The counts of passed and failed tests. *)
Definition count (ok : bool) (pf : Z * Z) : Z * Z := if ok then (pf.1 ⊞ 1, pf.2) else (pf.1, pf.2 ⊞ 1).

(** The passed and the failed tests of one strategy. *)
Definition run_strategy (uuid : nat → string) (strategy : SchedulingStrategy) (nodes : list NodeInfo) (gpuCount : Z) :
    outcome (Z * Z) :=
  tests ← buildTests nodes gpuCount;
  foldM (λ pf it, ok ← runTest (uuid it.1) it.2 strategy nodes;
    Done (count ok pf)) (0, 0) (imap pair tests).

(** ** The bars *)

(** [strings.Repeat] panics on a negative count. *)
Definition repeat_str (s : string) (n : Z) : outcome string :=
  if n <? 0 then Panicked else Done (String.concat "" (replicate (Z.to_nat n) s)).

Definition memoryBar (used total : Z) : outcome string :=
  if total =? 0 then Done "[          ]"
  else
    let filled := f64_to_int (f64_mul (f64_div (f64_of_int used) (f64_of_int total)) (f64_of_int 10)) in
    let filled := if filled >? 10 then 10 else filled in
    full ← repeat_str "#" filled;
    empty ← repeat_str "." (10 - filled);
    Done ("[" ++ full ++ empty ++ "]").

(** [printGPUStatus] draws a bar for every GPU. *)
Definition printGPUStatus (nodes : list NodeInfo) : outcome unit :=
  foldM (λ _ g, _ ← memoryBar (gpu_UsedMemoryMB g) (gpu_TotalMemoryMB g); Done tt) tt (nodes ≫= node_GPUs).

(** ** Through the manager *)
Section manager.
Context {D : Type} `{GPUDiscoverer D}.

(** The manager afterwards and whether the test passed; [order] is how the maps
    are ranged over. *)
Definition runManagerAllocationTest (jobID jobID2 : string) (order : list string) (nodes : list NodeInfo)
    (m : Manager D) : outcome (Manager D * bool) :=
  match nodes with
  | [] => Panicked
  | node :: _ =>
      match node_GPUs node with
      | [] | [_] => Done (m, true)
      | firstGPU :: _ =>
          let allocMem := AvailableMemoryMB firstGPU ⊟ 100 in
          if allocMem <? 1 then Done (m, true)
          else
            match Manager_Allocate jobID (gpu_ID firstGPU) allocMem order m with
            | Err _ => Done (m, false)
            | Ok m1 =>
                sched ← BinPacker_ScheduleGang
                  (Some (mkJob jobID2 "test-post-alloc" "" 2 500 "" false)) (Manager_GetNodes order m1) 2 MemoryPerGPU;
                let m2 := match Manager_Release jobID m1 with Ok m2 => m2 | Err _ => m1 end in
                Done (m2, negb ((3 <=? Z.of_nat (length (node_GPUs node))) && negb (is_ok sched)))
            end
      end
  end.

(** One allocation for each GPU of the gang; the first failure gives all back. *)
Fixpoint allocate_gang (jobID : string) (order : list string) (ps : list GPUPlacement) (m : Manager D) :
    Manager D * bool :=
  match ps with
  | [] => (m, true)
  | p :: ps =>
      match Manager_Allocate jobID (gp_GPUID p) (gp_MemoryMB p) order m with
      | Err _ => (match Manager_Release jobID m with Ok m' => m' | Err _ => m end, false)
      | Ok m' => allocate_gang jobID order ps m'
      end
  end.

(** The indices of the gang's GPUs on the first node, as the workload sees them. *)
Definition cuda_devices (gpus : list GPU) (ps : list GPUPlacement) : string :=
  join "," (omap (λ p, (λ g, itoa (gpu_Index g)) <$> List.find (λ g, String.eqb (gpu_ID g) (gp_GPUID p)) gpus) ps).

(** [findScript]: [exists_at] tells whether a file is there, [exe] is the program. *)
Definition findScript (exists_at : string → bool) (exe : result string string) (dir : string → string) (name : string) :
    string :=
  if exists_at name then name
  else match exe with
       | Ok e => let p := dir e ++ "/" ++ name in if exists_at p then p else ""
       | Err _ => ""
       end.

(** The workload's process: the devices it is given and the manager as its
    refreshes leave it, or why it failed. *)
Definition runWorkloadTest (jobID script : string) (python : bool) (order : list string) (nodes : list NodeInfo)
    (gpuCount : Z) (process : string → Manager D → Manager D * option string) (m : Manager D) :
    outcome (Manager D * bool) :=
  if String.eqb script "" || negb python then Done (m, false)
  else
    let useGPUs := Z.min gpuCount 4 in
    res ← BinPacker_ScheduleGang (Some (mkJob jobID "ddp-training-test" "" useGPUs 2000 "" false)) nodes useGPUs MemoryPerGPU;
    match res with
    | Err _ => Done (m, false)
    | Ok result =>
        match allocate_gang jobID order (gsr_Placements result) m, nodes with
        | (m1, false), _ => Done (m1, false)
        | (m1, true), [] => Panicked
        | (m1, true), node :: _ =>
            _ ← printGPUStatus (Manager_GetNodes order m1);
            let (m2, failed) := process (cuda_devices (node_GPUs node) (gsr_Placements result)) m1 in
            let m3 := match Manager_Release jobID m2 with Ok m' => m' | Err _ => m2 end in
            match failed with
            | Some _ => Done (m3, false)
            | None =>
                let (m4, _) := RefreshAll order m3 in
                _ ← printGPUStatus (Manager_GetNodes order m4);
                Done (m4, (size (GetAllocations m4) =? 0)%nat)
            end
        end
    end.
End manager.

(** ** main *)

Section main.
Context {D : Type} `{GPUDiscoverer D}.

(** After the manager is there: [strategies] in the order of their map, [uuid] the
    identifiers drawn, the k-th strategy's i-th test being [uuid k i].  The result
    is the exit code. *)
Definition run_tests (strategies : list SchedulingStrategy) (uuid : nat → nat → string) (script : string) (python : bool)
    (order : list string) (process : string → Manager D → Manager D * option string) (m : Manager D) : outcome Z :=
  let nodes := Manager_GetNodes order m in
  match nodes with
  | [] => Done 1
  | node :: _ =>
      let gpuCount := Z.of_nat (length (node_GPUs node)) in
      pf ← foldM (λ pf ks, r ← run_strategy (uuid ks.1) ks.2 nodes gpuCount; Done (pf.1 ⊞ r.1, pf.2 ⊞ r.2)) (0, 0)
             (imap pair strategies);
      mo ← runManagerAllocationTest (uuid 2%nat 0%nat) (uuid 2%nat 1%nat) order nodes m;
      let pf := count mo.2 pf in
      pf ← (if gpuCount <? 2 then Done pf
            else wo ← runWorkloadTest (uuid 3%nat 0%nat) script python order nodes gpuCount process mo.1;
                 Done (count wo.2 pf));
      Done (if pf.2 >? 0 then 1 else 0)
  end.

Definition gangtest_main (discoverer : result string D) (strategies : list SchedulingStrategy)
    (uuid : nat → nat → string) (script : string) (python : bool) (order : list string)
    (process : string → Manager D → Manager D * option string) : outcome Z :=
  match discoverer with
  | Err _ => Done 1
  | Ok d =>
      match NewManager d "" with
      | Err _ => Done 1
      | Ok m => run_tests strategies uuid script python order process m
      end
  end.
End main.

(** ** Theorems *)

(** A GPU that is healthy, carries no pod and has this much memory left. *)
Definition idle_gpu (memoryMB : Z) (g : GPU) : Prop :=
  gpu_IsHealthy g = true ∧ gpu_AllocatedPods g ≤ 0 ∧ 1 ≤ memoryMB ≤ AvailableMemoryMB g.

Lemma idle_eligible mem req g : idle_gpu mem g → req ≤ mem → eligible false req g = true.
Proof. intros (Hh & Hp & Hm) Hr. apply eligible_true. split_and!; [done|by right|right; lia|lia]. Qed.

Lemma idle_filter mem req gpus :
  Forall (idle_gpu mem) gpus → req ≤ mem → List.filter (eligible false req) gpus = gpus.
Proof.
  intros Hall Hr. induction Hall as [|g l Hg _ IH]; [done|]. cbn. by rewrite (idle_eligible _ _ _ Hg Hr), IH.
Qed.

Lemma same_node_placed node mem gpus : same_node (placed_on node mem <$> gpus) (node_Name node) = true.
Proof. apply forallb_forall. intros p (g & -> & _)%list_elem_of_In%list_elem_of_fmap. apply String.eqb_refl. Qed.

Section tests.
Context (strategy : SchedulingStrategy) `{!StrategyLaws strategy} (jobID : string) (node : NodeInfo).

(** A request for no more GPUs than the node has, of memory they have, passes. *)
Lemma runTest_fits mem t :
  Forall (idle_gpu mem) (node_GPUs node) → 0 < gt_gpuCount t ≤ Z.of_nat (length (node_GPUs node)) →
  gt_memoryMode t ∈ [MemoryTotal; MemoryPerGPU; MemoryNone] → gt_expectFail t = false →
  gang_share (test_job jobID t) (gt_gpuCount t) (gt_memoryMode t) ≤ mem →
  runTest jobID t strategy [node] = Done true.
Proof.
  intros Hall Hn Hmode Hok Hmem. unfold runTest. destruct (gt_skip t); [done|].
  destruct (gang_complete (test_job jobID t) [node] (gt_gpuCount t) (gt_memoryMode t) node) as [r Hr];
    [lia|done|by left|by rewrite (idle_filter mem); [lia|done|done]|].
  rewrite Hr. cbn. rewrite Hok. apply gang_sound in Hr as (_ & nd & gpus & Hnd & _ & Hlen & _ & ->).
  apply list_elem_of_singleton in Hnd as ->. cbn [gsr_Placements]. rewrite length_fmap, Hlen, Z.eqb_refl. cbn [negb].
  destruct gpus as [|g gpus]; [cbn in Hlen; lia|]. cbn [fmap list_fmap]. f_equal.
  apply (same_node_placed node _ (g :: gpus)).
Qed.

(** A request for more GPUs than the node has fails, as expected. *)
Lemma runTest_too_many t :
  Z.of_nat (length (node_GPUs node)) < gt_gpuCount t → gt_expectFail t = true →
  runTest jobID t strategy [node] = Done true.
Proof.
  intros Hn Hf. unfold runTest. destruct (gt_skip t); [done|].
  destruct (gang_total (test_job jobID t) [node] (gt_gpuCount t) (gt_memoryMode t)) as [[r|e] Hr]; rewrite Hr; cbn;
    [exfalso|by rewrite Hf].
  apply gang_sound in Hr as (_ & nd & gpus & Hnd & Hsub & Hlen & _). apply list_elem_of_singleton in Hnd as ->.
  apply submseteq_length in Hsub. lia.
Qed.

Lemma total_share mem : 1 ≤ mem → mem * 2 + 2 ≤ int_max → share_of (mem * 2) 2 = mem.
Proof.
  intros H1 H2. unfold share_of. assert (mem * 2 ⊞ 2 ⊟ 1 = mem * 2 + 1) as -> by int_solve.
  rewrite Z.quot_div_nonneg by lia. replace ((mem * 2 + 1) / 2) with mem; [int_solve|].
  apply (Z.div_unique _ _ _ 1); lia.
Qed.

(** The program's table passes for every strategy that keeps the contract, on any
    machine whose GPUs are idle and have a quarter of the first one's memory. *)
Theorem gang_tests_pass :
  let n := Z.of_nat (length (node_GPUs node)) in
  ∀ g0 gpus, node_GPUs node = g0 :: gpus →
  Forall (idle_gpu (safe_memory g0)) (node_GPUs node) → safe_memory g0 * 2 + 2 ≤ int_max → n < int_max →
  ∃ tests, buildTests [node] n = Done tests ∧
    (4 ≤ n → length tests = 5%nat) ∧ Forall (λ t, runTest jobID t strategy [node] = Done true) tests.
Proof.
  intros n g0 gpus Eg Hall Hmax Hn. unfold buildTests. rewrite Eg. eexists. split; [done|].
  set (safe := safe_memory g0) in *. assert (1 ≤ safe) as Hs.
  { rewrite Eg in Hall. apply Forall_cons in Hall as [(_ & _ & [? _]) _]. done. }
  assert (1 ≤ n) as Hpos by (unfold n; rewrite Eg; cbn; lia).
  assert (n ⊞ 1 = n + 1) as En by int_solve. assert (safe ⊠ 2 = safe * 2) as Em by int_solve.
  assert (∀ t, n < 2 → gt_skip t = (n <? 2) → runTest jobID t strategy [node] = Done true) as Hskip.
  { intros t Hlt Ht. unfold runTest. by rewrite Ht, (proj2 (Z.ltb_lt _ _) Hlt). }
  unfold gang_tests. rewrite En, Em. split.
  { intros H4. rewrite Z.geb_leb, (proj2 (Z.leb_le _ _) H4). done. }
  assert (∀ t, gt_skip t = (n <? 2) → gt_gpuCount t = Z.min 2 n → gt_expectFail t = false →
    gt_memoryMode t ∈ [MemoryTotal; MemoryPerGPU; MemoryNone] →
    gang_share (test_job jobID t) 2 (gt_memoryMode t) ≤ safe → runTest jobID t strategy [node] = Done true) as Htwo.
  { intros t Ht Hc Hf Hmode Hshare. destruct (Z.lt_ge_cases n 2) as [Hlt|Hge]; [by apply Hskip|].
    rewrite Z.min_l in Hc by lia. apply (runTest_fits safe); try done; rewrite Hc; [lia|done]. }
  apply Forall_app. split.
  - repeat apply Forall_cons_2; try apply Forall_nil_2.
    + apply Htwo; try done. right; by left.
    + apply Htwo; try done; [by left|]. change (share_of (safe * 2) 2 ≤ safe). by rewrite total_share.
    + apply Htwo; try done; [by right; right; left|]. change (0 ≤ safe). lia.
    + apply runTest_too_many; [cbn; fold n; lia|done].
  - destruct (Z.geb_spec n 4); [|constructor]. apply Forall_singleton.
    apply (runTest_fits safe); try done; [cbn; fold n; lia|right; by left].
Qed.
End tests.

(** The manager's test leaves the manager as it was. *)
Theorem manager_test_restores {D} `{GPUDiscoverer D} (m m' : Manager D) jobID jobID2 order nodes ok :
  range_order (mgr_nodes m) order → ids_unique m →
  (∀ k i g, gpu_at m k i g → in_int (gpu_UsedMemoryMB g)) → mgr_allocations m !! jobID = None →
  runManagerAllocationTest jobID jobID2 order nodes m = Done (m', ok) → m' = m.
Proof.
  intros Ho Hu Hint Hnone. unfold runManagerAllocationTest. destruct nodes as [|node nodes]; [done|].
  destruct (node_GPUs node) as [|g0 [|g1 gpus]]; [by intros [= <- _]..|].
  destruct (Z.ltb_spec (AvailableMemoryMB g0 ⊟ 100) 1); [by intros [= <- _]|].
  destruct (Manager_Allocate _ _ _ _ _) as [m1|e] eqn:Ea; [|by intros [= <- _]].
  intros (sched & _ & Hm)%outcome_bind_done. cbv zeta in Hm.
  rewrite (Allocate_Release_id m order jobID (gpu_ID g0) (AvailableMemoryMB g0 ⊟ 100) m1 Ho Hu Hint Hnone ltac:(lia) Ea) in Hm. by injection Hm as <- _.
Qed.

Lemma count_all_passed (uuid : nat → string) strategy nodes its p :
  Forall (λ it : nat * gangTest, runTest (uuid it.1) it.2 strategy nodes = Done true) its →
  ∃ p', foldM (λ pf it, ok ← runTest (uuid it.1) it.2 strategy nodes; Done (count ok pf)) (p, 0) its = Done (p', 0).
Proof.
  intros Hall. revert p. induction Hall as [|it its Hit _ IH]; intros p; cbn [foldM]; [by eexists|].
  rewrite Hit. cbn. apply IH.
Qed.

Lemma run_strategy_passes (uuid : nat → string) strategy `{!StrategyLaws strategy} node g0 gpus :
  let n := Z.of_nat (length (node_GPUs node)) in
  node_GPUs node = g0 :: gpus → Forall (idle_gpu (safe_memory g0)) (node_GPUs node) →
  safe_memory g0 * 2 + 2 ≤ int_max → n < int_max → ∃ p, run_strategy uuid strategy [node] n = Done (p, 0).
Proof.
  intros n Eg Hall Hmax Hn. unfold run_strategy.
  destruct (gang_tests_pass strategy (uuid 0%nat) node g0 gpus Eg Hall Hmax Hn) as (tests & Et & _ & _).
  fold n in Et. rewrite Et. cbn [mbind outcome_bind]. apply count_all_passed, Forall_lookup. intros i [k t] Hk.
  apply list_lookup_imap_Some in Hk as (t' & Ht & [= -> ->]).
  destruct (gang_tests_pass strategy (uuid i) node g0 gpus Eg Hall Hmax Hn) as (tests' & Et' & _ & Hp).
  assert (tests' = tests) as -> by (fold n in Et'; congruence). exact (Forall_lookup_1 _ _ _ _ Hp Ht).
Qed.

(** On an idle machine the exit code tells how the tests through the manager went:
    the tables of both strategies pass. *)
Theorem idle_machine_exit {D} `{GPUDiscoverer D} (uuid : nat → nat → string) script python order process (m : Manager D) node g0 gpus :
  let n := Z.of_nat (length (node_GPUs node)) in
  Manager_GetNodes order m = [node] → node_GPUs node = g0 :: gpus →
  Forall (idle_gpu (safe_memory g0)) (node_GPUs node) → safe_memory g0 * 2 + 2 ≤ int_max → n < int_max →
  run_tests [BinPacker; FIFOScheduler] uuid script python order process m =
    ('(m', ok) ← runManagerAllocationTest (uuid 2%nat 0%nat) (uuid 2%nat 1%nat) order [node] m;
     if n <? 2 then Done (if ok : bool then 0 else 1)
     else '(_, wok) ← runWorkloadTest (uuid 3%nat 0%nat) script python order [node] n process m';
          Done (if ok && wok then 0 else 1)).
Proof.
  intros n Hnodes Eg Hall Hmax Hn. unfold run_tests. rewrite Hnodes.
  destruct (run_strategy_passes (uuid 0%nat) BinPacker node g0 gpus Eg Hall Hmax Hn) as [p0 E0].
  destruct (run_strategy_passes (uuid 1%nat) FIFOScheduler node g0 gpus Eg Hall Hmax Hn) as [p1 E1].
  fold n in E0, E1 |- *. cbn [imap foldM fst snd]. unfold compose. cbn [imap].
  rewrite E0. cbn [mbind outcome_bind fst snd]. change (imap _ []) with (@nil (nat * SchedulingStrategy)).
  rewrite E1. cbn [mbind outcome_bind fst snd foldM].
  destruct (runManagerAllocationTest _ _ _ _ m) as [[m1 ok]|]; [|done]. cbn [mbind outcome_bind fst snd].
  destruct (n <? 2).
  - by destruct ok.
  - destruct (runWorkloadTest _ _ _ _ _ _ _ _) as [[m2 wok]|]; [|done]. by destruct ok, wok.
Qed.

(** ** Examples *)
Definition test_node (n : nat) : NodeInfo :=
  sample_node "node-a" ((λ i, sample_gpu ("GPU-" ++ itoa (Z.of_nat i)) "node-a" 24000 0 0) <$> seq 0 n).

Example four_gpus_pass :
  run_strategy (λ i, itoa (Z.of_nat i)) BinPacker [test_node 4] 4 = Done (5, 0) ∧
  run_strategy (λ i, itoa (Z.of_nat i)) FIFOScheduler [test_node 4] 4 = Done (5, 0).
Proof. by vm_compute. Qed.

Example bars : memoryBar 12000 40960 = Done "[##........]" ∧ memoryBar (-9000) 24000 = Panicked.
Proof. by vm_compute. Qed.

(** ** Findings *)

(** A machine without GPUs is a node without GPUs, on which the table panics. *)
Lemma no_gpu_panics : run_strategy (λ i, itoa (Z.of_nat i)) BinPacker [test_node 0] 0 = Panicked.
Proof. reflexivity. Qed.
