(* ===== verification/Agent.v ===== *)
(** * internal/agent: collecting and reporting the GPUs of a node

    [Collect] of nvml_linux.go reads the devices through NVML and [reportOnce] of
    reporter.go posts the result to the scheduler.  NVML is the class [NVML]: a
    query answers a value or a return code, and the constants the code compares
    with are fields, as the library defines them.  An agent is a [NVMLProvider],
    of which the NVML implementation and the mock of nvml_mac.go are instances. *)

From Stdlib Require Import ZArith Lia Ascii String.
From stdpp Require Import base option list strings gmap.
From S2P Require Import Prelude GoFloat GoStrings Types K8s Registry Watcher Http Workers Scenario.
Open Scope string_scope.
Open Scope Z_scope.
Open Scope go_scope.

(** ** NVML *)
Inductive NvmlReturn : Type :=
  | ERROR_NOT_FOUND
  | ERROR_INVALID_ARGUMENT
  | ERROR_OTHER (code : Z).

(** Memory is in bytes, as [uint64]. *)
Record MemoryInfo : Type := mkMemoryInfo {
  mi_Total : Z;
  mi_Used : Z;
  mi_Free : Z
}.

(** [uint32] counts; the memory is [uint64]. *)
Record MigAttributes : Type := mkMigAttributes {
  ma_MultiprocessorCount : Z;
  ma_GpuInstanceSliceCount : Z;
  ma_MemorySizeMB : Z
}.

Class NVML (D : Type) : Type := {
  ErrorString : NvmlReturn → string;
  DeviceGetCount : result NvmlReturn nat;
  DeviceGetHandleByIndex : nat → result NvmlReturn D;
  GetUUID : D → result NvmlReturn string;
  GetName : D → result NvmlReturn string;
  GetMemoryInfo : D → result NvmlReturn MemoryInfo;
  GetUtilizationRates : D → result NvmlReturn Z;
  GetTemperature : D → result NvmlReturn Z;
  GetCurrentClocksThrottleReasons : D → result NvmlReturn Z;
  GetMigMode : D → result NvmlReturn Z;
  GetMaxMigDeviceCount : D → result NvmlReturn nat;
  GetMigDeviceHandleByIndex : D → nat → result NvmlReturn D;
  GetAttributes : D → result NvmlReturn MigAttributes;
  GetGpuInstanceId : D → result NvmlReturn Z;
  GetComputeMode : D → result NvmlReturn Z;
  GetP2PStatus : D → D → result NvmlReturn Z;
  P2P_STATUS_OK : Z;
  DEVICE_MIG_ENABLE : Z;
  COMPUTEMODE_EXCLUSIVE_PROCESS : Z;
  ClocksThrottleReasonGpuIdle : Z;
  ClocksThrottleReasonApplicationsClocksSetting : Z;
  ClocksThrottleReasonUserDefinedClocks : Z
}.

(** ** The provider interface (types.go) *)
Class NVMLProvider (P : Type) : Type := {
  Collect : P → string → result string GPUReport
}.

Section collect.
Context {D : Type} `{NVML D}.

(** [if ret != nvml.SUCCESS { return ..., fmt.Errorf(prefix + "%v", ...) }] *)
Definition required {A} (prefix : string) (r : result NvmlReturn A) : result string A :=
  match r with Ok a => Ok a | Err ret => Err (prefix ++ ErrorString ret) end.

(** [if ret == nvml.SUCCESS { ... }], the default when the query fails. *)
Definition optional {A B} (default : B) (f : A → B) (r : result NvmlReturn A) : B :=
  match r with Ok a => f a | Err _ => default end.

Definition wrap {A} (prefix : string) (r : result string A) : result string A :=
  match r with Ok a => Ok a | Err e => Err (prefix ++ e) end.

Definition to_MB (bytes : Z) : Z := bytes / 1024 / 1024.

(** [throttle & ^uint64(harmlessThrottles) != 0] makes a device unhealthy. *)
Definition harmlessThrottles : Z :=
  Z.lor (Z.lor ClocksThrottleReasonGpuIdle ClocksThrottleReasonApplicationsClocksSetting)
    ClocksThrottleReasonUserDefinedClocks.

Definition healthy (throttle : Z) : bool := Z.ldiff throttle harmlessThrottles =? 0.

(** ** MIG instances *)
Definition mig_profile (attrs : MigAttributes) : string :=
  "MIG-" ++ itoa (ma_MultiprocessorCount attrs) ++ "g." ++ itoa (ma_MemorySizeMB attrs / 1024) ++ "gb".

(** One turn of the loop; [None] is a slot that is not populated. *)
Definition mig_instance (device : D) (gi : nat) : result string (option MIGInstance) :=
  let at_slot name := "mig " ++ name ++ "(" ++ itoa (Z.of_nat gi) ++ "): " in
  match GetMigDeviceHandleByIndex device gi with
  | Err ERROR_NOT_FOUND | Err ERROR_INVALID_ARGUMENT => Ok None
  | Err (ERROR_OTHER _ as ret) =>
      Err ("GetMigDeviceHandleByIndex(" ++ itoa (Z.of_nat gi) ++ "): " ++ ErrorString ret)
  | Ok migDevice =>
      uuid ← required (at_slot "GetUUID") (GetUUID migDevice);
      attrs ← required (at_slot "GetAttributes") (GetAttributes migDevice);
      profileID ← required (at_slot "GetGpuInstanceId") (GetGpuInstanceId migDevice);
      Ok (Some (mkMIGInstance (Z.of_nat gi) 0 uuid (mig_profile attrs) profileID
        (wrap64 (ma_MemorySizeMB attrs)) (ma_MultiprocessorCount attrs)
        (ma_GpuInstanceSliceCount attrs) (ma_GpuInstanceSliceCount attrs) true))
  end.

Definition collectMIGInstances (device : D) : result string (list MIGInstance) :=
  maxMIGDevices ← required "GetMaxMigDeviceCount: " (GetMaxMigDeviceCount device);
  instances ← mapM (mig_instance device) (seq 0 maxMIGDevices);
  Ok (omap id instances).

(** ** One device *)
Definition mig_mode (device : D) : bool := optional false (λ m, m =? DEVICE_MIG_ENABLE) (GetMigMode device).

Definition collectGPUInfo (device : D) (index : nat) : result string GPUInfo :=
  uuid ← required "GetUUID: " (GetUUID device);
  name ← required "GetName: " (GetName device);
  memInfo ← required "GetMemoryInfo: " (GetMemoryInfo device);
  let MIGEnabled := mig_mode device in
  instances ← (if MIGEnabled then wrap "collectMIGInstances: " (collectMIGInstances device) else Ok []);
  Ok (mkGPUInfo uuid (Z.of_nat index) name (to_MB (mi_Total memInfo)) (to_MB (mi_Used memInfo))
        (to_MB (mi_Free memInfo)) (optional 0 id (GetUtilizationRates device))
        (optional 0 id (GetTemperature device))
        (optional true healthy (GetCurrentClocksThrottleReasons device))
        (optional false (λ m, m =? COMPUTEMODE_EXCLUSIVE_PROCESS) (GetComputeMode device))
        MIGEnabled instances).

(** ** NVLink *)
Definition linked (a b : D) : bool := optional false (λ s, s =? P2P_STATUS_OK) (GetP2PStatus a b).

(** The double loop over [i < j]. *)
Fixpoint any_linked (devices : list D) : bool :=
  match devices with
  | [] => false
  | d :: rest => existsb (linked d) rest || any_linked rest
  end.

(** [override] is the value of GPU_SCHEDULER_AGENT_HAS_NVLINK_OVERRIDE. *)
Definition collectHasNVLink (override : string) (devices : list D) : bool :=
  match (if String.eqb override "" then None else parse_bool override) with
  | Some value => value
  | None => any_linked devices
  end.

(** ** The report *)
Definition collect_device (i : nat) : result string (D * GPUInfo) :=
  let prefix := "failed to get device handle for index " ++ itoa (Z.of_nat i) ++ ": " in
  device ← required prefix (DeviceGetHandleByIndex i);
  gpu ← wrap ("failed to collect info for device " ++ itoa (Z.of_nat i) ++ ": ") (collectGPUInfo device i);
  Ok (device, gpu).

Definition NVML_Collect (override nodeName : string) : result string GPUReport :=
  deviceCount ← required "failed to get device count: " DeviceGetCount;
  found ← mapM collect_device (seq 0 deviceCount);
  Ok (mkGPUReport nodeName (collectHasNVLink override found.*1) found.*2).
End collect.

(** The provider over a machine's NVML, with the override in its environment. *)
Record NVMLProviderImpl (D : Type) : Type := mkNVMLProviderImpl { np_override : string }.
Arguments np_override {D}.
Arguments mkNVMLProviderImpl {D}.

#[export] Instance nvml_provider {D} `{NVML D} : NVMLProvider (NVMLProviderImpl D) := {|
  Collect := λ p, NVML_Collect (np_override p)
|}.

(** ** The mock (nvml_mac.go) *)
Record MockNVMLProvider : Type := mkMockNVMLProvider { mp_MockGPUs : list GPUInfo }.

#[export] Instance mock_provider : NVMLProvider MockNVMLProvider := {|
  Collect := λ m nodeName, Ok (mkGPUReport nodeName false (mp_MockGPUs m))
|}.

Definition mock_mig (gi start : Z) : MIGInstance :=
  mkMIGInstance gi 0 ("MIG-MOCK-0/" ++ itoa gi ++ "/0") "1g.5gb" 19 4864 14 start 1 true.

Definition defaultMockMIGInstances : list MIGInstance :=
  [mock_mig 7 4; mock_mig 8 5; mock_mig 9 6; mock_mig 11 0; mock_mig 12 1; mock_mig 13 2; mock_mig 14 3].

Definition defaultMockGPUs : list GPUInfo :=
  [mkGPUInfo "GPU-MOCK-0000-0000-0000-000000000000" 0 "NVIDIA A100-SXM4-40GB" 40960 12000 28960 45 52
     true false false [];
   mkGPUInfo "GPU-MOCK-0000-0000-0000-000000000001" 1 "NVIDIA A100-SXM4-40GB" 40960 0 40960 0 38
     true false true defaultMockMIGInstances].

Definition NewMockNVMLProvider : MockNVMLProvider := mkMockNVMLProvider defaultMockGPUs.

(** ** Reporting (reporter.go) *)

(** [HTTPClient.Post] of the encoded report: the status of the answer. *)
Class ReportClient (N : Type) : Type := {
  PostReport : N → string → GPUReport → N * result string Z
}.

Definition reportOnce {P N} `{NVMLProvider P} `{ReportClient N} (provider : P) (nodeName schedulerURL : string)
    (n : N) : N * option string :=
  match Collect provider nodeName with
  | Err e => (n, Some ("error collecting data from provider " ++ e))
  | Ok report =>
      match PostReport n (schedulerURL ++ "/api/v1/gpu-report") report with
      | (n', Err e) => (n', Some ("error sending post request " ++ e))
      | (n', Ok status) =>
          if negb (status =? 201) && negb (status =? StatusOK)
          then (n', Some ("unexpected status code: " ++ itoa status)) else (n', None)
      end
  end.

(** cmd/gpu-agent/main.go: the handler of /gpus. *)
Inductive AgentAnswer : Type :=
  | GError (status : Z) (msg : string)
  | GReport (report : GPUReport).

Definition gpus_handler {P} `{NVMLProvider P} (provider : P) (nodeName : string) : AgentAnswer :=
  match Collect provider nodeName with
  | Err e => GError StatusInternalServerError e
  | Ok report => GReport report
  end.

(** ** Specification *)

(** Two positions are linked. *)
Definition nvlink_pair {D} `{NVML D} (devices : list D) : Prop :=
  ∃ i j a b, (i < j)%nat ∧ devices !! i = Some a ∧ devices !! j = Some b ∧ linked a b = true.

(** A MIG instance is what NVML says of its slot. *)
Definition mig_of {D} `{NVML D} (d : D) (m : MIGInstance) : Prop :=
  ∃ gi md, mig_GIIndex m = Z.of_nat gi ∧ GetMigDeviceHandleByIndex d gi = Ok md ∧
    GetUUID md = Ok (mig_UUID m) ∧ mig_IsAvailable m = true ∧
    ∃ attrs, GetAttributes md = Ok attrs ∧ mig_MemoryMB m = wrap64 (ma_MemorySizeMB attrs).

(** The entry of a report for the device at a position. *)
Definition gpu_of {D} `{NVML D} (i : nat) (d : D) (g : GPUInfo) : Prop :=
  gi_Index g = Z.of_nat i ∧ DeviceGetHandleByIndex i = Ok d ∧
  GetUUID d = Ok (gi_UUID g) ∧ GetName d = Ok (gi_Name g) ∧
  (∃ mem, GetMemoryInfo d = Ok mem ∧ gi_TotalMemoryMB g = to_MB (mi_Total mem) ∧
     gi_UsedMemoryMB g = to_MB (mi_Used mem) ∧ gi_FreeMemoryMB g = to_MB (mi_Free mem)) ∧
  (gi_IsHealthy g = false ↔ ∃ t n, GetCurrentClocksThrottleReasons d = Ok t ∧
     Z.testbit t n = true ∧ Z.testbit harmlessThrottles n = false) ∧
  (gi_MIGEnabled g = true ↔ GetMigMode d = Ok DEVICE_MIG_ENABLE) ∧
  (gi_MPSEnabled g = true ↔ GetComputeMode d = Ok COMPUTEMODE_EXCLUSIVE_PROCESS) ∧
  (gi_MIGEnabled g = false → gi_MIGInstances g = []) ∧ Forall (mig_of d) (gi_MIGInstances g).

(** What the C library guarantees: memory figures are 64-bit. *)
Definition memory_64 (D : Type) `{NVML D} : Prop :=
  ∀ (d : D) mem, GetMemoryInfo d = Ok mem →
    0 ≤ mi_Total mem < 2 ^ 64 ∧ 0 ≤ mi_Used mem < 2 ^ 64 ∧ 0 ≤ mi_Free mem < 2 ^ 64.

(** Some agent collected the report. *)
Definition collected (rep : GPUReport) : Prop :=
  ∃ (D : Type) (nv : NVML D) override nodeName,
    memory_64 D ∧ NVML_Collect override nodeName = Ok rep.

(** The registry as the scheduler runs it: only agents report, and nothing calls
    [ReleaseGPU], which writes memory figures. *)
Definition agent_op (op : reg_op) : Prop :=
  match op with
  | OpReport _ rep => collected rep
  | OpReleaseGPU _ _ _ => False
  | _ => True
  end.

Inductive agent_reachable : Registry → Prop :=
  | agent_new : agent_reachable NewRegistry
  | agent_step r op r' :
      agent_reachable r → op_ok r op → agent_op op → reg_exec r op = Done r' → agent_reachable r'.

(** ** Lemmas: collecting *)
Section lemmas.
Context {D : Type} `{NVML D}.

Lemma required_ok {A} p (r : result NvmlReturn A) a : required p r = Ok a ↔ r = Ok a.
Proof. destruct r; cbn; split; congruence. Qed.

Lemma wrap_ok {A} p (r : result string A) a : wrap p r = Ok a ↔ r = Ok a.
Proof. destruct r; cbn; split; congruence. Qed.

Lemma optional_true {A} (f : A → bool) (r : result NvmlReturn A) :
  optional false f r = true ↔ ∃ a, r = Ok a ∧ f a = true.
Proof. destruct r; cbn; naive_solver. Qed.

Lemma optional_eqb (c : Z) (r : result NvmlReturn Z) : optional false (λ m, m =? c) r = true ↔ r = Ok c.
Proof.
  rewrite optional_true. split; [|intros ->; exists c; by rewrite Z.eqb_refl].
  by intros (a & -> & ->%Z.eqb_eq).
Qed.

Lemma some_bit z : z ≠ 0 → ∃ n, Z.testbit z n = true.
Proof.
  intros Hz. destruct (Z.lt_trichotomy z 0) as [Hn|[?|Hp]]; [|done|].
  - exists (Z.log2 (Z.pred (- z)) + 1). apply Z.bits_above_log2_neg; lia.
  - exists (Z.log2 z). by apply Z.bit_log2.
Qed.

Lemma healthy_false t :
  healthy t = false ↔ ∃ n, Z.testbit t n = true ∧ Z.testbit harmlessThrottles n = false.
Proof.
  unfold healthy. rewrite Z.eqb_neq. split.
  - intros [n Hn]%some_bit. rewrite Z.ldiff_spec in Hn. apply andb_true_iff in Hn as [Ht Hh].
    exists n. by apply negb_true_iff in Hh.
  - intros (n & Ht & Hh) E. apply (f_equal (λ z, Z.testbit z n)) in E.
    by rewrite Z.ldiff_spec, Ht, Hh, Z.bits_0 in E.
Qed.

Lemma any_linked_pair (devices : list D) : any_linked devices = true ↔ nvlink_pair devices.
Proof.
  unfold nvlink_pair. induction devices as [|d rest IH]; cbn [any_linked]; [split; [done|by intros (? & ? & ? & ? & ? & ? & ?)]|].
  rewrite orb_true_iff, existsb_exists, IH. split.
  - intros [(b & [j Hj]%list_elem_of_In%list_elem_of_lookup & Hl)|(i & j & a & b & Hij & Ha & Hb & Hl)].
    + exists 0%nat, (S j), d, b. split_and!; [lia|done..].
    + exists (S i), (S j), a, b. split_and!; [lia|done..].
  - intros ([|i] & [|j] & a & b & Hij & Ha & Hb & Hl); [lia| |lia|].
    + injection Ha as <-. left. exists b. split; [|done]. apply list_elem_of_In. by eapply list_elem_of_lookup_2.
    + right. exists i, j, a, b. split_and!; [lia|done..].
Qed.

Lemma mig_instance_of device gi m :
  mig_instance device gi = Ok (Some m) → mig_of device m.
Proof.
  unfold mig_instance. intros E. destruct (GetMigDeviceHandleByIndex device gi) as [md|[]] eqn:Eh; try done.
  apply result_bind_ok in E as (uuid & Eu%required_ok & E).
  apply result_bind_ok in E as (attrs & Ea%required_ok & E).
  apply result_bind_ok in E as (pid & _ & E). injection E as <-.
  exists gi, md. split_and!; [done..|]. by exists attrs.
Qed.

Lemma collectMIG_of device ms : collectMIGInstances device = Ok ms → Forall (mig_of device) ms.
Proof.
  unfold collectMIGInstances. intros (n & _ & (insts & Hm%mapM_ok & [= <-])%result_bind_ok)%result_bind_ok.
  apply Forall_forall. intros m (o & Ho & Hid)%list_elem_of_omap. cbn in Hid. subst o.
  apply list_elem_of_lookup in Ho as [i Hi]. destruct (Forall2_lookup_r _ _ _ _ _ Hm Hi) as (gi & _ & E).
  by eapply mig_instance_of.
Qed.

Lemma collect_device_of i d g : collect_device i = Ok (d, g) → gpu_of i d g.
Proof.
  unfold collect_device. intros (d' & Ed%required_ok & E)%result_bind_ok.
  apply result_bind_ok in E as (g' & Eg%wrap_ok & [= -> ->]).
  unfold collectGPUInfo in Eg. apply result_bind_ok in Eg as (uuid & Eu%required_ok & Eg).
  apply result_bind_ok in Eg as (name & En%required_ok & Eg).
  apply result_bind_ok in Eg as (mem & Em%required_ok & Eg).
  apply result_bind_ok in Eg as (ms & Ems & [= <-]).
  assert (if mig_mode d then collectMIGInstances d = Ok ms else ms = []) as Hms.
  { destruct (mig_mode d); [by apply wrap_ok in Ems|by injection Ems as <-]. }
  clear Ems. unfold gpu_of. cbn -[mig_mode optional]. split_and!; try done.
  - by exists mem.
  - destruct (GetCurrentClocksThrottleReasons d) as [t|r]; cbn.
    + rewrite healthy_false. split; [intros (n & ?); by exists t, n|]. intros (t' & n & [= <-] & ?). eauto.
    + split; [done|]. by intros (? & ? & ? & _).
  - apply optional_eqb.
  - apply optional_eqb.
  - intros E. by rewrite E in Hms.
  - destruct (mig_mode d); [by apply collectMIG_of|by subst ms].
Qed.
End lemmas.

(** The devices behind a report. *)
Lemma NVML_Collect_of {D} `{NVML D} override nodeName rep :
  NVML_Collect override nodeName = Ok rep →
  ∃ devices, DeviceGetCount = Ok (length devices) ∧ rep_NodeName rep = nodeName ∧
    rep_HasNVLink rep = collectHasNVLink override devices ∧ length (rep_GPUs rep) = length devices ∧
    ∀ i d g, devices !! i = Some d → rep_GPUs rep !! i = Some g → gpu_of i d g.
Proof.
  unfold NVML_Collect. intros (n & En%required_ok & E)%result_bind_ok.
  apply result_bind_ok in E as (found & Hf%mapM_ok & [= <-]). exists found.*1. cbn.
  pose proof (Forall2_length _ _ _ Hf) as Hl. rewrite length_seq in Hl. rewrite !length_fmap, <-Hl.
  split_and!; try done. intros i d g. rewrite !list_lookup_fmap_Some.
  intros ([d' g'] & -> & Hi) ([d'' g''] & -> & Hi'). rewrite Hi in Hi'. injection Hi' as <- <-.
  destruct (Forall2_lookup_r _ _ _ _ _ Hf Hi) as (j & [-> _]%lookup_seq & E).
  by apply collect_device_of in E.
Qed.

(** ** Lemmas: memory figures in the registry *)
Definition measured (g : GPUInfo) : Prop :=
  0 ≤ gi_TotalMemoryMB g ≤ 2 ^ 44 ∧ 0 ≤ gi_UsedMemoryMB g ≤ 2 ^ 44 ∧ 0 ≤ gi_FreeMemoryMB g ≤ 2 ^ 44.

Definition all_measured (r : Registry) : Prop :=
  ∀ k node, reg_nodes r !! k = Some node → Forall measured (ng_GPUs node).

Lemma to_MB_bounds b : 0 ≤ b < 2 ^ 64 → 0 ≤ to_MB b ≤ 2 ^ 44.
Proof. unfold to_MB. intros Hb. Z.div_mod_to_equations. lia. Qed.

Lemma collected_measured rep : collected rep → Forall measured (rep_GPUs rep).
Proof.
  intros (D & nv & override & nodeName & H64 & E).
  destruct (NVML_Collect_of _ _ _ E) as (devices & _ & _ & _ & Hl & Hall).
  apply Forall_lookup. intros i g Hg.
  destruct (lookup_lt_is_Some_2 devices i) as [d Hd].
  { rewrite <-Hl. by apply lookup_lt_Some in Hg. }
  destruct (Hall i d g Hd Hg) as (_ & _ & _ & _ & (mem & Hm & E1 & E2 & E3) & _).
  destruct (H64 d mem Hm) as (H1 & H2 & H3). unfold measured. rewrite E1, E2, E3.
  split_and!; by apply to_MB_bounds.
Qed.

Lemma measured_free g : measured g → 0 ≤ reported_free g ≤ int_max.
Proof. unfold measured, reported_free. intros (H1 & H2 & H3). case_match; bool_hyps; int_solve. Qed.

Lemma measured_mig ms g : measured g → measured (set_MIGInstances ms g).
Proof. done. Qed.

Lemma mig_all_measured b u n : Forall measured (ng_GPUs n) → Forall measured (ng_GPUs (set_mig_all b u n)).
Proof. cbn. intros Hn. apply Forall_fmap. eapply Forall_impl; [exact Hn|]. intros g. apply measured_mig. Qed.

Lemma mig_first_measured b u gs : Forall measured gs → Forall measured (set_mig_first b u gs).
Proof.
  induction 1 as [|g gs Hg Hgs IH]; cbn; [done|]. case_match; constructor; auto.
Qed.

Lemma update_node_measured n f r :
  (∀ x, Forall measured (ng_GPUs x) → Forall measured (ng_GPUs (f x))) →
  all_measured r → all_measured (update_node n f r).
Proof.
  intros Hf Hr k node. unfold update_node. cbn. rewrite lookup_alter.
  case_decide as E; [|apply Hr]. subst k. destruct (reg_nodes r !! n) as [x|] eqn:Ex; cbn; [|done].
  intros [= <-]. by eapply Hf, Hr.
Qed.

Lemma release_entry_measured r e r' : all_measured r → release_entry r e = Done r' → all_measured r'.
Proof.
  intros Hr (E & _ & _)%release_entry_frame. unfold all_measured. rewrite E.
  destruct (ae_IsMIG e); [|exact Hr]. apply update_node_measured; [apply mig_all_measured|exact Hr].
Qed.

Lemma agent_step_measured r op r' :
  all_measured r → agent_op op → reg_exec r op = Done r' → all_measured r'.
Proof.
  intros Hr Hop H. destruct op as [now rep|now th|n g m ns p|n g m ns p|ns p|[] n g|n g m]; cbn in H.
  - injection H as <-. intros k node. unfold UpdateFromReport. cbn. rewrite lookup_insert.
    case_decide; [|apply Hr]. intros [= <-]. by apply collected_measured.
  - injection H as <-. intros k node. unfold RemoveStaleNodes. cbn.
    intros [Hk _]%map_lookup_filter_Some. by eapply Hr.
  - destruct (mark_gpu_alloc _ _ _ _ _ _ _ H) as [E _]. unfold all_measured. by rewrite E.
  - unfold MarkMIGAllocatedForPod in H. apply outcome_bind_done in H as (_ & _ & [= <-]).
    apply (update_node_measured n _ r); [apply mig_all_measured|exact Hr].
  - unfold ReleasePod in H. destruct (reg_podAllocations r !! _) as [es|]; [|by injection H as <-].
    apply outcome_bind_done in H as (r1 & H & [= <-]). change (all_measured r1).
    eapply (foldM_inv (λ r _, all_measured r)); [|exact Hr|exact H].
    intros. by eapply release_entry_measured.
  - injection H as <-. apply update_node_measured; [|done]. intros x. apply mig_first_measured.
  - injection H as <-. apply update_node_measured; [|done]. intros x. apply mig_first_measured.
  - done.
Qed.

Lemma agent_reachable_inv r : agent_reachable r → reg_reachable r ∧ all_measured r.
Proof.
  induction 1 as [|r op r' _ [Hr Hm] Hok Hop E]; [by split; [apply reach_new|]|].
  split; [by eapply reach_step|by eapply agent_step_measured].
Qed.

(** ** Theorems *)

(** A report says what NVML says.  When collecting succeeds the report has
    one entry per device, in index order, with the device's identifier, name and
    memory in MB; an entry is unhealthy exactly when the device throttles for a
    reason that is not harmless, in MIG or MPS mode exactly when NVML says so,
    and lists MIG instances, all available, only in MIG mode; NVLink is what the
    override says, or else whether two devices are linked. *)
Theorem NVML_Collect_exact {D} `{NVML D} override nodeName rep :
  NVML_Collect override nodeName = Ok rep →
  ∃ devices, DeviceGetCount = Ok (length devices) ∧ rep_NodeName rep = nodeName ∧
    length (rep_GPUs rep) = length devices ∧
    (∀ i d g, devices !! i = Some d → rep_GPUs rep !! i = Some g → gpu_of i d g) ∧
    (rep_HasNVLink rep = true ↔
      override ≠ "" ∧ parse_bool override = Some true ∨
      (override = "" ∨ parse_bool override = None) ∧ nvlink_pair devices).
Proof.
  intros (devices & Hc & Hn & Hv & Hl & Hall)%NVML_Collect_of. exists devices. split_and!; try done.
  rewrite Hv. unfold collectHasNVLink. destruct (String.eqb_spec override "") as [->|Hne].
  - rewrite any_linked_pair. naive_solver.
  - destruct (parse_bool override) as [[]|]; rewrite ?any_linked_pair; naive_solver.
Qed.

(** C9: what the agents report bounds what is reserved.  In every registry state
    in which all the reports came from agents collecting through NVML, a GPU the
    search returns for a request is healthy and not in MIG mode, and reserving
    the request on it keeps the reservations within the memory its agent reports
    as free; no assumption on the reported figures is left. *)
Theorem agent_reservations_fit r order m c ns p r' :
  agent_reachable r → range_order (reg_nodes r) order → 0 ≤ m →
  c ∈ FindAvailableFullGPU m order r →
  MarkGPUAllocatedForPod (gc_NodeName c) (gc_GPUUUID c) m ns p r = Done r' →
  ∃ node g, reg_nodes r' !! gc_NodeName c = Some node ∧ g ∈ ng_GPUs node ∧
    gi_UUID g = gc_GPUUUID c ∧ gi_IsHealthy g = true ∧ gi_MIGEnabled g = false ∧
    GetReservedMemory (gc_NodeName c) (gc_GPUUUID c) r' =
      GetReservedMemory (gc_NodeName c) (gc_GPUUUID c) r + m ∧
    GetReservedMemory (gc_NodeName c) (gc_GPUUUID c) r' ≤ reported_free g.
Proof.
  intros [Hr Hm]%agent_reachable_inv Ho Hpos Hc Hmark.
  eapply reservation_fits; try done. intros n node g Hn Hg. apply measured_free.
  pose proof (Hm n node Hn) as Hall. rewrite Forall_forall in Hall. by apply Hall.
Qed.

(** ** Witnesses: a machine with a full GPU and one in MIG mode, linked *)
#[export] Instance two_devices : NVML nat := {|
  ErrorString := λ _, "Unknown Error";
  DeviceGetCount := Ok 2%nat;
  DeviceGetHandleByIndex := λ i, Ok i;
  GetUUID := λ d, Ok (match d with 0 => "GPU-aaaaaaaaaaaa" | 1 => "GPU-bbbbbbbbbbbb" | _ => "MIG-aaaaaaaaaaaa" end%nat);
  GetName := λ _, Ok "NVIDIA A100-SXM4-40GB";
  GetMemoryInfo := λ _, Ok (mkMemoryInfo 42949672960 1073741824 41875931136);
  GetUtilizationRates := λ _, Ok 30;
  GetTemperature := λ _, Err (ERROR_OTHER 3);
  GetCurrentClocksThrottleReasons := λ _, Ok 1;
  GetMigMode := λ d, Ok (if (d =? 1)%nat then 1 else 0);
  GetMaxMigDeviceCount := λ _, Ok 7%nat;
  GetMigDeviceHandleByIndex := λ _ gi, if (gi =? 2)%nat then Ok 12%nat else Err ERROR_NOT_FOUND;
  GetAttributes := λ _, Ok (mkMigAttributes 14 1 4864);
  GetGpuInstanceId := λ _, Ok 9;
  GetComputeMode := λ _, Ok 0;
  GetP2PStatus := λ _ _, Ok 0;
  P2P_STATUS_OK := 0;
  DEVICE_MIG_ENABLE := 1;
  COMPUTEMODE_EXCLUSIVE_PROCESS := 3;
  ClocksThrottleReasonGpuIdle := 1;
  ClocksThrottleReasonApplicationsClocksSetting := 2;
  ClocksThrottleReasonUserDefinedClocks := 2
|}.

Definition device_report : GPUReport :=
  mkGPUReport "node-a" true
    [mkGPUInfo "GPU-aaaaaaaaaaaa" 0 "NVIDIA A100-SXM4-40GB" 40960 1024 39936 30 0 true false false [];
     mkGPUInfo "GPU-bbbbbbbbbbbb" 1 "NVIDIA A100-SXM4-40GB" 40960 1024 39936 30 0 true false true
       [mkMIGInstance 2 0 "MIG-aaaaaaaaaaaa" "MIG-14g.4gb" 9 4864 14 1 1 true]].

Lemma device_collected : NVML_Collect (D:=nat) "" "node-a" = Ok device_report.
Proof. by vm_compute. Qed.

Lemma NVML_Collect_exact_witness :
  NVML_Collect (D:=nat) "" "node-a" = Ok device_report ∧ nvlink_pair [0%nat; 1%nat].
Proof.
  split; [exact device_collected|].
  destruct (NVML_Collect_exact (D:=nat) "" "node-a" device_report device_collected)
    as (devices & _ & _ & _ & _ & Hv).
  destruct (proj1 Hv eq_refl) as [[? _]|[_ _]]; [done|].
  exists 0%nat, 1%nat, 0%nat, 1%nat. split_and!; [lia|done..].
Defined.

Definition agent_registry : Registry := UpdateFromReport 1000 device_report NewRegistry.

Lemma agent_registry_reachable : agent_reachable agent_registry.
Proof.
  eapply (agent_step NewRegistry (OpReport 1000 device_report)); [apply agent_new|done| |done].
  exists nat, two_devices, "", "node-a". split; [|exact device_collected].
  intros d mem [= <-]. cbn. lia.
Qed.

Lemma agent_reservations_fit_witness :
  GetReservedMemory "node-a" "GPU-aaaaaaaaaaaa"
    (after (MarkGPUAllocatedForPod "node-a" "GPU-aaaaaaaaaaaa" 30000 "default" "p" agent_registry)) = 30000.
Proof.
  destruct (agent_reservations_fit agent_registry ["node-a"] 30000
    (mkGPUCandidate "node-a" "GPU-aaaaaaaaaaaa" "NVIDIA A100-SXM4-40GB" 39936 40960 0 false) "default" "p"
    (after (MarkGPUAllocatedForPod "node-a" "GPU-aaaaaaaaaaaa" 30000 "default" "p" agent_registry)))
    as (node & g & _ & _ & _ & _ & _ & E & _).
  - apply agent_registry_reachable.
  - by vm_compute.
  - done.
  - vm_compute. left.
  - vm_compute. reflexivity.
  - exact E.
Defined.

(** ** Findings *)

(** The comment promises that a failing throttle query counts as unhealthy. *)
Lemma failed_query_is_healthy {D} `{NVML D} (d : D) i g ret :
  GetCurrentClocksThrottleReasons d = Err ret → collect_device i = Ok (d, g) → gi_IsHealthy g = true.
Proof.
  intros E (_ & _ & _ & _ & _ & Hh & _)%collect_device_of. destruct (gi_IsHealthy g); [done|].
  destruct (proj1 Hh eq_refl) as (t & n & Et & _). congruence.
Qed.

(** The placement of an instance starts at its size, and its profile is named
    after its multiprocessors: a 1g.5gb slice at 2 is reported as 14g.4gb at 1. *)
Lemma mig_placement_is_size :
  collectMIGInstances 1%nat = Ok [mkMIGInstance 2 0 "MIG-aaaaaaaaaaaa" "MIG-14g.4gb" 9 4864 14 1 1 true].
Proof. by vm_compute. Qed.
