(* ===== verification/Reporter.v ===== *)
(** * internal/agent/reporter.go and cmd/gpu-agent: the reporting agent

    The reporter collects and posts once when it starts and once for every tick,
    whatever came of the reports before.  [SchedulerEnd] puts the scheduler's own
    endpoint at the other end. *)

From Stdlib Require Import ZArith Lia Ascii String.
From stdpp Require Import base option list strings gmap.
From S2P Require Import Prelude GoFloat GoStrings Types K8s Registry Watcher Http Workers Agent Scenario.
Open Scope string_scope.
Open Scope Z_scope.
Open Scope go_scope.

Record Reporter {P : Type} : Type := mkReporter {
  rt_SchedulerURL : string;
  rt_ReportInterval : Z;
  rt_Provider : P;
  rt_NodeName : string
}.
Arguments Reporter P : clear implicits.

Definition NewReporter {P} (schedulerURL nodeName : string) (interval : Z) (provider : P) : Reporter P :=
  mkReporter _ schedulerURL interval provider nodeName.

Section reporter.
Context {P N : Type} `{NVMLProvider P} `{ReportClient N}.

(** One report, with what the devices show at that moment; an error is logged. *)
Definition report_turn (r : Reporter P) (devices : P) (n : N) : N :=
  (reportOnce devices (rt_NodeName r) (rt_SchedulerURL r) n).1.

(** [Start]: a ticker that panics unless its interval is positive, a report, and
    one for each tick until the context is done.  A tick is what happens outside
    before it and what the devices then show. *)
Definition Start (r : Reporter P) (ticks : list ((N → N) * P)) (n : N) : outcome N :=
  if rt_ReportInterval r <=? 0 then Panicked
  else Done (foldl (λ n t, report_turn r t.2 (t.1 n)) (report_turn r (rt_Provider r) n) ticks).
End reporter.

(** ** cmd/gpu-agent/main.go *)

(** [env] is the environment; an unset variable reads as empty. *)
Definition getEnvOrDefault (env : string → string) (key defaultVal : string) : string :=
  let val := env key in if negb (String.eqb val "") then val else defaultVal.

Definition hostname (name : result string string) : string :=
  match name with Ok h => h | Err _ => "unknown" end.

(** The values of the flags; a flag that is given replaces its default. *)
Record AgentFlags : Type := mkAgentFlags {
  fl_schedulerURL : option string;
  fl_nodeName : option string;
  fl_interval : option Z;
  fl_port : option string
}.

Definition agent_reporter {P} (flags : AgentFlags) (env : string → string) (host : result string string)
    (provider : P) : Reporter P :=
  NewReporter (default (getEnvOrDefault env "SCHEDULER_URL" "http://localhost:8080") (fl_schedulerURL flags))
    (default (getEnvOrDefault env "NODE_NAME" (hostname host)) (fl_nodeName flags))
    (default (seconds 5) (fl_interval flags)) provider.

(** [Init] may fail, which ends the program; then reports are made until it stops. *)
Definition agent_main {P N} `{NVMLProvider P} `{ReportClient N} (init : option string) (flags : AgentFlags)
    (env : string → string) (host : result string string) (provider : P) (ticks : list ((N → N) * P)) (n : N) :
    outcome (result string N) :=
  match init with
  | Some e => Done (Err ("Failed to initialize NVML: " ++ e))
  | None => n' ← Start (agent_reporter flags env host provider) ticks n; Done (Ok n')
  end.

(** ** The scheduler at the other end *)

(** Its state, and the time. *)
Record SchedulerEnd {W : Type} : Type := mkSchedulerEnd {
  se_now : Time;
  se_state : WState W
}.
Arguments SchedulerEnd W : clear implicits.
Arguments mkSchedulerEnd {W}.

#[export] Instance scheduler_end {W} : ReportClient (SchedulerEnd W) := {|
  PostReport n url report :=
    let (st', resp) := gpu_report_handler "POST" (Ok report) (se_now n) (se_state n) in
    (mkSchedulerEnd (se_now n) st', Ok (default StatusOK (rs_status resp)))
|}.

Definition se_registry {W} (n : SchedulerEnd W) : Registry := w_registry (se_state n).

Section composed.
Context {P W : Type} `{NVMLProvider P}.
Implicit Types n : SchedulerEnd W.

(** The endpoint accepts every report, and the registry takes it over. *)
Lemma report_turn_registers (r : Reporter P) devices n :
  report_turn r devices n =
    match Collect devices (rt_NodeName r) with
    | Ok report => mkSchedulerEnd (se_now n)
        (set_registry (UpdateFromReport (se_now n) report (se_registry n)) (se_state n))
    | Err _ => n
    end.
Proof. unfold report_turn, reportOnce. by destruct (Collect _ _). Qed.

(** What a report leaves in the registry: the GPUs collected, at the time. *)
Definition registered (node : string) (report : GPUReport) n : Prop :=
  GetNode node (se_registry n) = Some (mkNodeGPUs node (rep_HasNVLink report) (rep_GPUs report) (se_now n)).

(** An agent keeps its node alive: after every tick at which it could collect, the
    registry shows for its node what it collected, at the time of the tick,
    whatever failed before, and what other agents reported is as it was. *)
Theorem agent_keeps_node (r : Reporter P) ticks outside devices report n :
  0 < rt_ReportInterval r → Collect devices (rt_NodeName r) = Ok report → rep_NodeName report = rt_NodeName r →
  ∃ before after, Start r ticks n = Done before ∧ Start r (ticks ++ [(outside, devices)]) n = Done after ∧
    registered (rt_NodeName r) report after ∧ se_now after = se_now (outside before) ∧
    ∀ node, node ≠ rt_NodeName r → GetNode node (se_registry after) = GetNode node (se_registry (outside before)).
Proof.
  intros Hi Hc Hn. unfold Start. destruct (Z.leb_spec (rt_ReportInterval r) 0); [lia|].
  eexists _, _. split; [done|]. split; [done|]. rewrite foldl_app. cbn [foldl fst snd].
  rewrite report_turn_registers, Hc. unfold registered, GetNode, se_registry. cbn [se_state set_registry w_registry].
  unfold UpdateFromReport. cbn [reg_nodes]. rewrite Hn, lookup_insert_eq. split; [done|]. split; [done|].
  intros node Hne. by rewrite lookup_insert_ne.
Qed.
End composed.

(** ** Examples *)
Definition no_flags : AgentFlags := mkAgentFlags None None None None.

Definition bare_env (key : string) : string := if String.eqb key "NODE_NAME" then "node-a" else "".

Example agent_defaults :
  let r := agent_reporter no_flags bare_env (Err "no name") NewMockNVMLProvider in
  (rt_SchedulerURL r, rt_ReportInterval r, rt_NodeName r) = ("http://localhost:8080", seconds 5, "node-a").
Proof. reflexivity. Qed.

Lemma agent_keeps_node_witness :
  ∃ after, Start (agent_reporter no_flags bare_env (Err "no name") NewMockNVMLProvider)
      [(λ n : SchedulerEnd FakeCluster, mkSchedulerEnd 7000 (se_state n), NewMockNVMLProvider)]
      (mkSchedulerEnd 2000 (sample_state [] true true NewRegistry)) = Done after ∧
    registered "node-a" (mkGPUReport "node-a" false defaultMockGPUs) after.
Proof.
  destruct (agent_keeps_node (W:=FakeCluster) (agent_reporter no_flags bare_env (Err "no name") NewMockNVMLProvider) []
    (λ n, mkSchedulerEnd 7000 (se_state n)) NewMockNVMLProvider (mkGPUReport "node-a" false defaultMockGPUs)
    (mkSchedulerEnd 2000 (sample_state [] true true NewRegistry)))
    as (before & after & _ & Ha & Hr & _); [reflexivity|reflexivity|reflexivity|].
  exists after. split; [exact Ha|exact Hr].
Defined.

(** A zero interval panics before the first report. *)
Example zero_interval_panics :
  Start (N:=SchedulerEnd FakeCluster) (NewReporter "" "node-a" 0 NewMockNVMLProvider) []
    (mkSchedulerEnd 0 (sample_state [] true true NewRegistry)) = Panicked.
Proof. reflexivity. Qed.
