(* ===== verification/Executor.v ===== *)
(** * internal/scheduler/executor.go: the executor on a cluster

    [K8sExecutor] is the [PodExecutor] the preemption orchestrator gets in
    production.  The API server is the class [PodStore] for reading a pod and
    [PodRemote] for the exec stream, deletion and creation. *)

From Stdlib Require Import ZArith Ascii String.
From stdpp Require Import base option list strings gmap.
From S2P Require Import Prelude GoStrings Types K8s Config Helpers Preemption.
Open Scope string_scope.
Open Scope Z_scope.

(** [NewSPDYExecutor], the stream with what it wrote to stderr when it fails,
    [Pods(ns).Delete] and [Pods(ns).Create]. *)
Class PodRemote (W : Type) : Type := {
  NewSPDYExecutor : W → string → string → string → list string → option string;
  StreamExec : W → string → string → string → list string → W * option (string * string);
  DeleteWithGrace : W → string → string → Z → W * option string;
  CreateIn : W → string → Pod → W * result string Pod
}.

Section executor.
Context {W : Type} `{PodStore W} `{PodRemote W}.

(** [ke_restConfig]: whether there is a REST configuration. *)
Record K8sExecutor : Type := mkK8sExecutor {
  ke_clientSet : W;
  ke_restConfig : bool
}.

Definition set_clientSet (w : W) (e : K8sExecutor) : K8sExecutor := mkK8sExecutor w (ke_restConfig e).

(** The container to run in: the one asked for, else the pod's first. *)
Definition exec_container (namespace podName container : string) (w : W) : W * result string string :=
  if String.eqb container "" then
    match GetPod w namespace podName with
    | (w', Err e) => (w', Err ("failed to get pod: " ++ e))
    | (w', Ok pod) =>
        (w', match pod_Containers pod with
             | [] => Err ("pod " ++ namespace ++ "/" ++ podName ++ " has no containers")
             | c :: _ => Ok (c_Name c)
             end)
    end
  else (w, Ok container).

(** The request and its stream. *)
Definition run_exec (namespace podName container : string) (cmd : list string) (w : W) : W * option string :=
  match NewSPDYExecutor w namespace podName container cmd with
  | Some e => (w, Some ("failed to create SPDY executor: " ++ e))
  | None =>
      match StreamExec w namespace podName container cmd with
      | (w', Some (stderr, e)) => (w', Some ("exec failed (stderr: " ++ stderr ++ "): " ++ e))
      | (w', None) => (w', None)
      end
  end.

Definition K8s_ExecInPod (e : K8sExecutor) (namespace podName container : string) (cmd : list string) :
    K8sExecutor * option string :=
  if negb (ke_restConfig e) then (e, None)
  else
    match exec_container namespace podName container (ke_clientSet e) with
    | (w1, Err err) => (set_clientSet w1 e, Some err)
    | (w1, Ok c) =>
        let (w2, err) := run_exec namespace podName c cmd w1 in (set_clientSet w2 e, err)
    end.

Definition K8s_DeletePod (e : K8sExecutor) (namespace podName : string) (gracePeriodSeconds : Z) :
    K8sExecutor * option string :=
  let (w, err) := DeleteWithGrace (ke_clientSet e) namespace podName gracePeriodSeconds in
  (set_clientSet w e, err).

Definition K8s_CreatePod (e : K8sExecutor) (pod : Pod) : K8sExecutor * result string Pod :=
  let (w, r) := CreateIn (ke_clientSet e) (pod_Namespace pod) pod in (set_clientSet w e, r).

#[export] Instance k8s_executor : PodExecutor K8sExecutor := {|
  ExecInPod := K8s_ExecInPod;
  DeletePod := K8s_DeletePod;
  CreatePod := K8s_CreatePod
|}.
End executor.
Arguments K8sExecutor W : clear implicits.
Arguments mkK8sExecutor {W}.

(** ** Lemmas *)

(** A checkpoint command is run in the first container of the pod as it is now,
    once, and succeeds exactly when its stream does. *)
Lemma checkpoint_in_first_container {W} `{PodStore W} `{PodRemote W} (w w1 w2 : W) ns name cmd pod c rest err :
  GetPod w ns name = (w1, Ok pod) → pod_Containers pod = c :: rest →
  NewSPDYExecutor w1 ns name (c_Name c) cmd = None → StreamExec w1 ns name (c_Name c) cmd = (w2, err) →
  ∃ text, ExecInPod (mkK8sExecutor w true) ns name "" cmd = (mkK8sExecutor w2 true, text) ∧
    (text = None ↔ err = None).
Proof.
  intros Hg Hc Hn Hs. cbn. unfold K8s_ExecInPod, exec_container, run_exec. cbn. rewrite Hg, Hc, Hn, Hs.
  destruct err as [[stderr e]|]; eexists; split; done.
Qed.

(** ** Findings *)

(** Without a REST configuration every checkpoint "succeeds" without running. *)
Lemma checkpoint_skipped {W} `{PodStore W} `{PodRemote W} (w : W) ns name c cmd :
  ExecInPod (mkK8sExecutor w false) ns name c cmd = (mkK8sExecutor w false, None).
Proof. reflexivity. Qed.
