(* ===== verification/Startup.v ===== *)
(** * cmd/scheduler/main.go: building and starting the scheduler

    [NewScheduler] turns the loaded configuration into the components the other
    files model, [Run] starts the loops.  The host (cluster configuration, home
    directory, files) is the class [KubeHost]; a client is a world with the
    classes of the API it serves. *)

From Stdlib Require Import ZArith Lia String.
From stdpp Require Import base option list strings gmap.
From S2P Require Import Prelude GoFloat GoStrings Types K8s Config Loader Helpers Registry Manager Nvml Discoverer Strategy Binpack Fifo.
From S2P Require Import GangMultiPod Routing Allocator GangCollector Preemption Rebalancer Watcher Extender Scenario Recovery.
From S2P Require Import Http EventBus LogBuffer Dashboard.
Open Scope string_scope.
Open Scope Z_scope.
Open Scope go_scope.

(** ** The client *)
Class KubeHost (H R W : Type) : Type := {
  InClusterConfig : H → result string R;
  UserHomeDir : H → result string string;
  StatFile : H → string → option string;
  BuildConfigFromFlags : H → string → result string R;
  NewForConfig : H → R → result string W
}.

(** A client and its REST configuration, or neither when there is no cluster. *)
Definition buildKubeClient {H R W} `{KubeHost H R W} (h : H) : result string (option (W * R)) :=
  let client cfg := match NewForConfig h cfg with Ok w => Ok (Some (w, cfg)) | Err e => Err e end in
  match InClusterConfig h with
  | Ok cfg => client cfg
  | Err _ =>
      match UserHomeDir h with
      | Err _ => Ok None
      | Ok homeDir =>
          let kubeConfigPath := homeDir ++ "/.kube/config" in
          match StatFile h kubeConfigPath with
          | Some _ => Ok None
          | None =>
              match BuildConfigFromFlags h kubeConfigPath with
              | Err _ => Ok None
              | Ok cfg => client cfg
              end
          end
      end
  end.

(** ** The discoverer *)
Section startup.
Context `{GoSort} {Host Rest W Smi : Type} `{!KubeHost Host Rest W} `{!KubeAPI W} `{!ClusterLister W} `{!SmiRunner Smi}.
Context (uuid : nat → string) (error_text : SmiError → string).

(** The value of the interface [gpu.GPUDiscoverer]. *)
Inductive AnyDiscoverer : Type :=
  | UseMock (d : MockDiscoverer)
  | UseK8s (d : K8sDiscoverer W)
  | UseNVML (d : NVMLDiscoverer Smi).

#[export] Instance any_discoverer : GPUDiscoverer AnyDiscoverer := {|
  Discover d :=
    match d with
    | UseMock d => let (d', r) := Discover d in (UseMock d', r)
    | UseK8s d => let (d', r) := @Discover _ (k8s_discoverer uuid) d in (UseK8s d', r)
    | UseNVML d => let (d', r) := @Discover _ (nvml_discoverer error_text) d in (UseNVML d', r)
    end;
  Refresh d g :=
    match d with
    | UseMock d => let (d', r) := Refresh d g in (UseMock d', r)
    | UseK8s d => let (d', r) := @Refresh _ (k8s_discoverer uuid) d g in (UseK8s d', r)
    | UseNVML d => let (d', r) := @Refresh _ (nvml_discoverer error_text) d g in (UseNVML d', r)
    end
|}.

Inductive StartError : Type :=
  | ELoad (e : LoadError)
  | EKubeClient (e : string)
  | ENoKubeClient
  | EK8sDiscoverer (e : string)
  | ENVML (e : string)
  | EManager (e : ManagerError).

Definition mock_gpus : list MockGPUConfig :=
  [mkMockGPUConfig 81920 0 f64_zero true; mkMockGPUConfig 81920 0 f64_zero true].

Definition standalone (cfg : Config) : bool := String.eqb (sc_Mode (cfg_Scheduler cfg)) "standalone".

Definition choose_discoverer (cfg : Config) (client : option W) (runner : Smi) : result StartError AnyDiscoverer :=
  let name := sc_Name (cfg_Scheduler cfg) in
  if gc_MockMode (cfg_GPU cfg) then Ok (UseMock (NewMockDiscoverer uuid name mock_gpus))
  else if standalone cfg then
    match client with
    | None => Err ENoKubeClient
    | Some _ =>
        match NewK8sDiscoverer client with Ok d => Ok (UseK8s d) | Err e => Err (EK8sDiscoverer e) end
    end
  else
    match NewNVMLDiscoverer name runner with Ok d => Ok (UseNVML d) | Err e => Err (ENVML e) end.

(** ** The components *)
Definition choose_strategy (cfg : Config) : SchedulingStrategy :=
  if String.eqb (qc_DefaultPolicy (cfg_Queue cfg)) "binpack" then BinPacker else FIFOScheduler.

Definition preemption_config (cfg : Config) : PreemptionConfig :=
  let s := cfg_Scheduler cfg in
  mkPreemptionConfig (seconds (sc_CheckpointTimeoutSeconds s)) (sc_PreemptionGracePeriod s)
    (sc_AutoResumeMaxRetries s) (sc_AutoResumePriorityBoost s) (sc_Name s) (cfg_Workflows cfg) true.

Definition watcher_config (cfg : Config) : WatcherConfig :=
  let s := cfg_Scheduler cfg in
  mkWatcherConfig (sc_Name s) (cfg_Workflows cfg) (seconds (sc_GangTimeoutSeconds s))
    (if sc_PreemptionEnabled s then Some (preemption_config cfg) else None).

(** A new watcher recovers the reservations of the pods that run already. *)
Definition NewWatcher (wc : WatcherConfig) (client : W) (registry : Registry) : outcome (WState W) :=
  reconcileExistingPods wc (mkWState client registry ∅ []).

Inductive Role : Type :=
  | RWatcher (strategy : SchedulingStrategy) (wc : WatcherConfig) (watcher : WState W)
  | RExtender (ext : Extender AnyDiscoverer W).

Record Scheduler : Type := mkScheduler {
  sd_config : Config;
  sd_manager : Manager AnyDiscoverer;
  sd_rebalancer : Rebalancer;
  sd_role : Role
}.

Definition NewScheduler (loaded : result LoadError Config) (h : Host) (runner : Smi) :
    outcome (result StartError Scheduler) :=
  match loaded with
  | Err e => Done (Err (ELoad e))
  | Ok cfg =>
      match buildKubeClient h with
      | Err e => Done (Err (EKubeClient e))
      | Ok built =>
          let kubeClient := fst <$> built in
          match choose_discoverer cfg kubeClient runner with
          | Err e => Done (Err e)
          | Ok discoverer =>
              match NewManager discoverer (sc_Name (cfg_Scheduler cfg)) with
              | Err e => Done (Err (EManager e))
              | Ok manager =>
                  let registry := NewRegistry in
                  let s := mkScheduler cfg manager (NewRebalancer cfg) in
                  if standalone cfg then
                    match kubeClient with
                    | None => Done (Err ENoKubeClient)
                    | Some client =>
                        watcher ← NewWatcher (watcher_config cfg) client registry;
                        Done (Ok (s (RWatcher (choose_strategy cfg) (watcher_config cfg) watcher)))
                    end
                  else Done (Ok (s (RExtender (mkExtender (mkAllocator manager registry) kubeClient))))
              end
          end
      end
  end.

(** ** Run *)

(** The loops [Run] starts and the intervals of their tickers. *)
Definition run_tickers (s : Scheduler) : list (string * Z) :=
  let poll := seconds (gc_PollIntervalSeconds (cfg_GPU (sd_config s))) in
  ("refreshLoop", poll) ::
  match sd_role s with
  | RWatcher _ _ _ =>
      (("gpuReportBroadcastLoop", seconds 10) ::
       (if rb_Enabled (sd_rebalancer s)
        then [("rebalancingLoop", seconds (rb_TickIntervalSeconds (sd_rebalancer s)))] else []) ++
       [("Watcher.Run", poll)])%list
  | RExtender _ => []
  end.

(** [time.NewTicker] panics unless its interval is positive. *)
Definition Run (s : Scheduler) : outcome unit :=
  if forallb (λ t, 0 <? t.2) (run_tickers s) then Done tt else Panicked.

(** A tick of [refreshLoop]; an error is logged. *)
Definition refresh_tick (order : list string) (s : Scheduler) : Scheduler :=
  match RefreshAll order (sd_manager s) with
  | (m, _) => mkScheduler (sd_config s) m (sd_rebalancer s) (sd_role s)
  end.
End startup.

(** ** Events *)

(** What an event carries: the fields a component publishes, or the report of
    the cluster. *)
Inductive EventData : Type :=
  | EventFields (fields : list (string * string))
  | ClusterReport (nodes : list NodeGPUs) (summary : ClusterSummary).

Definition SSEEvent : Type := string * EventData.

(** [eventBusAdapter.Publish] *)
Definition adapter_Publish (order : list nat) (eventType : string) (data : EventData) (bus : EventBus SSEEvent) :
    outcome (EventBus SSEEvent) :=
  EventBus.Publish order (eventType, data) bus.

(** A tick of [gpuReportBroadcastLoop]; building the answer drops stale nodes. *)
Definition broadcast_tick (now : Time) (order : list string) (subscribers : list nat) (r : Registry)
    (bus : option (EventBus SSEEvent)) : outcome (Registry * option (EventBus SSEEvent)) :=
  match bus with
  | None => Done (r, None)
  | Some bus =>
      let '(r', (nodes, summary)) := BuildClusterResponse now order r in
      bus' ← EventBus.Publish subscribers ("gpu-report", ClusterReport nodes summary) bus;
      Done (r', Some bus')
  end.
