(* ===== verification/Lifetime.v ===== *)
(** * The watcher from its start on

    Everything that happens to a running watcher, as one transition system:
    reports of agents, nodes that fall silent, informer events, other clients of
    the API server, and scheduling cycles, in any order. *)

From Stdlib Require Import ZArith Lia Ascii String.
From stdpp Require Import base option list strings gmap sorting.
From S2P Require Import Prelude GoFloat GoStrings Types K8s Config Helpers Registry Strategy Binpack.
From S2P Require Import GangMultiPod Routing Allocator GangCollector Preemption Watcher Scenario.
From S2P Require Import Placement Cycle Recovery Safety Manager Nvml Discoverer Fifo Loader Rebalancer Extender Startup.
Open Scope string_scope.
Open Scope Z_scope.
Open Scope go_scope.

Inductive watcher_event {W : Type} : Type :=
  | EvReport (now : Time) (report : GPUReport)
  | EvStale (now : Time)
  | EvUpdate (pod : Pod)
  | EvDelete (pod : Pod)
  | EvApi (w : W)
  | EvCycle (o : CycleOracle).
Arguments watcher_event W : clear implicits.

Section lifetime.
Context `{GoSort} (strategy : SchedulingStrategy) `{!StrategyLaws strategy}.
Context {W : Type} `{KubeAPI W, PodExecutor W} (wc : WatcherConfig).
Implicit Types st : WState W.

(** The handlers of the events; a stale node is dropped by [GetAllNodes]. *)
Definition run_event (st : WState W) (e : watcher_event W) : outcome (WState W) :=
  match e with
  | EvReport now report => Done (set_registry (UpdateFromReport now report (w_registry st)) st)
  | EvStale now => Done (set_registry (RemoveStaleNodes now (seconds 30) (w_registry st)) st)
  | EvUpdate pod => on_update pod st
  | EvDelete pod => on_delete pod st
  | EvApi w => Done (set_api w st)
  | EvCycle o => processQueue strategy wc o st
  end.

(** What the surroundings owe: reports with identifiers that can be logged, and
    pending pods that are not tracked and fit the counters. *)
Definition report_loggable (report : GPUReport) : Prop :=
  ∀ g, g ∈ rep_GPUs report → (12 ≤ String.length (gi_UUID g))%nat ∧
    ∀ mi, mi ∈ gi_MIGInstances g → (12 ≤ String.length (mig_UUID mi))%nat.

Definition cycle_ready (o : CycleOracle) st : Prop :=
  (∀ i j, range_order (reg_nodes (w_registry st)) (or_orders o i j)) ∧
  ∀ w listed, ListPods (w_api st) = (w, Ok listed) →
    schedulable (w_registry st) (List.filter (is_pending wc) listed) ∧
    range_order (collect_pods (queue_order wc (List.filter (is_pending wc) listed))).1 (or_gangs o).

Definition event_ok st (e : watcher_event W) : Prop :=
  match e with
  | EvReport _ report => report_loggable report
  | EvCycle o => cycle_ready o st
  | _ => True
  end.

Definition start_ok (client : W) : Prop :=
  ∀ w pods, ListPods client = (w, Ok pods) → recoverable wc pods.

Inductive watcher_reachable : WState W → Prop :=
  | watcher_start client st :
      start_ok client → NewWatcher wc client NewRegistry = Done st → watcher_reachable st
  | watcher_next st e st' :
      watcher_reachable st → event_ok st e → run_event st e = Done st' → watcher_reachable st'.

Definition watcher_inv st : Prop := registry_wf (w_registry st) ∧ ids_loggable (w_registry st).

(** ** Lemmas *)
Lemma mark_entry_ids pod r e r' : mark_entry pod r e = Done r' → ids_map r' = ids_map r.
Proof. unfold mark_entry. destruct (ae_IsMIG e); [apply mark_mig_ids|apply mark_gpu_ids]. Qed.

Lemma mark_entries_ids pod es r r' : foldM (mark_entry pod) r es = Done r' → ids_map r' = ids_map r.
Proof.
  revert r. induction es as [|e es IH]; intros r; cbn [foldM]; [by intros [= ->]|].
  intros (r1 & E1%mark_entry_ids & E2%IH)%outcome_bind_done. congruence.
Qed.

Lemma reconcile_ids pods st st' :
  foldM (reconcile_pod wc) st pods = Done st' → ids_map (w_registry st') = ids_map (w_registry st).
Proof.
  revert st. induction pods as [|p pods IH]; intros st; cbn [foldM]; [by intros [= ->]|].
  intros (st1 & E1 & E2%IH)%outcome_bind_done. rewrite E2. unfold reconcile_pod in E1.
  destruct (recovered_entries wc p) as [es|]; [|by injection E1 as <-].
  apply outcome_bind_done in E1 as (r & E%mark_entries_ids & [= <-]). done.
Qed.

Lemma report_keeps_loggable now report r :
  report_loggable report → ids_loggable r → ids_loggable (UpdateFromReport now report r).
Proof.
  intros Hrep Hids k node g Hk Hg. cbn in Hk. apply lookup_insert_Some in Hk as [[_ <-]|[_ Hk]].
  - by apply Hrep.
  - by eapply Hids.
Qed.

Lemma stale_keeps_loggable now threshold r :
  ids_loggable r → ids_loggable (RemoveStaleNodes now threshold r).
Proof. intros Hids k node g [Hk _]%map_lookup_filter_Some Hg. by eapply Hids. Qed.

Lemma release_keeps pod st :
  registry_wf (w_registry st) →
  ∃ st', release pod st = Done st' ∧ keeps (w_registry st) (w_registry st').
Proof.
  intros Hwf. destruct (release_spec pod st Hwf) as (r' & E & Hk & _). by eexists.
Qed.

Lemma keeps_inv st st' : keeps (w_registry st) (w_registry st') → watcher_inv st → watcher_inv st'.
Proof. intros Hk [_ Hids]. split; [apply Hk|by eapply ids_loggable_keeps]. Qed.

(** An event that the surroundings may cause is handled. *)
Lemma run_event_inv st e :
  watcher_inv st → event_ok st e → ∃ st', run_event st e = Done st' ∧ watcher_inv st'.
Proof.
  intros Hinv He. pose proof Hinv as [Hwf Hids]. destruct e as [now report|now|pod|pod|w|o]; cbn in He |- *.
  - eexists. split; [done|]. split; [|by apply report_keeps_loggable].
    by apply (reg_exec_wf _ (OpReport now report) _ Hwf).
  - eexists. split; [done|]. split; [|by apply stale_keeps_loggable].
    by apply (reg_exec_wf _ (OpRemoveStale now (seconds 30)) _ Hwf).
  - unfold on_update. destruct (negb _); [by exists st|]. destruct (_ || _); [|by exists st].
    destruct (release_keeps pod st Hwf) as (st1 & -> & Hk). eexists. split; [done|]. by apply (keeps_inv st).
  - unfold on_delete. destruct (negb _); [by exists st|].
    destruct (release_keeps pod st Hwf) as (st1 & -> & Hk). eexists. split; [done|]. by apply (keeps_inv st).
  - by eexists.
  - destruct He as [Ho He]. destruct (ListPods (w_api st)) as [w [listed|e]] eqn:El.
    + destruct (He w listed eq_refl) as [Hs Hg].
      destruct (processQueue_keeps strategy wc o st w listed El Hwf Hids Hs Ho Hg) as (st' & E & Hk & _).
      exists st'. split; [done|]. by apply (keeps_inv st).
    + unfold processQueue. rewrite El. by eexists.
Qed.

Lemma start_inv client :
  start_ok client → ∃ st, NewWatcher wc client NewRegistry = Done st ∧ watcher_inv st.
Proof.
  intros Hs. unfold NewWatcher, reconcileExistingPods. cbn [w_api].
  assert (ids_loggable NewRegistry) as Hnew by (intros k node g Hk; cbn in Hk; by rewrite lookup_empty in Hk).
  destruct (ListPods client) as [w [pods|e]] eqn:El.
  - destruct (Hs w pods El) as (Hnd & Hok & Hsum & Hlen).
    destruct (reconcile_pods_spec wc pods (set_api w (mkWState client NewRegistry ∅ [])) int_max int_max)
      as (r & E & Hwf & _); [apply registry_wf_new| |done|intros p _; apply lookup_empty|done..|].
    { intros n g. cbn. unfold GetReservedMemory, GetPodCount, cell. cbn. rewrite !lookup_empty. cbn. lia. }
    exists (set_registry r (set_api w (mkWState client NewRegistry ∅ []))). split; [exact E|]. split; [done|].
    apply reconcile_ids in E. cbn in E. apply (ids_loggable_keeps NewRegistry); [|done]. by split.
  - eexists. split; [done|]. split; [auto with registry|done].
Qed.

Lemma watcher_reachable_inv st : watcher_reachable st → watcher_inv st.
Proof.
  induction 1 as [client st Hs E|st e st' _ IH He E].
  - destruct (start_inv client Hs) as (st1 & E1 & Hi). congruence.
  - destruct (run_event_inv st e IH He) as (st1 & E1 & Hi). congruence.
Qed.

(** C2: the watcher never dies.  From the recovery at its start on, through any
    sequence of agent reports, silent nodes, informer events, changes at the API
    server and scheduling cycles, in any order, each one step, the watcher
    handles the next event without a panic and its registry accounts exactly for
    the pods it tracks.  Of the surroundings only this is asked: identifiers in
    reports can be logged, and pending pods are not tracked and fit the counters
    ([event_ok]). *)
Theorem watcher_never_dies st :
  watcher_reachable st →
  registry_wf (w_registry st) ∧
  ∀ e, event_ok st e → ∃ st', run_event st e = Done st' ∧ registry_wf (w_registry st').
Proof.
  intros Hinv%watcher_reachable_inv. split; [apply Hinv|]. intros e He.
  destruct (run_event_inv st e Hinv He) as (st' & E & [Hwf _]). by exists st'.
Qed.
End lifetime.

(** ** Example: a start, a report, three pods, a cycle *)
Lemma three_pods_reached :
  watcher_reachable BinPacker sample_watcher (sample_state three_pods true true sample_registry).
Proof.
  apply (watcher_next BinPacker sample_watcher (sample_state [] true true sample_registry)
    (EvApi (mkFake three_pods true true))); [|done|reflexivity].
  apply (watcher_next BinPacker sample_watcher (sample_state [] true true NewRegistry)
    (EvReport 1000 sample_report)); [| |reflexivity].
  - apply (watcher_start BinPacker sample_watcher (mkFake [] true true)); [|reflexivity].
    intros w pods [= <- <-]. split_and!; [constructor|constructor|done|done].
  - intros g Hg. repeat (apply elem_of_cons in Hg as [->|Hg]); [..|by apply elem_of_nil in Hg];
      (split; [vm_compute; lia|]); intros mi Hmi.
    + by apply elem_of_nil in Hmi.
    + apply list_elem_of_singleton in Hmi as ->. vm_compute. lia.
Qed.

Lemma three_pods_ready : cycle_ready sample_watcher gang_oracle (sample_state three_pods true true sample_registry).
Proof.
  split.
  - intros i j. vm_compute. reflexivity.
  - intros w listed [= <- <-]. split; [|vm_compute; reflexivity].
    split; [by apply (bool_decide_unpack _)|]. split.
    + repeat apply Forall_cons_2; try apply Forall_nil_2; split; first [apply lookup_empty|by vm_compute].
    + intros n g. destruct (sample_room three_pods true true n g) as [E1 E2]. rewrite E1, E2.
      vm_compute. by split.
Qed.

Lemma watcher_never_dies_witness :
  ∃ st', processQueue BinPacker sample_watcher gang_oracle (sample_state three_pods true true sample_registry) =
    Done st' ∧ registry_wf (w_registry st').
Proof.
  destruct (watcher_never_dies BinPacker sample_watcher _ three_pods_reached) as [_ H].
  exact (H (EvCycle gang_oracle) three_pods_ready).
Defined.

(** ** The start *)
Lemma choose_strategy_laws `{GoSort} cfg : StrategyLaws (choose_strategy cfg).
Proof. unfold choose_strategy. destruct (String.eqb _ _); apply _. Qed.

(** A duration of so many seconds does not overflow. *)
Definition seconds_fit (n : Z) : Prop := n ≤ 9223372036.

Lemma seconds_positive n : seconds_fit n → -9223372036 ≤ n → 0 < seconds n ↔ 0 < n.
Proof.
  unfold seconds_fit, seconds. intros H1 H2. rewrite wrap64_id; [lia|]. unfold in_int, int_min, int_max. lia.
Qed.

Section start.
Context `{GoSort} {Host Rest W Smi : Type} `{!KubeHost Host Rest W} `{!KubeAPI W} `{!PodExecutor W}.
Context `{!ClusterLister W} `{!SmiRunner Smi} (uuid : nat → string) (error_text : SmiError → string).

Lemma run_panics (s : Scheduler (W:=W) (Smi:=Smi)) :
  Run s = Panicked ↔ ¬ Forall (λ t, 0 < t.2) (run_tickers s).
Proof.
  unfold Run. destruct (forallb _ _) eqn:E; split; try done.
  - intros Hn. destruct Hn. apply Forall_forall. intros t Ht%list_elem_of_In.
    by apply Z.ltb_lt, (proj1 (forallb_forall _ _) E).
  - intros _. intros Hf. assert (forallb (λ t : string * Z, 0 <? t.2) (run_tickers s) = true); [|congruence].
    apply forallb_forall. intros t Ht%list_elem_of_In. apply Z.ltb_lt.
    by apply (proj1 (Forall_forall _ _) Hf).
Qed.

(** The discoverer a configuration asks for: mock GPUs, else in standalone mode the
    nodes of the cluster, else the GPUs of the host. *)
Definition discoverer_for (cfg : Config) (client : option W) (runner : Smi)
    (d : AnyDiscoverer (W:=W) (Smi:=Smi)) : Prop :=
  let name := sc_Name (cfg_Scheduler cfg) in
  if gc_MockMode (cfg_GPU cfg) then d = UseMock (NewMockDiscoverer uuid name mock_gpus)
  else if decide (sc_Mode (cfg_Scheduler cfg) = "standalone") then
    ∃ k, client ≠ None ∧ NewK8sDiscoverer client = Ok k ∧ d = UseK8s k
  else ∃ n, NewNVMLDiscoverer name runner = Ok n ∧ d = UseNVML n.

Definition discovers (d : AnyDiscoverer (W:=W) (Smi:=Smi)) (cfg : Config)
    (r : result ManagerError (Manager (AnyDiscoverer (W:=W) (Smi:=Smi)))) : Prop :=
  @NewManager _ (any_discoverer uuid error_text) d (sc_Name (cfg_Scheduler cfg)) = r.

(** What the configuration asks of the watcher and of the strategy. *)
Definition watcher_asked (cfg : Config) : WatcherConfig :=
  let s := cfg_Scheduler cfg in
  mkWatcherConfig (sc_Name s) (cfg_Workflows cfg) (seconds (sc_GangTimeoutSeconds s))
    (if sc_PreemptionEnabled s then
       Some (mkPreemptionConfig (seconds (sc_CheckpointTimeoutSeconds s)) (sc_PreemptionGracePeriod s)
         (sc_AutoResumeMaxRetries s) (sc_AutoResumePriorityBoost s) (sc_Name s) (cfg_Workflows cfg) true)
     else None).

Definition strategy_asked (cfg : Config) : SchedulingStrategy :=
  if decide (qc_DefaultPolicy (cfg_Queue cfg) = "binpack") then BinPacker else FIFOScheduler.

Definition intervals_fit (cfg : Config) : Prop :=
  (-9223372036 ≤ gc_PollIntervalSeconds (cfg_GPU cfg) ∧ seconds_fit (gc_PollIntervalSeconds (cfg_GPU cfg))) ∧
  seconds_fit (rc_TickIntervalSeconds (cfg_Rebalancing cfg)).

Lemma choose_strategy_asked cfg : choose_strategy cfg = strategy_asked cfg.
Proof. unfold choose_strategy, strategy_asked. by destruct (String.eqb_spec (qc_DefaultPolicy (cfg_Queue cfg)) "binpack"); case_decide. Qed.

Lemma choose_discoverer_spec cfg client runner :
  match choose_discoverer uuid cfg client runner with
  | Ok d => discoverer_for cfg client runner d
  | Err e =>
      gc_MockMode (cfg_GPU cfg) = false ∧
      ((e = ENoKubeClient ∧ sc_Mode (cfg_Scheduler cfg) = "standalone" ∧ client = None) ∨
       ∃ msg, e = ENVML msg ∧ sc_Mode (cfg_Scheduler cfg) ≠ "standalone" ∧
         NewNVMLDiscoverer (sc_Name (cfg_Scheduler cfg)) runner = Err msg)
  end.
Proof.
  unfold choose_discoverer, discoverer_for, standalone. destruct (gc_MockMode (cfg_GPU cfg)); [done|].
  destruct (String.eqb_spec (sc_Mode (cfg_Scheduler cfg)) "standalone") as [Es|Es]; case_decide; try done.
  - destruct client as [c|]; cbn; [by eexists|]. split; [done|by left].
  - destruct (NewNVMLDiscoverer _ runner) as [n|msg]; [by exists n|]. split; [done|right; by exists msg].
Qed.

(** The tickers of a scheduler with a valid configuration. *)
Lemma run_poll (s : Scheduler (W:=W) (Smi:=Smi)) cfg :
  config_ok cfg → intervals_fit cfg → sd_config s = cfg → sd_rebalancer s = NewRebalancer cfg →
  Run s = Panicked ↔ gc_PollIntervalSeconds (cfg_GPU cfg) ≤ 0.
Proof.
  intros Hcfg [[Hp1 Hp2] Ht] Ec Er.
  assert (rc_Enabled (cfg_Rebalancing cfg) = true → 0 < seconds (rc_TickIntervalSeconds (cfg_Rebalancing cfg))) as Htick.
  { intros He. destruct Hcfg as (_ & _ & _ & _ & _ & _ & _ & _ & _ & Hr). destruct (Hr He) as (Hpos & _).
    apply seconds_positive; [done|lia|done]. }
  pose proof (seconds_positive _ Hp2 Hp1) as Hpoll. rewrite run_panics. unfold run_tickers. rewrite Ec, Er.
  destruct (sd_role s); cbn -[seconds].
  - destruct (rc_Enabled (cfg_Rebalancing cfg)); cbn -[seconds]; rewrite !Forall_cons, Forall_nil; cbn -[seconds];
      assert (0 < seconds 10) by done; [specialize (Htick eq_refl)|]; lia || tauto.
  - rewrite Forall_cons, Forall_nil. cbn -[seconds]. lia.
Qed.

(** C34: a scheduler that starts is ready, and one that does not says why.  With a
    valid configuration whose intervals do not overflow, and running pods that can
    be recovered, [NewScheduler] never panics. It fails only when the client of
    the cluster cannot be built, when there is no cluster, which standalone mode
    needs even with mock GPUs, when the GPUs of the host cannot be asked, or when
    their discovery fails. Otherwise it holds the GPUs found by the discoverer
    that was asked for, it is configured as asked, and in standalone mode its
    watcher is in a state from which it never dies, with a strategy that satisfies
    the contract.  Starting its loops panics exactly when the poll interval is not
    positive. *)
Theorem NewScheduler_ready (cfg : Config) (h : Host) (runner : Smi) :
  config_ok cfg → intervals_fit cfg →
  (∀ c r, buildKubeClient h = Ok (Some (c, r)) → start_ok (watcher_config cfg) c) →
  match NewScheduler uuid error_text (Ok cfg) h runner with
  | Panicked => False
  | Done (Err e) =>
      (∃ msg, e = EKubeClient msg ∧ buildKubeClient h = Err msg) ∨
      (e = ENoKubeClient ∧ sc_Mode (cfg_Scheduler cfg) = "standalone" ∧ buildKubeClient h = Ok None) ∨
      (∃ msg, e = ENVML msg ∧ gc_MockMode (cfg_GPU cfg) = false ∧ sc_Mode (cfg_Scheduler cfg) ≠ "standalone" ∧
         NewNVMLDiscoverer (sc_Name (cfg_Scheduler cfg)) runner = Err msg) ∨
      (∃ msg client d, e = EManager msg ∧ buildKubeClient h = Ok client ∧
         discoverer_for cfg (fst <$> client) runner d ∧ discovers d cfg (Err msg))
  | Done (Ok s) => ∃ client d,
      buildKubeClient h = Ok client ∧ discoverer_for cfg (fst <$> client) runner d ∧
      discovers d cfg (Ok (sd_manager s)) ∧ sd_config s = cfg ∧ sd_rebalancer s = NewRebalancer cfg ∧
      match sd_role s with
      | RWatcher strategy wc st =>
          sc_Mode (cfg_Scheduler cfg) = "standalone" ∧ wc = watcher_asked cfg ∧
          strategy = strategy_asked cfg ∧ StrategyLaws strategy ∧ watcher_reachable strategy wc st
      | RExtender ext =>
          sc_Mode (cfg_Scheduler cfg) ≠ "standalone" ∧ ext_kubeClient ext = fst <$> client
      end ∧
      (Run s = Panicked ↔ gc_PollIntervalSeconds (cfg_GPU cfg) ≤ 0)
  end.
Proof.
  intros Hcfg Hint Hstart. unfold NewScheduler, discovers.
  destruct (buildKubeClient h) as [client|msg] eqn:Hk; [|left; by exists msg].
  pose proof (choose_discoverer_spec cfg (fst <$> client) runner) as Hd.
  destruct (choose_discoverer uuid cfg (fst <$> client) runner) as [d|e].
  2: { destruct Hd as (Hmock & [(-> & Es & Hc)|(msg & -> & Es & Hn)]); right; [left|right; left; by exists msg].
       by destruct client. }
  destruct (@NewManager _ (any_discoverer uuid error_text) d (sc_Name (cfg_Scheduler cfg))) as [m|msg] eqn:Hm.
  2: { right; right; right. by exists msg, client, d. }
  destruct (standalone cfg) eqn:Es; unfold standalone in Es.
  - apply String.eqb_eq in Es. destruct client as [[c r]|]; cbn [fmap option_fmap option_map fst].
    2: { right; left. done. }
    destruct (start_inv (watcher_config cfg) c) as (st & E & _); [by eapply Hstart|]. rewrite E. cbn.
    exists (Some (c, r)), d. do 5 (split; [done|]). split; [|by apply run_poll].
    do 2 (split; [done|]). split; [apply choose_strategy_asked|]. split; [apply choose_strategy_laws|].
    eapply watcher_start; [|exact E]. by eapply Hstart.
  - apply String.eqb_neq in Es. exists client, d. do 5 (split; [done|]). split; [done|by apply run_poll].
Qed.
End start.

(** ** Example: mock GPUs, a cluster without pods *)
Record FakeHost : Type := mkFakeHost { fh_cluster : option FakeCluster }.

#[export] Instance fake_host : KubeHost FakeHost unit FakeCluster := {|
  InClusterConfig h := match fh_cluster h with Some _ => Ok tt | None => Err "not in a cluster" end;
  UserHomeDir h := Err "$HOME is not defined";
  StatFile h path := Some "no such file";
  BuildConfigFromFlags h path := Err "no such file";
  NewForConfig h _ := match fh_cluster h with Some c => Ok c | None => Err "no host" end
|}.

#[export] Instance fake_lister : ClusterLister FakeCluster := {|
  ListAllPods w := (w, Ok (fk_pods w));
  ListNodes w := (w, Ok [])
|}.

#[export] Instance no_smi : SmiRunner unit := {|
  RunSmi w := (w, Err "not found");
  LookPath w := Some "not found";
  Hostname w := Err "unknown"
|}.

Definition start_config (poll : Z) (policy : string) : Config :=
  mkConfig (mkSchedulerConfig "gpu-scheduler" 8888 9090 "standalone" 300 true 60 30 3 5) (mkQueueConfig 100 policy)
    (mkWorkflowConfig false true 50 []) (mkGPUConfig poll true) (mkKubernetesConfig "" "default")
    (mkLoggingConfig "info" "json") (mkProxyConfig false 0 "")
    (mkRebalancingConfig false true 5 30 90 300 true false []).

Lemma start_config_ok poll : config_ok (start_config poll "binpack").
Proof. apply Validate_exact. reflexivity. Qed.

Definition mock_discovered : AnyDiscoverer (W:=FakeCluster) (Smi:=unit) :=
  UseMock (NewMockDiscoverer unary_uuid "gpu-scheduler" mock_gpus).

Definition no_smi_text (e : SmiError) : string := "".

Definition empty_host : FakeHost := mkFakeHost (Some (mkFake [] true true)).

Lemma empty_start wc : start_ok wc (mkFake [] true true).
Proof. intros w pods [= <- <-]. by split_and!; [constructor|constructor| |]. Qed.

Lemma NewScheduler_ready_witness :
  ∃ s, NewScheduler unary_uuid no_smi_text (Ok (start_config 5 "binpack")) empty_host tt = Done (Ok s) ∧
    Run s ≠ Panicked ∧
    discovers unary_uuid no_smi_text mock_discovered (start_config 5 "binpack") (Ok (sd_manager s)) ∧
    match sd_role s with RWatcher strategy wc st => watcher_reachable strategy wc st | RExtender _ => False end.
Proof.
  assert (∀ c r, buildKubeClient empty_host = Ok (Some (c, r)) →
    start_ok (watcher_config (start_config 5 "binpack")) c) as Hstart.
  { intros c r E. injection E as <- _. apply empty_start. }
  assert (intervals_fit (start_config 5 "binpack")) as Hint by (by vm_compute).
  pose proof (NewScheduler_ready unary_uuid no_smi_text (start_config 5 "binpack") empty_host tt
    (start_config_ok 5) Hint Hstart) as H.
  assert (match NewScheduler unary_uuid no_smi_text (Ok (start_config 5 "binpack")) empty_host tt with
    | Done (Ok s) => True | _ => False end) as Hok by (vm_compute; exact I).
  destruct (NewScheduler unary_uuid no_smi_text (Ok (start_config 5 "binpack")) empty_host tt) as [[s|e]|];
    [|destruct Hok|destruct Hok].
  destruct H as (client & d & _ & Hd & Hm & _ & _ & Hrole & Hrun). exists s. split; [reflexivity|].
  split; [rewrite Hrun; cbn; lia|]. split; [rewrite <-Hd; exact Hm|].
  destruct (sd_role s) as [strategy wc st|ext]; [exact (proj2 (proj2 (proj2 (proj2 Hrole))))|].
  destruct Hrole as [Hn _]. exact (Hn eq_refl).
Defined.

(** ** Findings *)

(** A poll interval of zero is accepted, and the first loop panics. *)
Lemma zero_poll_interval_panics :
  config_ok (start_config 0 "binpack") ∧
  match NewScheduler unary_uuid no_smi_text (Ok (start_config 0 "binpack")) empty_host tt with
  | Done (Ok s) => Run s = Panicked
  | _ => False
  end.
Proof. split; [apply start_config_ok|]. vm_compute. reflexivity. Qed.
