(* ===== verification/Benchmark.v ===== *)
(** * internal/benchmark and cmd/benchmark: measuring a server

    The prompts of a CSV file are sent as streamed chat requests; what comes back,
    and when, is an argument (an [Exchange] for each request), and so is the order
    in which the concurrent requests end. *)

From Stdlib Require Import ZArith Lia Sorted Ascii String.
From stdpp Require Import base option list strings gmap.
From S2P Require Import Prelude GoFloat GoStrings Types Http.
Open Scope string_scope.
Open Scope Z_scope.
Open Scope go_scope.

(** ** metrics.go *)
Record RequestMetrics : Type := mkRequestMetrics {
  rq_ClientTTFT : Z;
  rq_ClientITL : Z;
  rq_TotalLatency : Z;
  rq_TokenCount : Z;
  rq_TPS : float64;
  rq_StatusCode : Z;
  rq_Error : option string
}.

Record ServerMetrics : Type := mkServerMetrics {
  sm_TTFTSum : float64;
  sm_TTFTCount : float64;
  sm_ITLSum : float64;
  sm_ITLCount : float64
}.

Record BenchMarkResult : Type := mkBenchMarkResult {
  br_Concurrency : Z;
  br_Requests : list RequestMetrics;
  br_TotalDuration : Z;
  br_ServerBefore : ServerMetrics;
  br_ServerAfter : ServerMetrics
}.

(** ** prompts.go *)

(** [records[i][1]]: a panic when the record has one column. *)
Definition record_prompt (record : list string) : outcome string :=
  match record !! 1%nat with Some s => Done s | None => Panicked end.

(** [file] is what [os.Open] gives, the records of the reader or its error. *)
Definition LoadPrompts (file : result string (result string (list (list string)))) :
    call string (list string) :=
  match file with
  | Err e => Done (Err e)
  | Ok (Err e) => Done (Err e)
  | Ok (Ok records) => prompts ← mapM record_prompt (tail records); Done (Ok prompts)
  end.

(** ** report.go *)
Record AvgServerMetrics : Type := mkAvgServerMetrics {
  AvgTTFT : float64;
  AvgITL : float64
}.

Definition ErroredRequests (r : BenchMarkResult) : Z :=
  foldl (λ n req, if rq_Error req then n ⊞ 1 else n) 0 (br_Requests r).

Definition ClientTTFTs (r : BenchMarkResult) : list Z := rq_ClientTTFT <$> br_Requests r.

Definition ClientITLs (r : BenchMarkResult) : list Z := rq_ClientITL <$> br_Requests r.

Definition CalculateAvgServerMetrics (r : BenchMarkResult) : AvgServerMetrics :=
  let b := br_ServerBefore r in let a := br_ServerAfter r in
  let ttftCountDelta := f64_sub (sm_TTFTCount a) (sm_TTFTCount b) in
  if f64_eqb ttftCountDelta f64_zero then mkAvgServerMetrics f64_zero f64_zero
  else
    let itlCountDelta := f64_sub (sm_ITLCount a) (sm_ITLCount b) in
    mkAvgServerMetrics (f64_div (f64_sub (sm_TTFTSum a) (sm_TTFTSum b)) ttftCountDelta)
      (if f64_ltb f64_zero itlCountDelta
       then f64_div (f64_sub (sm_ITLSum a) (sm_ITLSum b)) itlCountDelta else f64_zero).

Definition SortDuration `{GoSort} (durations : list Z) : list Z := sort_slice Z.ltb durations.

Definition Percentile (sorted : list Z) (p : float64) : outcome Z :=
  let n := Z.of_nat (length sorted) in
  let idx := f64_to_int (f64_mul p (f64_of_int n)) in
  let idx := if n <=? idx then n - 1 else idx in
  if idx <? 0 then Panicked
  else match sorted !! Z.to_nat idx with Some d => Done d | None => Panicked end.

Definition AvgDuration (durations : list Z) : Z :=
  match durations with
  | [] => 0
  | _ => foldl (λ sum d, sum ⊞ d) 0 durations ⊘ Z.of_nat (length durations)
  end.

(** [Duration.Round]: to the nearest multiple, halves away from zero. *)
Definition duration_round (d m : Z) : Z :=
  if m <=? 0 then d
  else
    let r := Z.rem d m in
    if d <? 0 then
      if - r + - r <? m then d ⊟ r
      else let d1 := d ⊟ m ⊞ - r in if d1 <? d then d1 else int_min
    else if r + r <? m then d ⊟ r
    else let d1 := d ⊞ (m ⊟ r) in if d <? d1 then d1 else int_max.

Definition Millisecond : Z := 1000000.

(** The literal 0.95. *)
Definition p95 : float64 := f64_div (f64_of_int 95) (f64_of_int 100).

(** A line of the table. *)
Record Row : Type := mkRow {
  row_concurrency : Z;
  row_requests : Z;
  row_clientTTFT : Z;
  row_serverTTFT : float64;
  row_p95 : Z;
  row_clientITL : Z;
  row_serverITL : float64;
  row_tps : float64;
  row_errors : Z
}.

Definition result_row `{GoSort} (r : BenchMarkResult) : outcome Row :=
  let ttfts := SortDuration (ClientTTFTs r) in
  let itls := ClientITLs r in
  let server := CalculateAvgServerMetrics r in
  let totalTPS := foldl (λ t req, f64_add t (rq_TPS req)) f64_zero (br_Requests r) in
  let n := Z.of_nat (length (br_Requests r)) in
  p ← Percentile ttfts p95;
  Done (mkRow (br_Concurrency r) n (duration_round (AvgDuration ttfts) Millisecond) (AvgTTFT server)
    (duration_round p Millisecond) (duration_round (AvgDuration itls) Millisecond) (AvgITL server)
    (f64_div totalTPS (f64_of_int n)) (ErroredRequests r)).

Definition PrintResult `{GoSort} (results : list BenchMarkResult) : outcome (list Row) :=
  mapM result_row results.

(** ** runner.go *)
Record RunnerConfig : Type := mkRunnerConfig {
  rn_BaseURL : string;
  rn_MetricsURL : string;
  rn_Model : string;
  rn_MaxTokens : Z;
  rn_NumRequests : Z;
  rn_Prompts : list string
}.

(** What came back on a request: the status, the head of the body, the lines with
    the times they were read at, and the time after the last. *)
Record Stream : Type := mkStream {
  sr_status : Z;
  sr_head : string;
  sr_lines : list (Time * string);
  sr_end : Time
}.

Record Exchange : Type := mkExchange {
  ex_start : Time;
  ex_answer : result string Stream
}.

(** The variables of the loop over the lines. *)
Record StreamState : Type := mkStreamState {
  ss_clientTTFT : Z;
  ss_itlSum : Z;
  ss_lastTokenTime : Time;
  ss_tokenCount : Z
}.

Fixpoint read_stream (start : Time) (lines : list (Time * string)) (s : StreamState) : StreamState :=
  match lines with
  | [] => s
  | (now, line) :: lines =>
      if negb (has_prefix line "data: ") then read_stream start lines s
      else if String.eqb line "data: [DONE]" then s
      else
        let count := ss_tokenCount s ⊞ 1 in
        read_stream start lines
          (if count =? 1 then mkStreamState (time_sub now start) (ss_itlSum s) now count
           else mkStreamState (ss_clientTTFT s) (ss_itlSum s ⊞ time_sub now (ss_lastTokenTime s)) now count)
  end.

(** [Duration.Seconds] *)
Definition duration_seconds (d : Z) : float64 :=
  f64_add (f64_of_int (Z.quot d 1000000000))
    (f64_div (f64_of_int (Z.rem d 1000000000)) (f64_of_int 1000000000)).

Definition failed_request (status : Z) (e : string) : RequestMetrics :=
  mkRequestMetrics 0 0 0 0 f64_zero status (Some e).

Definition chat_request (model prompt : string) : json :=
  JObj [("model", JStr model);
    ("messages", JArr [JObj [("role", JStr "user"); ("content", JStr prompt)]]);
    ("stream", JBool true)].

Section runner.
Context (post : Z → string → json → Exchange) (ParseFloat : string → option float64).

Definition sendRequest (cfg : RunnerConfig) (requestID : Z) : outcome RequestMetrics :=
  if requestID <? 0 then Panicked
  else match rn_Prompts cfg !! Z.to_nat requestID with
  | None => Panicked
  | Some p =>
      let prompt := p ++ " (Request #" ++ itoa requestID ++ ")" in
      let ex := post requestID (rn_BaseURL cfg ++ "/v1/chat/completions") (chat_request (rn_Model cfg) prompt) in
      match ex_answer ex with
      | Err e => Done (failed_request 0 e)
      | Ok r =>
          if negb (sr_status r =? 200)
          then Done (failed_request (sr_status r) ("status " ++ itoa (sr_status r) ++ ": " ++ sr_head r))
          else
            let s := read_stream (ex_start ex) (sr_lines r) (mkStreamState 0 0 0 0) in
            let totalLatency := time_sub (sr_end r) (ex_start ex) in
            let several := 1 <? ss_tokenCount s in
            Done (mkRequestMetrics (ss_clientTTFT s)
              (if several then ss_itlSum s ⊘ (ss_tokenCount s ⊟ 1) else 0) totalLatency (ss_tokenCount s)
              (if several then f64_div (f64_of_int (ss_tokenCount s)) (duration_seconds totalLatency) else f64_zero)
              0 None)
      end
  end.

Definition scrape_line (sm : ServerMetrics) (line : string) : ServerMetrics :=
  if has_prefix line "#" then sm
  else match split_str "} " line with
  | [_; value] =>
      match ParseFloat (trim_space value) with
      | None => sm
      | Some val =>
          if has_prefix line "vllm:time_to_first_token_seconds_sum" then
            mkServerMetrics val (sm_TTFTCount sm) (sm_ITLSum sm) (sm_ITLCount sm)
          else if has_prefix line "vllm:time_to_first_token_seconds_count" then
            mkServerMetrics (sm_TTFTSum sm) val (sm_ITLSum sm) (sm_ITLCount sm)
          else if has_prefix line "vllm:inter_token_latency_seconds_sum" then
            mkServerMetrics (sm_TTFTSum sm) (sm_TTFTCount sm) val (sm_ITLCount sm)
          else if has_prefix line "vllm:inter_token_latency_seconds_count" then
            mkServerMetrics (sm_TTFTSum sm) (sm_TTFTCount sm) (sm_ITLSum sm) val
          else sm
      end
  | _ => sm
  end.

Definition zero_metrics : ServerMetrics := mkServerMetrics f64_zero f64_zero f64_zero f64_zero.

Definition scrapeMetrics (answer : result string (list string)) : ServerMetrics :=
  match answer with
  | Err _ => zero_metrics
  | Ok lines => foldl scrape_line zero_metrics lines
  end.

(** The requests are numbered from 1; [order] is the order in which they end.  A
    channel of negative capacity cannot be made, a semaphore of capacity 0 is
    never taken, and a panic of one request ends the program. *)
Definition request_ids (cfg : RunnerConfig) : list Z := seqZ 1 (rn_NumRequests cfg).

Definition Run (cfg : RunnerConfig) (order : list Z) (before after : result string (list string))
    (duration concurrency : Z) : outcome BenchMarkResult :=
  if (rn_NumRequests cfg <? 0) || (concurrency <? 0) then Panicked
  else if (concurrency =? 0) && (0 <? rn_NumRequests cfg) then Panicked
  else
    collected ← mapM (sendRequest cfg) order;
    Done (mkBenchMarkResult concurrency collected duration (scrapeMetrics before) (scrapeMetrics after)).
End runner.

(** ** cmd/benchmark/main.go *)
Definition concurrencyLevels : list Z := [50; 100; 150; 200].

Definition runner_config (url model metricsURL : string) (maxTokens requests : Z) (prompts : list string) :
    RunnerConfig :=
  mkRunnerConfig url (if negb (String.eqb metricsURL "") then metricsURL else url) model maxTokens requests prompts.

Record Summary : Type := mkSummary {
  su_requests : Z;
  su_time : Z;
  su_errors : Z;
  su_rate : float64
}.

Definition summary (results : list BenchMarkResult) : Summary :=
  let totalRequests := foldl (λ n r, n ⊞ Z.of_nat (length (br_Requests r))) 0 results in
  let totalTime := foldl (λ n r, n ⊞ br_TotalDuration r) 0 results in
  let totalErrors := foldl (λ n r,
    foldl (λ n req, if rq_Error req then n ⊞ 1 else n) n (br_Requests r)) 0 results in
  mkSummary totalRequests totalTime totalErrors
    (f64_div (f64_of_int totalRequests) (duration_seconds totalTime)).

(** How many of the values are at most, or at least, [x]. *)
Definition at_most (x : Z) (l : list Z) : nat := length (filter (λ y, y ≤ x) l).

Definition at_least (x : Z) (l : list Z) : nat := length (filter (λ y, x ≤ y) l).

(** ** Lemmas: the percentile

    The index is exact: up to a thousand requests the product 0.95 n, computed
    in floating point, truncates to 95 n / 100. *)
Definition p95_index_ok (n : Z) : bool := f64_to_int (f64_mul p95 (f64_of_int n)) =? 95 * n / 100.

Lemma p95_indices : forallb p95_index_ok (seqZ 1 1000) = true.
Proof. vm_compute. reflexivity. Qed.

Lemma p95_index n : 1 ≤ n ≤ 1000 → f64_to_int (f64_mul p95 (f64_of_int n)) = 95 * n / 100.
Proof.
  intros Hn. apply Z.eqb_eq. change (p95_index_ok n = true).
  apply (proj1 (forallb_forall _ _) p95_indices). apply list_elem_of_In, elem_of_seqZ. lia.
Qed.

Lemma at_least_all x l : Forall (λ y, x ≤ y) l → at_least x l = length l.
Proof.
  unfold at_least. induction 1 as [|y l Hy _ IH]; [done|]. rewrite filter_cons_True by done. cbn. by rewrite IH.
Qed.

(** In a sorted list, [i + 1] elements are at most the one at [i], and the rest at
    least. *)
Lemma sorted_rank (l : list Z) i x :
  StronglySorted Z.le l → l !! i = Some x → (S i ≤ at_most x l)%nat ∧ (length l - i ≤ at_least x l)%nat.
Proof.
  intros Hl. revert i. induction Hl as [|z l Hl IH Hz]; intros i; [done|]. destruct i as [|i]; cbn [lookup list_lookup].
  - intros [= ->]. split.
    + unfold at_most. rewrite filter_cons_True by done. cbn. lia.
    + rewrite at_least_all; [lia|]. by constructor.
  - intros Hi. destruct (IH i Hi) as [H1 H2].
    assert (z ≤ x) by (apply (proj1 (Forall_forall _ _) Hz); by eapply list_elem_of_lookup_2).
    unfold at_most, at_least in *. split; [rewrite filter_cons_True by done; cbn; lia|].
    rewrite filter_cons. case_decide; cbn; lia.
Qed.

Lemma sort_durations `{GoSort} l : StronglySorted Z.le (SortDuration l).
Proof. apply (sorted_by_key (λ x, x)), sort_slice_sorted, (weak_less_key (λ x, x)). Qed.

(** The reported percentile of up to a thousand durations is one of them, more
    than 95 of a hundred are at most it, and at least the rest are at least it. *)
Theorem Percentile_rank `{GoSort} l :
  (1 ≤ length l ≤ Z.to_nat 1000)%nat →
  ∃ x, Percentile (SortDuration l) p95 = Done x ∧ x ∈ l ∧
    95 * Z.of_nat (length l) < 100 * Z.of_nat (at_most x l) ∧
    5 * Z.of_nat (length l) ≤ 100 * Z.of_nat (at_least x l).
Proof.
  intros Hn. assert (SortDuration l ≡ₚ l) as Hp by apply sort_slice_perm.
  set (n := Z.of_nat (length l)). assert (1 ≤ n ≤ 1000) as Hz by lia.
  assert (0 ≤ 95 * n / 100 < n) as Hi by (split; [apply Z.div_pos; lia|apply Z.div_lt_upper_bound; lia]).
  unfold Percentile. rewrite (Permutation_length Hp). fold n. rewrite p95_index by done.
  destruct (Z.leb_spec n (95 * n / 100)); [lia|]. destruct (Z.ltb_spec (95 * n / 100) 0); [lia|].
  destruct (lookup_lt_is_Some_2 (SortDuration l) (Z.to_nat (95 * n / 100))) as [x Hx].
  { rewrite (Permutation_length Hp). lia. }
  rewrite Hx. exists x. split; [done|]. split; [rewrite <-Hp; by eapply list_elem_of_lookup_2|].
  pose proof (sorted_rank _ _ _ (sort_durations l) Hx) as [Hle Hge].
  unfold at_most, at_least in *. rewrite Hp in Hle, Hge. pose proof (Z.mul_div_le (95 * n) 100).
  pose proof (Z.mul_succ_div_gt (95 * n) 100). lia.
Qed.

(** ** Lemmas: a run *)
Lemma mapM_panics {A B} (f : A → outcome B) l : Exists (λ x, f x = Panicked) l → mapM f l = Panicked.
Proof.
  induction 1 as [x l Hx|x l _ IH]; cbn; [by rewrite Hx|]. destruct (f x); [|done]. cbn. by rewrite IH.
Qed.

Lemma mapM_done {A B} (f : A → outcome B) (g : A → B) l :
  Forall (λ x, f x = Done (g x)) l → mapM f l = Done (g <$> l).
Proof. induction 1 as [|x l Hx _ IH]; cbn; [done|]. by rewrite Hx; cbn; rewrite IH. Qed.

Lemma foldl_count {A} (p : A → bool) l n :
  0 ≤ n → n + Z.of_nat (length l) ≤ int_max →
  foldl (λ n x, if p x then n ⊞ 1 else n) n l = n + Z.of_nat (length (List.filter p l)).
Proof.
  revert n. induction l as [|x l IH]; intros n Hn Hm; cbn in *; [lia|]. destruct (p x).
  - rewrite wrap64_id by (unfold in_int, int_min; lia). rewrite IH by lia. cbn. lia.
  - rewrite IH by lia. done.
Qed.

Lemma list_filter_fmap {A B} (p : B → bool) (g : A → B) l :
  length (List.filter p (g <$> l)) = length (List.filter (λ x, p (g x)) l).
Proof. induction l as [|x l IH]; [done|]. cbn. destruct (p (g x)); cbn; by rewrite IH. Qed.

#[export] Instance list_filter_perm {A} (p : A → bool) : Proper ((≡ₚ) ==> (≡ₚ)) (List.filter p).
Proof.
  intros l l'. induction 1 as [|x l l' _ IH|x y l|l1 l2 l3 _ IH1 _ IH2]; cbn; [done|..].
  - by destruct (p x); rewrite IH.
  - destruct (p x), (p y); [constructor|done..].
  - by etrans.
Qed.

Section run.
Context (post : Z → string → json → Exchange) (ParseFloat : string → option float64) (cfg : RunnerConfig).

(** What a request that has its prompt measures. *)
Definition measured (id : Z) : RequestMetrics :=
  match sendRequest post cfg id with Done m => m | Panicked => failed_request 0 "" end.

Definition request_failed (id : Z) : bool := if rq_Error (measured id) then true else false.

Lemma request_done id :
  1 ≤ id < Z.of_nat (length (rn_Prompts cfg)) → sendRequest post cfg id = Done (measured id).
Proof.
  intros Hid. unfold measured. unfold sendRequest. destruct (Z.ltb_spec id 0); [lia|].
  destruct (lookup_lt_is_Some_2 (rn_Prompts cfg) (Z.to_nat id)) as [p Hp]; [lia|]. rewrite Hp.
  cbv zeta. destruct (ex_answer _) as [r|e]; [|done]. by destruct (negb _).
Qed.

(** With more prompts than requests, a run measures every request once, and the
    error count is the number of requests that failed, however they overlap. *)
Theorem Run_measures order before after duration concurrency :
  0 < concurrency → 0 ≤ rn_NumRequests cfg ≤ int_max →
  rn_NumRequests cfg < Z.of_nat (length (rn_Prompts cfg)) → order ≡ₚ request_ids cfg →
  ∃ r, Run post ParseFloat cfg order before after duration concurrency = Done r ∧
    br_Requests r ≡ₚ measured <$> request_ids cfg ∧
    ErroredRequests r = Z.of_nat (length (List.filter request_failed (request_ids cfg))).
Proof.
  intros Hc Hn Hp Ho. unfold Run. destruct (Z.ltb_spec (rn_NumRequests cfg) 0); [lia|].
  destruct (Z.ltb_spec concurrency 0); [lia|]. destruct (Z.eqb_spec concurrency 0); [lia|]. cbn [orb andb].
  rewrite (mapM_done _ measured).
  2: { rewrite Ho. apply Forall_forall. intros id Hid%elem_of_seqZ. apply request_done. lia. }
  cbn. eexists. split; [done|]. cbn [br_Requests]. split; [by rewrite Ho|].
  unfold ErroredRequests. cbn [br_Requests].
  assert (length order = Z.to_nat (rn_NumRequests cfg)) as Hlen
    by (rewrite (Permutation_length Ho); apply length_seqZ).
  transitivity (0 + Z.of_nat (length (List.filter (λ m, if rq_Error m then true else false) (measured <$> order)))).
  - rewrite <-foldl_count; [|lia|rewrite length_fmap, Hlen; lia].
    generalize 0. induction (measured <$> order) as [|m l IH]; intros k; cbn; [done|]. by destruct (rq_Error m).
  - rewrite list_filter_fmap. cbn. do 2 f_equal. by rewrite Ho.
Qed.

(** Prompt 0 is never sent, so as many requests as prompts is one too many. *)
Lemma last_prompt_missing order before after duration concurrency :
  1 ≤ rn_NumRequests cfg → Z.of_nat (length (rn_Prompts cfg)) = rn_NumRequests cfg →
  order ≡ₚ request_ids cfg → Run post ParseFloat cfg order before after duration concurrency = Panicked.
Proof.
  intros Hn Hp Ho. unfold Run. destruct (_ || _); [done|]. destruct (_ && _); [done|].
  rewrite mapM_panics; [done|]. apply Exists_exists. exists (rn_NumRequests cfg). split.
  - rewrite Ho. apply elem_of_seqZ. lia.
  - unfold sendRequest. destruct (Z.ltb_spec (rn_NumRequests cfg) 0); [done|].
    by rewrite lookup_ge_None_2 by lia.
Qed.
End run.

(** ** Findings *)

(** A table of a run without requests panics. *)
Lemma empty_run_panics `{GoSort} c d b a : PrintResult [mkBenchMarkResult c [] d b a] = Panicked.
Proof.
  unfold PrintResult. cbn [mapM]. unfold result_row, SortDuration, ClientTTFTs. cbn [br_Requests fmap list_fmap].
  assert (sort_slice Z.ltb [] = @nil Z) as -> by (apply Permutation_nil; symmetry; apply sort_slice_perm). reflexivity.
Qed.

(** ** Examples *)
Definition sample_stream : Stream :=
  mkStream 200 "" [(150, "data: {}"); (160, ""); (180, "data: {}"); (240, "data: {}"); (250, "data: [DONE]")] 260.

Example stream_measured :
  read_stream 100 (sr_lines sample_stream) (mkStreamState 0 0 0 0) = mkStreamState 50 90 240 3.
Proof. reflexivity. Qed.

Example scraped :
  sm_TTFTCount (scrapeMetrics (λ s, if String.eqb s "7" then Some (f64_of_int 7) else None)
    (Ok ["# HELP x"; "vllm:time_to_first_token_seconds_count{model=a} 7"; "vllm:x 1"])) = f64_of_int 7.
Proof. reflexivity. Qed.

Example rounds : (λ d, duration_round d Millisecond) <$> [1499999; 1500000; -1500000; -1499999] =
  [1000000; 2000000; -2000000; -1000000].
Proof. reflexivity. Qed.

Example one_column_panics : LoadPrompts (Ok (Ok [["question"]; ["why"]])) = Panicked.
Proof. reflexivity. Qed.
