(* ===== verification/Process.v ===== *)
(** * Processes: goroutines, signals, servers and the stop channel

    A process is its goroutines, each the list of what it still has to do, the
    channel [stopCh], the pending signal, and its HTTP servers.  A step is one
    goroutine doing its next instruction, or the outside: a signal, a request.
    What the loops and the handlers do to the state is a parameter. *)

From Stdlib Require Import ZArith Lia String.
From stdpp Require Import base option list.
From S2P Require Import Prelude.
Open Scope Z_scope.
Open Scope go_scope.

(** ** http.Server

    [Shutdown] closes the listener and makes [Serve] return at once; it returns
    itself when no request is active, or when its context ends. *)
Record HttpServer : Type := mkHttpServer {
  hs_listening : bool;
  hs_inShutdown : bool;
  hs_active : nat
}.

Definition new_server : HttpServer := mkHttpServer false false 0.
Definition start_listening (s : HttpServer) : HttpServer := mkHttpServer true (hs_inShutdown s) (hs_active s).
Definition shut_down (s : HttpServer) : HttpServer := mkHttpServer false true (hs_active s).
Definition set_active (n : nat) (s : HttpServer) : HttpServer :=
  mkHttpServer (hs_listening s) (hs_inShutdown s) n.

Inductive Port : Type := MainPort | WebhookPort.

(** ** Goroutines *)

(** The loops, and what else may act on the state of the process. *)
Inductive Actor : Type :=
  | RefreshLoop | BroadcastLoop | RebalancingLoop | WatcherRun | Informers
  | InferenceWorkerLoop | PressureLoop
  | HandlerOf (port : Port)
  | OtherClient.

Inductive instr : Type :=
  | IGo (body : list instr)
  | INewTicker (interval : Z)
  | IAwaitSignal
  | ICloseStopCh
  | IOnce (body : list instr)
  | IOnceDone
  | IShutdown (port : Port)
  | IShutdownReturn (port : Port)
  | IListenAndServe (port : Port) (fatal : bool)
  | IServe (port : Port)
  | ISelectLoop (who : Actor)
  | IRangeLoop (who : Actor).

(** [sync.Once]: a second caller waits until the first has returned. *)
Inductive Once : Type := OnceNew | OnceRunning | OnceOver.

Record Proc {X : Type} : Type := mkProc {
  pr_goroutines : list (list instr);
  pr_exit : option Z;
  pr_signal : bool;
  pr_stopped : bool;
  pr_once : Once;
  pr_server : HttpServer;
  pr_webhook : HttpServer;
  pr_world : X
}.
Arguments Proc X : clear implicits.
Arguments mkProc {X}.

(** How a step that has a choice goes: whether the address can be listened on,
    whether a shutdown ran out of time, a tick with or without an effect on the
    state, the closed channel. *)
Inductive choice {E : Type} : Type :=
  | Proceed
  | CannotListen
  | TimedOut
  | Tick (e : option E)
  | StopReceived.
Arguments choice E : clear implicits.

Inductive label {E : Type} : Type :=
  | LGo (k : nat) (c : choice E)
  | LSignal
  | LAccept (port : Port)
  | LFinish (port : Port)
  | LEffect (who : Actor) (e : E).
Arguments label E : clear implicits.

Section process.
Context {X E : Type} (exec : X → E → outcome X) (allows : Actor → E → bool).
Implicit Types p : Proc X.

Definition set_goroutines gs p : Proc X :=
  mkProc gs (pr_exit p) (pr_signal p) (pr_stopped p) (pr_once p) (pr_server p) (pr_webhook p) (pr_world p).
Definition set_exit code p : Proc X :=
  mkProc (pr_goroutines p) (Some code) (pr_signal p) (pr_stopped p) (pr_once p) (pr_server p) (pr_webhook p) (pr_world p).
Definition set_signal b p : Proc X :=
  mkProc (pr_goroutines p) (pr_exit p) b (pr_stopped p) (pr_once p) (pr_server p) (pr_webhook p) (pr_world p).
Definition set_stopped p : Proc X :=
  mkProc (pr_goroutines p) (pr_exit p) (pr_signal p) true (pr_once p) (pr_server p) (pr_webhook p) (pr_world p).
Definition set_once o p : Proc X :=
  mkProc (pr_goroutines p) (pr_exit p) (pr_signal p) (pr_stopped p) o (pr_server p) (pr_webhook p) (pr_world p).
Definition set_world x p : Proc X :=
  mkProc (pr_goroutines p) (pr_exit p) (pr_signal p) (pr_stopped p) (pr_once p) (pr_server p) (pr_webhook p) x.

Definition server_of (port : Port) p : HttpServer :=
  match port with MainPort => pr_server p | WebhookPort => pr_webhook p end.
Definition set_server (port : Port) s p : Proc X :=
  match port with
  | MainPort =>
      mkProc (pr_goroutines p) (pr_exit p) (pr_signal p) (pr_stopped p) (pr_once p) s (pr_webhook p) (pr_world p)
  | WebhookPort =>
      mkProc (pr_goroutines p) (pr_exit p) (pr_signal p) (pr_stopped p) (pr_once p) (pr_server p) s (pr_world p)
  end.

Definition effect (e : E) p : outcome (Proc X) := x ← exec (pr_world p) e; Done (set_world x p).

(** A turn of a loop for its ticker. *)
Definition turn (who : Actor) (c : choice E) p : option (outcome (Proc X)) :=
  match c with
  | Tick None => Some (Done p)
  | Tick (Some e) => if allows who e then Some (effect e p) else None
  | _ => None
  end.

(** The goroutine [k] does [i] and goes on with [rest].  [None]: it cannot. *)
Definition do_instr (k : nat) (i : instr) (rest : list instr) (c : choice E) p : option (outcome (Proc X)) :=
  let continue l p' := set_goroutines (<[k := l]> (pr_goroutines p)) p' in
  match i with
  | IGo body => Some (Done (set_goroutines (<[k := rest]> (pr_goroutines p) ++ [body])%list p))
  | INewTicker interval => if 0 <? interval then Some (Done (continue rest p)) else Some Panicked
  | IAwaitSignal => if pr_signal p then Some (Done (continue rest (set_signal false p))) else None
  | ICloseStopCh => if pr_stopped p then Some Panicked else Some (Done (continue rest (set_stopped p)))
  | IOnce body =>
      match pr_once p with
      | OnceNew => Some (Done (continue (body ++ IOnceDone :: rest)%list (set_once OnceRunning p)))
      | OnceRunning => None
      | OnceOver => Some (Done (continue rest p))
      end
  | IOnceDone => Some (Done (continue rest (set_once OnceOver p)))
  | IShutdown port => Some (Done (continue rest (set_server port (shut_down (server_of port p)) p)))
  | IShutdownReturn port =>
      match c with
      | TimedOut => Some (Done (continue rest p))
      | _ => if (hs_active (server_of port p) =? 0)%nat then Some (Done (continue rest p)) else None
      end
  | IListenAndServe port fatal =>
      if hs_inShutdown (server_of port p) then Some (Done (continue rest p))
      else
        match c with
        | CannotListen => if fatal then Some (Done (set_exit 1 p)) else Some (Done (continue rest p))
        | _ => Some (Done (continue (IServe port :: rest) (set_server port (start_listening (server_of port p)) p)))
        end
  | IServe port => if hs_inShutdown (server_of port p) then Some (Done (continue rest p)) else None
  | ISelectLoop who =>
      match c with
      | StopReceived => if pr_stopped p then Some (Done (continue rest p)) else None
      | _ => turn who c p
      end
  | IRangeLoop who => turn who c p
  end.

(** The process ends when its first goroutine does. *)
Definition go_step (k : nat) (c : choice E) p : option (outcome (Proc X)) :=
  match pr_goroutines p !! k with
  | None => None
  | Some [] => if (k =? 0)%nat then Some (Done (set_exit 0 p)) else None
  | Some (i :: rest) => do_instr k i rest c p
  end.

Definition step (l : label E) p : option (outcome (Proc X)) :=
  match pr_exit p with
  | Some _ => None
  | None =>
      match l with
      | LGo k c => go_step k c p
      | LSignal => Some (Done (set_signal true p))
      | LAccept port =>
          let s := server_of port p in
          if hs_listening s then Some (Done (set_server port (set_active (S (hs_active s)) s) p)) else None
      | LFinish port =>
          let s := server_of port p in
          match hs_active s with
          | O => None
          | S n => Some (Done (set_server port (set_active n s) p))
          end
      | LEffect who e =>
          let may :=
            match who with
            | HandlerOf port => negb (hs_active (server_of port p) =? 0)%nat
            | OtherClient => true
            | _ => false
            end in
          if may && allows who e then Some (effect e p) else None
      end
  end.

(** The event a step carries into the state, if it carries one. *)
Definition event_of (l : label E) : option E :=
  match l with
  | LGo _ (Tick e) => e
  | LEffect _ e => Some e
  | _ => None
  end.

(** The runs whose events satisfy [ok]; a run may end in a panic. *)
Inductive reachable (ok : X → E → Prop) (start : Proc X) : outcome (Proc X) → Prop :=
  | reachable_start : reachable ok start (Done start)
  | reachable_step p l o :
      reachable ok start (Done p) → (∀ e, event_of l = Some e → ok (pr_world p) e) →
      step l p = Some o → reachable ok start o.

(** The run of a list of steps. *)
Fixpoint run_labels (ls : list (label E)) p : option (outcome (Proc X)) :=
  match ls with
  | [] => Some (Done p)
  | l :: ls => match step l p with Some (Done p') => run_labels ls p' | _ => None end
  end.

Definition start_process (main : list instr) (others : list (list instr)) (x : X) : Proc X :=
  mkProc (main :: others) None false false OnceNew new_server new_server x.
End process.

(** ** What a program must be, to run without a panic *)

(** How often [stopCh] is closed, outside of the [sync.Once]. *)
Fixpoint closes (i : instr) : nat :=
  match i with
  | IGo body => list_sum (map closes body)
  | ICloseStopCh => 1
  | _ => 0
  end.
Definition closes_of (l : list instr) : nat := list_sum (map closes l).

(** Intervals are positive, and the [sync.Once] closes at most [b] times. *)
Fixpoint instr_ok (b : nat) (i : instr) : bool :=
  match i with
  | IGo body => forallb (instr_ok b) body
  | INewTicker interval => 0 <? interval
  | IOnce body => (closes_of body <=? b)%nat && forallb (instr_ok b) body
  | _ => true
  end.

Definition closing_budget {X} (b : nat) (p : Proc X) : nat :=
  sum_list_with closes_of (pr_goroutines p) + (if pr_stopped p then 1 else 0) +
  match pr_once p with OnceNew => b | _ => 0 end.

Definition proc_inv {X} (b : nat) (J : X → Prop) (p : Proc X) : Prop :=
  Forall (λ l, forallb (instr_ok b) l = true) (pr_goroutines p) ∧ (closing_budget b p ≤ 1)%nat ∧ J (pr_world p).

(** ** Lemmas on goroutines *)
Lemma sum_insert {A} (f : A → nat) (l : list A) k x y :
  l !! k = Some x → (sum_list_with f (<[k := y]> l) + f x = sum_list_with f l + f y)%nat.
Proof.
  revert k. induction l as [|z l IH]; intros [|k] Hk; csimpl in *; simplify_eq/=; [lia|].
  pose proof (IH k Hk). lia.
Qed.

Lemma closes_cons i l : closes_of (i :: l) = (closes i + closes_of l)%nat.
Proof. done. Qed.

Lemma closes_app l1 l2 : closes_of (l1 ++ l2)%list = (closes_of l1 + closes_of l2)%nat.
Proof. unfold closes_of. by rewrite map_app, list_sum_app. Qed.

Section runs.
Context {X E : Type} (exec : X → E → outcome X) (allows : Actor → E → bool).
Context (b : nat) (J : X → Prop) (ok : X → E → Prop).
Implicit Types p : Proc X.

Hypothesis exec_ok : ∀ x e, J x → ok x e → ∃ x', exec x e = Done x' ∧ J x'.

Lemma goroutine_ok p k i rest :
  proc_inv b J p → pr_goroutines p !! k = Some (i :: rest) →
  instr_ok b i = true ∧ forallb (instr_ok b) rest = true.
Proof. intros [Hf _] Hk. pose proof (Forall_lookup_1 _ _ _ _ Hf Hk) as H. cbn in H. by apply andb_true_iff in H. Qed.

(** A goroutine that goes on with [l], and may start others, in a process that
    is otherwise [p']. *)
Lemma continue_inv p p' k i rest l new :
  proc_inv b J p → pr_goroutines p !! k = Some (i :: rest) →
  forallb (instr_ok b) l = true → Forall (λ l, forallb (instr_ok b) l = true) new →
  J (pr_world p') →
  pr_goroutines p' = (<[k := l]> (pr_goroutines p) ++ new)%list →
  (closes_of l + sum_list_with closes_of new + (if pr_stopped p' then 1 else 0) +
     match pr_once p' with OnceNew => b | _ => 0 end ≤
   closes i + closes_of rest + (if pr_stopped p then 1 else 0) + match pr_once p with OnceNew => b | _ => 0 end)%nat →
  proc_inv b J p'.
Proof.
  intros (Hf & Hb & HJ) Hk Hl Hnew HJ' Hg Hc. split; [|split; [|done]].
  - rewrite Hg. apply Forall_app. split; [|done]. by apply Forall_insert.
  - unfold closing_budget in *. rewrite Hg, sum_list_with_app.
    pose proof (sum_insert closes_of _ _ _ l Hk) as Hs. rewrite closes_cons in Hs. lia.
Qed.

Lemma effect_inv e p :
  proc_inv b J p → ok (pr_world p) e → ∃ p', effect exec e p = Done p' ∧ proc_inv b J p'.
Proof.
  intros Hp Hok. unfold effect. destruct (exec_ok (pr_world p) e) as (x & -> & HJ); [apply Hp|done|].
  eexists. split; [done|]. destruct Hp as (? & ? & _). by split_and!.
Qed.

Lemma turn_inv who c p o :
  proc_inv b J p → (∀ e, c = Tick (Some e) → ok (pr_world p) e) → turn exec allows who c p = Some o →
  ∃ p', o = Done p' ∧ proc_inv b J p'.
Proof.
  intros Hp Hok. destruct c as [| | |[e|]|]; cbn; try done; [|intros [= <-]; by exists p].
  destruct (allows who e); [|done]. intros [= <-]. by apply effect_inv, Hok.
Qed.

Lemma do_instr_inv k i rest c p o :
  proc_inv b J p → pr_goroutines p !! k = Some (i :: rest) →
  (∀ e, c = Tick (Some e) → ok (pr_world p) e) → do_instr exec allows k i rest c p = Some o →
  ∃ p', o = Done p' ∧ proc_inv b J p'.
Proof.
  intros Hp Hk Hok. destruct (goroutine_ok p k i rest Hp Hk) as [Hi Hrest].
  pose proof (continue_inv p) as Hcont. pose proof Hp as (_ & Hbud & HJ).
  assert (closes i + closes_of rest + (if pr_stopped p then 1 else 0) ≤ 1)%nat as Hone.
  { pose proof (sum_insert closes_of _ _ _ [] Hk) as Hs. rewrite closes_cons in Hs. change (closes_of []) with 0%nat in Hs. unfold closing_budget in Hbud. lia. }
  assert (∀ p', pr_world p' = pr_world p → pr_goroutines p' = <[k := rest]> (pr_goroutines p) →
    pr_stopped p' = pr_stopped p → (match pr_once p' with OnceNew => b | _ => 0 end ≤
    match pr_once p with OnceNew => b | _ => 0 end)%nat → proc_inv b J p') as Hnext.
  { intros p' Hw Hg Hs Ho. eapply (Hcont p' k i rest rest []); [done..|by rewrite Hw|by rewrite app_nil_r|].
    rewrite Hs. cbn. lia. }
  destruct i; cbn [do_instr]; intros Hdo; simplify_eq;
    try (eapply turn_inv; [exact Hp|exact Hok|exact Hdo]).
  - eexists. split; [done|]. eapply (Hcont _ k _ rest rest [body]); [done..| |done|done|].
    + by apply Forall_singleton.
    + change (closes (IGo body)) with (closes_of body). cbn [set_goroutines pr_stopped pr_once sum_list_with]. lia.
  - cbn [instr_ok] in Hi. rewrite Hi in Hdo. simplify_eq. eexists. split; [done|]. by apply Hnext.
  - destruct (pr_signal p); simplify_eq. eexists. split; [done|]. by apply Hnext.
  - cbn [closes] in Hone. destruct (pr_stopped p) eqn:Es; [lia|]. simplify_eq. eexists. split; [done|].
    eapply (Hcont _ k _ rest rest []); [done..|by rewrite app_nil_r|]. cbn [closes set_goroutines set_stopped pr_stopped pr_once sum_list_with].
    lia.
  - cbn [instr_ok] in Hi. apply andb_true_iff in Hi as [Hb Hbody]. apply Nat.leb_le in Hb.
    destruct (pr_once p) eqn:Eo; simplify_eq; eexists; (split; [done|]).
    + eapply (Hcont _ k _ rest (body ++ IOnceDone :: rest)%list []); [done|done| |done|done|by rewrite app_nil_r|].
      * rewrite forallb_app. cbn. by rewrite Hbody, Hrest.
      * cbn. rewrite closes_app, closes_cons. cbn. lia.
    + apply Hnext; [done..|]. cbn. by rewrite Eo.
  - eexists. split; [done|]. apply Hnext; [done..|]. cbn. lia.
  - eexists. split; [done|]. apply Hnext; by destruct port.
  - destruct c; try (destruct (_ =? _)%nat); simplify_eq; eexists; (split; [done|]); by apply Hnext.
  - destruct (hs_inShutdown _); simplify_eq; [eexists; split; [done|]; by apply Hnext|].
    assert (proc_inv b J (set_exit 1 p)) as Hexit by done.
    assert (proc_inv b J (set_goroutines (<[k := IServe port :: rest]> (pr_goroutines p))
      (set_server port (start_listening (server_of port p)) p))) as Hserve.
    { eapply (Hcont _ k _ rest (IServe port :: rest) []); [done|done|done|done|by destruct port| |].
      - by destruct port; cbn; rewrite app_nil_r.
      - rewrite closes_cons. destruct port; cbn [closes sum_list_with set_goroutines set_server pr_stopped pr_once]; lia. }
    destruct c; try destruct fatal; simplify_eq; eexists; (split; [done|]); first [exact Hserve|exact Hexit|by apply Hnext].
  - destruct (hs_inShutdown _); simplify_eq. eexists. split; [done|]. by apply Hnext.
  - destruct c; try (eapply turn_inv; [exact Hp|exact Hok|exact Hdo]).
    destruct (pr_stopped p) eqn:Es; simplify_eq. eexists. split; [done|]. apply Hnext; try done; cbn; by rewrite Es.
Qed.

(** Every step leads on. *)
Lemma step_inv l p o :
  proc_inv b J p → (∀ e, event_of l = Some e → ok (pr_world p) e) → step exec allows l p = Some o →
  ∃ p', o = Done p' ∧ proc_inv b J p'.
Proof.
  intros Hp Hok. unfold step. destruct (pr_exit p); [done|].
  destruct l as [k c| |port|port|who e]; cbn in Hok.
  - unfold go_step. destruct (pr_goroutines p !! k) as [[|i rest]|] eqn:Ek; [| |done].
    + destruct (k =? 0)%nat; [|done]. intros [= <-]. by eexists.
    + apply do_instr_inv; [done..|]. intros e ->. by apply Hok.
  - intros [= <-]. by eexists.
  - destruct (hs_listening _); [|done]. intros [= <-]. eexists. split; [done|]. by destruct port.
  - destruct (hs_active _); [done|]. intros [= <-]. eexists. split; [done|]. by destruct port.
  - destruct (_ && _); [|done]. intros [= <-]. by apply effect_inv, Hok.
Qed.

Lemma reachable_inv start o :
  proc_inv b J start → reachable exec allows ok start o → ∃ p, o = Done p ∧ proc_inv b J p.
Proof.
  intros Hs. induction 1 as [|p l o _ (p' & [= ->] & Hp) Hok Hstep]; [by exists start|].
  by eapply step_inv.
Qed.
End runs.

(** ** Where a run may panic

    [caught] goes on where an effect would have panicked; runs that do not panic
    are runs of it too. *)
Section panics.
Context {X E : Type} (exec : X → E → outcome X) (allows : Actor → E → bool).
Implicit Types p : Proc X.

Definition caught (x : X) (e : E) : outcome X :=
  match exec x e with Done x' => Done x' | Panicked => Done x end.

(** A step of [caught] is the same, or the effect of the step panics. *)
Lemma effect_caught e p :
  effect caught e p = effect exec e p ∨ exec (pr_world p) e = Panicked ∧ effect exec e p = Panicked.
Proof. unfold effect, caught. destruct (exec (pr_world p) e) eqn:Ex; [by left|by right]. Qed.

Lemma turn_caught who c p :
  turn caught allows who c p = turn exec allows who c p ∨
  (∃ e, c = Tick (Some e) ∧ exec (pr_world p) e = Panicked) ∧ turn exec allows who c p = Some Panicked.
Proof.
  destruct c as [| | |[e|]|]; cbn; try by left. destruct (allows who e); [|by left].
  destruct (effect_caught e p) as [->|[Ex ->]]; [by left|right; split; [by exists e|done]].
Qed.

Lemma step_caught l p :
  step caught allows l p = step exec allows l p ∨
  (∃ e, event_of l = Some e ∧ exec (pr_world p) e = Panicked) ∧ step exec allows l p = Some Panicked.
Proof.
  unfold step. destruct (pr_exit p); [by left|]. destruct l as [k c| |port|port|who e]; try by left.
  - unfold go_step. destruct (pr_goroutines p !! k) as [[|i rest]|]; try by left.
    destruct i; cbn [do_instr]; try by left.
    + assert (turn caught allows who c p = turn exec allows who c p ∨
        (∃ e, event_of (LGo k c) = Some e ∧ exec (pr_world p) e = Panicked) ∧
        turn exec allows who c p = Some Panicked) as Ht.
      { destruct (turn_caught who c p) as [->|[(e & -> & Ex) ->]]; [by left|]. right. split; [by exists e|done]. }
      destruct c; [exact Ht..|by left].
    + destruct (turn_caught who c p) as [->|[(e' & -> & Ex) ->]]; [by left|]. right. split; [by exists e'|done].
  - destruct (_ && _); [|by left].
    destruct (effect_caught e p) as [->|[Ex ->]]; [by left|right; split; [by exists e|done]].
Qed.

Lemma reachable_caught ok start p :
  reachable exec allows ok start (Done p) → reachable caught allows ok start (Done p).
Proof.
  remember (Done p) as o eqn:Eo. intros Hr. revert p Eo.
  induction Hr as [|q l o Hq IH Hok Hstep]; intros p Eo; [injection Eo as <-; apply reachable_start|]. subst o.
  eapply reachable_step; [exact (IH q eq_refl)|exact Hok|].
  destruct (step_caught l q) as [->|[_ E']]; [exact Hstep|congruence].
Qed.

(** A program of which [proc_inv] holds at the start: a run of it that panics does
    so in an effect. *)
Lemma panics_in_effect b ok start o :
  proc_inv b (λ _, True) start → reachable exec allows ok start o → o = Panicked →
  ∃ p e, reachable exec allows ok start (Done p) ∧ ok (pr_world p) e ∧ exec (pr_world p) e = Panicked.
Proof.
  intros Hinv Hr. destruct Hr as [|p l o Hp Hok Hstep]; [done|]. intros ->.
  destruct (step_caught l p) as [Ec|[(e & He & Ex) _]]; [|exists p, e; by split_and!; [|apply Hok|]].
  assert (reachable caught allows ok start Panicked) as Hc.
  { eapply reachable_step; [by apply reachable_caught|exact Hok|congruence]. }
  destruct (reachable_inv caught allows b (λ _, True) ok) with (start := start) (o := @Panicked (Proc X))
    as (q & Hq & _); [|done..].
  intros x e _ _. unfold caught. destruct (exec x e) as [x'|]; by eexists.
Qed.

(** A step that carries no event does not panic. *)
Lemma quiet_step_done b ok start p l o :
  proc_inv b (λ _, True) start → reachable exec allows ok start (Done p) → event_of l = None →
  step exec allows l p = Some o → ∃ p', o = Done p'.
Proof.
  intros Hinv Hp%reachable_caught Hl Hstep.
  assert (∀ x e, True → ok x e → ∃ x', caught x e = Done x' ∧ True) as Htotal.
  { intros x e _ _. unfold caught. destruct (exec x e) as [x'|]; by eexists. }
  destruct (reachable_inv caught allows b (λ _, True) ok Htotal _ _ Hinv Hp) as (q & [= <-] & Hq).
  destruct (step_caught l p) as [Ec|[(e & He & _) _]]; [|congruence]. rewrite <-Ec in Hstep.
  destruct (step_inv caught allows b (λ _, True) ok Htotal l p o Hq) as (p' & -> & _); [|done|by exists p'].
  intros e He. congruence.
Qed.
End panics.

(** ** A process whose first goroutine polls for ever *)

(** Nothing in it ends the process. *)
Fixpoint harmless (i : instr) : bool :=
  match i with
  | IGo body => forallb harmless body
  | IOnce body => forallb harmless body
  | IListenAndServe _ fatal => negb fatal
  | _ => true
  end.

(** Nothing in it waits. *)
Definition never_waits (i : instr) : bool :=
  match i with IGo _ | INewTicker _ => true | _ => false end.

Definition polls_forever {X} (p : Proc X) : Prop :=
  pr_exit p = None ∧ Forall (λ l, forallb harmless l = true) (pr_goroutines p) ∧
  ∃ l, pr_goroutines p !! 0%nat = Some (l ++ [IRangeLoop WatcherRun])%list ∧ forallb never_waits l = true.

Section polling.
Context {X E : Type} (exec : X → E → outcome X) (allows : Actor → E → bool).
Implicit Types p : Proc X.

Lemma continue_polls p p' k i rest l new :
  polls_forever p → pr_goroutines p !! k = Some (i :: rest) → pr_exit p' = None →
  forallb harmless l = true → Forall (λ l, forallb harmless l = true) new →
  (never_waits i = true → l = rest) → i ≠ IRangeLoop WatcherRun →
  pr_goroutines p' = (<[k := l]> (pr_goroutines p) ++ new)%list → polls_forever p'.
Proof.
  intros (_ & Hf & l0 & H0 & Hw) Hk He Hl Hnew Hlast Hi Hg. split; [done|]. rewrite Hg. split.
  { apply Forall_app. split; [by apply Forall_insert|done]. }
  pose proof (lookup_lt_Some _ _ _ H0) as Hlt.
  assert ((<[k := l]> (pr_goroutines p)) !! 0%nat = Some (if decide (k = 0%nat) then l else l0 ++ [IRangeLoop WatcherRun])%list) as Hz.
  { case_decide as Hd; [subst k; by rewrite list_lookup_insert_eq|by rewrite list_lookup_insert_ne]. }
  case_decide; [|exists l0; split; [by apply lookup_app_l_Some|done]]. subst k. rewrite H0 in Hk.
  destruct l0 as [|j l0]; cbn in Hk; simplify_eq. cbn in Hw. apply andb_true_iff in Hw as [Hwi Hw].
  exists l0. split; [|done]. apply lookup_app_l_Some. by rewrite Hz, (Hlast Hwi).
Qed.

Lemma effect_polls e p p' : polls_forever p → effect exec e p = Done p' → polls_forever p'.
Proof. intros Hp. unfold effect. by intros (x & _ & [= <-])%outcome_bind_done. Qed.

Lemma turn_polls who c p p' : polls_forever p → turn exec allows who c p = Some (Done p') → polls_forever p'.
Proof.
  intros Hp. destruct c as [| | |[e|]|]; cbn; try done; [|by intros [= <-]].
  destruct (allows who e); [|done]. intros [= He]. by eapply effect_polls.
Qed.

Lemma do_instr_polls k i rest c p p' :
  polls_forever p → pr_goroutines p !! k = Some (i :: rest) →
  do_instr exec allows k i rest c p = Some (Done p') → polls_forever p'.
Proof.
  intros Hp Hk. pose proof Hp as (He & Hf & _). pose proof (Forall_lookup_1 _ _ _ _ Hf Hk) as Hh.
  cbn in Hh. apply andb_true_iff in Hh as [Hi Hrest].
  assert (∀ p', pr_exit p' = None → i ≠ IRangeLoop WatcherRun →
    pr_goroutines p' = <[k := rest]> (pr_goroutines p) → polls_forever p') as Hnext.
  { intros q Hq Hne Hg. eapply (continue_polls p q k i rest rest []); try done. by rewrite app_nil_r. }
  destruct i; cbn [do_instr]; intros Hdo; simplify_eq; try (by eapply turn_polls);
    repeat (case_match; simplify_eq); try (by apply Hnext); try (by destruct port; apply Hnext);
    try (by eapply turn_polls);
    try (eapply (continue_polls p _ k _ rest (IServe port :: rest) []); try done;
      [by destruct port|by destruct port; rewrite app_nil_r]).
  - eapply (continue_polls p _ k _ rest rest [body]); try done. by apply Forall_singleton.
  - eapply (continue_polls p _ k _ rest (body ++ IOnceDone :: rest)%list []); try done; [|by rewrite app_nil_r].
    rewrite forallb_app. cbn in Hi |- *. by rewrite Hi, Hrest.
Qed.

Lemma step_polls l p p' : polls_forever p → step exec allows l p = Some (Done p') → polls_forever p'.
Proof.
  intros Hp. pose proof Hp as (He & _ & m & H0 & Hm). unfold step. rewrite He.
  destruct l as [k c| |port|port|who e].
  - unfold go_step. destruct (pr_goroutines p !! k) as [[|i rest]|] eqn:Ek; [| |done].
    + destruct k; [|done]. rewrite H0 in Ek. by destruct m.
    + by apply do_instr_polls.
  - by intros [= <-].
  - destruct (hs_listening _); [|done]. intros [= <-]. by destruct port.
  - destruct (hs_active _); [done|]. intros [= <-]. by destruct port.
  - destruct (_ && _); [|done]. intros [= He']. by eapply effect_polls.
Qed.

Lemma reachable_polls ok start p :
  polls_forever start → reachable exec allows ok start (Done p) → polls_forever p.
Proof.
  intros Hs. remember (Done p) as o eqn:Eo. intros Hr. revert p Eo.
  induction Hr as [|q l o Hq IH _ Hstep]; intros p Eo; [by injection Eo as <-|].
  subst o. by eapply step_polls; [apply IH|].
Qed.

(** Its first goroutine is polling, or on its way there. *)
Lemma polls_progress p :
  polls_forever p → Forall (λ l, forallb (instr_ok 0) l = true) (pr_goroutines p) →
  pr_goroutines p !! 0%nat = Some [IRangeLoop WatcherRun] ∨
  ∃ i l p', pr_goroutines p !! 0%nat = Some (i :: l) ∧ step exec allows (LGo 0 Proceed) p = Some (Done p') ∧
    pr_goroutines p' !! 0%nat = Some l.
Proof.
  intros (He & _ & [|i l] & H0 & Hw) Hok; [by left|right].
  pose proof (Forall_lookup_1 _ _ _ _ Hok H0) as Hi. cbn in Hi, Hw.
  apply andb_true_iff in Hi as [Hi _], Hw as [Hw _]. pose proof (lookup_lt_Some _ _ _ H0) as Hlt.
  exists i, (l ++ [IRangeLoop WatcherRun])%list. unfold step, go_step. rewrite He, H0.
  destruct i; try done; cbn [app do_instr]; [|cbn in Hi; rewrite Hi]; eexists; (split; [done|]); (split; [done|]).
  - cbn [set_goroutines pr_goroutines]. apply lookup_app_l_Some. by rewrite list_lookup_insert_eq.
  - cbn [set_goroutines pr_goroutines]. by rewrite list_lookup_insert_eq.
Qed.
End polling.

Lemma run_labels_reachable {X E} (exec : X → E → outcome X) (allows : Actor → E → bool) (ok : X → E → Prop)
    ls (start p : Proc X) o :
  Forall (λ l, ∀ e, event_of l = Some e → ∀ x, ok x e) ls →
  reachable exec allows ok start (Done p) → run_labels exec allows ls p = Some o →
  reachable exec allows ok start o.
Proof.
  intros Hls. revert p. induction Hls as [|l ls Hl _ IH]; intros p Hp; cbn [run_labels]; [by intros [= <-]|].
  destruct (step exec allows l p) as [[p'|]|] eqn:Es; try done. apply IH.
  eapply reachable_step; [exact Hp|by intros e He; apply Hl|done].
Qed.

(** ** A process that serves until it is stopped

    Its first goroutine starts others and listens; its second waits for a signal,
    then closes the channel and shuts the server down. *)

(** Neither ends the process nor stops it. *)
Fixpoint background (i : instr) : bool :=
  match i with
  | IGo body => forallb background body
  | IAwaitSignal | ICloseStopCh | IOnce _ | IOnceDone | IShutdown _ => false
  | IListenAndServe _ fatal => negb fatal
  | _ => true
  end.

Definition stop_body : list instr := [ICloseStopCh; IShutdown MainPort; IShutdownReturn MainPort].

Definition stop_handler (body : list instr) : Prop := body = stop_body ∨ body = [IOnce stop_body].

Definition serving_main {X} (p : Proc X) (l : list instr) : Prop :=
  (∃ bodies, l = (map IGo bodies ++ [IListenAndServe MainPort true])%list ∧
     Forall (λ b, forallb background b = true) bodies) ∨
  l = [IServe MainPort] ∨ l = [] ∧ hs_inShutdown (pr_server p) = true.

(** Where the handler is; [k] is what follows when it has returned. *)
Inductive stopper {X} (p : Proc X) : list instr → Prop :=
  | stopper_waits body :
      stop_handler body → pr_stopped p = false → pr_once p = OnceNew → stopper p (IAwaitSignal :: body)
  | stopper_once : pr_stopped p = false → pr_once p = OnceNew → stopper p [IOnce stop_body]
  | stopper_begins k : pr_stopped p = false → k = [] ∨ k = [IOnceDone] → stopper p (stop_body ++ k)%list
  | stopper_closed k :
      pr_stopped p = true → k = [] ∨ k = [IOnceDone] →
      stopper p (IShutdown MainPort :: IShutdownReturn MainPort :: k)
  | stopper_shut l k :
      pr_stopped p = true → hs_inShutdown (pr_server p) = true → k = [] ∨ k = [IOnceDone] →
      l = IShutdownReturn MainPort :: k ∨ l = k → stopper p l.

Definition serves_until_stopped {X} (start : Proc X) : Prop :=
  ∃ body bodies, stop_handler body ∧ Forall (λ b, forallb background b = true) bodies ∧
    start = start_process (IGo (IAwaitSignal :: body) :: map IGo bodies ++ [IListenAndServe MainPort true])%list []
      (pr_world start).

Definition serving {X} (p : Proc X) : Prop :=
  (hs_inShutdown (pr_server p) = true → pr_stopped p = true) ∧
  match pr_exit p with
  | Some c => c = 0 ∧ pr_stopped p = true ∨ c = 1
  | None =>
      (∃ body bodies, stop_handler body ∧ Forall (λ b, forallb background b = true) bodies ∧
         pr_goroutines p =
           [IGo (IAwaitSignal :: body) :: map IGo bodies ++ [IListenAndServe MainPort true]]%list ∧
         pr_stopped p = false ∧ pr_once p = OnceNew) ∨
      (∃ m s others, pr_goroutines p = m :: s :: others ∧ serving_main p m ∧ stopper p s ∧
         Forall (λ l, forallb background l = true) others)
  end.

(** How much the two goroutines have left at most. *)
Fixpoint weight (i : instr) : nat :=
  match i with
  | IGo body => 1 + list_sum (map weight body)
  | IOnce body => 2 + list_sum (map weight body)
  | IListenAndServe _ _ => 2
  | _ => 1
  end.
Definition weight_of (l : list instr) : nat := list_sum (map weight l).

Definition rank {X} (p : Proc X) : nat :=
  match pr_exit p with
  | Some _ => 0
  | None =>
      S (default 0 (weight_of <$> pr_goroutines p !! 0%nat) + default 0 (weight_of <$> pr_goroutines p !! 1%nat))%nat
  end.

(** A signal is pending, or the handler has taken it. *)
Definition signalled {X} (p : Proc X) : Prop :=
  pr_signal p = true ∨ ∃ s, pr_goroutines p !! 1%nat = Some s ∧ ∀ l, s ≠ IAwaitSignal :: l.

Section serving.
Context {X E : Type} (exec : X → E → outcome X) (allows : Actor → E → bool).
Implicit Types p : Proc X.

Lemma serving_can_step p :
  serving p → pr_exit p = None → signalled p →
  ∃ k, (k < 2)%nat ∧ is_Some (step exec allows (LGo k Proceed) p).
Proof.
  intros [_ Hs] He Hsig. rewrite He in Hs. unfold step, go_step. rewrite He.
  destruct Hs as [(body & bodies & _ & _ & Hg & _)|(m & s & others & Hg & Hm & Hst & _)].
  { exists 0%nat. rewrite Hg. split; [lia|]. by eexists. }
  rewrite Hg. destruct Hm as [([|b bodies] & -> & _)|[->|[-> _]]].
  - exists 0%nat. split; [lia|]. cbn. destruct (hs_inShutdown _); by eexists.
  - exists 0%nat. split; [lia|]. by eexists.
  - destruct Hst as [body _ _ _|_ Ho|k _ _|k _ _|l k _ Hsh _ _].
    + destruct Hsig as [Hsig|(s & Hsig & Hne)]; [|rewrite Hg in Hsig; injection Hsig as <-; by destruct (Hne body)].
      exists 1%nat. split; [lia|]. cbn. rewrite Hsig. by eexists.
    + exists 1%nat. split; [lia|]. cbn. rewrite Ho. by eexists.
    + exists 1%nat. split; [lia|]. cbn. destruct (pr_stopped p); by eexists.
    + exists 1%nat. split; [lia|]. by eexists.
    + exists 0%nat. split; [lia|]. cbn. rewrite Hsh. by eexists.
  - exists 0%nat. split; [lia|]. by eexists.
Qed.

(** What a goroutine in the background leaves as it is. *)
Definition frame p p' : Prop :=
  pr_exit p' = pr_exit p ∧ (pr_signal p = true → pr_signal p' = true) ∧ pr_stopped p' = pr_stopped p ∧ pr_once p' = pr_once p ∧
  hs_inShutdown (pr_server p') = hs_inShutdown (pr_server p).

Lemma frame_refl p : frame p p.
Proof. done. Qed.

Lemma frame_main p p' m : frame p p' → serving_main p m → serving_main p' m.
Proof. intros (_ & _ & _ & _ & E5). unfold serving_main. by rewrite E5. Qed.

Lemma frame_stopper p p' s : frame p p' → stopper p s → stopper p' s.
Proof.
  intros (_ & _ & E3 & E4 & E5) [body Hb Hs Ho|Hs Ho|k Hs Hk|k Hs Hk|l k Hs Hi Hk Hl].
  - apply stopper_waits; congruence || done.
  - apply stopper_once; congruence.
  - apply stopper_begins; congruence || done.
  - apply stopper_closed; congruence || done.
  - eapply stopper_shut; [congruence|congruence|exact Hk|exact Hl].
Qed.

Lemma turn_frame who c p p' :
  turn exec allows who c p = Some (Done p') → frame p p' ∧ pr_goroutines p' = pr_goroutines p.
Proof.
  destruct c as [| | |[e|]|]; cbn; try done; [|by intros [= <-]].
  destruct (allows who e); [|done]. unfold effect. by intros [= (x & _ & [= <-])%outcome_bind_done].
Qed.

Lemma background_step k i rest c p p' :
  pr_goroutines p !! k = Some (i :: rest) → forallb background (i :: rest) = true →
  do_instr exec allows k i rest c p = Some (Done p') →
  frame p p' ∧ ∃ l new, pr_goroutines p' = (<[k := l]> (pr_goroutines p) ++ new)%list ∧
    forallb background l = true ∧ Forall (λ l, forallb background l = true) new.
Proof.
  intros Hk Hb. pose proof Hb as Hb'. cbn in Hb'. apply andb_true_iff in Hb' as [Hi Hrest].
  assert (∀ p', frame p p' → pr_goroutines p' = <[k := rest]> (pr_goroutines p) → frame p p' ∧
    ∃ l new, pr_goroutines p' = (<[k := l]> (pr_goroutines p) ++ new)%list ∧ forallb background l = true ∧
      Forall (λ l, forallb background l = true) new) as Hnext.
  { intros q Hq Hg. split; [done|]. exists rest, []. by rewrite app_nil_r. }
  assert (∀ who, turn exec allows who c p = Some (Done p') → frame p p' ∧
    ∃ l new, pr_goroutines p' = (<[k := l]> (pr_goroutines p) ++ new)%list ∧ forallb background l = true ∧
      Forall (λ l, forallb background l = true) new) as Hturn.
  { intros who [Hf Hg]%turn_frame. split; [done|]. exists (i :: rest), []. by rewrite Hg, app_nil_r, list_insert_id. }
  destruct i; cbn [do_instr]; intros Hdo; try done; simplify_eq; try (by eapply Hturn);
    repeat (case_match; simplify_eq); try (by apply Hnext); try (by destruct port; apply Hnext);
    try (by eapply Hturn);
    try (split; [by destruct port|]; exists (IServe port :: rest), []; by destruct port; rewrite app_nil_r).
  split; [done|]. exists rest, [body]. split; [done|]. split; [done|]. by apply Forall_singleton.
Qed.

(** A step of one of the two goroutines brings the end nearer. *)
Definition advances p p' : Prop :=
  serving p' ∧ (signalled p → signalled p') ∧ (rank p' < rank p)%nat.

Lemma serving_intro p m s others :
  pr_exit p = None → (hs_inShutdown (pr_server p) = true → pr_stopped p = true) →
  pr_goroutines p = m :: s :: others → serving_main p m → stopper p s →
  Forall (λ l, forallb background l = true) others → serving p.
Proof. intros He Hi Hg Hm Hs Ho. split; [done|]. rewrite He. right. by exists m, s, others. Qed.

Lemma weight_cons i l : weight_of (i :: l) = (weight i + weight_of l)%nat.
Proof. done. Qed.

Lemma weight_app l1 l2 : weight_of (l1 ++ l2)%list = (weight_of l1 + weight_of l2)%nat.
Proof. unfold weight_of. by rewrite map_app, list_sum_app. Qed.

Lemma weight_pos i : (0 < weight i)%nat.
Proof. destruct i; cbn; lia. Qed.

(** The first goroutine, once the handler is there, goes on with less. *)
Lemma main_goes_on p p' m m' s others new :
  pr_exit p = None → (hs_inShutdown (pr_server p) = true → pr_stopped p = true) →
  pr_goroutines p = m :: s :: others → stopper p s → Forall (λ l, forallb background l = true) others →
  frame p p' → pr_goroutines p' = (m' :: s :: others ++ new)%list → serving_main p' m' →
  Forall (λ l, forallb background l = true) new → (weight_of m' < weight_of m)%nat → advances p p'.
Proof.
  intros He Hi Hg Hs Ho Hf Hg' Hm Hnew Hw. pose proof Hf as (E1 & E2 & E3 & E4 & E5). split; [|split].
  - eapply serving_intro; [congruence|by rewrite E5, E3|exact Hg'|done|by eapply frame_stopper|by apply Forall_app].
  - unfold signalled. rewrite Hg, Hg'. intros [Hsig|Hsig]; [left; auto|by right].
  - unfold rank. rewrite E1, He, Hg, Hg'. cbn. lia.
Qed.

Lemma main_step p p' c :
  serving p → pr_exit p = None → go_step exec allows 0 c p = Some (Done p') → advances p p'.
Proof.
  intros [Hi Hs] He. rewrite He in Hs. unfold go_step.
  destruct Hs as [(body & bodies & Hb & Hbs & Hg & Hst & Ho)|(m & s & others & Hg & Hm & Hst & Hot)]; rewrite Hg.
  { intros [= <-]. split; [|split].
    - eapply serving_intro; [done|done|by rewrite Hg|left; by exists bodies|by apply stopper_waits|constructor].
    - unfold signalled. rewrite Hg. intros [Hsig|(s & Hn & _)]; [by left|done].
    - unfold rank. cbn [pr_exit set_goroutines pr_goroutines]. rewrite He, Hg. cbn. rewrite map_app, list_sum_app.
      unfold weight_of. rewrite map_app, list_sum_app. cbn. lia. }
  pose proof (main_goes_on p p' m) as Hgo.
  destruct Hm as [([|b bodies] & -> & Hbs)|[->|[-> Hsh]]]; cbn [lookup list_lookup map app do_instr server_of].
  - destruct (hs_inShutdown (pr_server p)) eqn:Esh; [intros [= <-]|].
    + eapply (Hgo [] s others []); try done; [by rewrite app_nil_r; rewrite Hg|by right; right|cbn; lia].
    + destruct c; intros [= <-];
        try (eapply (Hgo [IServe MainPort] s others []); try done;
          [by rewrite app_nil_r; cbn; rewrite Hg|by right; left|cbn; lia]).
      split; [|split]; [split; [cbn; congruence|by right]|done|]. unfold rank. cbn. rewrite He. lia.
  - intros [= <-]. apply Forall_cons in Hbs as [Hb Hbs].
    eapply (Hgo _ s others [b]); try done; [by cbn; rewrite Hg|left; by exists bodies|by apply Forall_singleton|].
    cbn [map app]. rewrite weight_cons. pose proof (weight_pos (IGo b)). lia.
  - destruct (hs_inShutdown (pr_server p)) eqn:Esh; [|done]. intros [= <-].
    eapply (Hgo [] s others []); try done; [by rewrite app_nil_r; cbn; rewrite Hg|by right; right|cbn; lia].
  - intros [= <-]. split; [|split]; [split; [done|left; split; [done|by apply Hi]]|done|].
    unfold rank. cbn. rewrite He. lia.
Qed.

(** The handler goes on with less, and the first goroutine is where it was. *)
Lemma stopper_goes_on p p' m s s' others :
  pr_exit p = None → pr_goroutines p = m :: s :: others → serving_main p m →
  Forall (λ l, forallb background l = true) others →
  pr_exit p' = None → pr_goroutines p' = m :: s' :: others →
  (hs_inShutdown (pr_server p') = true → pr_stopped p' = true) →
  (hs_inShutdown (pr_server p) = true → hs_inShutdown (pr_server p') = true) →
  stopper p' s' → (∀ l, s' ≠ IAwaitSignal :: l) → (weight_of s' < weight_of s)%nat → advances p p'.
Proof.
  intros He Hg Hm Ho He' Hg' Hi Hsh Hs Hne Hw. split; [|split].
  - eapply serving_intro; [done..| |done|done].
    destruct Hm as [Hm|[Hm|[-> Hm]]]; [by left|by right; left|right; right; by split; [|apply Hsh]].
  - intros _. right. exists s'. by rewrite Hg'.
  - unfold rank. rewrite He, He', Hg, Hg'. cbn. lia.
Qed.

Lemma stopper_step p p' :
  serving p → pr_exit p = None → ∀ c, go_step exec allows 1 c p = Some (Done p') → advances p p'.
Proof.
  intros [Hi Hs] He c. rewrite He in Hs. unfold go_step.
  destruct Hs as [(body & bodies & Hb & Hbs & Hg & Hst & Ho)|(m & s & others & Hg & Hm & Hst & Hot)]; rewrite Hg; [done|].
  pose proof (stopper_goes_on p p' m s) as Hgo. cbn [lookup list_lookup].
  destruct Hst as [body Hb Hs Ho|Hs Ho|k Hs Hk|k Hs Hk|l k Hs Hsh Hk Hl].
  - cbn [do_instr]. destruct (pr_signal p); [|done]. intros [= <-].
    assert (∀ l, body ≠ IAwaitSignal :: l) as Hne by (intros l ->; by destruct Hb).
    eapply (Hgo body others); try done; [by cbn; rewrite Hg| |rewrite !weight_cons; cbn [weight]; lia].
    destruct Hb as [->| ->]; [apply (stopper_begins _ []); [done|by left]|by apply stopper_once].
  - cbn [do_instr]. rewrite Ho. intros [= <-].
    eapply (Hgo (stop_body ++ [IOnceDone])%list others); try done; [by cbn; rewrite Hg| |vm_compute; lia].
    apply stopper_begins; [done|by right].
  - cbn [stop_body app do_instr]. rewrite Hs. intros [= <-].
    eapply (Hgo (IShutdown MainPort :: IShutdownReturn MainPort :: k) others); try done;
      [by cbn; rewrite Hg|by apply stopper_closed|cbn [stop_body app]; rewrite !weight_cons; cbn [weight]; lia].
  - cbn [do_instr set_server server_of]. intros [= <-].
    eapply (Hgo (IShutdownReturn MainPort :: k) others); try done; [by cbn; rewrite Hg| |rewrite !weight_cons; cbn [weight]; lia].
    eapply stopper_shut; [done|done|exact Hk|by left].
  - assert (k = [] ∨ ∃ l, k = IOnceDone :: l) as Hk' by (destruct Hk; [by left|right; by eexists]).
    assert (∀ l, k ≠ IAwaitSignal :: l) as Hne by (intros l' ->; by destruct Hk).
    destruct Hl as [->| ->].
    + cbn [do_instr]. assert (stopper (set_goroutines (m :: k :: others) p) k) as Hst'.
      { eapply stopper_shut; [done|done|exact Hk|by right]. }
      destruct c; try destruct (_ =? _)%nat; try done; intros [= <-];
        (eapply (Hgo k others); try done; [by cbn; rewrite Hg|by rewrite Hg|rewrite !weight_cons; cbn [weight]; lia]).
    + destruct Hk as [->| ->]; [done|]. cbn [do_instr]. intros [= <-].
      eapply (Hgo [] others); try done; [by cbn; rewrite Hg|eapply (stopper_shut _ [] []); by auto|vm_compute; lia].
Qed.

Lemma frame_serving p p' :
  frame p p' → pr_goroutines p' = pr_goroutines p → serving p →
  serving p' ∧ (signalled p → signalled p') ∧ rank p' = rank p.
Proof.
  intros Hf Hg [Hi Hs]. pose proof Hf as (E1 & E2 & E3 & E4 & E5). split; [|split].
  - split; [by rewrite E5, E3|]. rewrite E1. destruct (pr_exit p); [by rewrite E3|].
    destruct Hs as [(body & bodies & Hs)|(m & s & others & Hg0 & Hm & Hs & Ho)].
    + left. exists body, bodies. by rewrite Hg, E3, E4.
    + right. exists m, s, others. rewrite Hg. split; [done|]. split; [by eapply frame_main|].
      by split; [eapply frame_stopper|].
  - unfold signalled. rewrite Hg. intros [Hsig|Hsig]; [left; auto|by right].
  - unfold rank. by rewrite E1, Hg.
Qed.

Lemma background_goroutine_step p p' k c :
  serving p → pr_exit p = None → go_step exec allows (S (S k)) c p = Some (Done p') →
  serving p' ∧ (signalled p → signalled p') ∧ rank p' = rank p.
Proof.
  intros [Hi Hs] He. rewrite He in Hs. unfold go_step.
  destruct Hs as [(body & bodies & Hb & Hbs & Hg & Hst & Ho)|(m & s & others & Hg & Hm & Hst & Hot)]; [by rewrite Hg|].
  destruct (pr_goroutines p !! S (S k)) as [[|i rest]|] eqn:Ek; try done.
  assert (others !! k = Some (i :: rest)) as Ek' by (by rewrite Hg in Ek).
  intros Hdo. apply background_step in Hdo as (Hf & l & new & Hg' & Hl & Hnew);
    [|done|exact (Forall_lookup_1 _ _ _ _ Hot Ek')]. pose proof Hf as (E1 & E2 & E3 & E4 & E5).
  rewrite Hg in Hg'. cbn in Hg'. split; [|split].
  - eapply serving_intro; [congruence|by rewrite E5, E3|exact Hg'|by eapply frame_main|by eapply frame_stopper|].
    apply Forall_app. split; [by apply Forall_insert|done].
  - unfold signalled. rewrite Hg, Hg'. cbn. intros [Hsig|Hsig]; [left; auto|by right].
  - unfold rank. by rewrite E1, Hg, Hg'.
Qed.

Lemma serving_step l p p' :
  serving p → step exec allows l p = Some (Done p') →
  serving p' ∧ (signalled p → signalled p') ∧ (rank p' ≤ rank p)%nat ∧
  ∀ k c, l = LGo k c → (k < 2)%nat → (rank p' < rank p)%nat.
Proof.
  intros Hs. unfold step. destruct (pr_exit p) eqn:He; [done|].
  assert (∀ p', frame p p' → pr_goroutines p' = pr_goroutines p → (∀ k c, l ≠ LGo k c) →
    serving p' ∧ (signalled p → signalled p') ∧ (rank p' ≤ rank p)%nat ∧
    ∀ k c, l = LGo k c → (k < 2)%nat → (rank p' < rank p)%nat) as Hframe.
  { intros q Hf Hg Hl. destruct (frame_serving p q Hf Hg Hs) as (H1 & H2 & H3).
    split_and!; [done..|lia|]. intros k c Hk. by destruct (Hl k c). }
  destruct l as [[|[|k]] c| |port|port|who e].
  - intros Hgo. destruct (main_step p p' c Hs He Hgo) as (H1 & H2 & H3). by split_and!; [| |lia|].
  - intros Hgo. destruct (stopper_step p p' Hs He c Hgo) as (H1 & H2 & H3). by split_and!; [| |lia|].
  - intros Hgo. destruct (background_goroutine_step p p' k c Hs He Hgo) as (H1 & H2 & H3).
    split_and!; [done..|lia|]. intros k' c' [= <- _]. lia.
  - intros [= <-]. by apply Hframe.
  - destruct (hs_listening _); [|done]. intros [= <-]. by destruct port; apply Hframe.
  - destruct (hs_active _); [done|]. intros [= <-]. by destruct port; apply Hframe.
  - destruct (_ && _); [|done]. unfold effect. intros [= (x & _ & [= <-])%outcome_bind_done]. by apply Hframe.
Qed.

Lemma serving_start (start : Proc X) : serves_until_stopped start → serving start.
Proof.
  intros (body & bodies & Hb & Hbs & ->). split; [done|]. left. by exists body, bodies.
Qed.

Lemma reachable_serving ok (start p : Proc X) :
  serves_until_stopped start → reachable exec allows ok start (Done p) → serving p.
Proof.
  intros Hs%serving_start Hr. remember (Done p) as o eqn:Eo. revert p Eo.
  induction Hr as [|q l o Hq IH _ Hstep]; intros p Eo; [by injection Eo as <-|].
  subst o. by eapply serving_step; [apply IH|].
Qed.
End serving.
