(* ===== verification/Shutdown.v ===== *)
(** * Run, Stop and main of the scheduler and of the proxy

    [cmd/scheduler/main.go] and [cmd/proxy/main.go] as programs of [Process]: the
    goroutines they start, in order, and what the signal handler does. *)

From Stdlib Require Import ZArith Lia Ascii String.
From stdpp Require Import base option list strings gmap.
From S2P Require Import Prelude GoFloat GoStrings Types K8s Config Helpers Registry Strategy Binpack.
From S2P Require Import GangMultiPod Routing Allocator GangCollector Preemption Watcher Scenario.
From S2P Require Import Placement Cycle Recovery Safety Manager Nvml Discoverer Fifo Loader Rebalancer Extender Startup Lifetime Http Proxy ProxyServer Process.
Open Scope string_scope.
Open Scope Z_scope.
Open Scope go_scope.

(** ** cmd/scheduler/main.go *)
Section scheduler.
Context {W Smi : Type}.
Implicit Types s : Scheduler (W:=W) (Smi:=Smi).

Definition poll_interval s : Z := seconds (gc_PollIntervalSeconds (cfg_GPU (sd_config s))).

Definition refreshLoop s : list instr := [INewTicker (poll_interval s); ISelectLoop RefreshLoop].
Definition gpuReportBroadcastLoop : list instr := [INewTicker (seconds 10); ISelectLoop BroadcastLoop].
Definition rebalancingLoop s : list instr :=
  if negb (rb_Enabled (sd_rebalancer s)) then []
  else [INewTicker (seconds (rb_TickIntervalSeconds (sd_rebalancer s))); ISelectLoop RebalancingLoop].
Definition Watcher_Run s : list instr := [INewTicker (poll_interval s); IRangeLoop WatcherRun].

(** [certs]: whether the certificate of the webhook is there. *)
Definition Scheduler_Run s (certs : bool) : list instr :=
  IGo (refreshLoop s) ::
  if standalone (sd_config s) then
    (IGo [IListenAndServe MainPort false] ::
     (if certs then [IGo [IListenAndServe WebhookPort false]] else []) ++
     [IGo gpuReportBroadcastLoop; IGo (rebalancingLoop s)] ++ Watcher_Run s)%list
  else [IListenAndServe MainPort true].

Definition Scheduler_Stop s : list instr :=
  (ICloseStopCh :: [IShutdown MainPort; IShutdownReturn MainPort] ++
   if standalone (sd_config s) then [IShutdown WebhookPort; IShutdownReturn WebhookPort] else [])%list.

Definition scheduler_main s (certs : bool) : list instr :=
  IGo (IAwaitSignal :: Scheduler_Stop s) :: Scheduler_Run s certs.

(** The informers that [NewWatcher] starts stop with the same channel. *)
Definition informers s : list (list instr) :=
  if standalone (sd_config s) then [[ISelectLoop Informers]] else [].

Definition scheduler_process {X} s (certs : bool) (x : X) : Proc X :=
  start_process (scheduler_main s certs) (informers s) x.

(** Who brings which event about. *)
Definition brings (who : Actor) (e : watcher_event W) : bool :=
  match e with
  | EvReport _ _ => match who with HandlerOf MainPort => true | _ => false end
  | EvStale _ => match who with HandlerOf MainPort | BroadcastLoop => true | _ => false end
  | EvUpdate _ | EvDelete _ => match who with Informers => true | _ => false end
  | EvApi _ => match who with HandlerOf _ | RebalancingLoop | OtherClient => true | _ => false end
  | EvCycle _ => match who with WatcherRun => true | _ => false end
  end.
End scheduler.

(** ** cmd/proxy/main.go and internal/proxy/proxy.go *)
Definition inferenceWorkerLoop : list instr := [INewTicker (seconds 5); ISelectLoop InferenceWorkerLoop].
Definition pressureLoop : list instr := [INewTicker (seconds 5); ISelectLoop PressureLoop].

Definition Proxy_Run : list instr :=
  [IGo inferenceWorkerLoop; IGo pressureLoop; IListenAndServe MainPort true].

Definition Proxy_Stop : list instr := [IOnce [ICloseStopCh; IShutdown MainPort; IShutdownReturn MainPort]].

Definition proxy_main : list instr := IGo (IAwaitSignal :: Proxy_Stop) :: Proxy_Run.

Definition proxy_process {X} (x : X) : Proc X := start_process proxy_main [] x.


(** ** The scheduler in standalone mode *)
Section standalone.
Context `{GoSort} {W Smi : Type} `{!KubeAPI W} `{!PodExecutor W}.
Context (strategy : SchedulingStrategy) `{!StrategyLaws strategy} (wc : WatcherConfig).
Implicit Types s : Scheduler (W:=W) (Smi:=Smi).

(** The runs of a scheduler whose surroundings do what they may. *)
Definition scheduler_run s certs (st : WState W) : outcome (Proc (WState W)) → Prop :=
  reachable (run_event strategy wc) brings (event_ok wc) (scheduler_process s certs st).

Lemma watcher_exec st e :
  watcher_reachable strategy wc st → event_ok wc st e →
  ∃ st', run_event strategy wc st e = Done st' ∧ watcher_reachable strategy wc st'.
Proof.
  intros Hr Ho. destruct (run_event_inv strategy wc st e) as (st' & E & _); [by apply (watcher_reachable_inv strategy wc)|done|].
  exists st'. split; [done|]. by eapply watcher_next.
Qed.

(** The tickers are those of [run_tickers]. *)
Lemma run_tickers_ok b s certs :
  Run s = Done tt → (∀ strategy wc st, sd_role s = RWatcher strategy wc st → standalone (sd_config s) = true) →
  (∀ ext, sd_role s = RExtender ext → standalone (sd_config s) = false) →
  forallb (instr_ok b) (scheduler_main s certs) = true.
Proof.
  unfold Run. destruct (forallb _ (run_tickers s)) eqn:E; [|done]. intros _ Hw He. unfold run_tickers in E. cbn -[seconds] in E.
  unfold scheduler_main, Scheduler_Run, Scheduler_Stop, refreshLoop, rebalancingLoop, Watcher_Run, poll_interval.
  apply andb_true_iff in E as [Ep E].
  destruct (sd_role s) as [strategy' wc' st'|ext]; [rewrite (Hw _ _ _ eq_refl)|rewrite (He _ eq_refl)].
  - destruct certs, (rb_Enabled (sd_rebalancer s)); cbn -[seconds] in *; rewrite ?andb_true_r in *; bool_hyps;
      repeat (apply andb_true_iff; split); try done; by apply Z.ltb_lt.
  - cbn -[seconds]. by rewrite Ep.
Qed.

Lemma standalone_start s certs (st : WState W) :
  standalone (sd_config s) = true → polls_forever (scheduler_process s certs st).
Proof.
  intros Hs. split; [done|]. split.
  - unfold scheduler_process, scheduler_main, Scheduler_Run, informers, Scheduler_Stop, rebalancingLoop. rewrite Hs.
    repeat constructor. by destruct certs, (negb _).
  - exists (removelast (scheduler_main s certs)).
    unfold scheduler_process, scheduler_main, Scheduler_Run, Watcher_Run. rewrite Hs. by destruct certs.
Qed.

(** C35: what a signal does to a scheduler in standalone mode.  No run ends,
    whatever signals arrive: the first goroutine polls, or is on its way there,
    and while it polls the next scheduling cycle runs.  A cycle and a callback of
    the informers are each one step here; with such steps [stopCh] is closed at
    most once, no step panics, and the state goes only through states from which
    the watcher never dies.  The code does not make them atomic: they share a map
    without a lock ([cycle_meets_callback]), on which Go may abort. *)
Theorem standalone_outlives_signals s certs st o :
  standalone (sd_config s) = true → sd_role s = RWatcher strategy wc st → watcher_reachable strategy wc st →
  Run s = Done tt → scheduler_run s certs st o →
  ∃ p, o = Done p ∧ watcher_reachable strategy wc (pr_world p) ∧ pr_exit p = None ∧
    (pr_goroutines p !! 0%nat = Some [IRangeLoop WatcherRun] ∧
     (∀ oracle, cycle_ready wc oracle (pr_world p) →
        ∃ p', step (run_event strategy wc) brings (LGo 0 (Tick (Some (EvCycle oracle)))) p = Some (Done p') ∧
          processQueue strategy wc oracle (pr_world p) = Done (pr_world p')) ∨
     ∃ i l p', pr_goroutines p !! 0%nat = Some (i :: l) ∧
       step (run_event strategy wc) brings (LGo 0 Proceed) p = Some (Done p') ∧ pr_goroutines p' !! 0%nat = Some l).
Proof.
  intros Hs Hrole Hst Hrun Hr.
  assert (proc_inv 0 (watcher_reachable strategy wc) (scheduler_process s certs st)) as Hinv.
  { split; [|split; [|done]].
    - unfold scheduler_process, informers. rewrite Hs. repeat constructor. apply run_tickers_ok; [done|by intros|].
      intros ext Hext. congruence.
    - unfold scheduler_process, scheduler_main, Scheduler_Run, Scheduler_Stop, informers, rebalancingLoop. rewrite Hs.
      by destruct certs, (negb _). }
  destruct (reachable_inv _ _ 0 _ _ watcher_exec _ _ Hinv Hr) as (p & -> & Hp).
  pose proof (reachable_polls _ _ _ _ _ (standalone_start s certs st Hs) Hr) as Hpoll.
  exists p. split; [done|]. split; [apply Hp|]. split; [apply Hpoll|].
  destruct (polls_progress (run_event strategy wc) brings p Hpoll) as [H0|Hnext]; [apply Hp|left|by right].
  split; [done|]. intros oracle Ho. unfold step, go_step. rewrite (proj1 Hpoll), H0.
  cbn [do_instr turn brings]. unfold effect. destruct (watcher_exec (pr_world p) (EvCycle oracle)) as (st' & E & _); [apply Hp|done|].
  rewrite E. eexists. split; [done|]. exact E.
Qed.

(** Stopped: every goroutine but the first has returned, no request is active. *)
Definition stopped_down (p : Proc (WState W)) : Prop :=
  pr_exit p = None ∧ hs_listening (pr_server p) = false ∧ hs_active (pr_server p) = 0%nat ∧
  hs_listening (pr_webhook p) = false ∧ hs_active (pr_webhook p) = 0%nat ∧
  ∃ others, pr_goroutines p = [IRangeLoop WatcherRun] :: others ∧ Forall (λ l, l = []) others.

(** Then nothing reaches the registry but scheduling cycles: no report, no end of
    a pod; the nodes and their GPUs stay as they were last reported. *)
Lemma stopped_down_step l p p' :
  stopped_down p → watcher_reachable strategy wc (pr_world p) →
  (∀ e, event_of l = Some e → event_ok wc (pr_world p) e) →
  step (run_event strategy wc) brings l p = Some (Done p') →
  stopped_down p' ∧ ids_map (w_registry (pr_world p')) = ids_map (w_registry (pr_world p)) ∧
  match event_of l with Some (EvCycle _) | Some (EvApi _) | None => True | _ => False end.
Proof.
  intros Hd Hr Hok. pose proof Hd as (He & Hl1 & Ha1 & Hl2 & Ha2 & others & Hg & Ho). unfold step. rewrite He.
  destruct l as [[|k] c| |port|port|who e].
  - unfold go_step. rewrite Hg. cbn [lookup list_lookup do_instr turn].
    destruct c as [| | |[e|]|]; try done; [|by intros [= <-]].
    destruct e; cbn [turn brings]; try done. unfold effect. intros [= (st' & E & [= <-])%outcome_bind_done].
    split; [done|]. split; [|done]. apply watcher_reachable_inv in Hr; [|apply _]. destruct Hr as [Hwf Hids].
    destruct (Hok _ eq_refl) as [Hord Hc]. cbn in E |- *. destruct (ListPods (w_api (pr_world p))) as [w [listed|err]] eqn:El.
    + destruct (Hc w listed eq_refl) as [Hs Hgs].
      destruct (processQueue_keeps strategy wc o (pr_world p) w listed El Hwf Hids Hs Hord Hgs) as (st1 & E1 & [_ Hk] & _).
      congruence.
    + unfold processQueue in E. rewrite El in E. by injection E as <-.
  - unfold go_step. rewrite Hg. cbn [lookup list_lookup]. destruct (others !! k) as [l|] eqn:Ek; [|done].
    by rewrite (Forall_lookup_1 _ _ _ _ Ho Ek).
  - by intros [= <-].
  - destruct port; cbn; [by rewrite Hl1|by rewrite Hl2].
  - destruct port; cbn; [by rewrite Ha1|by rewrite Ha2].
  - destruct who as [| | | | | | |[]|]; cbn [server_of]; rewrite ?Ha1, ?Ha2; try done.
    destruct e; cbn [brings andb]; try done. unfold effect. cbn. by intros [= <-].
Qed.
End standalone.

(** ** The proxy, and the scheduler in extender mode *)
Inductive stopping_process {X W Smi} : Proc X → Prop :=
  | stopping_proxy x : stopping_process (proxy_process x)
  | stopping_extender (s : Scheduler (W:=W) (Smi:=Smi)) ext certs x :
      sd_role s = RExtender ext → standalone (sd_config s) = false → Run s = Done tt →
      stopping_process (scheduler_process s certs x).
Arguments stopping_process {X} W Smi.

Lemma stopping_serves {X W Smi} (start : Proc X) :
  stopping_process W Smi start → serves_until_stopped start.
Proof.
  intros [x|s ext certs x Hr Hs _].
  - exists Proxy_Stop, [inferenceWorkerLoop; pressureLoop]. split; [by right|]. split; [by repeat constructor|done].
  - exists stop_body, [refreshLoop s]. split; [by left|]. split; [by repeat constructor|].
    unfold scheduler_process, scheduler_main, Scheduler_Run, Scheduler_Stop, informers. by rewrite Hs.
Qed.

Lemma stopping_inv {X W Smi} (start : Proc X) :
  stopping_process W Smi start → ∃ b, proc_inv b (λ _, True) start.
Proof.
  intros [x|s ext certs x Hr Hs Hrun].
  - exists 1%nat. split; [|split; [|done]]; [by repeat constructor|by vm_compute].
  - exists 0%nat. unfold scheduler_process, informers. rewrite Hs. split; [|split; [|done]].
    + constructor; [|constructor]. apply run_tickers_ok; [done| |done]. intros strategy wc st Hw. congruence.
    + unfold scheduler_main, Scheduler_Run, Scheduler_Stop. by rewrite Hs.
Qed.

(** C36: a signal ends the proxy, and the scheduler in extender mode.  Nothing is
    assumed of what the loops and the handlers do: however the goroutines
    interleave, a run panics only where one of these does (which [net/http] would
    recover in a handler), so [stopCh] is never closed twice.  The process ends
    with code 0 only after a stop, and otherwise with code 1.  Once a signal has
    arrived, one of two goroutines, the one that serves and the one that stops,
    can always take its next step without waiting for a request or a timeout; each
    of its steps leaves the two with less to do, and nothing else ever gives them
    more: so they end the process. *)
Theorem signal_ends_process {X E W Smi} (exec : X → E → outcome X) allows ok (start : Proc X) o :
  stopping_process W Smi start → reachable exec allows ok start o →
  match o with
  | Panicked => ∃ p e, reachable exec allows ok start (Done p) ∧ ok (pr_world p) e ∧ exec (pr_world p) e = Panicked
  | Done p =>
      match pr_exit p with
      | Some code => code = 0 ∧ pr_stopped p = true ∨ code = 1
      | None =>
          (signalled p → ∃ k p', (k < 2)%nat ∧ step exec allows (LGo k Proceed) p = Some (Done p')) ∧
          ∀ l p', step exec allows l p = Some (Done p') →
            (signalled p → signalled p') ∧ (rank p' ≤ rank p)%nat ∧
            ∀ k c, l = LGo k c → (k < 2)%nat → (rank p' < rank p)%nat
      end
  end.
Proof.
  intros Hp Hr. destruct (stopping_inv start Hp) as [b Hinv].
  destruct o as [p|]; [|by eapply panics_in_effect].
  pose proof (reachable_serving exec allows ok start p (stopping_serves start Hp) Hr) as Hs.
  pose proof Hs as [_ Hexit]. destruct (pr_exit p) eqn:He; [done|]. split.
  - intros Hsig. destruct (serving_can_step exec allows p Hs He Hsig) as (k & Hk & o & Ho).
    destruct (quiet_step_done exec allows b ok start p (LGo k Proceed) o Hinv Hr eq_refl Ho) as [p' ->]. by exists k, p'.
  - intros l p' Hstep. by apply serving_step in Hstep as (_ & Hstep).
Qed.

(** ** Examples and findings *)
(** What acts on the state of the proxy in the examples: a turn of the loop that
    asks for the workers, and a chat request. *)
Inductive proxy_event : Type :=
  | PxWorkers (workers : list (option WorkerInfo))
  | PxChat (method : string) (body : result string string).

Definition proxy_exec (st : ProxyState) (e : proxy_event) : outcome ProxyState :=
  match e with
  | PxWorkers workers => Done (set_workers workers st)
  | PxChat method body =>
      '(st', _) ← handleChatCompletions sample_parse sample_object method "" body sample_sink st ok_net;
      Done st'
  end.

Definition proxy_brings (who : Actor) (e : proxy_event) : bool :=
  match e, who with
  | PxWorkers _, InferenceWorkerLoop => true
  | PxChat _ _, HandlerOf MainPort => true
  | _, _ => false
  end.

Definition proxy_may (st : ProxyState) (e : proxy_event) : Prop := True.

(** The proxy starts and learns its workers, a chat request arrives and is
    answered, then comes a signal. *)
Definition proxy_starts (workers : list (option WorkerInfo)) : list (label proxy_event) :=
  [LGo 0 Proceed; LGo 0 Proceed; LGo 0 Proceed; LGo 0 Proceed; LGo 2 Proceed;
   LGo 2 (Tick (Some (PxWorkers workers))); LAccept MainPort;
   LEffect (HandlerOf MainPort) (PxChat "POST" (Ok "{}")); LSignal].

Definition served_proxy : Proc ProxyState :=
  default (proxy_process NewProxy)
    (match run_labels proxy_exec proxy_brings (proxy_starts (px_inferenceWorkers ProxyServer.serving)) (proxy_process NewProxy) with
     | Some (Done p) => Some p
     | _ => None
     end).

Lemma served_proxy_runs :
  run_labels proxy_exec proxy_brings (proxy_starts (px_inferenceWorkers ProxyServer.serving)) (proxy_process NewProxy) =
  Some (Done served_proxy).
Proof. vm_compute. reflexivity. Qed.

Lemma proxy_starts_may workers :
  Forall (λ l, ∀ e, event_of l = Some e → ∀ st, proxy_may st e) (proxy_starts workers).
Proof. repeat constructor. Qed.

Lemma signal_ends_process_witness :
  px_requestSeq (pr_world served_proxy) = 1 ∧ hs_active (pr_server served_proxy) = 1%nat ∧
  ∃ k p', (k < 2)%nat ∧ step proxy_exec proxy_brings (LGo k Proceed) served_proxy = Some (Done p').
Proof.
  split; [vm_compute; reflexivity|]. split; [vm_compute; reflexivity|].
  pose proof (signal_ends_process (W:=unit) (Smi:=unit) proxy_exec proxy_brings proxy_may (proxy_process NewProxy)
    (Done served_proxy) (stopping_proxy NewProxy)
    (run_labels_reachable _ _ _ _ _ _ _ (proxy_starts_may _) (reachable_start _ _ _ _) served_proxy_runs)) as Hp.
  assert (pr_exit served_proxy = None) as He by (vm_compute; reflexivity).
  cbn beta iota in Hp. rewrite He in Hp. apply (proj1 Hp). left. vm_compute. reflexivity.
Defined.

(** It ends while the request is being served. *)
Lemma proxy_ends_with_request :
  match run_labels proxy_exec proxy_brings (proxy_starts (px_inferenceWorkers ProxyServer.serving) ++
      [LGo 1 Proceed; LGo 1 Proceed; LGo 1 Proceed; LGo 1 Proceed; LGo 0 Proceed; LGo 0 Proceed])%list
      (proxy_process NewProxy) with
  | Some (Done p) => pr_exit p = Some 0 ∧ hs_active (pr_server p) = 1%nat
  | _ => False
  end.
Proof. vm_compute. done. Qed.

(** A scheduler in standalone mode starts, gets a signal, and everything but the
    watcher ends. *)
Definition scheduler_stops : list (label (watcher_event FakeCluster)) :=
  ([LGo 0 Proceed; LGo 0 Proceed; LGo 0 Proceed; LGo 0 Proceed; LGo 0 Proceed; LGo 0 Proceed;
    LGo 4 Proceed; LSignal; LGo 2 Proceed; LGo 2 Proceed; LGo 2 Proceed; LGo 2 Proceed; LGo 2 Proceed; LGo 2 Proceed;
    LGo 1 StopReceived; LGo 3 Proceed; LGo 3 StopReceived; LGo 4 Proceed; LGo 5 Proceed; LGo 5 StopReceived])%list.

Definition standalone_sample (m : Manager (AnyDiscoverer (W:=FakeCluster) (Smi:=unit))) :
    Scheduler (W:=FakeCluster) (Smi:=unit) :=
  let cfg := start_config 5 "binpack" in
  mkScheduler cfg m (NewRebalancer cfg)
    (RWatcher BinPacker sample_watcher (sample_state three_pods true true sample_registry)).

Definition stopped_state : Proc (WState FakeCluster) :=
  mkProc ([IRangeLoop WatcherRun] :: repeat [] 6) None false true OnceNew
    (mkHttpServer false true 0) (mkHttpServer false true 0) (sample_state three_pods true true sample_registry).

Lemma stopped_sample_state m :
  run_labels (run_event BinPacker sample_watcher) brings scheduler_stops
    (scheduler_process (standalone_sample m) false (sample_state three_pods true true sample_registry)) =
  Some (Done stopped_state).
Proof. vm_compute. reflexivity. Qed.

Lemma scheduler_stops_quiet (ok : WState FakeCluster → watcher_event FakeCluster → Prop) :
  Forall (λ l, ∀ e, event_of l = Some e → ∀ x, ok x e) scheduler_stops.
Proof. unfold scheduler_stops. repeat (apply Forall_cons_2; [done|]). apply Forall_nil_2. Qed.

Lemma stopped_sample_reached m :
  scheduler_run BinPacker sample_watcher (standalone_sample m) false
    (sample_state three_pods true true sample_registry) (Done stopped_state).
Proof.
  exact (run_labels_reachable _ _ _ _ _ _ _ (scheduler_stops_quiet _) (reachable_start _ _ _ _)
    (stopped_sample_state m)).
Qed.

Lemma mock_managed :
  ∃ m, @NewManager _ (any_discoverer unary_uuid no_smi_text) mock_discovered "gpu-scheduler" = Ok m.
Proof. eexists. vm_compute. reflexivity. Qed.

Lemma standalone_outlives_signals_witness :
  ∃ p', step (run_event BinPacker sample_watcher) brings (LGo 0 (Tick (Some (EvCycle gang_oracle)))) stopped_state =
      Some (Done p') ∧
    processQueue BinPacker sample_watcher gang_oracle (sample_state three_pods true true sample_registry) =
      Done (pr_world p').
Proof.
  destruct mock_managed as [m _].
  destruct (standalone_outlives_signals BinPacker sample_watcher (standalone_sample m) false
    (sample_state three_pods true true sample_registry) (Done stopped_state) eq_refl eq_refl three_pods_reached
    eq_refl (stopped_sample_reached m)) as (p & Ep & _ & _ & H).
  injection Ep as <-. destruct H as [[_ H]|(i & l & p' & Hl & Hstep & _)].
  - exact (H gang_oracle three_pods_ready).
  - discriminate Hstep.
Defined.

(** After the signal the scheduler binds pods that were waiting, although nothing
    it hears from the nodes and the informers reaches it any more. *)
Lemma binds_after_signal :
  stopped_down stopped_state ∧
  match step (run_event BinPacker sample_watcher) brings (LGo 0 (Tick (Some (EvCycle gang_oracle)))) stopped_state with
  | Some (Done p') => is_Some (reg_podAllocations (w_registry (pr_world p')) !! "ml/w0")
  | _ => False
  end.
Proof.
  split.
  - repeat (split; [done|]). exists (repeat [] 6). split; [done|]. by repeat constructor.
  - vm_compute. by eexists.
Qed.

(** The polling goroutine and the one of the informers, both running. *)
Definition scheduler_starts : list (label (watcher_event FakeCluster)) := repeat (LGo 0 Proceed) 6.

Definition evicting_state : WState FakeCluster :=
  set_pending {["ml/old" := 1; "ml/gone" := 1]} (sample_state three_pods true true sample_registry).

Definition pending_after (o : option (outcome (Proc (WState FakeCluster)))) : option (gmap string Time) :=
  match o with Some (Done p) => Some (w_pendingEvictions (pr_world p)) | _ => None end.

(** In a running scheduler a cycle and the callback for a deleted pod are both
    due, on two goroutines, and both write the map of the pending evictions. *)
Lemma cycle_meets_callback m :
  match run_labels (run_event BinPacker sample_watcher) brings scheduler_starts
      (scheduler_process (standalone_sample m) false evicting_state) with
  | Some (Done p) =>
      let next l := pending_after (step (run_event BinPacker sample_watcher) brings l p) in
      dom <$> next (LGo 0 (Tick (Some (EvCycle (mkOracle 2000 ["ml/old"; "ml/gone"] ["g1"] (λ _, one_node) (λ _, "job")))))) =
        Some (∅ : gset string) ∧
      dom <$> next (LGo 1 (Tick (Some (EvDelete (worker "gone"))))) = Some ({["ml/old"]} : gset string)
  | _ => False
  end.
Proof. vm_compute. done. Qed.
