(* ===== verification/Routes.v ===== *)
(** * Which handler serves which request

    [http.ServeMux] as the program uses it: patterns with an optional method,
    literal segments, wildcards of one segment and a trailing slash; and the
    tables that the scheduler, its webhook, the extender and the proxy register. *)

From Stdlib Require Import ZArith Lia Ascii String.
From stdpp Require Import base option list strings gmap.
From S2P Require Import Prelude GoFloat GoStrings Types K8s Config Registry Watcher Scenario Http Workers Dashboard.
Open Scope string_scope.
Open Scope Z_scope.
Open Scope go_scope.

(** ** Patterns *)
Inductive segment : Type :=
  | Lit (s : string)
  | Wild (name : string)
  | Multi.

Record pattern : Type := mkPattern {
  pt_method : string;
  pt_segments : list segment
}.

(** A segment of a pattern: [{name}] is a wildcard; a brace elsewhere, [{$}] and
    [{name...}] do not occur in the program and are refused. *)
Definition parse_segment (s : string) : option segment :=
  match s with
  | "" => None
  | String "{" rest =>
      match String.rev rest with
      | String "}" name => if negb (str_mem "." name || str_mem "$" name || String.eqb name "") then Some (Wild (String.rev name)) else None
      | _ => None
      end
  | _ => if str_mem "{" s then None else Some (Lit s)
  end.

Fixpoint parse_segments (parts : list string) : option (list segment) :=
  match parts with
  | [] => Some []
  | [""] => Some [Multi]
  | p :: parts => s ← parse_segment p; ss ← parse_segments parts; Some (s :: ss)
  end.

(** A pattern for one host does not occur either. *)
Definition parse_path (method path : string) : option pattern :=
  match split_on "/" path with
  | "" :: parts => mkPattern method <$> parse_segments parts
  | _ => None
  end.

Definition parsePattern (s : string) : option pattern :=
  match split_on " " s with
  | [path] => parse_path "" path
  | [method; path] => if String.eqb method "" then None else parse_path method path
  | _ => None
  end.

(** ** Precedence: how the requests of two patterns relate *)
Inductive relationship : Type := Equivalent | MoreGeneral | MoreSpecific | Disjoint | Overlaps.
#[export] Instance relationship_eq_dec : EqDecision relationship.
Proof. solve_decision. Defined.

Definition compareMethods (m1 m2 : string) : relationship :=
  if String.eqb m1 m2 then Equivalent
  else if String.eqb m1 "" then MoreGeneral
  else if String.eqb m2 "" then MoreSpecific
  else if String.eqb m1 "GET" && String.eqb m2 "HEAD" then MoreGeneral
  else if String.eqb m2 "GET" && String.eqb m1 "HEAD" then MoreSpecific
  else Disjoint.

Definition compareSegments (s1 s2 : segment) : relationship :=
  match s1, s2 with
  | Multi, Multi => Equivalent
  | Multi, _ => MoreGeneral
  | _, Multi => MoreSpecific
  | Wild _, Wild _ => Equivalent
  | Wild _, Lit _ => MoreGeneral
  | Lit _, Wild _ => MoreSpecific
  | Lit a, Lit b => if String.eqb a b then Equivalent else Disjoint
  end.

Definition combineRelationships (r1 r2 : relationship) : relationship :=
  match r1, r2 with
  | Equivalent, _ => r2
  | Disjoint, _ => Disjoint
  | Overlaps, Disjoint => Disjoint
  | Overlaps, _ => Overlaps
  | _, Equivalent => r1
  | MoreGeneral, MoreSpecific | MoreSpecific, MoreGeneral => Overlaps
  | _, _ => r2
  end.

Definition is_multi (l : list segment) : bool := match last l with Some Multi => true | _ => false end.

Fixpoint compare_segs (rel : relationship) (multi1 multi2 : bool) (l1 l2 : list segment) : relationship :=
  match l1, l2 with
  | [], [] => rel
  | s1 :: l1, s2 :: l2 =>
      match combineRelationships rel (compareSegments s1 s2) with
      | Disjoint => Disjoint
      | rel => compare_segs rel multi1 multi2 l1 l2
      end
  | [], _ => if multi1 then combineRelationships rel MoreGeneral else Disjoint
  | _, [] => if multi2 then combineRelationships rel MoreSpecific else Disjoint
  end.

Definition comparePaths (l1 l2 : list segment) : relationship :=
  if negb (length l1 =? length l2)%nat && negb (is_multi l1) && negb (is_multi l2) then Disjoint
  else compare_segs Equivalent (is_multi l1) (is_multi l2) l1 l2.

Definition comparePathsAndMethods (p1 p2 : pattern) : relationship :=
  match compareMethods (pt_method p1) (pt_method p2) with
  | Disjoint => Disjoint
  | mrel => combineRelationships mrel (comparePaths (pt_segments p1) (pt_segments p2))
  end.

Definition conflictsWith (p1 p2 : pattern) : bool :=
  match comparePathsAndMethods p1 p2 with Equivalent | Overlaps => true | _ => false end.

(** ** Requests *)

(** [cleanPath]: no empty element, no [.] and no [..]; the last slash stays. *)
Definition clean_step (stack : list string) (part : string) : list string :=
  if String.eqb part "" || String.eqb part "." then stack
  else if String.eqb part ".." then removelast stack
  else (stack ++ [part])%list.

Definition clean_path (path : string) : string :=
  let stack := foldl clean_step [] (split_on "/" path) in
  "/" ++ join "/" stack ++
  (if has_suffix path "/" && negb (length stack =? 0)%nat then "/" else "").

(** The elements of a path, a trailing slash being one of its own. *)
Fixpoint elements (parts : list string) : list string :=
  match parts with
  | [] => []
  | [""] => ["/"]
  | p :: parts => p :: elements parts
  end.

Definition path_elements (path : string) : list string :=
  match split_on "/" path with "" :: parts => elements parts | parts => elements parts end.

(** The values of the wildcards, if the pattern matches. *)
Fixpoint match_segs (l : list segment) (xs : list string) : option (list (string * string)) :=
  match l, xs with
  | [], [] => Some []
  | [Multi], _ :: _ => Some []
  | Lit s :: l, x :: xs => if String.eqb s x then match_segs l xs else None
  | Wild n :: l, x :: xs => if String.eqb x "/" then None else cons (n, x) <$> match_segs l xs
  | _, _ => None
  end.

Definition match_method (m method : string) : bool :=
  String.eqb m "" || String.eqb m method || (String.eqb m "GET" && String.eqb method "HEAD").

(** ** The multiplexer *)
Inductive served {H : Type} : Type :=
  | Handled (h : H) (values : list (string * string))
  | Redirected (to : string)
  | NotFound
  | NotAllowed.
Arguments served H : clear implicits.

Section mux.
Context {H : Type}.
Implicit Types m : list (pattern * H).

(** Registering a pattern that is malformed or conflicts panics. *)
Definition HandleFunc (pat : string) (h : H) m : outcome (list (pattern * H)) :=
  match parsePattern pat with
  | None => Panicked
  | Some p => if existsb (λ e, conflictsWith p e.1) m then Panicked else Done (m ++ [(p, h)])%list
  end.

Definition matching (method : string) (xs : list string) m : list (pattern * H * list (string * string)) :=
  omap (λ e,
    match match_segs (pt_segments e.1) xs with
    | Some values => if match_method (pt_method e.1) method then Some (e, values) else None
    | None => None
    end) m.

(** The most specific of the patterns that match. *)
Definition most_specific (found : list (pattern * H * list (string * string))) :
    option (pattern * H * list (string * string)) :=
  List.find (λ e, forallb (λ e',
    match comparePathsAndMethods e.1.1 e'.1.1 with Equivalent | MoreSpecific => true | _ => false end) found) found.

(** A path that matches only with a slash at its end is redirected there. *)
Definition slash_redirect (method : string) (xs : list string) m : bool :=
  match most_specific (matching method (xs ++ ["/"])%list m) with
  | Some (p, _, _) => (length (pt_segments p) =? S (length xs))%nat
  | None => false
  end.

Definition ServeHTTP (method path : string) m : served H :=
  let cleaned := clean_path path in
  let xs := path_elements (if String.eqb method "CONNECT" then path else cleaned) in
  let found := most_specific (matching method xs m) in
  if match found with Some _ => false | None => negb (has_suffix cleaned "/") && slash_redirect method xs m end
  then Redirected (cleaned ++ "/")
  else if negb (String.eqb method "CONNECT") && negb (String.eqb cleaned path) then Redirected cleaned
  else
    match found with
    | Some (_, h, values) => Handled h values
    | None => if existsb (λ e, bool_decide (is_Some (match_segs (pt_segments e.1) xs))) m then NotAllowed else NotFound
    end.
End mux.

(** ** The tables *)
Inductive Endpoint : Type :=
  | WorkersHandler | GPUReportHandler | DashboardUI | MetricsHandler | SchedulerHealth
  | Cluster | Pods | DeletePods | Events | ShowConfig | ProxyPressure | ProxyWorkerStats | PodLogs | Logs
  | Mutate
  | Filter | Prioritize | Bind | ExtenderHealth
  | Healthz | ChatCompletions | Pressure | WorkerStats.

Definition Mux : Type := list (pattern * Endpoint).

Fixpoint handle_all (routes : list (string * Endpoint)) (m : Mux) : outcome Mux :=
  match routes with
  | [] => Done m
  | (pat, h) :: routes => m' ← HandleFunc pat h m; handle_all routes m'
  end.

Definition registerInferenceWorkerEndpoints : Mux → outcome Mux :=
  handle_all [("/api/v1/control/workers", WorkersHandler); ("/api/v1/dashboard/inference/workers", WorkersHandler)].

Definition registerGPUReportEndpoint : Mux → outcome Mux :=
  handle_all [("/api/v1/gpu-report", GPUReportHandler)].

(** The dashboard's [RegisterRoutes]. *)
Definition RegisterRoutes_dashboard : Mux → outcome Mux :=
  handle_all
    [("/api/v1/dashboard/cluster", Cluster);
     ("/api/v1/dashboard/pods", Pods);
     ("/api/v1/dashboard/pods/", DeletePods);
     ("/api/v1/dashboard/events", Events);
     ("/api/v1/dashboard/config", ShowConfig);
     ("/api/v1/dashboard/proxy/pressure", ProxyPressure);
     ("/api/v1/dashboard/proxy/worker-stats", ProxyWorkerStats);
     ("GET /api/v1/dashboard/pods/{namespace}/{name}/logs", PodLogs);
     ("/api/v1/dashboard/logs", Logs)].

(** The extender's. *)
Definition RegisterRoutes_extender : Mux → outcome Mux :=
  handle_all [("/filter", Filter); ("/prioritize", Prioritize); ("/bind", Bind); ("/healthz", ExtenderHealth)].

(** The proxy's. *)
Definition registerRoutes : Mux → outcome Mux :=
  handle_all
    [("/healthz", Healthz);
     ("/v1/chat/completions", ChatCompletions);
     ("/api/v1/control/pressure", Pressure);
     ("/api/v1/control/worker-stats", WorkerStats)].

(** What [NewScheduler] builds for the two modes and for the webhook. *)
Definition standalone_mux : outcome Mux :=
  m ← registerInferenceWorkerEndpoints [];
  m ← registerGPUReportEndpoint m;
  m ← handle_all [("/", DashboardUI); ("/metrics", MetricsHandler); ("/healthz", SchedulerHealth)] m;
  RegisterRoutes_dashboard m.

Definition webhook_mux : outcome Mux := handle_all [("/mutate", Mutate)] [].

Definition extender_mux : outcome Mux :=
  m ← RegisterRoutes_extender [];
  m ← registerGPUReportEndpoint m;
  handle_all [("/metrics", MetricsHandler)] m.

Definition proxy_mux : outcome Mux := registerRoutes [].

(** ** Two handlers of their own *)

(** [exists_file]: whether the file system of the page has the file.  The result is
    the path the file server then serves. *)
Definition DashboardHandler (exists_file : string → bool) (path : string) : string :=
  if negb (String.eqb path "/") && negb (has_prefix path "/api") &&
     exists_file (default path (strip_prefix "/" path)) then path
  else if String.eqb path "/" || negb (has_prefix path "/api") then "/"
  else path.

Definition ConfigHandler (cfg : Config) (method : string) : result DashAnswer Config :=
  if negb (String.eqb method "GET") then Err method_not_allowed else Ok cfg.

(** ** Specification *)

(** The requests of the paths without wildcards. *)
Definition literal_routes : list (list string * Endpoint) :=
  [(["api"; "v1"; "control"; "workers"], WorkersHandler);
   (["api"; "v1"; "dashboard"; "inference"; "workers"], WorkersHandler);
   (["api"; "v1"; "gpu-report"], GPUReportHandler);
   (["metrics"], MetricsHandler);
   (["healthz"], SchedulerHealth);
   (["api"; "v1"; "dashboard"; "cluster"], Cluster);
   (["api"; "v1"; "dashboard"; "pods"], Pods);
   (["api"; "v1"; "dashboard"; "events"], Events);
   (["api"; "v1"; "dashboard"; "config"], ShowConfig);
   (["api"; "v1"; "dashboard"; "proxy"; "pressure"], ProxyPressure);
   (["api"; "v1"; "dashboard"; "proxy"; "worker-stats"], ProxyWorkerStats);
   (["api"; "v1"; "dashboard"; "logs"], Logs)].

Definition literal_route (xs : list string) (routes : list (list string * Endpoint)) : option Endpoint :=
  snd <$> List.find (λ r, bool_decide (r.1 = xs)) routes.

(** Below the pods: the logs of a pod for a read, anything else a deletion. *)
Definition pod_route (method : string) (rest : list string) : Endpoint * list (string * string) :=
  match rest with
  | [ns; name; l] =>
      if (String.eqb method "GET" || String.eqb method "HEAD") && negb (String.eqb ns "/") &&
         negb (String.eqb name "/") && String.eqb l "logs"
      then (PodLogs, [("namespace", ns); ("name", name)])
      else (DeletePods, [])
  | _ => (DeletePods, [])
  end.

Fixpoint below (prefix xs : list string) : option (list string) :=
  match prefix, xs with
  | [], _ => Some xs
  | p :: prefix, x :: xs => if String.eqb p x then below prefix xs else None
  | _, _ => None
  end.

Definition standalone_route (method : string) (xs : list string) : Endpoint * list (string * string) :=
  match literal_route xs literal_routes with
  | Some h => (h, [])
  | None =>
      match below ["api"; "v1"; "dashboard"; "pods"] xs with
      | Some (x :: rest) => pod_route method (x :: rest)
      | _ => (DashboardUI, [])
      end
  end.

Definition the_mux (o : outcome Mux) : Mux := match o with Done m => m | Panicked => [] end.


(** ** Lemmas on patterns *)
Lemma match_below prefix l xs :
  match_segs (map Lit prefix ++ l) xs = match below prefix xs with Some rest => match_segs l rest | None => None end.
Proof.
  revert xs. induction prefix as [|p prefix IH]; intros [|x xs]; cbn [map app below]; try done; cbn [match_segs].
  destruct (String.eqb p x); [apply IH|done].
Qed.

Lemma below_exact prefix xs : below prefix xs = Some [] ↔ xs = prefix.
Proof.
  revert xs. induction prefix as [|p prefix IH]; intros [|x xs]; cbn; try (by split; congruence).
  destruct (String.eqb_spec p x) as [->|Hne]; [rewrite IH|]; split; congruence.
Qed.

(** A pattern of literals only matches the path that spells them. *)
Lemma match_literals prefix xs : xs ≠ prefix → match_segs (map Lit prefix) xs = None.
Proof.
  intros Hne. pose proof (match_below prefix [] xs) as E. rewrite app_nil_r in E. rewrite E.
  destruct (below prefix xs) as [[|x rest]|] eqn:Eb; [|done..]. by apply below_exact in Eb.
Qed.

Section mux_lemmas.
Context {H : Type}.

Lemma matching_skip method xs p (h : H) m :
  match_segs (pt_segments p) xs = None → matching method xs ((p, h) :: m) = matching method xs m.
Proof. intros E. unfold matching. cbn. by rewrite E. Qed.

Lemma matching_take method xs p (h : H) m values :
  match_segs (pt_segments p) xs = Some values → match_method (pt_method p) method = true →
  matching method xs ((p, h) :: m) = (p, h, values) :: matching method xs m.
Proof. intros E1 E2. unfold matching. cbn. by rewrite E1, E2. Qed.

Lemma matching_cons method xs p (h : H) m :
  matching method xs ((p, h) :: m) =
    match
      match match_segs (pt_segments p) xs with
      | Some values => if match_method (pt_method p) method then Some (h, values) else None
      | None => None
      end
    with
    | Some (_, values) => (p, h, values) :: matching method xs m
    | None => matching method xs m
    end.
Proof. unfold matching. cbn. destruct (match_segs _ _); [|done]. by destruct (match_method _ _). Qed.

Lemma matching_nil method xs : matching method xs ([] : list (pattern * H)) = [].
Proof. done. Qed.
End mux_lemmas.

Lemma literal_route_none xs routes :
  literal_route xs routes = None → Forall (λ r, xs ≠ r.1) routes.
Proof.
  unfold literal_route. induction routes as [|r routes IH]; cbn; [by constructor|].
  case_bool_decide; [done|]. intros E. constructor; [congruence|by apply IH].
Qed.

Lemma literal_route_some xs routes h :
  literal_route xs routes = Some h → (xs, h) ∈ routes.
Proof.
  unfold literal_route. induction routes as [|[l h'] routes IH]; cbn; [done|].
  case_bool_decide as Hl; cbn; [intros [= <-]; subst l; left|intros E; right; by apply IH].
Qed.

Definition pods_path : list string := ["api"; "v1"; "dashboard"; "pods"].
Definition standalone_table : Mux := Eval vm_compute in the_mux standalone_mux.
Definition found_route (method : string) (xs : list string) : option (Endpoint * list (string * string)) :=
  (λ e, (e.1.2, e.2)) <$> most_specific (matching method xs standalone_table).

Lemma literal_found method xs h :
  literal_route xs literal_routes = Some h → found_route method xs = Some (h, []).
Proof.
  intros Hin%literal_route_some. unfold literal_routes in Hin.
  repeat (apply elem_of_cons in Hin as [[= -> ->]|Hin]; [vm_compute; reflexivity|]). by apply elem_of_nil in Hin.
Qed.

Definition logs_tail : list segment := [Wild "namespace"; Wild "name"; Lit "logs"].

Lemma logs_match method xs :
  match match_segs logs_tail xs with
  | Some values => if match_method "GET" method then Some (PodLogs, values) else None
  | None => None
  end =
  match pod_route method xs with (PodLogs, values) => Some (PodLogs, values) | _ => None end.
Proof.
  unfold pod_route, match_method, logs_tail. change (String.eqb "GET" "") with false. change (String.eqb "GET" "GET") with true.
  destruct xs as [|ns [|name [|l [|y xs]]]]; cbn [match_segs]; [done|..];
    destruct (String.eqb ns "/"); cbn [negb andb orb fmap option_fmap option_map]; rewrite ?andb_false_r; try done;
    destruct (String.eqb name "/"); cbn [negb andb orb fmap option_fmap option_map]; rewrite ?andb_false_r; try done;
    rewrite (String.eqb_sym "logs" l), ?(String.eqb_sym "HEAD" method), ?(String.eqb_sym "GET" method);
    destruct (String.eqb l "logs"); cbn [negb andb orb fmap option_fmap option_map]; rewrite ?andb_false_r, ?andb_true_r; try done.
  by destruct (String.eqb method "GET"), (String.eqb method "HEAD").
Qed.

Ltac skip_literal xs :=
  match goal with
  | Hn : xs ≠ ?l |- _ => rewrite matching_skip by exact (match_literals l xs Hn)
  end.

Lemma pod_route_cases method rest :
  pod_route method rest = (DeletePods, []) ∨ ∃ values, pod_route method rest = (PodLogs, values).
Proof. unfold pod_route. destruct rest as [|ns [|name [|l [|]]]]; try by left. destruct (_ && _); [right; by eexists|by left]. Qed.

Lemma other_found method xs :
  xs ≠ [] → literal_route xs literal_routes = None → found_route method xs = Some (standalone_route method xs).
Proof.
  intros Hne Hl. unfold standalone_route. rewrite Hl. apply literal_route_none in Hl.
  unfold literal_routes in Hl. rewrite !Forall_cons in Hl. cbn [fst] in Hl. destruct_and!.
  unfold found_route, standalone_table. do 3 (skip_literal xs).
  rewrite (matching_take _ _ _ _ _ []) by (by destruct xs). do 4 (skip_literal xs).
  pose proof (match_below pods_path [Multi] xs) as Hdel. pose proof (match_below pods_path logs_tail xs) as Hlog.
  change ["api"; "v1"; "dashboard"; "pods"] with pods_path.
  destruct (below pods_path xs) as [[|x rest]|] eqn:Eb; [by apply below_exact in Eb| |].
  - rewrite (matching_take _ _ _ _ _ []); [|exact Hdel|reflexivity]. do 4 (skip_literal xs).
    rewrite matching_cons. cbn [pt_segments pt_method]. change (match_segs _ xs) with (match_segs (map Lit pods_path ++ logs_tail) xs).
    rewrite Hlog, logs_match. skip_literal xs. rewrite matching_nil.
    destruct (pod_route_cases method (x :: rest)) as [->|[values ->]]; reflexivity.
  - rewrite matching_skip by exact Hdel. do 4 (skip_literal xs). rewrite matching_skip by exact Hlog.
    skip_literal xs. reflexivity.
Qed.

Lemma standalone_found method xs : xs ≠ [] → found_route method xs = Some (standalone_route method xs).
Proof.
  intros Hne. destruct (literal_route xs literal_routes) as [h|] eqn:E; [|by apply other_found].
  rewrite (literal_found method xs h E). unfold standalone_route. by rewrite E.
Qed.

Lemma elements_nonempty parts : parts ≠ [] → elements parts ≠ [].
Proof. intros Hne. destruct parts as [|p [|q parts]]; [done|by destruct p|by destruct p]. Qed.

Lemma path_elements_slash s : path_elements ("/" ++ s) = elements (split_on "/" s).
Proof. reflexivity. Qed.

Lemma clean_path_slash path : ∃ s, clean_path path = "/" ++ s.
Proof. by eexists. Qed.

Lemma cleaned_elements path : path_elements (clean_path path) ≠ [].
Proof.
  destruct (clean_path_slash path) as [s ->]. rewrite path_elements_slash. apply elements_nonempty, split_on_nonempty.
Qed.

(** ** Tables of literals *)
Definition literal_table (routes : list (list string * Endpoint)) : Mux :=
  map (λ r, (mkPattern "" (map Lit r.1), r.2)) routes.

Lemma compare_same l : compare_segs Equivalent false false (map Lit l) (map Lit l) = Equivalent.
Proof. induction l as [|s l IH]; cbn -[String.eqb]; [done|]. by rewrite String.eqb_refl. Qed.

Lemma literal_not_multi l : is_multi (map Lit l) = false.
Proof. unfold is_multi. change (map Lit l) with (Lit <$> l). rewrite fmap_last. by destruct (last l). Qed.

Lemma match_literals_same l : match_segs (map Lit l) l = Some [].
Proof. induction l as [|s l IH]; cbn -[String.eqb]; [done|]. by rewrite String.eqb_refl. Qed.

Lemma literal_matching method xs routes :
  NoDup (fst <$> routes) →
  matching method xs (literal_table routes) =
    match literal_route xs routes with Some h => [(mkPattern "" (map Lit xs), h, [])] | None => [] end.
Proof.
  unfold literal_route. induction routes as [|[l h] routes IH]; [done|].
  rewrite fmap_cons. intros [Hl Hnd]%NoDup_cons.
  change (literal_table ((l, h) :: routes)) with ((mkPattern "" (map Lit l), h) :: literal_table routes).
  cbn [List.find fst]. case_bool_decide as Hx.
  - subst l. rewrite (matching_take _ _ _ _ _ []) by (done || apply match_literals_same). rewrite IH by done.
    cbn [fmap option_fmap option_map snd]. f_equal.
    destruct (List.find _ routes) as [[l h']|] eqn:Ef; cbn; [|done].
    apply find_some in Ef as [Hin Hl']. cbn in Hl'. apply bool_decide_eq_true_1 in Hl' as ->.
    destruct Hl. apply list_elem_of_fmap. exists (xs, h'). split; [done|]. by apply list_elem_of_In.
  - rewrite matching_skip by (apply match_literals; congruence). by apply IH.
Qed.

(** A table of literals serves the paths it spells, and no others. *)
Lemma literal_mux routes method path :
  NoDup (fst <$> routes) → Forall (λ r, last r.1 ≠ Some "/") routes → method ≠ "CONNECT" →
  ServeHTTP method path (literal_table routes) =
    if String.eqb (clean_path path) path
    then match literal_route (path_elements path) routes with Some h => Handled h [] | None => NotFound end
    else Redirected (clean_path path).
Proof.
  intros Hnd Hlast Hm. unfold ServeHTTP. rewrite (proj2 (String.eqb_neq method "CONNECT") Hm). cbn [negb andb].
  assert (slash_redirect method (path_elements (clean_path path)) (literal_table routes) = false) as ->.
  { unfold slash_redirect. rewrite literal_matching by done.
    destruct (literal_route _ routes) as [h|] eqn:E; [|done]. apply literal_route_some in E.
    apply (proj1 (Forall_forall _ _) Hlast) in E. cbn in E. by rewrite last_snoc in E. }
  rewrite literal_matching, andb_false_r by done.
  destruct (String.eqb_spec (clean_path path) path) as [Ec|Ec]; cbn [negb].
  2: { by destruct (literal_route _ _), (most_specific _). }
  rewrite Ec. destruct (literal_route _ routes) as [h|] eqn:E.
  - unfold most_specific. cbn [List.find forallb fst]. unfold comparePathsAndMethods, comparePaths. cbn [pt_method pt_segments].
    change (compareMethods "" "") with Equivalent. rewrite Nat.eqb_refl, literal_not_multi. cbn [negb andb combineRelationships].
    by rewrite compare_same.
  - cbn [most_specific List.find]. apply literal_route_none in E.
    destruct (existsb _ _) eqn:Ex; [|done]. apply existsb_exists in Ex as (e & Hin & He).
    unfold literal_table in Hin. apply in_map_iff in Hin as (r & <- & Hin%list_elem_of_In).
    apply (proj1 (Forall_forall _ _) E) in Hin. cbn [fst pt_segments] in He. rewrite match_literals in He by done.
    by apply bool_decide_eq_true_1 in He as [].
Qed.

(** ** What each process serves *)
Definition extender_routes : list (list string * Endpoint) :=
  [(["filter"], Filter); (["prioritize"], Prioritize); (["bind"], Bind); (["healthz"], ExtenderHealth);
   (["api"; "v1"; "gpu-report"], GPUReportHandler); (["metrics"], MetricsHandler)].

Definition proxy_routes : list (list string * Endpoint) :=
  [(["healthz"], Healthz); (["v1"; "chat"; "completions"], ChatCompletions);
   (["api"; "v1"; "control"; "pressure"], Pressure); (["api"; "v1"; "control"; "worker-stats"], WorkerStats)].

Definition webhook_routes : list (list string * Endpoint) := [(["mutate"], Mutate)].

Definition serves (route : string → list string → option (Endpoint * list (string * string))) (m : Mux) : Prop :=
  ∀ method path, method ≠ "CONNECT" →
    ServeHTTP method path m =
      if String.eqb (clean_path path) path
      then match route method (path_elements path) with Some (h, values) => Handled h values | None => NotFound end
      else Redirected (clean_path path).

Definition spelled (routes : list (list string * Endpoint)) (method : string) (xs : list string) :
    option (Endpoint * list (string * string)) := (λ h, (h, [])) <$> literal_route xs routes.

Lemma literal_serves routes :
  NoDup (fst <$> routes) → Forall (λ r, last r.1 ≠ Some "/") routes → serves (spelled routes) (literal_table routes).
Proof.
  intros Hnd Hl method path Hm. rewrite literal_mux by done. destruct (String.eqb _ _); [|done].
  unfold spelled. by destruct (literal_route _ _).
Qed.

(** C39: which handler serves which request.  The tables of the scheduler's two
    modes, of the webhook and of the proxy register without a conflict.  A path
    that is not clean is redirected to the clean one; a clean one reaches, for
    every method, the one handler of the specification: in standalone mode the
    spelled paths their own, the logs of a pod [PodLogsHandler] with its namespace
    and name for a read, any other path below the pods the deletion handler, and
    all the rest the page; elsewhere the spelled paths only. *)
Theorem routes_exact :
  (∃ m, standalone_mux = Done m ∧ serves (λ method xs, Some (standalone_route method xs)) m) ∧
  (∃ m, webhook_mux = Done m ∧ serves (spelled webhook_routes) m) ∧
  (∃ m, extender_mux = Done m ∧ serves (spelled extender_routes) m) ∧
  (∃ m, proxy_mux = Done m ∧ serves (spelled proxy_routes) m).
Proof.
  split.
  { exists standalone_table. split; [vm_compute; reflexivity|]. intros method path Hm. unfold ServeHTTP.
    rewrite (proj2 (String.eqb_neq method "CONNECT") Hm). cbn [negb andb].
    pose proof (standalone_found method _ (cleaned_elements path)) as Hf. unfold found_route in Hf.
    destruct (most_specific _) as [[[p h] values]|]; [|done]. injection Hf as Hf.
    destruct (String.eqb_spec (clean_path path) path) as [Ec|Ec]; cbn [negb]; [|done].
    rewrite Ec in Hf. by rewrite <-Hf. }
  assert (∀ routes o, o = Done (literal_table routes) → bool_decide (NoDup (fst <$> routes)) = true →
    Forall (λ r, last r.1 ≠ Some "/") routes → ∃ m, o = Done m ∧ serves (spelled routes) m) as Hlit.
  { intros routes o -> Hnd Hl. exists (literal_table routes). split; [done|].
    apply literal_serves; [by apply (bool_decide_eq_true_1 _)|done]. }
  split_and!; apply Hlit; try (vm_compute; reflexivity); by repeat constructor.
Qed.

(** ** The requests of the components *)

(** The path of a URL. *)
Definition request_path (url : string) : string :=
  match strip_prefix "http://" url with
  | None => ""
  | Some rest =>
      match split_on "/" (default "" (head (split_on "?" rest))) with
      | _ :: p :: parts => "/" ++ join "/" (p :: parts)
      | _ => "/"
      end
  end.

(** A host with its port. *)
Definition authority (s : string) : Prop := str_mem "/" s = false ∧ str_mem "?" s = false.

Lemma path_after_authority auth p :
  str_mem "/" auth = false →
  match split_on "/" (auth ++ String "/" p) with _ :: q :: parts => "/" ++ join "/" (q :: parts) | _ => "/" end = "/" ++ p.
Proof.
  intros Ha. rewrite split_on_app by done. destruct (split_on "/" p) as [|w ws] eqn:E; [by apply split_on_nonempty in E|].
  by rewrite <-E, join_split.
Qed.

Lemma request_path_of auth p rest :
  authority auth → str_mem "?" p = false → rest = "" ∨ (∃ q, rest = String "?" q) →
  request_path ("http://" ++ auth ++ String "/" p ++ rest) = "/" ++ p.
Proof.
  intros [Ha Hq] Hp Hr. unfold request_path. rewrite (proj2 (strip_prefix_spec _ _ _) eq_refl).
  assert (str_mem "?" (auth ++ String "/" p) = false) as Hm by (rewrite str_mem_app, Hq; exact Hp).
  assert (default "" (head (split_on "?" (auth ++ String "/" p ++ rest))) = auth ++ String "/" p) as ->.
  { change (String "/" p ++ rest) with (String "/" (p ++ rest)).
    assert (auth ++ String "/" (p ++ rest) = (auth ++ String "/" p) ++ rest) as -> by (rewrite <-str_app_assoc; done).
    destruct Hr as [->|[q ->]]; [by rewrite str_app_nil_r, split_on_free|by rewrite split_on_app]. }
  by apply path_after_authority.
Qed.

Definition to_path (path : string) (m : outcome Mux) (method : string) : served Endpoint :=
  ServeHTTP method path (the_mux m).

(** Every request that one process makes of another reaches its handler: the
    report of an agent, the proxy's question for the workers, and the dashboard's
    and the scheduler's questions to the proxy. *)
Theorem requests_reach cfg auth query :
  authority auth → 0 ≤ pc_Port (cfg_ProxyConfig cfg) →
  let base := "http://" ++ auth in
  to_path (request_path (base ++ "/api/v1/gpu-report")) standalone_mux "POST" = Handled GPUReportHandler [] ∧
  to_path (request_path (base ++ "/api/v1/gpu-report")) extender_mux "POST" = Handled GPUReportHandler [] ∧
  to_path (request_path (base ++ "/api/v1/control/workers")) standalone_mux "GET" = Handled WorkersHandler [] ∧
  to_path (request_path (control_url cfg "/api/v1/control/pressure" query)) proxy_mux "GET" = Handled Pressure [] ∧
  to_path (request_path (control_url cfg "/api/v1/control/worker-stats" query)) proxy_mux "GET" = Handled WorkerStats [].
Proof.
  intros Ha Hport. cbv zeta.
  assert (∀ p, str_mem "?" p = false → request_path (("http://" ++ auth) ++ String "/" p) = "/" ++ p) as Hbase.
  { intros p Hp. rewrite <-str_app_assoc. rewrite <-(str_app_nil_r (String "/" p)). apply request_path_of; [done..|by left]. }
  assert (∀ p, str_mem "?" p = false → request_path (control_url cfg (String "/" p) query) = "/" ++ p) as Hctl.
  { intros p Hp. unfold control_url.
    assert (authority ("127.0.0.1:" ++ itoa (pc_Port (cfg_ProxyConfig cfg)))) as Hauth.
    { split; rewrite str_mem_app; [by rewrite itoa_no_slash|by rewrite itoa_free]. }
    assert (∀ rest, "http://127.0.0.1:" ++ itoa (pc_Port (cfg_ProxyConfig cfg)) ++ String "/" p ++ rest =
      "http://" ++ ("127.0.0.1:" ++ itoa (pc_Port (cfg_ProxyConfig cfg))) ++ String "/" p ++ rest) as Hsplit
      by (intros rest; by rewrite <-!str_app_assoc).
    destruct (String.eqb query ""); cbn [negb].
    - rewrite <-(str_app_nil_r (String "/" p)), Hsplit. apply request_path_of; [done..|by left].
    - rewrite <-!str_app_assoc. change ("?" ++ query) with (String "?" query). rewrite Hsplit.
      apply request_path_of; [done..|right; by eexists]. }
  split_and!; rewrite ?Hbase, ?Hctl by done; vm_compute; reflexivity.
Qed.

(** ** Findings *)

(** A scheduler URL that ends in a slash: the report is redirected, the client
    follows with a GET, and the endpoint refuses it. *)
Lemma trailing_slash_loses_reports {W} auth body now (st : WState W) :
  authority auth →
  to_path (request_path (("http://" ++ auth ++ "/") ++ "/api/v1/gpu-report")) standalone_mux "POST" =
    Redirected "/api/v1/gpu-report" ∧
  gpu_report_handler "GET" body now st = (st, http_error "Method not allowed" StatusMethodNotAllowed no_response).
Proof.
  intros Ha. split; [|done].
  assert (("http://" ++ auth ++ "/") ++ "/api/v1/gpu-report" =
    "http://" ++ auth ++ String "/" "/api/v1/gpu-report" ++ "") as -> by (by rewrite <-!str_app_assoc).
  rewrite request_path_of; [vm_compute; reflexivity|done..|by left].
Qed.

(** The agent's default URL is the proxy's port, which does not serve reports. *)
Lemma default_url_not_found :
  to_path (request_path ("http://localhost:8080" ++ "/api/v1/gpu-report")) proxy_mux "POST" = NotFound.
Proof. vm_compute. reflexivity. Qed.

(** In extender mode nothing serves the workers the proxy asks for. *)
Lemma extender_serves_no_workers :
  to_path (request_path ("http://localhost:8888" ++ "/api/v1/control/workers")) extender_mux "GET" = NotFound.
Proof. vm_compute. reflexivity. Qed.
