(* ===== verification/Devices.v ===== *)
(** * From the admission of a shared pod to the devices it sees

    The webhook gives every container of a shared pod a file; the scheduler writes
    the devices of the pod into an annotation; the kubelet shows the annotation as
    that file.  The kubelet is the class [Kubelet]. *)

From Stdlib Require Import ZArith Lia Ascii String.
From stdpp Require Import base option list strings gmap sorting.
From S2P Require Import Prelude GoFloat GoStrings Types K8s Config Helpers Registry Strategy Binpack.
From S2P Require Import GangMultiPod Routing Allocator GangCollector Preemption Watcher Scenario.
From S2P Require Import Placement Recovery Injector Webhook.
Open Scope string_scope.
Open Scope Z_scope.
Open Scope go_scope.

(** ** The kubelet

    [ReadFile volumes mounts pod path] is what a container with these mounts reads,
    in a pod with these volumes.  A file of a downward API volume that names an
    annotation has the annotation's value; of the mounts above a path the longest
    one holds. *)
Class Kubelet : Type := {
  ReadFile : list item → list item → Pod → string → option string
}.

Definition annotation_field (key : string) : string := "metadata.annotations['" ++ key ++ "']".

(** The volume is the only one of its name, and no mount of another is deeper. *)
Definition only_volume (name : string) (source : VolumeSource) (volumes : list item) : Prop :=
  ∀ source', IVolume name source' ∈ volumes → source' = source.

Definition deepest_mount (name mountPath path : string) (mounts : list item) : Prop :=
  ∀ n m ro, IMount n m ro ∈ mounts → has_prefix path m = true →
    (String.length mountPath ≤ String.length m)%nat → n = name ∧ m = mountPath.

Class KubeletLaws `{Kubelet} : Prop := {
  read_downward volumes mounts pod name mountPath readOnly file key :
    IVolume name (DownwardAPI file (annotation_field key)) ∈ volumes →
    only_volume name (DownwardAPI file (annotation_field key)) volumes →
    IMount name mountPath readOnly ∈ mounts →
    deepest_mount name mountPath (mountPath ++ "/" ++ file) mounts →
    ReadFile volumes mounts pod (mountPath ++ "/" ++ file) = Some (annotation_or_empty pod key)
}.

(** ** The file *)
Definition devices_file : string := gpuInfoMountPath ++ "/assigned-gpus".

(** The pod itself brings no volume of the webhook's name, and no mount there. *)
Definition own_volumes (volumes : list item) : Prop :=
  ∀ source, IVolume gpuInfoVolumeName source ∉ volumes.

Definition own_mounts (mounts : list item) : Prop :=
  ∀ n m ro, IMount n m ro ∈ mounts → has_prefix devices_file m = true →
    (String.length m < String.length gpuInfoMountPath)%nat.

Section devices.
Context `{KubeletLaws}.

Lemma injected_volumes volumes :
  own_volumes volumes →
  only_volume gpuInfoVolumeName (DownwardAPI "assigned-gpus" (annotation_field assignedGPUsAnnotation))
    (volumes ++ [gpuVolume; mpsVolume]).
Proof.
  intros Hown source [Hin|Hin]%elem_of_app; [by destruct (Hown source)|].
  rewrite !elem_of_cons in Hin. destruct Hin as [[= ->]|[[=]|Hin]]; [done|by apply elem_of_nil in Hin].
Qed.

Lemma injected_mounts mounts more :
  own_mounts mounts → more = [] ∨ more = [mpsMount] →
  deepest_mount gpuInfoVolumeName gpuInfoMountPath devices_file (mounts ++ gpu_mount :: more).
Proof.
  intros Hown Hmore n m ro [Hin|[Hin|Hin]%elem_of_cons]%elem_of_app Hpre Hlen.
  - specialize (Hown n m ro Hin Hpre). lia.
  - by injection Hin as -> -> _.
  - destruct Hmore as [-> | ->]; [by apply elem_of_nil in Hin|].
    apply list_elem_of_singleton in Hin as [= -> -> _]. by vm_compute in Hpre.
Qed.

(** A container that got the mount reads the annotation. *)
Lemma read_devices volumes mounts more pod :
  own_volumes volumes → own_mounts mounts → more = [] ∨ more = [mpsMount] →
  ReadFile (volumes ++ [gpuVolume; mpsVolume]) (mounts ++ gpu_mount :: more) pod devices_file =
    Some (annotation_or_empty pod assignedGPUsAnnotation).
Proof.
  intros Hv Hm Hmore. apply (read_downward _ _ pod gpuInfoVolumeName gpuInfoMountPath true "assigned-gpus").
  - apply elem_of_app. right. left.
  - by apply injected_volumes.
  - apply elem_of_app. right. left.
  - by apply injected_mounts.
Qed.
End devices.

(** ** Admission, placement, container *)
Section admitted.
Context `{KubeletLaws} {Doc : Type} `{JSONPatchLaws Doc}.
Context `{GoSort} (strategy : SchedulingStrategy) `{!StrategyLaws strategy}.
Context {W : Type} `{KubeAPI W, PodExecutor W, !KubeStore W} (wc : WatcherConfig).
Implicit Types (st : WState W) (d : Doc).

(** What a placed pod's annotation says. *)
Lemma placed_annotation pod nodeName gpuIDs isMIG :
  gpuIDs ≠ [] → Forall (λ g, str_mem ","%char g = false) gpuIDs →
  split_on "," (annotation_or_empty (set_NodeName nodeName (annotate (placement_annotations gpuIDs isMIG) pod))
    assignedGPUsAnnotation) = gpuIDs.
Proof.
  intros Hne Hids. unfold annotation_or_empty, annotation, set_NodeName, annotate, set_Annotations.
  cbn [pod_Annotations foldr placement_annotations fst snd].
  change assignedGPUsAnnotation with "gpu-scheduler/assigned-gpus". rewrite lookup_insert_eq. cbn [default].
  by apply (split_join ","%char).
Qed.

(** C32: a shared pod's containers see exactly the devices the scheduler tracks for
    it, unless the API server refused the annotations.  The webhook's patch of a
    shared pod that brings no device-info volume of its own applies; when the
    scheduler then has placed the pod, [stored] as the API server holds it after
    the patch, on devices whose identifiers the annotation can carry
    ([plain_entry]), and the annotations of the placement were accepted, every container
    and init container of the patched pod that brings no mount of its own there
    reads, in the file the patch mounts, a list that splits into the identifiers
    of the tracked entries, in their order. *)
Theorem container_reads_its_devices d req pod limit now o jobID stored st :
  ar_Kind req = "Pod" → ar_Pod req = Ok pod → annotation_or_empty pod "gpu-scheduler/shared" = "true" →
  mpsMemoryLimit pod = Done limit → represents d pod → own_volumes (content d "/spec/volumes") →
  Z.of_nat (length (pod_Containers pod)) ≤ int_max → Z.of_nat (length (pod_InitContainers pod)) ≤ int_max →
  registry_wf (w_registry st) → ids_loggable (w_registry st) →
  (∀ i, range_order (reg_nodes (w_registry st)) (o i)) →
  reg_podAllocations (w_registry st) !! key_of stored = None →
  0 ≤ GetGPUMemoryFromPod stored → GetGPUMemoryFromPod stored + gpus_wanted stored ≤ int_max →
  roomy (w_registry st) (demand stored) (gpus_wanted stored) →
  kube_pods (w_api st) !! (pod_Namespace stored, pod_Name stored) = Some stored →
  ∃ patches d' st', mutate (Some req) = Done (mkAdmissionResponse "" true (Some patches)) ∧
    apply_all d patches = Some d' ∧ schedulePod strategy wc now o jobID stored st = Done st' ∧
    ∀ es, reg_podAllocations (w_registry st') !! key_of stored = Some es → Forall plain_entry es →
    marks_refused stored es (w_api st) ∨
    ∃ p', kube_pods (w_api st') !! (pod_Namespace stored, pod_Name stored) = Some p' ∧
    ∀ (init : bool) i c, (if init then pod_InitContainers pod else pod_Containers pod) !! i = Some c →
      own_mounts (content d (mounts_path init i)) →
      ∃ text, ReadFile (content d' "/spec/volumes") (content d' (mounts_path init i)) p' devices_file = Some text ∧
        split_on "," text = ae_GPUUUID <$> es.
Proof.
  intros Hk Hp Hs Hl Hrep Hov Hc1 Hc2 Hwf Hids Ho Hnone Hm0 Hm1 Hroom Hst.
  destruct (mutate_spec d req pod limit) as (patches & d' & Em & Ea & Hvol & Hinit & Hcont); [done..|].
  destruct (schedulePod_step strategy wc now o jobID stored st) as (st' & E & _ & Ht); [done..|].
  exists patches, d', st'. do 3 (split; [done|]). intros es Hes Hplain.
  apply transaction_entries in Ht as [(nodeName & es0 & isMIG & Hlen & Hall & Hb & Hal & _)|(vs & _ & Hal)].
  2: { rewrite Hal, without_untracked in Hes; done. }
  rewrite Hal, lookup_insert_eq in Hes. injection Hes as ->.
  assert (Forall (λ e, ae_IsMIG e = isMIG) es) as Hmig
    by (eapply Forall_impl; [exact Hall|by intros e (_ & _ & ? & _)]).
  destruct (bound_stored _ _ _ _ _ _ Hst Hmig Hb) as [?|Hstored]; [by left|right].
  eexists. split; [exact Hstored|]. intros init i c Hi Hom. eexists. split.
  - rewrite Hvol. destruct init.
    + destruct (Hinit i c Hi) as [_ ->]. apply read_devices; [done..|by left].
    + destruct (Hcont i c Hi) as [[_ ->] _]. apply read_devices; [done..|by right].
  - apply placed_annotation.
    + intros Hnil%fmap_nil_inv. subst es. unfold gpus_wanted in Hlen. cbn in Hlen. lia.
    + apply Forall_fmap. eapply Forall_impl; [exact Hplain|]. by intros e (_ & _ & ?).
Qed.
End admitted.

(** ** A kubelet with this law *)
Definition longer_mount (path : string) (acc : option (string * string)) (x : item) : option (string * string) :=
  match x with
  | IMount n m _ =>
      if has_prefix path m && match acc with Some (_, m') => (String.length m' <? String.length m)%nat | None => true end
      then Some (n, m) else acc
  | _ => acc
  end.

Definition mount_of (mounts : list item) (path : string) : option (string * string) :=
  foldl (longer_mount path) None mounts.

Definition volume_named (name : string) (x : item) : option VolumeSource :=
  match x with IVolume n source => if String.eqb n name then Some source else None | _ => None end.

Definition annotation_at (field : string) (pod : Pod) : string :=
  match List.find (λ kv, String.eqb (annotation_field kv.1) field) (map_to_list (pod_Annotations pod)) with
  | Some kv => kv.2
  | None => ""
  end.

#[export] Instance simple_kubelet : Kubelet := {|
  ReadFile volumes mounts pod path :=
    '(name, m) ← mount_of mounts path;
    source ← head (omap (volume_named name) volumes);
    match source with
    | DownwardAPI file field => if String.eqb path (m ++ "/" ++ file) then Some (annotation_at field pod) else None
    | HostPath _ => None
    end
|}.

Lemma mount_of_spec mounts path acc n m :
  foldl (longer_mount path) acc mounts = Some (n, m) →
  (acc = Some (n, m) ∨ ∃ ro, IMount n m ro ∈ mounts ∧ has_prefix path m = true) ∧
  (∀ n' m', acc = Some (n', m') → (String.length m' ≤ String.length m)%nat) ∧
  (∀ n' m' ro', IMount n' m' ro' ∈ mounts → has_prefix path m' = true → (String.length m' ≤ String.length m)%nat).
Proof.
  revert acc. induction mounts as [|x mounts IH]; intros acc; cbn [foldl].
  { intros ->. split; [by left|]. split; [by intros n' m' [= _ <-]|]. intros n' m' ro' Hin. by apply elem_of_nil in Hin. }
  intros (Hin & Hacc & Hall)%IH. destruct x as [e|v s|a b r]; cbn [longer_mount] in Hin, Hacc;
    try (split_and!; [destruct Hin as [?|(ro & ? & ?)]; [by left|right; exists ro; split; [by right|done]]|done|];
      intros n' m' ro' [?|?]%elem_of_cons Hp; [done|by eapply Hall]).
  destruct (has_prefix path b && _) eqn:Eb.
  - apply andb_true_iff in Eb as [Ep El]. specialize (Hacc a b eq_refl). split; [|split].
    + right. destruct Hin as [[= -> ->]|(ro & ? & ?)]; [exists r; by split; [left|]|exists ro; split; [by right|done]].
    + intros n' m' ->. apply Nat.ltb_lt in El. lia.
    + intros n' m' ro' [[= -> -> ->]|Hm]%elem_of_cons Hp; [done|by eapply Hall].
  - split; [|split; [done|]].
    + destruct Hin as [?|(ro & ? & ?)]; [by left|right; exists ro; split; [by right|done]].
    + intros n' m' ro' [[= -> -> ->]|Hm]%elem_of_cons Hp; [|by eapply Hall]. rewrite Hp in Eb. cbn [andb] in Eb.
      destruct acc as [[n'' m'']|]; [|done]. apply Nat.ltb_ge in Eb. specialize (Hacc n'' m'' eq_refl). lia.
Qed.

Lemma mount_of_some mounts path acc n m ro :
  acc ≠ None ∨ (IMount n m ro ∈ mounts ∧ has_prefix path m = true) → is_Some (foldl (longer_mount path) acc mounts).
Proof.
  revert acc. induction mounts as [|x mounts IH]; intros acc Hor; cbn [foldl].
  { destruct Hor as [Hn|[Hin _]]; [by apply not_eq_None_Some|by apply elem_of_nil in Hin]. }
  apply IH. destruct Hor as [Hn|[[<-|Hin]%elem_of_cons Hp]].
  - left. destruct x; cbn; [done..|]. by case_match.
  - left. cbn [longer_mount]. rewrite Hp. cbn [andb]. destruct acc as [[]|]; [by case_match|done].
  - by right.
Qed.

Lemma annotation_at_field key pod : annotation_at (annotation_field key) pod = annotation_or_empty pod key.
Proof.
  unfold annotation_at, annotation_or_empty, annotation. destruct (List.find _ _) as [[k v]|] eqn:Ef.
  - apply find_some in Ef as [Hin Hk%String.eqb_eq]. cbn [fst snd] in *. unfold annotation_field in Hk.
    apply str_app_inv_l, str_app_inv_r in Hk as ->. apply list_elem_of_In, elem_of_map_to_list in Hin. by rewrite Hin.
  - destruct (pod_Annotations pod !! key) as [v|] eqn:Ek; [|done].
    apply elem_of_map_to_list, list_elem_of_In in Ek.
    pose proof (find_none _ _ Ef _ Ek) as Hn. cbn in Hn. by rewrite String.eqb_refl in Hn.
Qed.

#[export] Instance simple_kubelet_laws : KubeletLaws.
Proof.
  split. intros volumes mounts pod name mountPath readOnly file key Hv Honly Hm Hdeep. cbn.
  assert (has_prefix (mountPath ++ "/" ++ file) mountPath = true) as Hpre by (apply prefix_app; by eexists).
  destruct (mount_of_some mounts (mountPath ++ "/" ++ file) None name mountPath readOnly) as [[n m] E]; [by right|].
  unfold mount_of. rewrite E. apply mount_of_spec in E as ([?|(ro & Hin & Hp)] & _ & Hall); [done|].
  destruct (Hdeep n m ro Hin Hp) as [-> ->]; [by eapply Hall|]. cbn.
  destruct (head (omap (volume_named name) volumes)) as [source|] eqn:Eh.
  - apply head_Some_elem_of in Eh. apply list_elem_of_omap in Eh as (x & Hx & Hn).
    destruct x as [|n source'|]; cbn in Hn; try done. destruct (String.eqb_spec n name) as [->|]; [|done].
    injection Hn as ->. rewrite (Honly source Hx). cbn. by rewrite String.eqb_refl, annotation_at_field.
  - exfalso. apply head_None in Eh. assert (DownwardAPI file (annotation_field key) ∈ omap (volume_named name) volumes) as Hin'.
    { apply list_elem_of_omap. eexists. split; [exact Hv|]. cbn. by rewrite String.eqb_refl. }
    rewrite Eh in Hin'. by apply elem_of_nil in Hin'.
Qed.

(** ** Example: a shared pod on a MIG instance *)
Definition shared_train : Pod :=
  set_Containers [] [mkContainer "main" [] ∅ ∅ []] 
    (sample_pod "ml" "train" [("gpu-scheduler.io/memory-mb", "4000"); ("gpu-scheduler/shared", "true")]).

Definition shared_entry : AllocationEntry := mkAllocationEntry "node-a" "MIG-aaaaaaaaaaaa" 4000 true.

Definition shared_train_doc : SimpleDoc := mkSimpleDoc ∅ {["/spec"; "/spec/containers/0"]} ∅.

Definition shared_train_store : WState StoreCluster :=
  mkWState (mkStore {[("ml", "train") := shared_train]}) sample_registry ∅ [].

Lemma shared_train_represents : represents shared_train_doc shared_train.
Proof.
  split_and!; [done|done|by intros i c|]. intros [|i] c Hc; [|done]. injection Hc as <-.
  split_and!; try done; by intros [q Hq].
Qed.

Lemma shared_train_placed st' :
  schedulePod BinPacker sample_watcher 2000 one_node "job-1" shared_train shared_train_store = Done st' →
  reg_podAllocations (w_registry st') !! "ml/train" = Some [shared_entry].
Proof.
  assert (match schedulePod BinPacker sample_watcher 2000 one_node "job-1" shared_train shared_train_store with
    | Done st' => reg_podAllocations (w_registry st') !! "ml/train" = Some [shared_entry]
    | Panicked => True end) as H by (vm_compute; reflexivity).
  intros E. by rewrite E in H.
Qed.

Lemma shared_train_room : roomy (w_registry shared_train_store) (demand shared_train) (gpus_wanted shared_train).
Proof.
  intros n g. destruct (sample_room [] true true n g) as [E1 E2]. cbn [w_registry shared_train_store sample_state] in *.
  rewrite E1, E2. vm_compute. by split.
Qed.

Lemma container_reads_its_devices_witness :
  ∃ d' st' p', schedulePod BinPacker sample_watcher 2000 one_node "job-1" shared_train shared_train_store = Done st' ∧
    ∃ text, ReadFile (content d' "/spec/volumes") (content d' (mounts_path false 0)) p' devices_file = Some text ∧
      split_on "," text = ["MIG-aaaaaaaaaaaa"].
Proof.
  destruct (container_reads_its_devices BinPacker sample_watcher shared_train_doc
    (mkAdmissionRequest "uid-2" "Pod" "ml" (Ok shared_train)) shared_train "0=4000M" 2000 one_node "job-1"
    shared_train shared_train_store) as (patches & d' & st' & _ & _ & E & Hall);
    [reflexivity|reflexivity|reflexivity|reflexivity|apply shared_train_represents|intros s Hs; exact (not_elem_of_nil _ Hs)
    |vm_compute; discriminate|vm_compute; discriminate
    |apply reachable_wf, sample_registry_reachable|apply sample_loggable|intros i; vm_compute; reflexivity
    |apply lookup_empty|vm_compute; discriminate|vm_compute; discriminate|apply shared_train_room
    |apply lookup_insert_eq|].
  destruct (Hall _ (shared_train_placed st' E) ltac:(by repeat constructor))
    as [(w0 & mig & _ & _ & Hno)|(p' & _ & Hread)]; [by destruct Hno|].
  destruct (Hread false 0%nat _ eq_refl) as (text & Ht & Hs);
    [intros n m ro Hin; destruct (not_elem_of_nil _ Hin)|].
  exists d', st', p'. split; [exact E|]. exists text. split; [exact Ht|exact Hs].
Defined.

(** ** Findings *)

(** A victim's replacement is created from its spec, which the webhook has patched,
    and passes through the webhook again: it is still shared, and then has the
    device-info volume twice, which the API server does not accept. *)
Lemma resumed_shared_pod_has_volume_twice cfg v n (d : SimpleDoc) req limit :
  let q := buildResumePod cfg v n in
  annotation_or_empty (pcd_Pod v) "gpu-scheduler/shared" = "true" →
  ar_Kind req = "Pod" → ar_Pod req = Ok q → mpsMemoryLimit q = Done limit → represents d q →
  Z.of_nat (length (pod_Containers q)) ≤ int_max → Z.of_nat (length (pod_InitContainers q)) ≤ int_max →
  gpuVolume ∈ content d "/spec/volumes" →
  pod_Volumes q = pod_Volumes (pcd_Pod v) ∧
  ∃ patches d' l1 l2 l3, mutate (Some req) = Done (mkAdmissionResponse "" true (Some patches)) ∧
    apply_all d patches = Some d' ∧
    content d' "/spec/volumes" = (l1 ++ gpuVolume :: l2 ++ gpuVolume :: l3)%list.
Proof.
  intros q Hs Hk Hp Hl Hrep Hc1 Hc2 (l1 & l2 & Hin)%list_elem_of_split. split; [done|].
  assert (annotation_or_empty q "gpu-scheduler/shared" = "true") as Hs'.
  { rewrite <-Hs. unfold annotation_or_empty, annotation. f_equal.
    unfold q, buildResumePod, resume_annotations. cbn [pod_Annotations].
    destruct (_ =? -1); by rewrite !lookup_insert_ne, !lookup_delete_ne by done. }
  destruct (mutate_spec d req q limit) as (patches & d' & Em & Ea & Hvol & _); [done..|].
  exists patches, d', l1, l2, [mpsVolume]. split; [done|]. split; [done|].
  by rewrite Hvol, Hin, <-app_assoc.
Qed.
