(* ===== verification/Informers.v ===== *)
(** * The informers: no reservation outlives its pod

    The informer of client-go lists the pods once and then follows the changes of
    the cluster in order; its handlers are those of [NewWatcher].  A run is a run
    of the watcher ([Lifetime]) with the informer's store and the changes it has
    still to hear of.  A handler is one step, after the recovery at the start: the
    code lets the two run side by side. *)

From Stdlib Require Import ZArith Lia Ascii String.
From stdpp Require Import base option list strings gmap sorting.
From S2P Require Import Prelude GoFloat GoStrings Types K8s Config Helpers Registry Strategy Binpack.
From S2P Require Import GangMultiPod Routing Allocator GangCollector Preemption Watcher Scenario.
From S2P Require Import Placement Cycle Recovery Safety Manager Nvml Discoverer Fifo Loader Rebalancer Extender Startup Lifetime.
Open Scope string_scope.
Open Scope Z_scope.
Open Scope go_scope.

(** ** Changes of the cluster *)
Inductive watch_event : Type :=
  | Put (p : Pod)
  | Del (p : Pod).

Definition pod_of (e : watch_event) : Pod := match e with Put p | Del p => p end.

Definition replay1 (c : gmap string Pod) (e : watch_event) : gmap string Pod :=
  match e with
  | Put p => <[key_of p := p]> c
  | Del p => delete (key_of p) c
  end.

Definition replay (c : gmap string Pod) (evs : list watch_event) : gmap string Pod := foldl replay1 c evs.

(** The pods of an API server by key; a listing shows them. *)
Class PodCache (W : Type) `{KubeAPI W} : Type := {
  cluster : W → gmap string Pod;
  cluster_list w w' pods pod :
    ListPods w = (w', Ok pods) → pod ∈ pods → cluster w !! key_of pod = Some pod
}.

Section informers.
Context `{GoSort} (strategy : SchedulingStrategy) `{!StrategyLaws strategy}.
Context {W : Type} `{KubeAPI W, PodExecutor W, !PodCache W} (wc : WatcherConfig).
Implicit Types st : WState W.

(** The handlers: an update of a pod that the store has, or a deletion; no handler
    is registered for a pod that is new. *)
Definition informer_event (e : watch_event) (store : gmap string Pod) st : outcome (WState W) :=
  match store !! key_of (pod_of e) with
  | None => Done st
  | Some _ => match e with Put p => on_update p st | Del p => on_delete p st end
  end.

(** A change keeps the scheduler's name, which cannot be edited. A changed pod of
    this scheduler is assumed to ask for GPUs in a way that [IsGPUPod] sees: the
    handlers skip the others. *)
Definition ours (p : Pod) : Prop := pod_SchedulerName p = wt_schedulerName wc.

Fixpoint valid (c : gmap string Pod) (evs : list watch_event) : Prop :=
  match evs with
  | [] => True
  | e :: evs =>
      (ours (pod_of e) → IsGPUPod (pod_of e) = true) ∧
      (∀ old, c !! key_of (pod_of e) = Some old → pod_SchedulerName (pod_of e) = pod_SchedulerName old) ∧
      valid (replay1 c e) evs
  end.

(** What happens between two moments of the cluster. *)
Definition changed (c c' : gmap string Pod) (evs : list watch_event) : Prop := replay c evs = c' ∧ valid c evs.

Record Informed : Type := mkInformed {
  im_store : gmap string Pod;
  im_queue : list watch_event;
  im_watcher : WState W
}.

Definition handled_by_informer (e : watcher_event W) : bool :=
  match e with EvUpdate _ | EvDelete _ => true | _ => false end.

(** The informer has listed ([c0]) before the watcher recovers from [client]. *)
Inductive informed : Informed → Prop :=
  | informed_start c0 before client st after :
      start_ok wc client → NewWatcher wc client NewRegistry = Done st →
      changed c0 (cluster client) before → changed (cluster client) (cluster (w_api st)) after →
      informed (mkInformed c0 (before ++ after) st)
  | informed_event store queue st e st' evs :
      informed (mkInformed store queue st) → handled_by_informer e = false → event_ok wc st e →
      run_event strategy wc st e = Done st' → changed (cluster (w_api st)) (cluster (w_api st')) evs →
      informed (mkInformed store (queue ++ evs) st')
  | informed_deliver store e queue st st' :
      informed (mkInformed store (e :: queue) st) → informer_event e store st = Done st' →
      informed (mkInformed (replay1 store e) queue st').

(** ** Lemmas *)
Definition ended (p : Pod) : bool := String.eqb (pod_Phase p) PodSucceeded || String.eqb (pod_Phase p) PodFailed.

Definition alive (c : gmap string Pod) (k : string) : Prop :=
  ∃ p, c !! k = Some p ∧ ended p = false ∧ ours p.

(** The delivery of [e] releases the entries of [k]. *)
Definition releases1 (k : string) (c : gmap string Pod) (e : watch_event) : Prop :=
  key_of (pod_of e) = k ∧ is_Some (c !! k) ∧ IsGPUPod (pod_of e) = true ∧
  match e with Put p => ended p = true | Del _ => True end.

Fixpoint releases (k : string) (c : gmap string Pod) (evs : list watch_event) : Prop :=
  match evs with
  | [] => False
  | e :: evs => releases1 k c e ∨ releases k (replay1 c e) evs
  end.

Lemma replay_app c e1 e2 : replay c (e1 ++ e2) = replay (replay c e1) e2.
Proof. unfold replay. by rewrite foldl_app. Qed.

Lemma releases_app k c e1 e2 : releases k c (e1 ++ e2) ↔ releases k c e1 ∨ releases k (replay c e1) e2.
Proof.
  revert c. induction e1 as [|e e1 IH]; intros c; cbn [app releases]; [naive_solver|].
  rewrite IH. cbn. naive_solver.
Qed.

(** A pod that stops being alive is released by one of the changes. *)
Lemma loss_releases k c evs : valid c evs → alive c k → alive (replay c evs) k ∨ releases k c evs.
Proof.
  revert c. induction evs as [|e evs IH]; intros c; [by left|]. intros (Hgpu & Hname & Hv) (p & Hp & Hend & Hours).
  cbn [replay foldl releases]. destruct (decide (key_of (pod_of e) = k)) as [Hk|Hk].
  - assert (ours (pod_of e)) as Ho by (unfold ours; rewrite Hk in Hname; by rewrite (Hname p Hp)).
    destruct e as [q|q]; cbn [pod_of] in *.
    + destruct (ended q) eqn:Eq; [right; left; split_and!; [done|by eexists|by apply Hgpu|done]|].
      destruct (IH _ Hv) as [?|?]; [|by left|by right; right].
      exists q. cbn. rewrite <-Hk, lookup_insert_eq. by split_and!.
    + right. left. split_and!; [done|by eexists|by apply Hgpu|done].
  - destruct (IH _ Hv) as [?|?]; [|by left|by right; right].
    exists p. split; [|done]. destruct e; cbn [replay1 pod_of] in *; by rewrite ?lookup_insert_ne, ?lookup_delete_ne.
Qed.

(** What is tracked is alive, or will be released by a change still to come. *)
Definition accounted (s : Informed) : Prop :=
  watcher_reachable strategy wc (im_watcher s) ∧
  replay (im_store s) (im_queue s) = cluster (w_api (im_watcher s)) ∧
  ∀ k, is_Some (reg_podAllocations (w_registry (im_watcher s)) !! k) →
    alive (cluster (w_api (im_watcher s))) k ∨ releases k (im_store s) (im_queue s).

(** The cluster moves on and the queue with it. *)
Lemma accounted_changed store queue c st evs :
  watcher_reachable strategy wc st → replay store queue = c → changed c (cluster (w_api st)) evs →
  (∀ k, is_Some (reg_podAllocations (w_registry st) !! k) → alive c k ∨ releases k store queue) →
  accounted (mkInformed store (queue ++ evs) st).
Proof.
  intros Hr Hc [Hrep Hv] Hall. split; [done|]. cbn [im_store im_queue im_watcher]. split.
  - by rewrite replay_app, Hc.
  - intros k Hk. rewrite releases_app, Hc. destruct (Hall k Hk) as [Ha|Ha]; [|by right; left].
    destruct (loss_releases k c evs Hv Ha) as [?|?]; [left; by rewrite <-Hrep|by right; right].
Qed.

Lemma handler_result e store st :
  registry_wf (w_registry st) →
  ∃ st', informer_event e store st = Done st' ∧ w_api st' = w_api st ∧
    (∀ k, is_Some (reg_podAllocations (w_registry st') !! k) → is_Some (reg_podAllocations (w_registry st) !! k)) ∧
    (∀ k, releases1 k store e → reg_podAllocations (w_registry st') !! k = None).
Proof.
  intros Hwf. unfold informer_event, releases1.
  destruct (store !! key_of (pod_of e)) as [old|] eqn:Es.
  2: { exists st. split_and!; try done. intros k (<- & [x Hx] & _). congruence. }
  destruct (release_spec (pod_of e) st Hwf) as (r' & E & _ & Hal).
  assert (∀ k, is_Some (delete (key_of (pod_of e)) (reg_podAllocations (w_registry st)) !! k) →
    is_Some (reg_podAllocations (w_registry st) !! k)) as Hsub by (intros k [x [_ Hx]%lookup_delete_Some]; by eexists).
  destruct e as [p|p]; cbn [pod_of] in *; unfold on_update, on_delete; destruct (IsGPUPod p) eqn:Eg; cbn [negb].
  - fold (ended p). destruct (ended p) eqn:Ee; rewrite ?E.
    + eexists. split_and!; [done|done|by cbn; rewrite Hal|]. intros k (<- & _). cbn. rewrite Hal. apply lookup_delete_eq.
    + exists st. split_and!; try done. by intros k (_ & _ & _ & ?).
  - exists st. split_and!; try done. by intros k (_ & _ & ? & _).
  - rewrite E. eexists. split_and!; [done|done|by cbn; rewrite Hal|]. intros k (<- & _). cbn. rewrite Hal. apply lookup_delete_eq.
  - exists st. split_and!; try done. by intros k (_ & _ & ? & _).
Qed.

Lemma pending_alive st w pods p :
  ListPods (w_api st) = (w, Ok pods) → p ∈ List.filter (is_pending wc) pods → alive (cluster (w_api st)) (key_of p).
Proof.
  intros Hl Hin. apply list_elem_of_In, filter_In in Hin as [Hin%list_elem_of_In Hp].
  unfold is_pending in Hp. bool_hyps. exists p. split; [by eapply cluster_list|]. split; [|done].
  unfold ended. by replace (pod_Phase p) with PodPending.
Qed.

(** What the watcher tracks after an event was tracked before or is alive. *)
Lemma event_tracks e st st' :
  watcher_reachable strategy wc st → handled_by_informer e = false → event_ok wc st e →
  run_event strategy wc st e = Done st' →
  ∀ k, is_Some (reg_podAllocations (w_registry st') !! k) →
    is_Some (reg_podAllocations (w_registry st) !! k) ∨ alive (cluster (w_api st)) k.
Proof.
  intros Hr Hi Hok Hrun k Hk. apply watcher_reachable_inv in Hr; [|apply _]. destruct Hr as [Hwf Hids].
  destruct e as [now report|now|pod|pod|w|o]; cbn in Hi, Hok, Hrun; try done; try (injection Hrun as <-; by left).
  destruct Hok as [Ho Hc]. destruct (ListPods (w_api st)) as [w [listed|err]] eqn:El.
  - destruct (Hc w listed eq_refl) as [Hs Hg].
    destruct (processQueue_keeps strategy wc o st w listed El Hwf Hids Hs Ho Hg) as (st1 & E & _ & [Hch _]).
    assert (st1 = st') as -> by congruence. destruct (Hch k Hk) as [Ek|(p & Hp & <-)].
    + left. by rewrite <-Ek.
    + right. by eapply pending_alive.
  - unfold processQueue in Hrun. rewrite El in Hrun. injection Hrun as <-. by left.
Qed.

Lemma recovered_alive client w pods st k :
  ListPods client = (w, Ok pods) → recoverable wc pods → NewWatcher wc client NewRegistry = Done st →
  is_Some (reg_podAllocations (w_registry st) !! k) → alive (cluster client) k.
Proof.
  intros Hl Hrec Hst [es Hes]. destruct (reconcile_spec wc (mkWState client NewRegistry ∅ []) w pods Hl eq_refl Hrec)
    as (r & E & _ & Hal). unfold NewWatcher in Hst. rewrite E in Hst. injection Hst as <-.
  apply Hal in Hes as (p & Hp & <- & Hr). exists p. split; [by eapply cluster_list|].
  unfold recovered_entries in Hr. destruct (_ && _) eqn:Eb in Hr; [|done]. bool_hyps. split; [|done].
  unfold ended. by replace (pod_Phase p) with PodRunning.
Qed.

Lemma informed_accounted s : informed s → accounted s.
Proof.
  induction 1 as [c0 before client st after Hs Hst [Hb _] Ha|store queue st e st' evs _ IH Hi Hok Hrun Hch
    |store e queue st st' _ IH Hdel].
  - apply (accounted_changed c0 before (cluster client)); [by eapply watcher_start|done|done|].
    intros k Hk. left. destruct (ListPods client) as [w [pods|err]] eqn:El.
    + by eapply recovered_alive; [exact El|exact (Hs w pods El)|..].
    + unfold NewWatcher, reconcileExistingPods in Hst. cbn [w_api] in Hst. rewrite El in Hst.
      injection Hst as <-. cbn in Hk. rewrite lookup_empty in Hk. by destruct Hk.
  - destruct IH as (Hr & Hrep & Hall). cbn [im_store im_queue im_watcher] in *.
    apply (accounted_changed store queue (cluster (w_api st))); [by eapply watcher_next|done|done|].
    intros k Hk. destruct (event_tracks e st st' Hr Hi Hok Hrun k Hk) as [Hk'|?]; [by apply Hall|by left].
  - destruct IH as (Hr & Hrep & Hall). cbn [im_store im_queue im_watcher] in *.
    pose proof (watcher_reachable_inv strategy wc _ Hr) as [Hwf _].
    destruct (handler_result e store st Hwf) as (st1 & E & Hapi & Hsub & Hrel).
    assert (st1 = st') as -> by congruence. split; [|split].
    + cbn. unfold informer_event in Hdel. destruct (store !! _); [|by injection Hdel as <-].
      destruct e as [q|q]; [by apply (watcher_next strategy wc st (EvUpdate q))|by apply (watcher_next strategy wc st (EvDelete q))].
    + cbn. by rewrite Hapi.
    + cbn [im_store im_queue im_watcher]. rewrite Hapi. intros k Hk. destruct (Hall k (Hsub k Hk)) as [?|[Hn|?]]; [by left| |by right].
      rewrite (Hrel k Hn) in Hk. by destruct Hk.
Qed.

(** C3: no reservation outlives its pod, as long as the pods of this scheduler are
    recognised.  In every run in which the informer has listed the pods when the
    watcher recovers (otherwise a reservation may stay, [late_listing_leaks]),
    whatever reports, cycles and evictions happen in between, and whatever others
    change, provided that they rename no scheduler of a pod and that every changed
    pod of this scheduler has an annotation or a limit by which [IsGPUPod] knows it
    (the handlers skip any other, and its reservation stays, [non_gpu_pod_leaks]):
    once the informer has delivered all changes, every pod the registry tracks is
    in the cluster, has not ended and is a pod of this scheduler. A cycle, a
    handler and the recovery each happen in one step. *)
Theorem reservations_end_with_pods store st k :
  informed (mkInformed store [] st) → is_Some (reg_podAllocations (w_registry st) !! k) →
  ∃ p, cluster (w_api st) !! k = Some p ∧ ended p = false ∧ pod_SchedulerName p = wt_schedulerName wc.
Proof. intros (_ & _ & Hall)%informed_accounted Hk. by destruct (Hall k Hk) as [?|[]]. Qed.
End informers.

(** ** A cluster to run it on *)
Record CacheCluster : Type := mkCache { cc_pods : gmap string Pod }.

Definition under_key (kp : string * Pod) : bool := String.eqb (key_of kp.2) kp.1.

#[export] Instance cache_api : KubeAPI CacheCluster := {|
  ListPods w := (w, Ok (List.filter under_key (map_to_list (cc_pods w))).*2);
  PatchAnnotations w ns name kvs := (mkCache (alter (annotate kvs) (pod_key ns name) (cc_pods w)), None);
  BindPod w ns name node := (mkCache (alter (set_NodeName node) (pod_key ns name) (cc_pods w)), None)
|}.

#[export] Instance cache_executor : PodExecutor CacheCluster := {|
  ExecInPod w _ _ _ _ := (w, None);
  DeletePod w ns name _ := (mkCache (delete (pod_key ns name) (cc_pods w)), None);
  CreatePod w p := (mkCache (<[key_of p := p]> (cc_pods w)), Ok p)
|}.

#[export] Instance cache_cluster : PodCache CacheCluster.
Proof.
  refine {| cluster := cc_pods |}. intros w w' pods pod [= <- <-] ([k p] & -> & Hin)%list_elem_of_fmap.
  apply list_elem_of_In, filter_In in Hin as [Hin%list_elem_of_In%elem_of_map_to_list Hk%String.eqb_eq].
  cbn in *. by subst k.
Defined.

Definition train_cache : CacheCluster := mkCache {["ml/train" := running_train]}.

Definition recovered_train : WState CacheCluster :=
  match NewWatcher sample_watcher train_cache NewRegistry with
  | Done st => st
  | Panicked => mkWState train_cache NewRegistry ∅ []
  end.

Lemma train_cache_listed : ListPods train_cache = (train_cache, Ok [running_train]).
Proof. vm_compute. reflexivity. Qed.

Lemma train_start : start_ok sample_watcher train_cache.
Proof. intros w pods E. rewrite train_cache_listed in E. injection E as <- <-. exact train_recoverable. Qed.

Lemma train_recovered : NewWatcher sample_watcher train_cache NewRegistry = Done recovered_train.
Proof. vm_compute. reflexivity. Qed.

Lemma train_informed : informed BinPacker sample_watcher (mkInformed (cc_pods train_cache) [] recovered_train).
Proof.
  apply (informed_start BinPacker sample_watcher (cc_pods train_cache) [] train_cache recovered_train []);
    [exact train_start|exact train_recovered|by split|split; [vm_compute; reflexivity|done]].
Qed.

(** The pod is edited and the informer hears of it. *)
Definition noted_train : Pod := annotate [("note", "seen")] running_train.
Definition noted_cache : CacheCluster := mkCache {["ml/train" := noted_train]}.

Lemma noted_informed :
  informed BinPacker sample_watcher (mkInformed {["ml/train" := noted_train]} [] (set_api noted_cache recovered_train)).
Proof.
  refine (informed_deliver BinPacker sample_watcher (cc_pods train_cache) (Put noted_train) []
    (set_api noted_cache recovered_train) _ _ _); [|vm_compute; reflexivity].
  apply (informed_event BinPacker sample_watcher (cc_pods train_cache) [] recovered_train (EvApi noted_cache) _ [Put noted_train]);
    [exact train_informed|done|done|reflexivity|].
  split; [vm_compute; reflexivity|]. split; [by vm_compute|]. split; [|done]. intros old Hold.
  assert (Some old = Some running_train) as Eo by (rewrite <-Hold; vm_compute; reflexivity).
  apply (inj Some) in Eo as ->. vm_compute. reflexivity.
Qed.

Lemma reservations_end_with_pods_witness :
  ∃ p, noted_cache.(cc_pods) !! "ml/train" = Some p ∧ ended p = false ∧ pod_SchedulerName p = "gpu-scheduler".
Proof.
  apply (reservations_end_with_pods BinPacker sample_watcher {["ml/train" := noted_train]}
    (set_api noted_cache recovered_train) "ml/train" noted_informed).
  vm_compute. by eexists.
Defined.

(** ** Finding *)

(** The informer must have listed before the recovery: nothing waits for that.  A
    pod recovered, then deleted, then missing in the first listing keeps its
    reservation whatever the informer delivers. *)
Lemma late_listing_leaks :
  let gone := set_api (mkCache ∅) recovered_train in
  run_event BinPacker sample_watcher recovered_train (EvApi (mkCache ∅)) = Done gone ∧
  reg_podAllocations (w_registry gone) !! "ml/train" = Some [train_entry] ∧
  cluster (w_api gone) = ∅ ∧ ∀ e, informer_event e (cluster (w_api gone)) gone = Done gone.
Proof. split; [reflexivity|]. split; [vm_compute; reflexivity|]. by split. Qed.
